(** * alpha-lab: the numerical estimators and position bookkeeping of the
    strategy scripts

    Three scripts are embedded here, each as the record of the attributes
    of its algorithm object and one function per method:

    - [Entropy]: strategies/entropy-regime-detector/main.py
    - [Fractal]: strategies/fractal-dimension-breakout/main.py
    - [VPIN]:    strategies/vpin-toxicity-detector/main.py

    Number model.  The scripts compute on binary64 floats.  In [Entropy],
    [Fractal] and [VPIN] every float is a real number and the arithmetic
    is exact ([R] of the Standard Library, [ln] and [sqrt] for numpy's log
    and sqrt): these modules are the scripts in exact arithmetic, without
    rounding, infinities or NaN.  Where a property turns on rounding, the
    lines in question are embedded a second time on binary64 ([VPIN64],
    [Entropy64]), and the statements say which of the two they are about.
    Share counts and bar counters are integers ([Z]), lengths and lags
    are [nat]. *)

From Stdlib Require Floats.
From Stdlib Require Import Reals Lra Lia List ZArith Bool Permutation.
Import ListNotations.

Set Implicit Arguments.

(** ** Python values and containers *)

Module Py.

Class EqDec (K : Type) := eq_dec : forall x y : K, {x = y} + {x <> y}.

#[export] Instance nat_EqDec : EqDec nat := Nat.eq_dec.
#[export] Instance list_EqDec {K} `{EqDec K} : EqDec (list K) :=
  list_eq_dec eq_dec.

(** [l[-k:]]: the last [k] items, and the whole list for [k = 0]
    (since [-0] is [0]). *)
Definition last_items {A} (k : nat) (l : list A) : list A :=
  if (k =? 0)%nat then l else skipn (length l - k) l.

(** [l[:-1]] *)
Definition but_last {A} (l : list A) : list A := firstn (length l - 1) l.

(** [l[-k]] for [1 <= k <= len(l)]; [None] stands for IndexError. *)
Definition from_end {A} (k : nat) (l : list A) : option A :=
  if ((k =? 0) || (length l <? k))%nat then None
  else nth_error l (length l - k).

(** Comparisons of floats, as the conditions of [if] and [while] *)
Definition Rltb (x y : R) : bool := if Rlt_dec x y then true else false.
Definition Rleb (x y : R) : bool := if Rle_dec x y then true else false.
Definition Reqb (x y : R) : bool := if Req_dec_T x y then true else false.

Notation "x <? y" := (Rltb x y) : R_scope.
Notation "x <=? y" := (Rleb x y) : R_scope.
Notation "x >? y" := (Rltb y x) (only parsing) : R_scope.
Notation "x >=? y" := (Rleb y x) (only parsing) : R_scope.
Notation "x =? y" := (Reqb x y) : R_scope.

(** [int(x)] on a float: truncation toward zero. *)
Definition int (x : R) : Z :=
  if (0 <=? x)%R then Int_part x else (- Int_part (- x))%Z.

(** [sorted(l, key=key)].  Python's sort is stable and compares keys
    with [<] only; on a total order that fixes the result, which the
    stable insertion sort below computes. *)
Fixpoint insert_by {A} (key : A -> R) (x : A) (l : list A) : list A :=
  match l with
  | [] => [x]
  | y :: l' =>
      if (key y <? key x)%R then y :: insert_by key x l'
      else x :: y :: l'
  end.

Definition sorted {A} (key : A -> R) (l : list A) : list A :=
  fold_right (insert_by key) [] l.

(** *** dict: insertion-ordered association list *)
Section Dict.
Context {K V : Type} `{EqDec K}.

Definition dict := list (K * V).

Fixpoint get (d : dict) (k : K) : option V :=
  match d with
  | [] => None
  | (k', v) :: d' => if eq_dec k k' then Some v else get d' k
  end.

(** [d.get(k, default)] *)
Definition get_default (d : dict) (k : K) (default : V) : V :=
  match get d k with Some v => v | None => default end.

(** [k in d] *)
Definition contains (d : dict) (k : K) : bool :=
  match get d k with Some _ => true | None => false end.

(** [d[k] = v]: an existing key keeps its place, a new one goes last. *)
Fixpoint set (d : dict) (k : K) (v : V) : dict :=
  match d with
  | [] => [(k, v)]
  | (k', v') :: d' =>
      if eq_dec k k' then (k', v) :: d' else (k', v') :: set d' k v
  end.

(** [del d[k]] (the callers test [k in d] first where it may be absent) *)
Fixpoint del (d : dict) (k : K) : dict :=
  match d with
  | [] => []
  | (k', v') :: d' =>
      if eq_dec k k' then del d' k else (k', v') :: del d' k
  end.

Definition keys (d : dict) : list K := map fst d.
Definition values (d : dict) : list V := map snd d.
End Dict.
Arguments dict : clear implicits.

(** *** collections.deque(maxlen=n) *)
Record deque (A : Type) := Deque { maxlen : nat; items : list A }.

(** [d.append(x)]: when the deque is full the item at the left end is
    dropped (and a deque of capacity 0 stays empty). *)
Definition append {A} (d : deque A) (x : A) : deque A :=
  let l := items d ++ [x] in
  Deque (maxlen d) (skipn (length l - maxlen d) l).

Definition len {A} (d : deque A) : nat := length (items d).

End Py.

(** ** numpy, math and scipy.stats on real numbers *)

Module Np.

Definition sum (l : list R) : R := fold_right Rplus 0%R l.

(** [np.mean] *)
Definition mean (l : list R) : R := (sum l / INR (length l))%R.

(** [np.diff] *)
Fixpoint diff (l : list R) : list R :=
  match l with
  | x :: ((y :: _) as l') => (y - x)%R :: diff l'
  | _ => []
  end.

(** [np.cumsum], started from [acc] *)
Fixpoint cumsum_from (acc : R) (l : list R) : list R :=
  match l with
  | [] => []
  | x :: l' => (acc + x)%R :: cumsum_from (acc + x) l'
  end.

Definition cumsum (l : list R) : list R := cumsum_from 0 l.

(** [np.max] and [np.min] of a non-empty array *)
Definition max (l : list R) : R :=
  match l with [] => 0%R | x :: l' => fold_left Rmax l' x end.

Definition min (l : list R) : R :=
  match l with [] => 0%R | x :: l' => fold_left Rmin l' x end.

(** [np.std(l, ddof=ddof)] *)
Definition std (ddof : nat) (l : list R) : R :=
  let mu := mean l in
  sqrt (sum (map (fun x => (x - mu) * (x - mu))%R l)
        / (INR (length l) - INR ddof)).

(** [math.log2] *)
Definition log2 (x : R) : R := (ln x / ln 2)%R.

(** The slope returned by [scipy.stats.linregress(x, y)]: the covariance
    of [x] and [y] over the variance of [x]. *)
Definition linregress_slope (xs ys : list R) : R :=
  let xm := mean xs in
  let ym := mean ys in
  let ssxm := mean (map (fun x => (x - xm) * (x - xm))%R xs) in
  let ssxym :=
    mean (map (fun xy => (fst xy - xm) * (snd xy - ym))%R (combine xs ys)) in
  (ssxym / ssxm)%R.

End Np.

(** ** Callbacks: state and exceptions

    A method that changes attributes of the algorithm object, or may
    raise, is a function from the object to a result and the object as the
    method left it.  A raised exception carries the source line of the
    statement that raised it. *)

Module Run.

(** [ArithmeticError] stands for a division by zero whose Python class
    depends on the operand types: ZeroDivisionError on Python floats, and
    on numpy floats an infinite quotient that [int] rejects with
    OverflowError. *)
Inductive Exn :=
  ZeroDivisionError | ArithmeticError | KeyError | IndexError | TypeError
  | ValueError.

Inductive result (A : Type) :=
| Ok (a : A)
| Raise (e : Exn) (line : nat).
Arguments Raise {A} e line.

Definition M (S A : Type) : Type := S -> result A * S.

Definition ret {S A} (a : A) : M S A := fun s => (Ok a, s).

Definition bind {S A B} (c : M S A) (k : A -> M S B) : M S B :=
  fun s =>
    match c s with
    | (Ok a, s') => k a s'
    | (Raise e line, s') => (Raise e line, s')
    end.

Definition gets {S A} (f : S -> A) : M S A := fun s => (Ok (f s), s).

Definition modify {S} (f : S -> S) : M S unit := fun s => (Ok tt, f s).

Definition raise {S A} (e : Exn) (line : nat) : M S A :=
  fun s => (Raise e line, s).

(** [o] if it holds a value, else the exception [e] at [line] *)
Definition check {S A} (e : Exn) (line : nat) (o : option A) : M S A :=
  match o with Some a => ret a | None => raise e line end.

Declare Scope run_scope.
Delimit Scope run_scope with run.
Notation "x <- c ;; k" := (bind c (fun x => k))
  (at level 61, c at next level, right associativity) : run_scope.
Notation "c ;; k" := (bind c (fun _ => k))
  (at level 61, right associativity) : run_scope.
Notation "' pat <- c ;; k" := (bind c (fun x => match x with pat => k end))
  (at level 61, pat pattern, c at next level, right associativity) : run_scope.

(** [for x in l: body(x)]; a [continue] is the body returning early. *)
Fixpoint for_each {S X} (l : list X) (body : X -> M S unit) : M S unit :=
  match l with
  | [] => ret tt
  | x :: l' => bind (body x) (fun _ => for_each l' body)
  end.

(** a [for] loop that also updates a local variable [acc] *)
Fixpoint for_fold {S X A} (l : list X) (acc : A) (body : A -> X -> M S A)
  : M S A :=
  match l with
  | [] => ret acc
  | x :: l' => bind (body acc x) (fun acc' => for_fold l' acc' body)
  end.

End Run.

(** ** The engine side of the algorithm object

    The base class (portfolio, prices, clock, orders) belongs to the
    backtesting engine, not to this repository.  Its attributes that the
    scripts read are kept in [QCAlgorithm]; a market order is taken to
    fill at once and in full, and [Liquidate] to flatten the position.
    [Debug] only logs and is left out. *)

Module Engine.

Inductive Symbol := SPY | QQQ | IWM | TLT.

#[export] Instance Symbol_EqDec : Py.EqDec Symbol.
Proof. intros x y; unfold Py.EqDec; decide equality. Defined.

(** [BarSymbol] is [bar.Symbol]. *)
Record TradeBar := { BarSymbol : Symbol; Close : R; Volume : R }.

(** [data] as handed to OnData: [data.Bars] *)
Record Slice := { Bars : Py.dict Symbol TradeBar }.

Record QCAlgorithm := {
  IsWarmingUp : bool;
  Time : R;                        (* seconds *)
  Quantity : Symbol -> Z;          (* Portfolio[symbol].Quantity *)
  Price : Symbol -> R;             (* Securities[symbol].Price *)
  TotalPortfolioValue : R
}.

Definition fill (q : QCAlgorithm) (symbol : Symbol) (shares : Z) : QCAlgorithm :=
  {| IsWarmingUp := IsWarmingUp q;
     Time := Time q;
     Quantity := fun s =>
       if Py.eq_dec s symbol then (Quantity q s + shares)%Z else Quantity q s;
     Price := Price q;
     TotalPortfolioValue := TotalPortfolioValue q |}.

Definition flatten (q : QCAlgorithm) (symbol : Symbol) : QCAlgorithm :=
  {| IsWarmingUp := IsWarmingUp q;
     Time := Time q;
     Quantity := fun s => if Py.eq_dec s symbol then 0%Z else Quantity q s;
     Price := Price q;
     TotalPortfolioValue := TotalPortfolioValue q |}.

End Engine.

(** ** strategies/entropy-regime-detector/main.py *)

Module Entropy.
Import Py Run Engine.
Local Open Scope R_scope.
Local Open Scope run_scope.

Inductive Regime := trending | chaotic | transitioning.

Inductive Action := BUY | SELL | REDUCE.

Record EntropyRegimeDetector := {
  base : QCAlgorithm;
  embedding_dim : nat;
  tau : nat;
  lookback : nat;
  low_entropy_threshold : R;
  high_entropy_threshold : R;
  price_buffer : dict Symbol (deque R);
  entropy_history : dict Symbol (deque R);
  current_regime : dict Symbol (option Regime);
  regime_confidence : dict Symbol R;
  entry_prices : dict Symbol R;
  stop_losses : dict Symbol R;
  max_position_size : R;
  base_stop_loss : R;
  profit_target : R
}.

Definition with_base (v : QCAlgorithm) (s : EntropyRegimeDetector) :=
  {| base := v; embedding_dim := embedding_dim s; tau := tau s;
     lookback := lookback s;
     low_entropy_threshold := low_entropy_threshold s;
     high_entropy_threshold := high_entropy_threshold s;
     price_buffer := price_buffer s; entropy_history := entropy_history s;
     current_regime := current_regime s;
     regime_confidence := regime_confidence s;
     entry_prices := entry_prices s; stop_losses := stop_losses s;
     max_position_size := max_position_size s;
     base_stop_loss := base_stop_loss s; profit_target := profit_target s |}.

Definition with_price_buffer (v : dict Symbol (deque R)) (s : EntropyRegimeDetector) :=
  {| base := base s; embedding_dim := embedding_dim s; tau := tau s;
     lookback := lookback s;
     low_entropy_threshold := low_entropy_threshold s;
     high_entropy_threshold := high_entropy_threshold s;
     price_buffer := v; entropy_history := entropy_history s;
     current_regime := current_regime s;
     regime_confidence := regime_confidence s;
     entry_prices := entry_prices s; stop_losses := stop_losses s;
     max_position_size := max_position_size s;
     base_stop_loss := base_stop_loss s; profit_target := profit_target s |}.

Definition with_entropy_history (v : dict Symbol (deque R)) (s : EntropyRegimeDetector) :=
  {| base := base s; embedding_dim := embedding_dim s; tau := tau s;
     lookback := lookback s;
     low_entropy_threshold := low_entropy_threshold s;
     high_entropy_threshold := high_entropy_threshold s;
     price_buffer := price_buffer s; entropy_history := v;
     current_regime := current_regime s;
     regime_confidence := regime_confidence s;
     entry_prices := entry_prices s; stop_losses := stop_losses s;
     max_position_size := max_position_size s;
     base_stop_loss := base_stop_loss s; profit_target := profit_target s |}.

Definition with_current_regime (v : dict Symbol (option Regime)) (s : EntropyRegimeDetector) :=
  {| base := base s; embedding_dim := embedding_dim s; tau := tau s;
     lookback := lookback s;
     low_entropy_threshold := low_entropy_threshold s;
     high_entropy_threshold := high_entropy_threshold s;
     price_buffer := price_buffer s; entropy_history := entropy_history s;
     current_regime := v;
     regime_confidence := regime_confidence s;
     entry_prices := entry_prices s; stop_losses := stop_losses s;
     max_position_size := max_position_size s;
     base_stop_loss := base_stop_loss s; profit_target := profit_target s |}.

Definition with_regime_confidence (v : dict Symbol R) (s : EntropyRegimeDetector) :=
  {| base := base s; embedding_dim := embedding_dim s; tau := tau s;
     lookback := lookback s;
     low_entropy_threshold := low_entropy_threshold s;
     high_entropy_threshold := high_entropy_threshold s;
     price_buffer := price_buffer s; entropy_history := entropy_history s;
     current_regime := current_regime s;
     regime_confidence := v;
     entry_prices := entry_prices s; stop_losses := stop_losses s;
     max_position_size := max_position_size s;
     base_stop_loss := base_stop_loss s; profit_target := profit_target s |}.

Definition with_entry_prices (v : dict Symbol R) (s : EntropyRegimeDetector) :=
  {| base := base s; embedding_dim := embedding_dim s; tau := tau s;
     lookback := lookback s;
     low_entropy_threshold := low_entropy_threshold s;
     high_entropy_threshold := high_entropy_threshold s;
     price_buffer := price_buffer s; entropy_history := entropy_history s;
     current_regime := current_regime s;
     regime_confidence := regime_confidence s;
     entry_prices := v; stop_losses := stop_losses s;
     max_position_size := max_position_size s;
     base_stop_loss := base_stop_loss s; profit_target := profit_target s |}.

Definition with_stop_losses (v : dict Symbol R) (s : EntropyRegimeDetector) :=
  {| base := base s; embedding_dim := embedding_dim s; tau := tau s;
     lookback := lookback s;
     low_entropy_threshold := low_entropy_threshold s;
     high_entropy_threshold := high_entropy_threshold s;
     price_buffer := price_buffer s; entropy_history := entropy_history s;
     current_regime := current_regime s;
     regime_confidence := regime_confidence s;
     entry_prices := entry_prices s; stop_losses := v;
     max_position_size := max_position_size s;
     base_stop_loss := base_stop_loss s; profit_target := profit_target s |}.

Definition Method := M EntropyRegimeDetector.

Definition MarketOrder (symbol : Symbol) (shares : Z) : Method unit :=
  modify (fun s => with_base (fill (base s) symbol shares) s).

Definition Liquidate (symbol : Symbol) : Method unit :=
  modify (fun s => with_base (flatten (base s) symbol) s).

(** [Initialize], run on the object the engine hands over *)
Definition Initialize (q : QCAlgorithm) : EntropyRegimeDetector :=
  let embedding_dim := 5%nat in
  let tau := 1%nat in
  let lookback := 120%nat in
  {| base := q;
     embedding_dim := embedding_dim;
     tau := tau;
     lookback := lookback;
     low_entropy_threshold := 0.65;
     high_entropy_threshold := 0.85;
     price_buffer :=
       [(SPY, Deque (lookback + embedding_dim * tau) []);
        (QQQ, Deque (lookback + embedding_dim * tau) []);
        (IWM, Deque (lookback + embedding_dim * tau) [])];
     entropy_history :=
       [(SPY, Deque 24 []); (QQQ, Deque 24 []); (IWM, Deque 24 [])];
     current_regime := [(SPY, None); (QQQ, None); (IWM, None)];
     regime_confidence := [(SPY, 0); (QQQ, 0); (IWM, 0)];
     entry_prices := [];
     stop_losses := [];
     max_position_size := 0.3;
     base_stop_loss := 0.03;
     profit_target := 0.05 |}.

(** The ordinal pattern of the embedding vector that starts at [i]
    (lines 112 and 115). *)
Definition ordinal_pattern (m tau : nat) (prices : list R) (i : nat) : list nat :=
  let embedding := map (fun j => nth (i + j * tau) prices 0) (seq 0 m) in
  sorted (fun k => nth k embedding 0) (seq 0 m).

(** The loop of lines 110-118: [pattern_counts] and [total_patterns] after
    the windows [0 .. count-1]. *)
Definition count_patterns (m tau : nat) (prices : list R) (count : nat)
  : dict (list nat) nat * nat :=
  fold_left
    (fun (acc : dict (list nat) nat * nat) i =>
       let pattern := ordinal_pattern m tau prices i in
       (set (fst acc) pattern (get_default (fst acc) pattern 0 + 1)%nat,
        (snd acc + 1)%nat))
    (seq 0 count) ([], 0%nat).

(** The loop of lines 124-128 *)
Definition shannon_entropy (counts : list nat) (total_patterns : nat) : R :=
  fold_left
    (fun entropy count =>
       let p := INR count / INR total_patterns in
       if 0 <? p then entropy - p * Np.log2 p else entropy)
    counts 0.

Definition CalculatePermutationEntropy (prices : list R) : Method (option R) :=
  m <- gets embedding_dim ;;
  tau <- gets tau ;;
  let n := length prices in
  if (Z.of_nat n <? Z.of_nat m + (Z.of_nat m - 1) * Z.of_nat tau)%Z
  then ret None
  else
    let windows := Z.to_nat (Z.of_nat n - (Z.of_nat m - 1) * Z.of_nat tau) in
    let (pattern_counts, total_patterns) := count_patterns m tau prices windows in
    if (total_patterns =? 0)%nat then ret None
    else
      let entropy := shannon_entropy (values pattern_counts) total_patterns in
      let max_entropy := Np.log2 (INR (fact m)) in
      let normalized_entropy :=
        if 0 <? max_entropy then entropy / max_entropy else 0 in
      ret (Some normalized_entropy).

(** [entropy_ma] (line 146) is computed and not used; it is left out. *)
Definition DetectRegimeChange (symbol : Symbol) : Method (option Regime * R) :=
  history <- gets entropy_history ;;
  h <- check KeyError 141 (get history symbol) ;;
  if (len h <? 6)%nat then ret (None, 0)
  else
    let entropy_array := items h in
    current_entropy <- check IndexError 145 (from_end 1 entropy_array) ;;
    let entropy_change := current_entropy - Np.mean (but_last entropy_array) in
    low <- gets low_entropy_threshold ;;
    high <- gets high_entropy_threshold ;;
    let (regime, confidence) :=
      if current_entropy <? low
      then (trending, (low - current_entropy) / low)
      else if current_entropy >? high
      then (chaotic, (current_entropy - high) / (1 - high))
      else (transitioning, 0.3) in
    let confidence :=
      if Rabs entropy_change >? 0.05
      then Rmin 1 (confidence * 1.5) else confidence in
    ret (Some regime, Rmin 1 confidence).

Definition ExecuteSignals (signals : dict Symbol (Action * R)) : Method unit :=
  for_each signals (fun '(symbol, (action, confidence)) =>
    price <- gets (fun s => Price (base s) symbol) ;;
    match action with
    | BUY =>
        max_position_size <- gets max_position_size ;;
        value <- gets (fun s => TotalPortfolioValue (base s)) ;;
        let position_size := max_position_size * confidence in
        let target_value := value * position_size in
        if price =? 0 then raise ArithmeticError 247
        else
          let shares := int (target_value / price) in
          if (0 <? shares)%Z then
            MarketOrder symbol shares ;;
            base_stop_loss <- gets base_stop_loss ;;
            modify (fun s => with_entry_prices (set (entry_prices s) symbol price) s) ;;
            modify (fun s => with_stop_losses
                      (set (stop_losses s) symbol (price * (1 - base_stop_loss))) s)
          else ret tt
    | SELL =>
        current_qty <- gets (fun s => Quantity (base s) symbol) ;;
        if (0 <? current_qty)%Z then
          Liquidate symbol ;;
          entries <- gets entry_prices ;;
          if contains entries symbol then
            modify (fun s => with_entry_prices (del (entry_prices s) symbol) s) ;;
            stops <- gets stop_losses ;;
            if contains stops symbol
            then modify (fun s => with_stop_losses (del (stop_losses s) symbol) s)
            else raise KeyError 262
          else ret tt
        else ret tt
    | REDUCE =>
        current_qty <- gets (fun s => Quantity (base s) symbol) ;;
        if (0 <? current_qty)%Z then
          let reduce_qty := int (IZR current_qty * 0.5) in
          if (0 <? reduce_qty)%Z then MarketOrder symbol (- reduce_qty)%Z
          else ret tt
        else ret tt
    end).

(** [old_regime] (line 191) and [price] (line 201) only feed the log. *)
Definition AnalyzeRegimes : Method unit :=
  signals <-
    for_fold [SPY; QQQ; IWM] ([] : dict Symbol (Action * R))
      (fun signals symbol =>
        buffers <- gets price_buffer ;;
        buffer <- check KeyError 173 (get buffers symbol) ;;
        lookback <- gets lookback ;;
        if (len buffer <? lookback)%nat then ret signals
        else
          let prices := items buffer in
          entropy <- CalculatePermutationEntropy (last_items lookback prices) ;;
          match entropy with
          | None => ret signals
          | Some entropy =>
              history <- gets entropy_history ;;
              h <- check KeyError 183 (get history symbol) ;;
              modify (fun s => with_entropy_history
                        (set (entropy_history s) symbol (append h entropy)) s) ;;
              '(regime, confidence) <- DetectRegimeChange symbol ;;
              match regime with
              | None => ret signals
              | Some regime =>
                  regimes <- gets current_regime ;;
                  old_regime <- check KeyError 191 (get regimes symbol) ;;
                  modify (fun s => with_current_regime
                            (set (current_regime s) symbol (Some regime)) s) ;;
                  modify (fun s => with_regime_confidence
                            (set (regime_confidence s) symbol confidence) s) ;;
                  current_holding <- gets (fun s => Quantity (base s) symbol) ;;
                  match regime with
                  | trending =>
                      if confidence >? 0.5 then
                        if (20 <=? length prices)%nat then
                          last <- check IndexError 206 (from_end 1 prices) ;;
                          past <- check IndexError 206 (from_end 20 prices) ;;
                          if past =? 0 then raise ZeroDivisionError 206
                          else
                            let momentum := (last - past) / past in
                            if (momentum >? 0.02) && (current_holding <=? 0)%Z
                            then ret (set signals symbol (BUY, confidence))
                            else if (momentum <? -0.02) && (0 <=? current_holding)%Z
                            then ret (set signals symbol (SELL, confidence))
                            else ret signals
                        else ret signals
                      else ret signals
                  | chaotic =>
                      if confidence >? 0.6 then
                        if (20 <=? length prices)%nat then
                          last <- check IndexError 219 (from_end 1 prices) ;;
                          let ma20 := Np.mean (last_items 20 prices) in
                          let deviation := (last - ma20) / ma20 in
                          if (deviation <? -0.03) && (current_holding <=? 0)%Z
                          then ret (set signals symbol (BUY, confidence * 0.7))
                          else if (deviation >? 0.03) && (0 <? current_holding)%Z
                          then ret (set signals symbol (SELL, confidence * 0.7))
                          else ret signals
                        else ret signals
                      else ret signals
                  | transitioning =>
                      if (0 <? Z.abs current_holding)%Z
                      then ret (set signals symbol (REDUCE, 0.5))
                      else ret signals
                  end
              end
          end) ;;
  ExecuteSignals signals.

Definition ManagePositions (data : Slice) : Method unit :=
  for_each [SPY; QQQ; IWM] (fun symbol =>
    entries <- gets entry_prices ;;
    if negb (contains entries symbol) then ret tt
    else
      match get (Bars data) symbol with
      | None => ret tt
      | Some bar =>
          let price := Close bar in
          entry <- check KeyError 284 (get entries symbol) ;;
          stops <- gets stop_losses ;;
          stop <- check KeyError 285 (get stops symbol) ;;
          current_qty <- gets (fun s => Quantity (base s) symbol) ;;
          if (current_qty <=? 0)%Z then ret tt
          else if price <? stop then
            Liquidate symbol ;;
            modify (fun s => with_entry_prices (del (entry_prices s) symbol) s) ;;
            modify (fun s => with_stop_losses (del (stop_losses s) symbol) s)
          else
            profit_target <- gets profit_target ;;
            if price >=? entry * (1 + profit_target) then
              let sell_qty := int (IZR current_qty * 0.5) in
              if (0 <? sell_qty)%Z then
                MarketOrder symbol (- sell_qty)%Z ;;
                modify (fun s => with_stop_losses (set (stop_losses s) symbol entry) s)
              else ret tt
            else if price >? entry * 1.02 then
              let new_stop := price * 0.98 in
              if new_stop >? stop
              then modify (fun s => with_stop_losses (set (stop_losses s) symbol new_stop) s)
              else ret tt
            else ret tt
      end).

Definition OnData (data : Slice) : Method unit :=
  warming <- gets (fun s => IsWarmingUp (base s)) ;;
  if warming then ret tt
  else
    for_each [SPY; QQQ; IWM] (fun symbol =>
      match get (Bars data) symbol with
      | None => ret tt
      | Some bar =>
          buffers <- gets price_buffer ;;
          buffer <- check KeyError 86 (get buffers symbol) ;;
          modify (fun s => with_price_buffer
                    (set (price_buffer s) symbol (append buffer (Close bar))) s)
      end) ;;
    ManagePositions data.

End Entropy.

(** ** strategies/fractal-dimension-breakout/main.py *)

Module Fractal.
Import Py Run Engine.
Local Open Scope R_scope.
Local Open Scope run_scope.

Inductive Direction := LONG | HEDGE.

(** [breakout_low] starts at [float('inf')], written [None] here. *)
Record FractalDimensionBreakout := {
  base : QCAlgorithm;
  hurst_lookback : nat;
  min_lag : nat;
  max_lag : nat;
  trending_threshold : R;
  mean_rev_threshold : R;
  price_buffer : dict Symbol (deque R);
  hurst_history : dict Symbol (deque R);
  volatility : dict Symbol R;
  entry_prices : dict Symbol R;
  entry_hurst : dict Symbol R;
  expected_duration : dict Symbol Z;
  bars_held : dict Symbol Z;
  breakout_high : dict Symbol R;
  breakout_low : dict Symbol (option R);
  breakout_lookback : nat;
  max_position : R;
  base_stop : R
}.

Definition with_base (v : QCAlgorithm) (s : FractalDimensionBreakout) :=
  {| base := v; hurst_lookback := hurst_lookback s; min_lag := min_lag s;
     max_lag := max_lag s; trending_threshold := trending_threshold s;
     mean_rev_threshold := mean_rev_threshold s;
     price_buffer := price_buffer s; hurst_history := hurst_history s;
     volatility := volatility s; entry_prices := entry_prices s;
     entry_hurst := entry_hurst s; expected_duration := expected_duration s;
     bars_held := bars_held s; breakout_high := breakout_high s;
     breakout_low := breakout_low s;
     breakout_lookback := breakout_lookback s;
     max_position := max_position s; base_stop := base_stop s |}.

Definition with_price_buffer (v : dict Symbol (deque R)) (s : FractalDimensionBreakout) :=
  {| base := base s; hurst_lookback := hurst_lookback s;
     min_lag := min_lag s; max_lag := max_lag s;
     trending_threshold := trending_threshold s;
     mean_rev_threshold := mean_rev_threshold s; price_buffer := v;
     hurst_history := hurst_history s; volatility := volatility s;
     entry_prices := entry_prices s; entry_hurst := entry_hurst s;
     expected_duration := expected_duration s; bars_held := bars_held s;
     breakout_high := breakout_high s; breakout_low := breakout_low s;
     breakout_lookback := breakout_lookback s;
     max_position := max_position s; base_stop := base_stop s |}.

Definition with_hurst_history (v : dict Symbol (deque R)) (s : FractalDimensionBreakout) :=
  {| base := base s; hurst_lookback := hurst_lookback s;
     min_lag := min_lag s; max_lag := max_lag s;
     trending_threshold := trending_threshold s;
     mean_rev_threshold := mean_rev_threshold s;
     price_buffer := price_buffer s; hurst_history := v;
     volatility := volatility s; entry_prices := entry_prices s;
     entry_hurst := entry_hurst s; expected_duration := expected_duration s;
     bars_held := bars_held s; breakout_high := breakout_high s;
     breakout_low := breakout_low s;
     breakout_lookback := breakout_lookback s;
     max_position := max_position s; base_stop := base_stop s |}.

Definition with_volatility (v : dict Symbol R) (s : FractalDimensionBreakout) :=
  {| base := base s; hurst_lookback := hurst_lookback s;
     min_lag := min_lag s; max_lag := max_lag s;
     trending_threshold := trending_threshold s;
     mean_rev_threshold := mean_rev_threshold s;
     price_buffer := price_buffer s; hurst_history := hurst_history s;
     volatility := v; entry_prices := entry_prices s;
     entry_hurst := entry_hurst s; expected_duration := expected_duration s;
     bars_held := bars_held s; breakout_high := breakout_high s;
     breakout_low := breakout_low s;
     breakout_lookback := breakout_lookback s;
     max_position := max_position s; base_stop := base_stop s |}.

Definition with_entry_prices (v : dict Symbol R) (s : FractalDimensionBreakout) :=
  {| base := base s; hurst_lookback := hurst_lookback s;
     min_lag := min_lag s; max_lag := max_lag s;
     trending_threshold := trending_threshold s;
     mean_rev_threshold := mean_rev_threshold s;
     price_buffer := price_buffer s; hurst_history := hurst_history s;
     volatility := volatility s; entry_prices := v;
     entry_hurst := entry_hurst s; expected_duration := expected_duration s;
     bars_held := bars_held s; breakout_high := breakout_high s;
     breakout_low := breakout_low s;
     breakout_lookback := breakout_lookback s;
     max_position := max_position s; base_stop := base_stop s |}.

Definition with_entry_hurst (v : dict Symbol R) (s : FractalDimensionBreakout) :=
  {| base := base s; hurst_lookback := hurst_lookback s;
     min_lag := min_lag s; max_lag := max_lag s;
     trending_threshold := trending_threshold s;
     mean_rev_threshold := mean_rev_threshold s;
     price_buffer := price_buffer s; hurst_history := hurst_history s;
     volatility := volatility s; entry_prices := entry_prices s;
     entry_hurst := v; expected_duration := expected_duration s;
     bars_held := bars_held s; breakout_high := breakout_high s;
     breakout_low := breakout_low s;
     breakout_lookback := breakout_lookback s;
     max_position := max_position s; base_stop := base_stop s |}.

Definition with_expected_duration (v : dict Symbol Z) (s : FractalDimensionBreakout) :=
  {| base := base s; hurst_lookback := hurst_lookback s;
     min_lag := min_lag s; max_lag := max_lag s;
     trending_threshold := trending_threshold s;
     mean_rev_threshold := mean_rev_threshold s;
     price_buffer := price_buffer s; hurst_history := hurst_history s;
     volatility := volatility s; entry_prices := entry_prices s;
     entry_hurst := entry_hurst s; expected_duration := v;
     bars_held := bars_held s; breakout_high := breakout_high s;
     breakout_low := breakout_low s;
     breakout_lookback := breakout_lookback s;
     max_position := max_position s; base_stop := base_stop s |}.

Definition with_bars_held (v : dict Symbol Z) (s : FractalDimensionBreakout) :=
  {| base := base s; hurst_lookback := hurst_lookback s;
     min_lag := min_lag s; max_lag := max_lag s;
     trending_threshold := trending_threshold s;
     mean_rev_threshold := mean_rev_threshold s;
     price_buffer := price_buffer s; hurst_history := hurst_history s;
     volatility := volatility s; entry_prices := entry_prices s;
     entry_hurst := entry_hurst s; expected_duration := expected_duration s;
     bars_held := v; breakout_high := breakout_high s;
     breakout_low := breakout_low s;
     breakout_lookback := breakout_lookback s;
     max_position := max_position s; base_stop := base_stop s |}.

Definition with_breakout_high (v : dict Symbol R) (s : FractalDimensionBreakout) :=
  {| base := base s; hurst_lookback := hurst_lookback s;
     min_lag := min_lag s; max_lag := max_lag s;
     trending_threshold := trending_threshold s;
     mean_rev_threshold := mean_rev_threshold s;
     price_buffer := price_buffer s; hurst_history := hurst_history s;
     volatility := volatility s; entry_prices := entry_prices s;
     entry_hurst := entry_hurst s; expected_duration := expected_duration s;
     bars_held := bars_held s; breakout_high := v;
     breakout_low := breakout_low s;
     breakout_lookback := breakout_lookback s;
     max_position := max_position s; base_stop := base_stop s |}.

Definition with_breakout_low (v : dict Symbol (option R)) (s : FractalDimensionBreakout) :=
  {| base := base s; hurst_lookback := hurst_lookback s;
     min_lag := min_lag s; max_lag := max_lag s;
     trending_threshold := trending_threshold s;
     mean_rev_threshold := mean_rev_threshold s;
     price_buffer := price_buffer s; hurst_history := hurst_history s;
     volatility := volatility s; entry_prices := entry_prices s;
     entry_hurst := entry_hurst s; expected_duration := expected_duration s;
     bars_held := bars_held s; breakout_high := breakout_high s;
     breakout_low := v; breakout_lookback := breakout_lookback s;
     max_position := max_position s; base_stop := base_stop s |}.

Definition Method := M FractalDimensionBreakout.

Definition MarketOrder (symbol : Symbol) (shares : Z) : Method unit :=
  modify (fun s => with_base (fill (base s) symbol shares) s).

Definition Liquidate (symbol : Symbol) : Method unit :=
  modify (fun s => with_base (flatten (base s) symbol) s).

Definition Initialize (q : QCAlgorithm) : FractalDimensionBreakout :=
  let hurst_lookback := 100%nat in
  {| base := q;
     hurst_lookback := hurst_lookback;
     min_lag := 2;
     max_lag := 20;
     trending_threshold := 0.55;
     mean_rev_threshold := 0.45;
     price_buffer :=
       [(SPY, Deque (hurst_lookback + 50) []);
        (QQQ, Deque (hurst_lookback + 50) []);
        (TLT, Deque (hurst_lookback + 50) [])];
     hurst_history :=
       [(SPY, Deque 48 []); (QQQ, Deque 48 []); (TLT, Deque 48 [])];
     volatility := [(SPY, 0); (QQQ, 0); (TLT, 0)];
     entry_prices := [];
     entry_hurst := [];
     expected_duration := [];
     bars_held := [];
     breakout_high := [(SPY, 0); (QQQ, 0)];
     breakout_low := [(SPY, None); (QQQ, None)];
     breakout_lookback := 20;
     max_position := 0.35;
     base_stop := 0.025 |}.

(** Lines 131-142: R/S of one subseries, when its deviation is positive *)
Definition rescaled_range (subseries : list R) : option R :=
  let mean_adj := map (fun x => x - Np.mean subseries) subseries in
  let cumsum := Np.cumsum mean_adj in
  let range := Np.max cumsum - Np.min cumsum in
  let S := Np.std 1 subseries in
  if S >? 0 then Some (range / S) else None.

(** The loop of lines 125-142: [rs_subseries] for one lag *)
Definition rs_of_lag (returns : list R) (lag : nat) : list R :=
  let n_subseries := (length returns / lag)%nat in
  fold_left
    (fun rs_subseries i =>
       let subseries := firstn lag (skipn (i * lag) returns) in
       if (length subseries <? 2)%nat then rs_subseries
       else
         match rescaled_range subseries with
         | Some rs => rs_subseries ++ [rs]
         | None => rs_subseries
         end)
    (seq 0 n_subseries) [].

Definition CalculateHurstExponent (prices : list R) : Method (option R) :=
  hurst_lookback <- gets hurst_lookback ;;
  if (length prices <? hurst_lookback)%nat then ret None
  else
    let prices := last_items hurst_lookback prices in
    let returns := Np.diff (map ln prices) in
    max_lag <- gets max_lag ;;
    if (length returns <? max_lag)%nat then ret None
    else
      min_lag <- gets min_lag ;;
      let stop := Nat.min max_lag (length returns / 4) in
      let lags := seq min_lag (stop - min_lag) in
      rs_values <-
        for_fold lags ([] : list (nat * R)) (fun rs_values lag =>
          if (lag =? 0)%nat then raise ZeroDivisionError 122
          else
            let rs_subseries := rs_of_lag returns lag in
            match rs_subseries with
            | [] => ret rs_values
            | _ => ret (rs_values ++ [(lag, Np.mean rs_subseries)])
            end) ;;
      if (length rs_values <? 3)%nat then ret None
      else
        let lags_log := map (fun x => ln (INR (fst x))) rs_values in
        let rs_log := map (fun x => ln (snd x)) rs_values in
        let slope := Np.linregress_slope lags_log rs_log in
        let hurst := Rmax 0.01 (Rmin 0.99 slope) in
        ret (Some hurst).

Definition CalculateFractalDimension (hurst : R) : R := 2 - hurst.

Definition EstimateMoveDuration (hurst : R) : Z :=
  if hurst >? 0.5 then
    let base_duration := 10 in
    let persistence_factor := (hurst - 0.5) * 4 in
    int (base_duration * (1 + persistence_factor))
  else
    let base_duration := 5 in
    let reversion_factor := (0.5 - hurst) * 3 in
    int (base_duration * (1 - reversion_factor * 0.5)).

Definition UpdateBreakoutLevels : Method unit :=
  for_each [SPY; QQQ] (fun symbol =>
    buffers <- gets price_buffer ;;
    buffer <- check KeyError 191 (get buffers symbol) ;;
    breakout_lookback <- gets breakout_lookback ;;
    if (len buffer <? breakout_lookback)%nat then ret tt
    else
      let prices := last_items breakout_lookback (items buffer) in
      match prices with
      | [] => raise ValueError 196
      | _ =>
          modify (fun s => with_breakout_high
                    (set (breakout_high s) symbol (Np.max prices)) s) ;;
          modify (fun s => with_breakout_low
                    (set (breakout_low s) symbol (Some (Np.min prices))) s) ;;
          if (20 <=? length prices)%nat then
            let returns := Np.diff (map ln prices) in
            modify (fun s => with_volatility
                      (set (volatility s) symbol
                         (Np.std 0 returns * sqrt (252 * 6.5))) s)
          else ret tt
      end).

Definition EnterPosition (symbol : Symbol) (direction : Direction)
    (price hurst : R) : Method unit :=
  let confidence := if hurst >? 0.5 then (hurst - 0.5) * 2 else (0.5 - hurst) * 2 in
  let confidence := Rmin 1 confidence in
  max_position <- gets max_position ;;
  value <- gets (fun s => TotalPortfolioValue (base s)) ;;
  let position_size := max_position * confidence in
  let target_value := value * position_size in
  let expected_bars := EstimateMoveDuration hurst in
  match direction with
  | LONG =>
      if price =? 0 then raise ArithmeticError 257
      else
        let shares := int (target_value / price) in
        if (0 <? shares)%Z then
          MarketOrder symbol shares ;;
          modify (fun s => with_entry_prices (set (entry_prices s) symbol price) s) ;;
          modify (fun s => with_entry_hurst (set (entry_hurst s) symbol hurst) s) ;;
          modify (fun s => with_expected_duration
                    (set (expected_duration s) symbol expected_bars) s) ;;
          modify (fun s => with_bars_held (set (bars_held s) symbol 0%Z) s)
        else ret tt
  | HEDGE =>
      held <- gets (fun s => Quantity (base s) symbol) ;;
      (if (0 <? held)%Z then Liquidate symbol else ret tt) ;;
      tlt_price <- gets (fun s => Price (base s) TLT) ;;
      if tlt_price =? 0 then raise ArithmeticError 274
      else
        let tlt_shares := int (target_value * 0.5 / tlt_price) in
        if (0 <? tlt_shares)%Z then
          MarketOrder TLT tlt_shares ;;
          modify (fun s => with_entry_prices (set (entry_prices s) TLT tlt_price) s) ;;
          modify (fun s => with_entry_hurst (set (entry_hurst s) TLT hurst) s) ;;
          modify (fun s => with_expected_duration
                    (set (expected_duration s) TLT expected_bars) s) ;;
          modify (fun s => with_bars_held (set (bars_held s) TLT 0%Z) s)
        else ret tt
  end.

Definition CheckBreakouts (data : Slice) : Method unit :=
  for_each [SPY; QQQ] (fun symbol =>
    match get (Bars data) symbol with
    | None => ret tt
    | Some bar =>
        history <- gets hurst_history ;;
        h <- check KeyError 212 (get history symbol) ;;
        if (len h <? 5)%nat then ret tt
        else
          current_hurst <- check IndexError 215 (from_end 1 (items h)) ;;
          let price := Close bar in
          trending_threshold <- gets trending_threshold ;;
          if current_hurst <? trending_threshold then ret tt
          else
            entries <- gets entry_prices ;;
            if contains entries symbol then ret tt
            else
              vols <- gets volatility ;;
              vol <- check KeyError 227 (get vols symbol) ;;
              if vol <=? 0 then ret tt
              else
                let threshold_mult := Rmax 0.005 (Rmin 0.02 (vol * 0.05)) in
                highs <- gets breakout_high ;;
                high <- check KeyError 233 (get highs symbol) ;;
                lows <- gets breakout_low ;;
                low <- check KeyError 234 (get lows symbol) ;;
                let high_break := high * (1 + threshold_mult) in
                if price >? high_break
                then EnterPosition symbol LONG price current_hurst
                else
                  let below :=
                    match low with
                    | None => true
                    | Some low => price <? low * (1 - threshold_mult)
                    end in
                  if below then EnterPosition symbol HEDGE price current_hurst
                  else ret tt
    end).

Definition CleanupPosition (symbol : Symbol) : Method unit :=
  modify (fun s => with_entry_prices (del (entry_prices s) symbol) s) ;;
  modify (fun s => with_entry_hurst (del (entry_hurst s) symbol) s) ;;
  modify (fun s => with_expected_duration (del (expected_duration s) symbol) s) ;;
  modify (fun s => with_bars_held (del (bars_held s) symbol) s).

Definition ManagePositions (data : Slice) : Method unit :=
  held_symbols <- gets (fun s => keys (entry_prices s)) ;;
  for_each held_symbols (fun symbol =>
    match get (Bars data) symbol with
    | None => ret tt
    | Some bar =>
        let price := Close bar in
        entries <- gets entry_prices ;;
        entry <- check KeyError 293 (get entries symbol) ;;
        hursts <- gets entry_hurst ;;
        entry_h <- check KeyError 294 (get hursts symbol) ;;
        durations <- gets expected_duration ;;
        expected_dur <- check KeyError 295 (get durations symbol) ;;
        modify (fun s => with_bars_held
                  (set (bars_held s) symbol
                     (get_default (bars_held s) symbol 0 + 1)%Z) s) ;;
        held <- gets bars_held ;;
        bars <- check KeyError 298 (get held symbol) ;;
        current_qty <- gets (fun s => Quantity (base s) symbol) ;;
        if (current_qty =? 0)%Z then CleanupPosition symbol
        else if entry =? 0 then raise ZeroDivisionError 305
        else
          let pnl_pct :=
            if (0 <? current_qty)%Z then (price - entry) / entry
            else (entry - price) / entry in
          let stop_mult := if entry_h >? 0.5 then 1 + (entry_h - 0.5) else 1 in
          base_stop <- gets base_stop ;;
          let current_stop := base_stop * stop_mult in
          if pnl_pct <? - current_stop then
            Liquidate symbol ;; CleanupPosition symbol
          else if (expected_dur =? 0)%Z then raise ZeroDivisionError 321
          else
            let duration_ratio := IZR bars / IZR expected_dur in
            if duration_ratio >=? 1.5 then
              Liquidate symbol ;; CleanupPosition symbol
            else
              (if (duration_ratio >=? 0.8) && (pnl_pct >? 0.02) then
                 let sell_qty := int (IZR (Z.abs current_qty) * 0.4) in
                 if (0 <? sell_qty)%Z then
                   MarketOrder symbol
                     (if (0 <? current_qty)%Z then - sell_qty else sell_qty)%Z
                 else ret tt
               else ret tt) ;;
              entries <- gets entry_prices ;;
              if (pnl_pct >? 0.03) && contains entries symbol then
                modify (fun s => with_entry_prices
                          (set (entry_prices s) symbol
                             (entry + (price - entry) * 0.3)) s)
              else ret tt
    end).

Definition AnalyzeFractalDimension : Method unit :=
  for_each [SPY; QQQ; TLT] (fun symbol =>
    buffers <- gets price_buffer ;;
    buffer <- check KeyError 354 (get buffers symbol) ;;
    hurst_lookback <- gets hurst_lookback ;;
    if (len buffer <? hurst_lookback)%nat then ret tt
    else
      let prices := items buffer in
      hurst <- CalculateHurstExponent prices ;;
      match hurst with
      | None => ret tt
      | Some hurst =>
          history <- gets hurst_history ;;
          h <- check KeyError 363 (get history symbol) ;;
          modify (fun s => with_hurst_history
                    (set (hurst_history s) symbol (append h hurst)) s)
      end).

Definition OnData (data : Slice) : Method unit :=
  warming <- gets (fun s => IsWarmingUp (base s)) ;;
  if warming then ret tt
  else
    for_each [SPY; QQQ; TLT] (fun symbol =>
      match get (Bars data) symbol with
      | None => ret tt
      | Some bar =>
          buffers <- gets price_buffer ;;
          buffer <- check KeyError 89 (get buffers symbol) ;;
          modify (fun s => with_price_buffer
                    (set (price_buffer s) symbol (append buffer (Close bar))) s)
      end) ;;
    UpdateBreakoutLevels ;;
    CheckBreakouts data ;;
    ManagePositions data.

End Fractal.

(** ** strategies/vpin-toxicity-detector/main.py *)

Module VPIN.
Import Py Run Engine.
Local Open Scope R_scope.
Local Open Scope run_scope.

Inductive Toxicity := normal | toxic | clean.

Inductive Direction := LONG | SHORT | PENDING | RISING.

(** The dictionaries with string keys are records; each lives in a module
    of its own so that the keys keep their names. *)
Module Trade.
Record t := { price : R; volume : R; buy_volume : R }.
End Trade.

(** an entry of [current_bucket] *)
Module Bucket.
Record t := { volume : R; buy_volume : R; trades : list Trade.t }.
End Bucket.

(** an item of [bucket_history] *)
Module Completed.
Record t := { buy_volume : R; sell_volume : R; order_imbalance : R }.
End Completed.

(** [vpin_history] holds what [CalculateVPIN] returned, a float or None. *)
Record VPINToxicityDetector := {
  base : QCAlgorithm;
  bucket_size : R;
  n_buckets : nat;
  sigma_lookback : nat;
  current_bucket : dict Symbol Bucket.t;
  bucket_history : dict Symbol (deque Completed.t);
  price_history : dict Symbol (deque R);
  vpin_history : dict Symbol (deque (option R));
  toxicity_state : dict Symbol Toxicity;
  toxicity_direction : dict Symbol (option Direction);
  high_toxicity : R;
  low_toxicity : R;
  vpin_acceleration : R;
  entry_prices : dict Symbol R;
  entry_vpin : dict Symbol R;
  stop_losses : dict Symbol R;
  max_position : R;
  base_stop : R;
  profit_target : R;
  last_signal_time : dict Symbol R
}.

Definition with_base (v : QCAlgorithm) (s : VPINToxicityDetector) :=
  {| base := v; bucket_size := bucket_size s; n_buckets := n_buckets s;
     sigma_lookback := sigma_lookback s; current_bucket := current_bucket s;
     bucket_history := bucket_history s; price_history := price_history s;
     vpin_history := vpin_history s; toxicity_state := toxicity_state s;
     toxicity_direction := toxicity_direction s;
     high_toxicity := high_toxicity s; low_toxicity := low_toxicity s;
     vpin_acceleration := vpin_acceleration s;
     entry_prices := entry_prices s; entry_vpin := entry_vpin s;
     stop_losses := stop_losses s; max_position := max_position s;
     base_stop := base_stop s; profit_target := profit_target s;
     last_signal_time := last_signal_time s |}.

Definition with_current_bucket (v : dict Symbol Bucket.t) (s : VPINToxicityDetector) :=
  {| base := base s; bucket_size := bucket_size s; n_buckets := n_buckets s;
     sigma_lookback := sigma_lookback s; current_bucket := v;
     bucket_history := bucket_history s; price_history := price_history s;
     vpin_history := vpin_history s; toxicity_state := toxicity_state s;
     toxicity_direction := toxicity_direction s;
     high_toxicity := high_toxicity s; low_toxicity := low_toxicity s;
     vpin_acceleration := vpin_acceleration s;
     entry_prices := entry_prices s; entry_vpin := entry_vpin s;
     stop_losses := stop_losses s; max_position := max_position s;
     base_stop := base_stop s; profit_target := profit_target s;
     last_signal_time := last_signal_time s |}.

Definition with_bucket_history (v : dict Symbol (deque Completed.t)) (s : VPINToxicityDetector) :=
  {| base := base s; bucket_size := bucket_size s; n_buckets := n_buckets s;
     sigma_lookback := sigma_lookback s; current_bucket := current_bucket s;
     bucket_history := v; price_history := price_history s;
     vpin_history := vpin_history s; toxicity_state := toxicity_state s;
     toxicity_direction := toxicity_direction s;
     high_toxicity := high_toxicity s; low_toxicity := low_toxicity s;
     vpin_acceleration := vpin_acceleration s;
     entry_prices := entry_prices s; entry_vpin := entry_vpin s;
     stop_losses := stop_losses s; max_position := max_position s;
     base_stop := base_stop s; profit_target := profit_target s;
     last_signal_time := last_signal_time s |}.

Definition with_price_history (v : dict Symbol (deque R)) (s : VPINToxicityDetector) :=
  {| base := base s; bucket_size := bucket_size s; n_buckets := n_buckets s;
     sigma_lookback := sigma_lookback s; current_bucket := current_bucket s;
     bucket_history := bucket_history s; price_history := v;
     vpin_history := vpin_history s; toxicity_state := toxicity_state s;
     toxicity_direction := toxicity_direction s;
     high_toxicity := high_toxicity s; low_toxicity := low_toxicity s;
     vpin_acceleration := vpin_acceleration s;
     entry_prices := entry_prices s; entry_vpin := entry_vpin s;
     stop_losses := stop_losses s; max_position := max_position s;
     base_stop := base_stop s; profit_target := profit_target s;
     last_signal_time := last_signal_time s |}.

Definition with_vpin_history (v : dict Symbol (deque (option R))) (s : VPINToxicityDetector) :=
  {| base := base s; bucket_size := bucket_size s; n_buckets := n_buckets s;
     sigma_lookback := sigma_lookback s; current_bucket := current_bucket s;
     bucket_history := bucket_history s; price_history := price_history s;
     vpin_history := v; toxicity_state := toxicity_state s;
     toxicity_direction := toxicity_direction s;
     high_toxicity := high_toxicity s; low_toxicity := low_toxicity s;
     vpin_acceleration := vpin_acceleration s;
     entry_prices := entry_prices s; entry_vpin := entry_vpin s;
     stop_losses := stop_losses s; max_position := max_position s;
     base_stop := base_stop s; profit_target := profit_target s;
     last_signal_time := last_signal_time s |}.

Definition with_toxicity_state (v : dict Symbol Toxicity) (s : VPINToxicityDetector) :=
  {| base := base s; bucket_size := bucket_size s; n_buckets := n_buckets s;
     sigma_lookback := sigma_lookback s; current_bucket := current_bucket s;
     bucket_history := bucket_history s; price_history := price_history s;
     vpin_history := vpin_history s; toxicity_state := v;
     toxicity_direction := toxicity_direction s;
     high_toxicity := high_toxicity s; low_toxicity := low_toxicity s;
     vpin_acceleration := vpin_acceleration s;
     entry_prices := entry_prices s; entry_vpin := entry_vpin s;
     stop_losses := stop_losses s; max_position := max_position s;
     base_stop := base_stop s; profit_target := profit_target s;
     last_signal_time := last_signal_time s |}.

Definition with_toxicity_direction (v : dict Symbol (option Direction)) (s : VPINToxicityDetector) :=
  {| base := base s; bucket_size := bucket_size s; n_buckets := n_buckets s;
     sigma_lookback := sigma_lookback s; current_bucket := current_bucket s;
     bucket_history := bucket_history s; price_history := price_history s;
     vpin_history := vpin_history s; toxicity_state := toxicity_state s;
     toxicity_direction := v; high_toxicity := high_toxicity s;
     low_toxicity := low_toxicity s;
     vpin_acceleration := vpin_acceleration s;
     entry_prices := entry_prices s; entry_vpin := entry_vpin s;
     stop_losses := stop_losses s; max_position := max_position s;
     base_stop := base_stop s; profit_target := profit_target s;
     last_signal_time := last_signal_time s |}.

Definition with_entry_prices (v : dict Symbol R) (s : VPINToxicityDetector) :=
  {| base := base s; bucket_size := bucket_size s; n_buckets := n_buckets s;
     sigma_lookback := sigma_lookback s; current_bucket := current_bucket s;
     bucket_history := bucket_history s; price_history := price_history s;
     vpin_history := vpin_history s; toxicity_state := toxicity_state s;
     toxicity_direction := toxicity_direction s;
     high_toxicity := high_toxicity s; low_toxicity := low_toxicity s;
     vpin_acceleration := vpin_acceleration s; entry_prices := v;
     entry_vpin := entry_vpin s; stop_losses := stop_losses s;
     max_position := max_position s; base_stop := base_stop s;
     profit_target := profit_target s;
     last_signal_time := last_signal_time s |}.

Definition with_entry_vpin (v : dict Symbol R) (s : VPINToxicityDetector) :=
  {| base := base s; bucket_size := bucket_size s; n_buckets := n_buckets s;
     sigma_lookback := sigma_lookback s; current_bucket := current_bucket s;
     bucket_history := bucket_history s; price_history := price_history s;
     vpin_history := vpin_history s; toxicity_state := toxicity_state s;
     toxicity_direction := toxicity_direction s;
     high_toxicity := high_toxicity s; low_toxicity := low_toxicity s;
     vpin_acceleration := vpin_acceleration s;
     entry_prices := entry_prices s; entry_vpin := v;
     stop_losses := stop_losses s; max_position := max_position s;
     base_stop := base_stop s; profit_target := profit_target s;
     last_signal_time := last_signal_time s |}.

Definition with_stop_losses (v : dict Symbol R) (s : VPINToxicityDetector) :=
  {| base := base s; bucket_size := bucket_size s; n_buckets := n_buckets s;
     sigma_lookback := sigma_lookback s; current_bucket := current_bucket s;
     bucket_history := bucket_history s; price_history := price_history s;
     vpin_history := vpin_history s; toxicity_state := toxicity_state s;
     toxicity_direction := toxicity_direction s;
     high_toxicity := high_toxicity s; low_toxicity := low_toxicity s;
     vpin_acceleration := vpin_acceleration s;
     entry_prices := entry_prices s; entry_vpin := entry_vpin s;
     stop_losses := v; max_position := max_position s;
     base_stop := base_stop s; profit_target := profit_target s;
     last_signal_time := last_signal_time s |}.

Definition with_last_signal_time (v : dict Symbol R) (s : VPINToxicityDetector) :=
  {| base := base s; bucket_size := bucket_size s; n_buckets := n_buckets s;
     sigma_lookback := sigma_lookback s; current_bucket := current_bucket s;
     bucket_history := bucket_history s; price_history := price_history s;
     vpin_history := vpin_history s; toxicity_state := toxicity_state s;
     toxicity_direction := toxicity_direction s;
     high_toxicity := high_toxicity s; low_toxicity := low_toxicity s;
     vpin_acceleration := vpin_acceleration s;
     entry_prices := entry_prices s; entry_vpin := entry_vpin s;
     stop_losses := stop_losses s; max_position := max_position s;
     base_stop := base_stop s; profit_target := profit_target s;
     last_signal_time := v |}.

Definition Method := M VPINToxicityDetector.

Definition MarketOrder (symbol : Symbol) (shares : Z) : Method unit :=
  modify (fun s => with_base (fill (base s) symbol shares) s).

Definition Liquidate (symbol : Symbol) : Method unit :=
  modify (fun s => with_base (flatten (base s) symbol) s).

Definition Initialize (q : QCAlgorithm) : VPINToxicityDetector :=
  let n_buckets := 50%nat in
  let empty_bucket := {| Bucket.volume := 0; Bucket.buy_volume := 0; Bucket.trades := [] |} in
  {| base := q;
     bucket_size := 50000;
     n_buckets := n_buckets;
     sigma_lookback := 20;
     current_bucket := [(SPY, empty_bucket); (QQQ, empty_bucket)];
     bucket_history := [(SPY, Deque n_buckets []); (QQQ, Deque n_buckets [])];
     price_history := [(SPY, Deque 100 []); (QQQ, Deque 100 [])];
     vpin_history := [(SPY, Deque 100 []); (QQQ, Deque 100 [])];
     toxicity_state := [(SPY, normal); (QQQ, normal)];
     toxicity_direction := [(SPY, None); (QQQ, None)];
     high_toxicity := 0.65;
     low_toxicity := 0.35;
     vpin_acceleration := 0.05;
     entry_prices := [];
     entry_vpin := [];
     stop_losses := [];
     max_position := 0.30;
     base_stop := 0.02;
     profit_target := 0.04;
     last_signal_time := [] |}.

Definition CalculateVPIN (symbol : Symbol) : Method (option R) :=
  histories <- gets bucket_history ;;
  history <- check KeyError 189 (get histories symbol) ;;
  n_buckets <- gets n_buckets ;;
  if (len history <? n_buckets)%nat then ret None
  else
    let buckets := last_items n_buckets (items history) in
    let total_imbalance := Np.sum (map Completed.order_imbalance buckets) in
    bucket_size <- gets bucket_size ;;
    let total_volume := INR n_buckets * bucket_size in
    let vpin := if total_volume >? 0 then total_imbalance / total_volume else 0 in
    ret (Some vpin).

(** The [while] loop of lines 157-182 on the bucket of [symbol].  Each
    round takes [bucket_size] off the bucket's volume, so for a positive
    [bucket_size] it ends; [fuel] bounds the number of rounds. *)
Fixpoint complete_buckets (fuel : nat) (symbol : Symbol) (bucket : Bucket.t)
  : Method unit :=
  match fuel with
  | O => ret tt
  | S fuel' =>
      bucket_size <- gets bucket_size ;;
      if Bucket.volume bucket >=? bucket_size then
        let overflow := Bucket.volume bucket - bucket_size in
        let overflow_ratio :=
          if Bucket.volume bucket >? 0 then overflow / Bucket.volume bucket
          else 0 in
        let final_buy := Bucket.buy_volume bucket * (1 - overflow_ratio) in
        let final_sell := bucket_size - final_buy in
        histories <- gets bucket_history ;;
        history <- check KeyError 167 (get histories symbol) ;;
        let history :=
          append history
            {| Completed.buy_volume := final_buy;
               Completed.sell_volume := final_sell;
               Completed.order_imbalance := Rabs (final_buy - final_sell) |} in
        modify (fun s => with_bucket_history
                  (set (bucket_history s) symbol history) s) ;;
        n_buckets <- gets n_buckets ;;
        (if (n_buckets <=? len history)%nat then
           vpin <- CalculateVPIN symbol ;;
           vpins <- gets vpin_history ;;
           h <- check KeyError 176 (get vpins symbol) ;;
           modify (fun s => with_vpin_history
                     (set (vpin_history s) symbol (append h vpin)) s)
         else ret tt) ;;
        let new_buy_vol := Bucket.buy_volume bucket * overflow_ratio in
        let bucket :=
          {| Bucket.volume := overflow;
             Bucket.buy_volume := new_buy_vol;
             Bucket.trades := [] |} in
        modify (fun s => with_current_bucket
                  (set (current_bucket s) symbol bucket) s) ;;
        complete_buckets fuel' symbol bucket
      else ret tt
  end.

(** the floats of a list, if it holds no None *)
Fixpoint floats (l : list (option R)) : option (list R) :=
  match l with
  | [] => Some []
  | Some x :: l' =>
      match floats l' with Some xs => Some (x :: xs) | None => None end
  | None :: _ => None
  end.

Definition DetectToxicityRegime (symbol : Symbol)
  : Method (option Toxicity * option Direction * R) :=
  vpins <- gets vpin_history ;;
  h <- check KeyError 205 (get vpins symbol) ;;
  if (len h <? 10)%nat then ret (None, None, 0)
  else
    (* the mean of line 210 needs floats in the last ten places *)
    recent <- check TypeError 210 (floats (last_items 10 (items h))) ;;
    current_vpin <- check IndexError 209 (from_end 1 recent) ;;
    let vpin_change :=
      if (5 <? len h)%nat
      then current_vpin - Np.mean (but_last (last_items 5 recent))
      else 0 in
    histories <- gets price_history ;;
    ph <- check KeyError 214 (get histories symbol) ;;
    momentum <-
      (if (20 <=? len ph)%nat then
         last <- check IndexError 216 (from_end 1 (items ph)) ;;
         past <- check IndexError 216 (from_end 20 (items ph)) ;;
         ret ((last - past) / past)
       else ret 0) ;;
    high_toxicity <- gets high_toxicity ;;
    low_toxicity <- gets low_toxicity ;;
    vpin_acceleration <- gets vpin_acceleration ;;
    if current_vpin >? high_toxicity then
      if Rabs momentum >? 0.01 then
        ret (Some toxic, Some (if momentum >? 0 then LONG else SHORT),
             Rmin 1 ((current_vpin - 0.5) * 2))
      else
        ret (Some toxic, Some PENDING, Rmin 1 ((current_vpin - 0.5) * 1.5))
    else if current_vpin <? low_toxicity then ret (Some clean, None, 0)
    else if vpin_change >? vpin_acceleration then
      ret (Some normal, Some RISING, Rmin 1 (vpin_change / 0.1))
    else ret (Some normal, None, 0).

Definition EnterLong (symbol : Symbol) (price vpin confidence : R) : Method unit :=
  max_position <- gets max_position ;;
  value <- gets (fun s => TotalPortfolioValue (base s)) ;;
  let position_size := max_position * confidence in
  let target_value := value * position_size in
  if price =? 0 then raise ArithmeticError 308
  else
    let shares := int (target_value / price) in
    if (0 <? shares)%Z then
      MarketOrder symbol shares ;;
      base_stop <- gets base_stop ;;
      modify (fun s => with_entry_prices (set (entry_prices s) symbol price) s) ;;
      modify (fun s => with_entry_vpin (set (entry_vpin s) symbol vpin) s) ;;
      modify (fun s => with_stop_losses
                (set (stop_losses s) symbol (price * (1 - base_stop))) s)
    else ret tt.

(** The last reading is formatted at line 276 when the regime changes; it
    is a float by then, line 210 having averaged it. *)
Definition OnHourlyData (bar : TradeBar) : Method unit :=
  let symbol := BarSymbol bar in
  vpins <- gets vpin_history ;;
  match get vpins symbol with
  | None => ret tt
  | Some h =>
      if (len h <? 20)%nat then ret tt
      else
        '(regime, direction, confidence) <- DetectToxicityRegime symbol ;;
        match regime with
        | None => ret tt
        | Some regime =>
            states <- gets toxicity_state ;;
            old_state <- check KeyError 268 (get states symbol) ;;
            modify (fun s => with_toxicity_state
                      (set (toxicity_state s) symbol regime) s) ;;
            modify (fun s => with_toxicity_direction
                      (set (toxicity_direction s) symbol direction) s) ;;
            last <- check IndexError 272 (from_end 1 (items h)) ;;
            current_vpin <- check TypeError 276 last ;;
            current_qty <- gets (fun s => Quantity (base s) symbol) ;;
            let price := Close bar in
            current_time <- gets (fun s => Time (base s)) ;;
            times <- gets last_signal_time ;;
            let limited :=
              match get times symbol with
              | Some t => current_time - t <? 3600
              | None => false
              end in
            if limited then ret tt
            else
              match regime, direction with
              | toxic, Some LONG =>
                  if (confidence >? 0.5) && (current_qty <=? 0)%Z then
                    EnterLong symbol price current_vpin confidence ;;
                    modify (fun s => with_last_signal_time
                              (set (last_signal_time s) symbol current_time) s)
                  else ret tt
              | _, _ => ret tt
              end
        end
  end.

(** [del d[symbol]] is a no-op on a missing key, as the [in] test makes it. *)
Definition CleanupPosition (symbol : Symbol) : Method unit :=
  modify (fun s => with_entry_prices (del (entry_prices s) symbol) s) ;;
  modify (fun s => with_entry_vpin (del (entry_vpin s) symbol) s) ;;
  modify (fun s => with_stop_losses (del (stop_losses s) symbol) s).

Definition ManagePositions (data : Slice) : Method unit :=
  held_symbols <- gets (fun s => keys (entry_prices s)) ;;
  for_each held_symbols (fun symbol =>
    match get (Bars data) symbol with
    | None => ret tt
    | Some bar =>
        let price := Close bar in
        entries <- gets entry_prices ;;
        entry <- check KeyError 327 (get entries symbol) ;;
        stops <- gets stop_losses ;;
        stop <- check KeyError 328 (get stops symbol) ;;
        current_qty <- gets (fun s => Quantity (base s) symbol) ;;
        if (current_qty <=? 0)%Z then CleanupPosition symbol
        else if entry =? 0 then raise ZeroDivisionError 335
        else
          let pnl_pct := (price - entry) / entry in
          vpins <- gets vpin_history ;;
          h <- check KeyError 339 (get vpins symbol) ;;
          let current_vpin :=
            match from_end 1 (items h) with
            | Some last => last
            | None => None
            end in
          profit_target <- gets profit_target ;;
          if price <? stop then
            Liquidate symbol ;; CleanupPosition symbol
          else if pnl_pct >=? profit_target then
            Liquidate symbol ;; CleanupPosition symbol
          else
            entry_vpins <- gets entry_vpin ;;
            let vpin_exit :=
              match current_vpin, get entry_vpins symbol with
              | Some current_vpin, Some entry_vpin =>
                  let vpin_drop := entry_vpin - current_vpin in
                  (vpin_drop >? 0.15) && (pnl_pct >? 0)
              | _, _ => false
              end in
            if vpin_exit then
              Liquidate symbol ;; CleanupPosition symbol
            else if pnl_pct >? 0.02 then
              let new_stop := price * 0.985 in
              stops <- gets stop_losses ;;
              stop <- check KeyError 369 (get stops symbol) ;;
              if new_stop >? stop then
                modify (fun s => with_stop_losses
                          (set (stop_losses s) symbol new_stop) s)
              else ret tt
            else ret tt
    end).

Section BulkVolumeClassification.

(** [scipy.stats.norm.cdf], which the Standard Library does not define *)
Variable norm_cdf : R -> R.

Definition ProcessBarForVPIN (symbol : Symbol) (bar : TradeBar) : Method unit :=
  let volume := Volume bar in
  if volume =? 0 then ret tt
  else
    histories <- gets price_history ;;
    ph <- check KeyError 125 (get histories symbol) ;;
    sigma_lookback <- gets sigma_lookback ;;
    let buy_vol :=
      if (len ph <? sigma_lookback)%nat then volume * 0.5
      else
        let prices := items ph in
        let returns := Np.diff (map ln (last_items sigma_lookback prices)) in
        let sigma :=
          if (0 <? length returns)%nat then Np.std 0 returns else 0.01 in
        let price_change :=
          match from_end 1 prices with
          | Some last => ln (Close bar / last)
          | None => 0
          end in
        let z := if sigma >? 0 then price_change / sigma else 0 in
        let buy_prob := norm_cdf z in
        volume * buy_prob in
    buckets <- gets current_bucket ;;
    bucket <- check KeyError 147 (get buckets symbol) ;;
    let bucket :=
      {| Bucket.volume := Bucket.volume bucket + volume;
         Bucket.buy_volume := Bucket.buy_volume bucket + buy_vol;
         Bucket.trades :=
           Bucket.trades bucket ++
             [{| Trade.price := Close bar; Trade.volume := volume;
                 Trade.buy_volume := buy_vol |}] |} in
    modify (fun s => with_current_bucket
              (set (current_bucket s) symbol bucket) s) ;;
    bucket_size <- gets bucket_size ;;
    complete_buckets (Z.to_nat (up (Bucket.volume bucket / bucket_size)))
      symbol bucket.

Definition OnData (data : Slice) : Method unit :=
  warming <- gets (fun s => IsWarmingUp (base s)) ;;
  if warming then ret tt
  else
    for_each [SPY; QQQ] (fun symbol =>
      match get (Bars data) symbol with
      | None => ret tt
      | Some bar =>
          ProcessBarForVPIN symbol bar ;;
          histories <- gets price_history ;;
          ph <- check KeyError 110 (get histories symbol) ;;
          modify (fun s => with_price_history
                    (set (price_history s) symbol (append ph (Close bar))) s)
      end) ;;
    ManagePositions data.

End BulkVolumeClassification.

End VPIN.

(** ** Runs and specifications

    [wp c Q E s]: started in [s], the method [c] either returns a value
    and a state that satisfy [Q], or raises an exception and leaves a
    state that satisfy [E]. *)

Module Hoare.
Import Run.

Definition wp {S A} (c : M S A) (Q : A -> S -> Prop)
    (E : Exn -> nat -> S -> Prop) (s : S) : Prop :=
  match c s with
  | (Ok a, s') => Q a s'
  | (Raise e line, s') => E e line s'
  end.

(** [c] keeps [I], whether it returns or raises. *)
Definition preserves {S A} (I : S -> Prop) (c : M S A) : Prop :=
  forall s, I s -> wp c (fun _ => I) (fun _ _ => I) s.

(** every deque of the dictionary has capacity [cap] and is within it *)
Definition bounded {K A} (buffers : Py.dict K (Py.deque A)) (cap : nat) : Prop :=
  forall k d, In (k, d) buffers ->
    Py.maxlen d = cap /\ (Py.len d <= cap)%nat.

End Hoare.

(** The states a run of each script can reach: [Initialize], then any
    number of callbacks; in between, the engine may change the
    attributes it owns in any way. *)

Module EntropyRun.
Import Entropy.

Inductive reachable : EntropyRegimeDetector -> Prop :=
| reach_Initialize q : reachable (Initialize q)
| reach_engine s q : reachable s -> reachable (with_base q s)
| reach_OnData s data : reachable s -> reachable (snd (OnData data s))
| reach_AnalyzeRegimes s : reachable s -> reachable (snd (AnalyzeRegimes s)).

End EntropyRun.

Module FractalRun.
Import Fractal.

Inductive reachable : FractalDimensionBreakout -> Prop :=
| reach_Initialize q : reachable (Initialize q)
| reach_engine s q : reachable s -> reachable (with_base q s)
| reach_OnData s data : reachable s -> reachable (snd (OnData data s))
| reach_AnalyzeFractalDimension s :
    reachable s -> reachable (snd (AnalyzeFractalDimension s)).

End FractalRun.

Module VPINRun.
Import Engine VPIN.

Section Runs.
Variable norm_cdf : R -> R.

(** the slices the data feed may deliver *)
Variable feed : Slice -> Prop.

Inductive reachable : VPINToxicityDetector -> Prop :=
| reach_Initialize q : reachable (Initialize q)
| reach_engine s q : reachable s -> reachable (with_base q s)
| reach_OnData s data :
    feed data -> reachable s -> reachable (snd (OnData norm_cdf data s))
| reach_OnHourlyData s bar : reachable s -> reachable (snd (OnHourlyData bar s)).

End Runs.

End VPINRun.

(** ** Notions used in the statements and proofs *)

Module Perms.



End Perms.

Module Shannon.
Local Open Scope R_scope.


End Shannon.

Module EntropySpec.
Import Py Hoare Entropy.
Local Open Scope R_scope.

(** What the counting loop maintains *)
Definition counted (m : nat) (acc : dict (list nat) nat * nat) : Prop :=
  NoDup (keys (fst acc))
  /\ Forall (fun p => Permutation p (seq 0 m)) (keys (fst acc))
  /\ Forall (fun c => (1 <= c)%nat) (values (fst acc))
  /\ list_sum (values (fst acc)) = snd acc.


(** the capacities [Initialize] gives the deques *)
Definition buffers_bounded (s : EntropyRegimeDetector) : Prop :=
  bounded (price_buffer s) 125 /\ bounded (entropy_history s) 24.

End EntropySpec.

Module FractalSpec.
Import Py Hoare Fractal.
Local Open Scope R_scope.

(** the values [CalculateHurstExponent] may return *)
Definition hurst_range (h : R) : Prop := 0.01 <= h <= 0.99.

(** the capacities [Initialize] gives the deques *)
Definition buffers_bounded (s : FractalDimensionBreakout) : Prop :=
  bounded (price_buffer s) 150 /\ bounded (hurst_history s) 48.

(** every recorded Hurst exponent is in range, and every expected
    duration is at least one bar *)
Definition durations_positive (s : FractalDimensionBreakout) : Prop :=
  (forall k d, In (k, d) (hurst_history s) -> Forall hurst_range (items d))
  /\ Forall (fun bars => (1 <= bars)%Z) (values (expected_duration s)).

Definition invariant (s : FractalDimensionBreakout) : Prop :=
  buffers_bounded s /\ durations_positive s.

(** What CalculateHurstExponent computes on the way, as functions of the
    prices: the log returns of the last [hurst_lookback] prices, the lags,
    the points (lag, mean R/S) and the slope of their log-log regression. *)
Definition returns_of (s : FractalDimensionBreakout) (prices : list R) : list R :=
  Np.diff (map ln (last_items (hurst_lookback s) prices)).

Definition lags_of (s : FractalDimensionBreakout) (returns : list R) : list nat :=
  seq (min_lag s) (Nat.min (max_lag s) (length returns / 4) - min_lag s).

Definition rs_points (returns : list R) (lags : list nat) : list (nat * R) :=
  flat_map
    (fun lag =>
       match rs_of_lag returns lag with
       | [] => []
       | rs_subseries => [(lag, Np.mean rs_subseries)]
       end)
    lags.

Definition log_log_slope (rs_values : list (nat * R)) : R :=
  Np.linregress_slope
    (map (fun x => ln (INR (fst x))) rs_values)
    (map (fun x => ln (snd x)) rs_values).

End FractalSpec.

Module VPINSpec.
Import Py Hoare Engine VPIN.
Local Open Scope R_scope.

(** a bar as the data feed delivers it: the volume is not negative *)
Definition well_formed (data : Slice) : Prop :=
  forall symbol bar, In (symbol, bar) (Bars data) -> 0 <= Volume bar.

(** the accumulator of a bucket that is being filled *)
Definition accumulating (b : Bucket.t) : Prop :=
  0 <= Bucket.buy_volume b <= Bucket.volume b.

(** a completed bucket of size [size] *)
Definition balanced (size : R) (c : Completed.t) : Prop :=
  0 <= Completed.buy_volume c
  /\ 0 <= Completed.sell_volume c
  /\ Completed.buy_volume c + Completed.sell_volume c = size
  /\ Completed.order_imbalance c
     = Rabs (Completed.buy_volume c - Completed.sell_volume c).

(** a VPIN reading: a number of [0, 1] *)
Definition reading (o : option R) : Prop :=
  exists vpin, o = Some vpin /\ 0 <= vpin <= 1.

(** the capacities [Initialize] gives the deques *)
Definition buffers_bounded (s : VPINToxicityDetector) : Prop :=
  bounded (bucket_history s) 50
  /\ bounded (price_history s) 100
  /\ bounded (vpin_history s) 100.

Definition buckets_balanced (s : VPINToxicityDetector) : Prop :=
  0 < bucket_size s
  /\ (forall k b, In (k, b) (current_bucket s) -> accumulating b)
  /\ (forall k d, In (k, d) (bucket_history s) ->
        Forall (balanced (bucket_size s)) (items d))
  /\ (forall k d, In (k, d) (vpin_history s) -> Forall reading (items d)).

Definition invariant (s : VPINToxicityDetector) : Prop :=
  buffers_bounded s /\ buckets_balanced s.

(** what the bucket bookkeeping leaves as it is in [s0] *)
Definition outside_buckets (s0 s : VPINToxicityDetector) : Prop :=
  base s = base s0
  /\ bucket_size s = bucket_size s0
  /\ n_buckets s = n_buckets s0
  /\ price_history s = price_history s0
  /\ entry_prices s = entry_prices s0.

End VPINSpec.

(** A position that was closed outside the script: the engine reports no
    holdings, while the script still has the entry it recorded for SPY.
    One such state for each script, and a slice with a bar for SPY. *)

Module Scenario.
Import Py Engine.
Local Open Scope R_scope.

Definition no_holdings : QCAlgorithm :=
  {| IsWarmingUp := false; Time := 0; Quantity := fun _ => 0%Z;
     Price := fun _ => 100; TotalPortfolioValue := 100000 |}.

Definition spy_bar : Slice :=
  {| Bars := [(SPY, {| BarSymbol := SPY; Close := 100; Volume := 1000 |})] |}.

(** A run of the entropy script on hourly bars of SPY that close one
    dollar higher each, from 100 on: 120 bars, then the scheduled analysis
    six times, with one more bar before each but the first.  Before a bar
    is delivered the engine quotes its close; it reports no holdings.  The
    sixth analysis buys SPY; afterwards the position is closed outside the
    script. *)
Definition rising_close (i : nat) : R := IZR (100 + Z.of_nat i).

Definition rising_bar (i : nat) : Slice :=
  {| Bars := [(SPY, {| BarSymbol := SPY; Close := rising_close i; Volume := 1000 |})] |}.

Definition quoted (i : nat) : QCAlgorithm :=
  {| IsWarmingUp := false; Time := 0; Quantity := fun _ => 0%Z;
     Price := fun _ => rising_close i; TotalPortfolioValue := 100000 |}.

Definition entropy_bar (s : Entropy.EntropyRegimeDetector) (i : nat) :=
  snd (Entropy.OnData (rising_bar i) (Entropy.with_base (quoted i) s)).

Definition entropy_day (s : Entropy.EntropyRegimeDetector) (i : nat) :=
  snd (Entropy.AnalyzeRegimes (entropy_bar s i)).

Definition entropy_filled : Entropy.EntropyRegimeDetector :=
  fold_left entropy_bar (seq 0 120) (Entropy.Initialize no_holdings).

Definition entropy_bought : Entropy.EntropyRegimeDetector :=
  fold_left entropy_day (seq 120 5) (snd (Entropy.AnalyzeRegimes entropy_filled)).

Definition entropy_closed : Entropy.EntropyRegimeDetector :=
  Entropy.with_base (Engine.flatten (Entropy.base entropy_bought) SPY) entropy_bought.

(** Prices that rise strictly; the entropy object just after Initialize
    but for the prices [l] and the entropy readings [h] of SPY; and the
    object once the run above has bought. *)
Definition rising (prices : list R) : Prop :=
  forall i j, (i < j < length prices)%nat -> nth i prices 0 < nth j prices 0.

Definition entropy_with (q : QCAlgorithm) (l h : list R)
  : Entropy.EntropyRegimeDetector :=
  Entropy.with_entropy_history
    [(SPY, Deque 24 h); (QQQ, Deque 24 []); (IWM, Deque 24 [])]
    (Entropy.with_price_buffer
       [(SPY, Deque 125 l); (QQQ, Deque 125 []); (IWM, Deque 125 [])]
       (Entropy.Initialize q)).

Definition entropy_long (l : list R) : Entropy.EntropyRegimeDetector :=
  Entropy.with_stop_losses [(SPY, 224 * (1 - 0.03))]
    (Entropy.with_entry_prices [(SPY, 224)]
       (Entropy.with_regime_confidence [(SPY, 1); (QQQ, 0); (IWM, 0)]
          (Entropy.with_current_regime
             [(SPY, Some Entropy.trending); (QQQ, None); (IWM, None)]
             (entropy_with (Engine.fill (quoted 124) SPY 133) l (repeat 0 6))))).

Definition fractal_stale : Fractal.FractalDimensionBreakout :=
  Fractal.with_bars_held [(SPY, 0%Z)]
    (Fractal.with_expected_duration [(SPY, 12%Z)]
       (Fractal.with_entry_hurst [(SPY, 0.55)]
          (Fractal.with_entry_prices [(SPY, 100)]
             (Fractal.Initialize no_holdings)))).

(** One minute bar of SPY that carries fifty bucket sizes of volume, and
    the state of the VPIN script after OnData on it (the classifier
    splits every bar evenly). *)
Definition heavy_bar : Slice :=
  {| Bars := [(SPY, {| BarSymbol := SPY; Close := 100; Volume := 2500000 |})] |}.

Definition even_split (z : R) : R := 1 / 2.

Definition vpin_filled : VPIN.VPINToxicityDetector :=
  snd (VPIN.OnData even_split heavy_bar (VPIN.Initialize no_holdings)).

Definition vpin_stale : VPIN.VPINToxicityDetector :=
  VPIN.with_stop_losses [(SPY, 98)]
    (VPIN.with_entry_vpin [(SPY, 0.7)]
       (VPIN.with_entry_prices [(SPY, 100)] (VPIN.Initialize no_holdings))).

End Scenario.

(** ** Position bookkeeping

    Runs in which positions change through the orders of the script only:
    the engine starts without holdings and, between callbacks, changes
    none of the quantities. *)

Module Positions.
Import Py Engine.

(** [d] holds [symbol] exactly when [symbol] is held long *)
Definition tracks {V} (q : QCAlgorithm) (d : dict Symbol V) : Prop :=
  forall symbol, contains d symbol = (0 <? Quantity q symbol)%Z.

Definition not_short (q : QCAlgorithm) : Prop :=
  forall symbol, (0 <= Quantity q symbol)%Z.

Definition entropy_tracked (s : Entropy.EntropyRegimeDetector) : Prop :=
  not_short (Entropy.base s)
  /\ tracks (Entropy.base s) (Entropy.entry_prices s)
  /\ tracks (Entropy.base s) (Entropy.stop_losses s).

Definition fractal_tracked (s : Fractal.FractalDimensionBreakout) : Prop :=
  not_short (Fractal.base s)
  /\ tracks (Fractal.base s) (Fractal.entry_prices s)
  /\ tracks (Fractal.base s) (Fractal.entry_hurst s)
  /\ tracks (Fractal.base s) (Fractal.expected_duration s)
  /\ tracks (Fractal.base s) (Fractal.bars_held s).

Definition vpin_tracked (s : VPIN.VPINToxicityDetector) : Prop :=
  not_short (VPIN.base s)
  /\ tracks (VPIN.base s) (VPIN.entry_prices s)
  /\ tracks (VPIN.base s) (VPIN.entry_vpin s)
  /\ tracks (VPIN.base s) (VPIN.stop_losses s).

Inductive entropy_run : Entropy.EntropyRegimeDetector -> Prop :=
| entropy_start q :
    (forall symbol, Quantity q symbol = 0%Z) -> entropy_run (Entropy.Initialize q)
| entropy_engine s q :
    entropy_run s ->
    (forall symbol, Quantity q symbol = Quantity (Entropy.base s) symbol) ->
    entropy_run (Entropy.with_base q s)
| entropy_OnData s data :
    entropy_run s -> entropy_run (snd (Entropy.OnData data s))
| entropy_AnalyzeRegimes s :
    entropy_run s -> entropy_run (snd (Entropy.AnalyzeRegimes s)).

Inductive fractal_run : Fractal.FractalDimensionBreakout -> Prop :=
| fractal_start q :
    (forall symbol, Quantity q symbol = 0%Z) -> fractal_run (Fractal.Initialize q)
| fractal_engine s q :
    fractal_run s ->
    (forall symbol, Quantity q symbol = Quantity (Fractal.base s) symbol) ->
    fractal_run (Fractal.with_base q s)
| fractal_OnData s data :
    fractal_run s -> fractal_run (snd (Fractal.OnData data s))
| fractal_AnalyzeFractalDimension s :
    fractal_run s -> fractal_run (snd (Fractal.AnalyzeFractalDimension s)).

Section VPINRuns.
Variable norm_cdf : R -> R.

Inductive vpin_run : VPIN.VPINToxicityDetector -> Prop :=
| vpin_start q :
    (forall symbol, Quantity q symbol = 0%Z) -> vpin_run (VPIN.Initialize q)
| vpin_engine s q :
    vpin_run s ->
    (forall symbol, Quantity q symbol = Quantity (VPIN.base s) symbol) ->
    vpin_run (VPIN.with_base q s)
| vpin_OnData s data :
    vpin_run s -> vpin_run (snd (VPIN.OnData norm_cdf data s))
| vpin_OnHourlyData s bar :
    vpin_run s -> vpin_run (snd (VPIN.OnHourlyData bar s)).

End VPINRuns.

End Positions.

(** ** Runs of the fractal script on a feed of positive prices *)

Module FractalFeed.
Import Py Hoare Engine Fractal.
Local Open Scope R_scope.

(** a slice as the data feed delivers it: every close is positive *)
Definition positive_closes (data : Slice) : Prop :=
  forall symbol bar, In (symbol, bar) (Bars data) -> 0 < Close bar.

Inductive reachable : FractalDimensionBreakout -> Prop :=
| reach_Initialize q : reachable (Initialize q)
| reach_engine s q : reachable s -> reachable (with_base q s)
| reach_OnData s data :
    positive_closes data -> reachable s -> reachable (snd (OnData data s))
| reach_AnalyzeFractalDimension s :
    reachable s -> reachable (snd (AnalyzeFractalDimension s)).

(** nothing is recorded as held *)
Definition no_entries (s : FractalDimensionBreakout) : Prop :=
  entry_prices s = [] /\ entry_hurst s = []
  /\ expected_duration s = [] /\ bars_held s = [].

(** What the script keeps while it holds nothing: the buffered prices are
    positive, and a volatility above 0 is on record only for a symbol
    with twenty prices or more. *)
Definition idle (s : FractalDimensionBreakout) : Prop :=
  no_entries s
  /\ breakout_lookback s = 20%nat
  /\ bounded (price_buffer s) 150
  /\ Forall (fun d => Forall (Rlt 0) (items d)) (values (price_buffer s))
  /\ (forall symbol d vol,
         get (price_buffer s) symbol = Some d ->
         get (volatility s) symbol = Some vol ->
         0 < vol -> (20 <= len d)%nat).

(** the bars of [data] are the latest prices of their symbols *)
Definition latest (data : Slice) (done : list Symbol)
    (s : FractalDimensionBreakout) : Prop :=
  forall symbol bar,
    In symbol done -> get (Bars data) symbol = Some bar ->
    exists d, get (price_buffer s) symbol = Some d
              /\ from_end 1 (items d) = Some (Close bar).

(** the breakout levels are the extremes of the last twenty prices *)
Definition fresh (done : list Symbol) (s : FractalDimensionBreakout) : Prop :=
  forall symbol d,
    In symbol done -> get (price_buffer s) symbol = Some d ->
    (20 <= len d)%nat ->
    get (breakout_high s) symbol = Some (Np.max (last_items 20 (items d)))
    /\ get (breakout_low s) symbol = Some (Some (Np.min (last_items 20 (items d)))).

End FractalFeed.

(** ** Shapes of price series *)

Module Series.
Local Open Scope R_scope.

(** prices that never fall (a flat series included) *)
Definition non_decreasing (prices : list R) : Prop :=
  forall i j, (i <= j < length prices)%nat -> nth i prices 0 <= nth j prices 0.

End Series.

(** ** Exposure *)

Module Exposure.
Import Engine.

(** Every position of [q'] is the position of [q] or a part of it: no
    position has grown, and none has changed sides. *)
Definition reduced (q q' : QCAlgorithm) : Prop :=
  forall symbol,
    ((0 <= Quantity q symbol -> 0 <= Quantity q' symbol <= Quantity q symbol)
     /\ (Quantity q symbol <= 0 -> Quantity q symbol <= Quantity q' symbol <= 0))%Z.

End Exposure.

(** ** What DetectToxicityRegime reports *)

Module ToxicitySpec.
Import Py VPIN.
Local Open Scope R_scope.

(** a report on a history of [n] readings: a direction comes with a
    positive confidence, RISING in the normal regime and the other
    directions in the toxic one *)
Definition report (n : nat) (regime : option Toxicity)
    (direction : option Direction) (confidence : R) : Prop :=
  0 <= confidence <= 1
  /\ (regime = None <-> (n < 10)%nat)
  /\ (direction <> None -> 0 < confidence)
  /\ (direction = None -> confidence = 0)
  /\ (direction = Some RISING -> regime = Some normal)
  /\ (direction = Some LONG \/ direction = Some SHORT \/ direction = Some PENDING ->
        regime = Some toxic).

End ToxicitySpec.

(** ** What an hourly bar may change *)

Module Hourly.
Import Py Engine VPIN.
Local Open Scope R_scope.

(** the engine side, the entries and the signal times are as in [s] *)
Definition untouched (s s' : VPINToxicityDetector) : Prop :=
  base s' = base s
  /\ entry_prices s' = entry_prices s
  /\ entry_vpin s' = entry_vpin s
  /\ stop_losses s' = stop_losses s
  /\ last_signal_time s' = last_signal_time s.

(** a signal of [symbol] is less than an hour old *)
Definition rate_limited (s : VPINToxicityDetector) (symbol : Symbol) : Prop :=
  exists t, get (last_signal_time s) symbol = Some t
            /\ Time (base s) - t < 3600.

(** only [symbol] was traded, and it was not sold *)
Definition bought_only (symbol : Symbol) (q q' : QCAlgorithm) : Prop :=
  (Quantity q symbol <= Quantity q' symbol)%Z
  /\ forall other, other <> symbol -> Quantity q' other = Quantity q other.

End Hourly.

(** ** Order sizes *)

Module Sizing.
Import Engine.
Local Open Scope R_scope.

(** [shares] bought at [price] cost no more than [budget] *)
Definition within (budget price : R) (shares : Z) : Prop :=
  (0 <= shares)%Z /\ IZR shares * price <= budget.

(** the shares of [symbol] that [q'] holds more than [q] *)
Definition bought (q q' : QCAlgorithm) (symbol : Symbol) : Z :=
  (Quantity q' symbol - Quantity q symbol)%Z.

End Sizing.

(** ** Stops *)

Module Stops.
Import Py Engine.
Local Open Scope R_scope.

(** every stop of [after] was a stop of [before], and was not higher then *)
Definition ratcheted (before after : dict Symbol R) : Prop :=
  forall symbol stop',
    get after symbol = Some stop' ->
    exists stop, get before symbol = Some stop /\ stop <= stop'.

End Stops.

(** ** The open buckets of the VPIN script *)

Module Buckets.
Import Py Engine VPIN.
Local Open Scope R_scope.

(** a symbol with an open bucket has its two histories *)
Definition keyed (s : VPINToxicityDetector) : Prop :=
  forall symbol,
    contains (current_bucket s) symbol = true ->
    contains (bucket_history s) symbol = true
    /\ contains (vpin_history s) symbol = true.

(** every open bucket, but the one of [skip], holds less than a bucket *)
Definition drained_but (skip : option Symbol) (s : VPINToxicityDetector) : Prop :=
  0 < bucket_size s
  /\ keyed s
  /\ forall symbol b,
       Some symbol <> skip ->
       get (current_bucket s) symbol = Some b ->
       Bucket.volume b < bucket_size s.

Definition drained : VPINToxicityDetector -> Prop := drained_but None.

End Buckets.

(** ** What the callbacks of the entropy script can raise *)

Module EntropyFaults.
Import Py Run Engine Entropy.

(** The dictionaries as the script keeps them: each of its symbols has a
    price buffer, an entropy history and a regime, and a stop is on
    record exactly for the symbols with an entry price. *)
Definition wired (s : EntropyRegimeDetector) : Prop :=
  (forall symbol, In symbol [SPY; QQQ; IWM] ->
     contains (price_buffer s) symbol = true
     /\ contains (entropy_history s) symbol = true
     /\ contains (current_regime s) symbol = true)
  /\ (forall symbol,
        contains (stop_losses s) symbol = contains (entry_prices s) symbol).

(** the divisions of lines 206 and 247 *)
Definition division (e : Exn) (line : nat) : Prop :=
  (e = ZeroDivisionError /\ line = 206%nat)
  \/ (e = ArithmeticError /\ line = 247%nat).

End EntropyFaults.

(** ** What the callbacks of the fractal script can raise *)

Module FractalFaults.
Import Py Run Engine Fractal.

(** The dictionaries as the script keeps them: the three symbols have a
    price buffer and a Hurst history, the two traded symbols have a
    volatility and breakout levels, and a Hurst exponent and an expected
    duration are on record exactly for the symbols with an entry price. *)
Definition linked (s : FractalDimensionBreakout) : Prop :=
  (forall symbol, In symbol [SPY; QQQ; TLT] ->
     contains (price_buffer s) symbol = true
     /\ contains (hurst_history s) symbol = true)
  /\ (forall symbol, In symbol [SPY; QQQ] ->
        contains (volatility s) symbol = true
        /\ contains (breakout_high s) symbol = true
        /\ contains (breakout_low s) symbol = true)
  /\ (forall symbol,
        contains (entry_hurst s) symbol = contains (entry_prices s) symbol
        /\ contains (expected_duration s) symbol
           = contains (entry_prices s) symbol)
  /\ NoDup (keys (entry_prices s))
  /\ min_lag s = 2%nat
  /\ breakout_lookback s = 20%nat.

(** in the loop of ManagePositions: the symbols still to visit are
    distinct and have their entry *)
Definition pending (rest : list Symbol) (s : FractalDimensionBreakout) : Prop :=
  linked s /\ NoDup rest
  /\ (forall symbol, In symbol rest -> contains (entry_prices s) symbol = true).

(** the divisions of lines 257, 274 and 305 *)
Definition division (e : Exn) (line : nat) : Prop :=
  (e = ArithmeticError /\ line = 257%nat)
  \/ (e = ArithmeticError /\ line = 274%nat)
  \/ (e = ZeroDivisionError /\ line = 305%nat).

End FractalFaults.

(** ** What the callbacks of the VPIN script can raise *)

Module VPINFaults.
Import Py Run Engine VPIN.

(** The dictionaries as the script keeps them: the two symbols have an
    open bucket, a bucket history and a VPIN history; a price history and
    a toxicity state exist exactly for the symbols with a VPIN history;
    an entry is on record only for such a symbol, and a stop exactly for
    the symbols with an entry. *)
Definition attached (s : VPINToxicityDetector) : Prop :=
  (forall symbol, In symbol [SPY; QQQ] ->
     contains (current_bucket s) symbol = true
     /\ contains (bucket_history s) symbol = true
     /\ contains (vpin_history s) symbol = true)
  /\ (forall symbol,
        contains (price_history s) symbol = contains (vpin_history s) symbol
        /\ contains (toxicity_state s) symbol
           = contains (vpin_history s) symbol)
  /\ (forall symbol,
        contains (entry_prices s) symbol = true ->
        contains (vpin_history s) symbol = true)
  /\ (forall symbol,
        contains (stop_losses s) symbol = contains (entry_prices s) symbol)
  /\ NoDup (keys (entry_prices s)).

(** in the loop of ManagePositions: the symbols still to visit are
    distinct and have their entry *)
Definition queued (rest : list Symbol) (s : VPINToxicityDetector) : Prop :=
  attached s /\ NoDup rest
  /\ (forall symbol, In symbol rest -> contains (entry_prices s) symbol = true).

End VPINFaults.

(** ** The orders of the entropy script's analysis *)

Module Rebalance.
Import Py Run Engine Entropy.
Local Open Scope R_scope.

(** From [q] to [q']: a long position was kept or reduced, never added
    to; of a symbol that was not held long, shares were bought for no
    more than [budget] at its price, or none. *)
Definition rebalanced (budget : R) (q q' : QCAlgorithm) : Prop :=
  forall symbol,
    ((0 < Quantity q symbol)%Z ->
       (0 <= Quantity q' symbol <= Quantity q symbol)%Z)
    /\ ((Quantity q symbol <= 0)%Z ->
          Sizing.within budget (Price q symbol) (Sizing.bought q q' symbol)).

(** From [q] to [q']: a long position was kept, reduced or closed; of a
    symbol that was not held long, shares were bought, or none. *)
Definition long_only (q q' : QCAlgorithm) : Prop :=
  forall symbol,
    ((0 < Quantity q symbol)%Z ->
       (0 <= Quantity q' symbol <= Quantity q symbol)%Z)
    /\ ((Quantity q symbol <= 0)%Z ->
          (0 <= Sizing.bought q q' symbol)%Z).

(** the signals of AnalyzeRegimes: one for a symbol, and BUY only for a
    symbol that is not held long, with a confidence of [0, 1] *)
Definition signalled (q : QCAlgorithm) (signals : dict Symbol (Action * R))
  : Prop :=
  NoDup (keys signals)
  /\ (forall symbol confidence,
        In (symbol, (BUY, confidence)) signals ->
        (Quantity q symbol <= 0)%Z /\ 0 <= confidence <= 1).

(** in the loop of ExecuteSignals, with the signals [rest] to come: the
    symbols to come are as they were in [s] *)
Definition executing (s : EntropyRegimeDetector)
    (rest : dict Symbol (Action * R)) (s' : EntropyRegimeDetector) : Prop :=
  Price (base s') = Price (base s)
  /\ TotalPortfolioValue (base s') = TotalPortfolioValue (base s)
  /\ max_position_size s' = max_position_size s
  /\ signalled (base s) rest
  /\ (forall symbol, In symbol (keys rest) ->
        Quantity (base s') symbol = Quantity (base s) symbol)
  /\ rebalanced (TotalPortfolioValue (base s) * max_position_size s)
       (base s) (base s').

End Rebalance.

(** ** The orders of the fractal script *)

Module FractalOrders.
Import Py Engine Fractal.

(** the four records of a position in [symbol] taken at [price] *)
Definition entered (s : FractalDimensionBreakout) (symbol : Symbol)
    (price hurst : R) : Prop :=
  get (entry_prices s) symbol = Some price
  /\ get (entry_hurst s) symbol = Some hurst
  /\ get (expected_duration s) symbol = Some (EstimateMoveDuration hurst)
  /\ get (bars_held s) symbol = Some 0%Z.

(** the position of [symbol] once a hedge has closed it when it was long *)
Definition closed_long (q q' : QCAlgorithm) (symbol : Symbol) : Prop :=
  Quantity q' symbol = Z.min (Quantity q symbol) 0.

End FractalOrders.

(** ** The scripts on binary64

    The modules above read the scripts' floats as real numbers: they
    are the scripts in exact arithmetic.  Python computes on binary64,
    and where a property turns on rounding the lines in question are
    embedded once more here, on the kernel's binary64 floats, whose
    operations round to nearest as the processor's do. *)

Module Binary64.
Import PrimFloat.

(** a Python int where a float is wanted *)
Definition of_nat (n : nat) : float := of_uint63 (Uint63.of_Z (Z.of_nat n)).

End Binary64.

(** *** vpin-toxicity-detector, lines 144-199 *)

Module VPIN64.
Import Py PrimFloat Binary64.
Local Open Scope float_scope.

(** an item of [bucket_history] *)
Module Completed.
Record t := { buy_volume : float; sell_volume : float; order_imbalance : float }.
End Completed.

(** What lines 144-199 read and write for one symbol: the two
    parameters, the volumes of [current_bucket[symbol]] (its [trades]
    are written and never read), [bucket_history[symbol]] and
    [vpin_history[symbol]]. *)
Record Books := {
  bucket_size : float;
  n_buckets : nat;
  volume : float;
  buy_volume : float;
  bucket_history : deque Completed.t;
  vpin_history : deque (option float)
}.

(** the books of a symbol as [Initialize] leaves them *)
Definition Initialize : Books :=
  {| bucket_size := 50000; n_buckets := 50; volume := 0; buy_volume := 0;
     bucket_history := Deque 50 []; vpin_history := Deque 100 [] |}.

(** Lines 189-199.  [sum] adds from the left, starting at 0;
    [n_buckets * bucket_size] is a product of two ints in the script. *)
Definition CalculateVPIN (b : Books) : option float :=
  if (len (bucket_history b) <? n_buckets b)%nat then None
  else
    let buckets := last_items (n_buckets b) (items (bucket_history b)) in
    let total_imbalance :=
      fold_left add (map Completed.order_imbalance buckets) 0 in
    let total_volume := of_nat (n_buckets b) * bucket_size b in
    Some (if 0 <? total_volume then total_imbalance / total_volume else 0).

(** The [while] loop of lines 157-182; [None] when [fuel] rounds do not
    end it. *)
Fixpoint complete_buckets (fuel : nat) (b : Books) : option Books :=
  if bucket_size b <=? volume b then
    match fuel with
    | O => None
    | S fuel' =>
        let overflow := volume b - bucket_size b in
        let overflow_ratio :=
          if 0 <? volume b then overflow / volume b else 0 in
        let final_buy := buy_volume b * (1 - overflow_ratio) in
        let final_sell := bucket_size b - final_buy in
        let history :=
          append (bucket_history b)
            {| Completed.buy_volume := final_buy;
               Completed.sell_volume := final_sell;
               Completed.order_imbalance := abs (final_buy - final_sell) |} in
        let b1 :=
          {| bucket_size := bucket_size b; n_buckets := n_buckets b;
             volume := volume b; buy_volume := buy_volume b;
             bucket_history := history; vpin_history := vpin_history b |} in
        let vpins :=
          if (n_buckets b <=? len history)%nat
          then append (vpin_history b) (CalculateVPIN b1)
          else vpin_history b in
        let new_buy_vol := buy_volume b * overflow_ratio in
        complete_buckets fuel'
          {| bucket_size := bucket_size b; n_buckets := n_buckets b;
             volume := overflow; buy_volume := new_buy_vol;
             bucket_history := history; vpin_history := vpins |}
    end
  else Some b.


End VPIN64.

(** *** entropy-regime-detector, lines 96-134 *)

Module Entropy64.
Import Py PrimFloat Binary64.
Local Open Scope float_scope.

(** [sorted(l, key=key)] with float keys *)
Fixpoint insert_by {A} (key : A -> float) (x : A) (l : list A) : list A :=
  match l with
  | [] => [x]
  | y :: l' =>
      if key y <? key x then y :: insert_by key x l'
      else x :: y :: l'
  end.

Definition sorted {A} (key : A -> float) (l : list A) : list A :=
  fold_right (insert_by key) [] l.

(** lines 112 and 115 *)
Definition ordinal_pattern (m tau : nat) (prices : list float) (i : nat)
  : list nat :=
  let embedding := map (fun j => nth (i + j * tau) prices 0) (seq 0 m) in
  sorted (fun k => nth k embedding 0) (seq 0 m).

(** lines 110-118 *)
Definition count_patterns (m tau : nat) (prices : list float) (count : nat)
  : dict (list nat) nat * nat :=
  fold_left
    (fun (acc : dict (list nat) nat * nat) i =>
       let pattern := ordinal_pattern m tau prices i in
       (set (fst acc) pattern (get_default (fst acc) pattern 0 + 1)%nat,
        (snd acc + 1)%nat))
    (seq 0 count) ([], 0%nat).

Section Log2.

(** [math.log2], a function of the C library *)
Variable log2 : float -> float.

(** lines 124-128; [count / total_patterns] divides two ints *)
Definition shannon_entropy (counts : list nat) (total_patterns : nat) : float :=
  fold_left
    (fun entropy count =>
       let p := of_nat count / of_nat total_patterns in
       if 0 <? p then entropy - p * log2 p else entropy)
    counts 0.

Definition CalculatePermutationEntropy (m tau : nat) (prices : list float)
  : option float :=
  let n := length prices in
  if (Z.of_nat n <? Z.of_nat m + (Z.of_nat m - 1) * Z.of_nat tau)%Z then None
  else
    let windows := Z.to_nat (Z.of_nat n - (Z.of_nat m - 1) * Z.of_nat tau) in
    let (pattern_counts, total_patterns) := count_patterns m tau prices windows in
    if (total_patterns =? 0)%nat then None
    else
      let entropy := shannon_entropy (values pattern_counts) total_patterns in
      let max_entropy := log2 (of_nat (fact m)) in
      Some (if 0 <? max_entropy then entropy / max_entropy else 0).

End Log2.

End Entropy64.

(** *** Runs on which binary64 and exact arithmetic part *)

Module Rounding.
Import Py PrimFloat.
Local Open Scope float_scope.
#[local] Set Warnings "-inexact-float".



(** [math.log2] at the arguments the two runs below pass to it *)
Definition log2 (x : float) : float :=
  if x =? 1 then 0
  else if x =? 120 then 6.906890595608519
  else if x =? 1 / 120 then -6.906890595608519
  else if x =? 1 / 5 then -2.321928094887362
  else nan.


(** nine prices, and the affine map of scale 1e-17 and shift 1 as
    binary64 computes it *)
Definition ramp : list float := [1; 2; 3; 4; 5; 4; 3; 2; 1].

Definition scale : float := 1e-17.

Definition shift : float := 1.

Definition squeeze (p : float) : float := scale * p + shift.

End Rounding.

(** ** Lists of prices in the same order *)

Module Ordinal.
Local Open Scope R_scope.

(** [q] has the length of [p] and orders every two places as [p] does *)
Definition same_order (p q : list R) : Prop :=
  length q = length p
  /\ forall i j, (i < length p)%nat -> (j < length p)%nat ->
       (nth i p 0 < nth j p 0 <-> nth i q 0 < nth j q 0).

End Ordinal.

(** ** Sample inputs *)

Module Samples.
Local Open Scope R_scope.

(** a hundred prices that alternate between 1 and 2 *)
Definition zigzag : list R := concat (repeat [1; 2] 50).

(** nine prices that rise and fall *)
Definition hill : list R := [1; 2; 3; 4; 5; 4; 3; 2; 1].

End Samples.

(** ** Bars of a volume that binary64 holds exactly *)

Module Feed.
Import Engine.
Local Open Scope R_scope.

(** a slice whose bars carry at most 10^15 shares each *)
Definition modest (data : Slice) : Prop :=
  forall symbol bar,
    In (symbol, bar) (Bars data) -> 0 <= Volume bar <= 10 ^ 15.

End Feed.

(** ** The parameters of the estimators, as Initialize sets them *)

Module Parameters.
Local Open Scope R_scope.

Definition entropy (s : Entropy.EntropyRegimeDetector) : Prop :=
  Entropy.embedding_dim s = 5%nat /\ Entropy.tau s = 1%nat.

Definition fractal (s : Fractal.FractalDimensionBreakout) : Prop :=
  Fractal.hurst_lookback s = 100%nat
  /\ Fractal.min_lag s = 2%nat /\ Fractal.max_lag s = 20%nat.

Definition vpin (s : VPIN.VPINToxicityDetector) : Prop :=
  VPIN.n_buckets s = 50%nat /\ VPIN.bucket_size s = 50000.

End Parameters.

(** ** A call with a list argument

    Python hands [prices] to a method by reference: the callee works on
    the caller's list object and could store into it.  A frame keeps the
    list objects in a store beside the algorithm object, and a method
    takes the reference; every statement of the two estimators that
    touches [prices] is an operation on the store. *)

Module Call.
Import Py Run.
Local Open Scope R_scope.
Local Open Scope run_scope.

Definition Ref := nat.

Record Frame (S : Type) := { self : S; store : list (list R) }.

Section Store.
Context {S : Type}.

(** a statement on the algorithm object *)
Definition on_self {A} (c : M S A) : M (Frame S) A :=
  fun frame =>
    let (r, s') := c (self frame) in
    (r, {| self := s'; store := store frame |}).

(** the items of the object at [x], read *)
Definition items_of (x : Ref) : M (Frame S) (list R) :=
  gets (fun frame => nth x (store frame) []).

(** a new object *)
Definition new (l : list R) : M (Frame S) Ref :=
  fun frame =>
    (Ok (length (store frame)),
     {| self := self frame; store := store frame ++ [l] |}).

(** [len(x)] *)
Definition len_of (x : Ref) : M (Frame S) nat :=
  l <- items_of x ;; ret (length l).

(** [np.array(x)]: an array with the items of [x] *)
Definition np_array (x : Ref) : M (Frame S) Ref :=
  l <- items_of x ;; new l.

(** [x[-k:]]: a list with the last [k] items of [x] *)
Definition slice_last (k : nat) (x : Ref) : M (Frame S) Ref :=
  l <- items_of x ;; new (last_items k l).

End Store.

(** Lines 96-134 of the entropy script.  Line 99 binds the name [prices]
    to an array made from the argument; from there on the method reads
    the array. *)
Definition CalculatePermutationEntropy (prices : Ref)
  : M (Frame Entropy.EntropyRegimeDetector) (option R) :=
  m <- on_self (gets Entropy.embedding_dim) ;;
  tau <- on_self (gets Entropy.tau) ;;
  n <- len_of prices ;;
  if (Z.of_nat n <? Z.of_nat m + (Z.of_nat m - 1) * Z.of_nat tau)%Z
  then ret None
  else
    prices <- np_array prices ;;
    n <- len_of prices ;;
    let windows := Z.to_nat (Z.of_nat n - (Z.of_nat m - 1) * Z.of_nat tau) in
    embedded <- items_of prices ;;
    let (pattern_counts, total_patterns) :=
      Entropy.count_patterns m tau embedded windows in
    if (total_patterns =? 0)%nat then ret None
    else
      let entropy :=
        Entropy.shannon_entropy (values pattern_counts) total_patterns in
      let max_entropy := Np.log2 (INR (fact m)) in
      let normalized_entropy :=
        if 0 <? max_entropy then entropy / max_entropy else 0 in
      ret (Some normalized_entropy).

(** Lines 108-159 of the fractal script.  Line 111 slices the argument,
    which makes a list, and binds the name [prices] to an array made from
    the slice; from there on the method reads the array. *)
Definition CalculateHurstExponent (prices : Ref)
  : M (Frame Fractal.FractalDimensionBreakout) (option R) :=
  hurst_lookback <- on_self (gets Fractal.hurst_lookback) ;;
  n <- len_of prices ;;
  if (n <? hurst_lookback)%nat then ret None
  else
    window <- slice_last hurst_lookback prices ;;
    prices <- np_array window ;;
    closes <- items_of prices ;;
    let returns := Np.diff (map ln closes) in
    max_lag <- on_self (gets Fractal.max_lag) ;;
    if (length returns <? max_lag)%nat then ret None
    else
      min_lag <- on_self (gets Fractal.min_lag) ;;
      let stop := Nat.min max_lag (length returns / 4) in
      let lags := seq min_lag (stop - min_lag) in
      rs_values <-
        for_fold lags ([] : list (nat * R)) (fun rs_values lag =>
          if (lag =? 0)%nat then raise ZeroDivisionError 122
          else
            let rs_subseries := Fractal.rs_of_lag returns lag in
            match rs_subseries with
            | [] => ret rs_values
            | _ => ret (rs_values ++ [(lag, Np.mean rs_subseries)])
            end) ;;
      if (length rs_values <? 3)%nat then ret None
      else
        let lags_log := map (fun x => ln (INR (fst x))) rs_values in
        let rs_log := map (fun x => ln (snd x)) rs_values in
        let slope := Np.linregress_slope lags_log rs_log in
        let hurst := Rmax 0.01 (Rmin 0.99 slope) in
        ret (Some hurst).

End Call.

(** * Facts *)

(** ** Python containers *)

Module PyFacts.
Import Py.
Local Open Scope R_scope.

Lemma Rltb_true x y : (x <? y) = true <-> x < y.
Proof. unfold Rltb; destruct (Rlt_dec x y); split; intros; try easy. Qed.

Lemma Rltb_false x y : (x <? y) = false <-> y <= x.
Proof.
  unfold Rltb; destruct (Rlt_dec x y); split; intros; try easy; lra.
Qed.

Lemma Rleb_true x y : (x <=? y) = true <-> x <= y.
Proof. unfold Rleb; destruct (Rle_dec x y); split; intros; try easy. Qed.

Lemma Rleb_false x y : (x <=? y) = false <-> y < x.
Proof.
  unfold Rleb; destruct (Rle_dec x y); split; intros; try easy; lra.
Qed.

Lemma Reqb_true x y : (x =? y) = true <-> x = y.
Proof. unfold Reqb; destruct (Req_dec_T x y); split; intros; try easy. Qed.

Lemma Reqb_false x y : (x =? y) = false <-> x <> y.
Proof. unfold Reqb; destruct (Req_dec_T x y); split; intros; try easy. Qed.

Lemma Rltb_spec x y : reflect (x < y) (x <? y).
Proof.
  destruct (x <? y) eqn:E; constructor.
  - now apply Rltb_true.
  - apply Rltb_false in E; lra.
Qed.

Lemma Rleb_spec x y : reflect (x <= y) (x <=? y).
Proof.
  destruct (x <=? y) eqn:E; constructor.
  - now apply Rleb_true.
  - apply Rleb_false in E; lra.
Qed.

(** *** sorted *)

Lemma insert_by_perm {A} (key : A -> R) x l :
  Permutation (insert_by key x l) (x :: l).
Proof.
  induction l as [|y l IH]; simpl; [reflexivity|].
  destruct (key y <? key x); [|reflexivity].
  rewrite IH. apply perm_swap.
Qed.

Lemma sorted_perm {A} (key : A -> R) l : Permutation (sorted key l) l.
Proof.
  induction l as [|x l IH]; simpl; [reflexivity|].
  unfold sorted in *; simpl. rewrite insert_by_perm. now constructor.
Qed.

(** The result depends on the keys only through their comparisons. *)
Lemma insert_by_ext {A} (key1 key2 : A -> R) x l :
  (forall y, In y l -> (key1 y <? key1 x) = (key2 y <? key2 x)) ->
  insert_by key1 x l = insert_by key2 x l.
Proof.
  induction l as [|y l IH]; simpl; intros Hc; [reflexivity|].
  rewrite <- (Hc y (or_introl eq_refl)).
  destruct (key1 y <? key1 x); [|reflexivity].
  f_equal. apply IH. intros z Hz. apply Hc. now right.
Qed.

Lemma sorted_ext {A} (key1 key2 : A -> R) l :
  (forall x y, In x l -> In y l -> (key1 y <? key1 x) = (key2 y <? key2 x)) ->
  sorted key1 l = sorted key2 l.
Proof.
  induction l as [|x l IH]; intros Hc; [reflexivity|].
  unfold sorted in *; simpl.
  rewrite IH by (intros; apply Hc; now right).
  apply insert_by_ext. intros y Hy. apply Hc; [now left|].
  right. fold (sorted key2 l) in Hy.
  eapply Permutation_in; [apply sorted_perm | exact Hy].
Qed.

(** *** dict *)
Section DictFacts.
Context {K V : Type} `{EqDec K}.
Implicit Types (d : dict K V) (k : K) (v : V).

Lemma get_set_eq d k v : get (set d k v) k = Some v.
Proof.
  induction d as [|[k' v'] d IH]; simpl.
  - destruct (eq_dec k k); congruence.
  - destruct (eq_dec k k') as [->|Hne]; simpl.
    + destruct (eq_dec k' k'); congruence.
    + destruct (eq_dec k k'); congruence.
Qed.

Lemma get_set_ne d k k' v : k <> k' -> get (set d k v) k' = get d k'.
Proof.
  intros Hne. induction d as [|[k0 v0] d IH]; simpl.
  - destruct (eq_dec k' k); congruence.
  - destruct (eq_dec k k0) as [->|Hne0]; simpl.
    + destruct (eq_dec k' k0); congruence.
    + destruct (eq_dec k' k0); congruence.
Qed.

Lemma get_del_eq d k : get (del d k) k = None.
Proof.
  induction d as [|[k' v'] d IH]; simpl; [reflexivity|].
  destruct (eq_dec k k') as [->|Hne]; simpl; [assumption|].
  destruct (eq_dec k k'); congruence.
Qed.

Lemma get_del_ne d k k' : k <> k' -> get (del d k) k' = get d k'.
Proof.
  intros Hne. induction d as [|[k0 v0] d IH]; simpl; [reflexivity|].
  destruct (eq_dec k k0) as [->|Hne0]; simpl.
  - destruct (eq_dec k' k0); congruence.
  - destruct (eq_dec k' k0); congruence.
Qed.

Lemma get_In d k v : get d k = Some v -> In (k, v) d.
Proof.
  induction d as [|[k' v'] d IH]; simpl; [discriminate|].
  destruct (eq_dec k k') as [->|Hne]; intros E.
  - left; congruence.
  - right; auto.
Qed.

Lemma get_None_keys d k : get d k = None <-> ~ In k (keys d).
Proof.
  induction d as [|[k' v'] d IH]; simpl; [tauto|].
  destruct (eq_dec k k') as [->|Hne].
  - split; [discriminate|]. intros Hn; exfalso; apply Hn; now left.
  - rewrite IH. split; intros Hn; [intros [E|Hin]; [congruence|tauto]|tauto].
Qed.

Lemma contains_keys d k : contains d k = true <-> In k (keys d).
Proof.
  unfold contains. destruct (get d k) eqn:E.
  - split; [intros _|reflexivity].
    apply get_In in E. unfold keys. now apply (in_map fst) in E.
  - apply get_None_keys in E. split; [discriminate|tauto].
Qed.

Lemma keys_set d k v :
  keys (set d k v) = if contains d k then keys d else keys d ++ [k].
Proof.
  unfold contains.
  induction d as [|[k' v'] d IH]; simpl; [reflexivity|].
  destruct (eq_dec k k') as [->|Hne]; simpl; [reflexivity|].
  rewrite IH. now destruct (get d k).
Qed.

Lemma keys_del d k : keys (del d k) = filter (fun k' => if eq_dec k k' then false else true) (keys d).
Proof.
  induction d as [|[k' v'] d IH]; simpl; [reflexivity|].
  destruct (eq_dec k k'); simpl; now rewrite IH.
Qed.

Lemma In_values_set d k v x :
  In x (values (set d k v)) -> x = v \/ In x (values d).
Proof.
  induction d as [|[k' v'] d IH]; simpl.
  - intros [E|[]]; now left.
  - destruct (eq_dec k k'); simpl.
    + intros [E|Hin]; [now left|right; now right].
    + intros [E|Hin]; [right; now left|].
      destruct (IH Hin); [now left|right; now right].
Qed.

Lemma In_values_del d k x : In x (values (del d k)) -> In x (values d).
Proof.
  induction d as [|[k' v'] d IH]; simpl; [easy|].
  destruct (eq_dec k k'); simpl; [intros Hin; right; auto|].
  intros [E|Hin]; [now left|right; auto].
Qed.

Lemma In_values_get d x : In x (values d) -> exists k, In (k, x) d.
Proof.
  unfold values. intros Hin. apply in_map_iff in Hin as [[k v] [E Hin]].
  simpl in E; subst. now exists k.
Qed.

Lemma NoDup_keys_set d k v : NoDup (keys d) -> NoDup (keys (set d k v)).
Proof.
  intros Hnd. rewrite keys_set. destruct (contains d k) eqn:E; [assumption|].
  assert (Hn : ~ In k (keys d)).
  { intros Hin. apply contains_keys in Hin. congruence. }
  apply NoDup_app; [assumption|repeat constructor; easy|].
  intros x Hx [<-|[]]. tauto.
Qed.

End DictFacts.

(** *** more on dict and list *)

Lemma In_set {K V} `{EqDec K} (d : dict K V) k v k' v' :
  In (k', v') (set d k v) -> (k' = k /\ v' = v) \/ In (k', v') d.
Proof.
  induction d as [|[k0 v0] d IH]; simpl.
  - intros [E|[]]. left. now inversion E.
  - destruct (eq_dec k k0) as [->|Hne]; simpl.
    + intros [E|Hin]; [left; now inversion E|right; now right].
    + intros [E|Hin]; [right; now left|].
      destruct (IH Hin); [now left|right; now right].
Qed.

Lemma Forall_values_set {K V} `{EqDec K} (P : V -> Prop) (d : dict K V) k v :
  Forall P (values d) -> P v -> Forall P (values (set d k v)).
Proof.
  intros Hd Hv. apply Forall_forall. intros x Hx.
  apply In_values_set in Hx as [->|Hx]; [assumption|].
  revert x Hx. now apply Forall_forall.
Qed.

Lemma Forall_keys_set {K V} `{EqDec K} (P : K -> Prop) (d : dict K V) k v :
  Forall P (keys d) -> P k -> Forall P (keys (set d k v)).
Proof.
  intros Hd Hk. rewrite keys_set. destruct (contains d k); [assumption|].
  apply Forall_app. split; [assumption|now constructor].
Qed.

Lemma Forall_items_append {A} (P : A -> Prop) (d : deque A) x :
  Forall P (items d) -> P x -> Forall P (items (append d x)).
Proof.
  intros Hd Hx. unfold append; simpl.
  apply Forall_forall. intros y Hy.
  assert (Hin : In y (items d ++ [x])).
  { rewrite <- (firstn_skipn (length (items d ++ [x]) - maxlen d)).
    apply in_or_app. now right. }
  apply in_app_or in Hin as [Hin|[<-|[]]]; [|assumption].
  clear Hy. revert y Hin. now apply Forall_forall.
Qed.

Lemma from_end_In {A} k (l : list A) x : from_end k l = Some x -> In x l.
Proof.
  unfold from_end. destruct (_ || _); [discriminate|]. apply nth_error_In.
Qed.

Lemma In_values {K V} `{EqDec K} (d : dict K V) k v :
  get d k = Some v -> In v (values d).
Proof.
  intros Hg. apply get_In in Hg. unfold values.
  now apply (in_map snd) in Hg.
Qed.

Lemma Forall_values_del {K V} `{EqDec K} (P : V -> Prop) (d : dict K V) k :
  Forall P (values d) -> Forall P (values (del d k)).
Proof.
  intros Hd. apply Forall_forall. intros x Hx.
  apply In_values_del in Hx. revert x Hx. now apply Forall_forall.
Qed.

Lemma Forall_last_items {A} (P : A -> Prop) k (l : list A) :
  Forall P l -> Forall P (last_items k l).
Proof.
  intros Hl. unfold last_items. destruct (k =? 0)%nat; [assumption|].
  apply Forall_forall. intros x Hx. rewrite Forall_forall in Hl. apply Hl.
  rewrite <- (firstn_skipn (length l - k)). apply in_or_app. now right.
Qed.

Lemma length_last_items {A} k (l : list A) :
  (k <= length l)%nat -> (k <> 0)%nat -> length (last_items k l) = k.
Proof.
  intros Hk Hk0. unfold last_items.
  destruct (Nat.eqb_spec k 0); [contradiction|].
  rewrite length_skipn. lia.
Qed.

(** *** deque *)

Lemma len_append {A} (d : deque A) x :
  len (append d x) = Nat.min (len d + 1) (maxlen d).
Proof.
  unfold len, append; simpl. rewrite length_skipn, length_app; simpl. lia.
Qed.

Lemma maxlen_append {A} (d : deque A) x : maxlen (append d x) = maxlen d.
Proof. reflexivity. Qed.

Lemma append_not_full {A} (d : deque A) x :
  (len d < maxlen d)%nat -> items (append d x) = items d ++ [x].
Proof.
  unfold len, append; simpl; intros Hl.
  rewrite length_app; simpl.
  replace (length (items d) + 1 - maxlen d)%nat with 0%nat by lia.
  reflexivity.
Qed.

Lemma append_full {A} (d : deque A) x :
  len d = maxlen d -> (0 < maxlen d)%nat ->
  items (append d x) = tl (items d) ++ [x].
Proof.
  unfold len, append; simpl; intros Hl Hpos.
  rewrite length_app; simpl.
  replace (length (items d) + 1 - maxlen d)%nat with 1%nat by lia.
  destruct (items d); simpl in *; [lia|reflexivity].
Qed.

End PyFacts.

(** ** Counting permutations *)

Module PermsFacts.
Import Perms.








End PermsFacts.

(** ** Shannon entropy of a distribution of counts *)

Module ShannonFacts.
Import Py PyFacts Shannon.
Local Open Scope R_scope.


Lemma ln_2_pos : 0 < ln 2.
Proof. pose proof ln_lt_2. lra. Qed.








End ShannonFacts.

(** ** The permutation-entropy estimator *)

Module EntropyFacts.
Import Py PyFacts Run Engine Entropy EntropySpec.
Local Open Scope R_scope.

Lemma ordinal_pattern_perm m tau prices i :
  Permutation (ordinal_pattern m tau prices i) (seq 0 m).
Proof. unfold ordinal_pattern. apply sorted_perm. Qed.

Lemma list_sum_values_incr (d : dict (list nat) nat) k :
  list_sum (values (set d k (get_default d k 0 + 1)%nat))
  = (list_sum (values d) + 1)%nat.
Proof.
  unfold get_default.
  induction d as [|[k' v'] d IH]; simpl; [reflexivity|].
  destruct (eq_dec k k') as [->|Hne]; simpl; [lia|].
  rewrite IH. lia.
Qed.

Lemma count_patterns_loop m tau prices
    (step : dict (list nat) nat * nat -> nat -> dict (list nat) nat * nat)
    (windows : list nat) acc :
  (forall acc i,
      step acc i =
      (set (fst acc) (ordinal_pattern m tau prices i)
         (get_default (fst acc) (ordinal_pattern m tau prices i) 0 + 1)%nat,
       (snd acc + 1)%nat)) ->
  counted m acc ->
  counted m (fold_left step windows acc)
  /\ snd (fold_left step windows acc) = (snd acc + length windows)%nat.
Proof.
  intros Hstep. revert acc.
  induction windows as [|i windows IH]; intros acc Hacc; simpl.
  - split; [assumption|lia].
  - destruct (IH (step acc i)) as [Hc Hs].
    + rewrite Hstep. destruct Hacc as (Hnd & Hp & Hv & Hsum).
      unfold counted; simpl. repeat split.
      * now apply NoDup_keys_set.
      * apply Forall_keys_set; [assumption|apply ordinal_pattern_perm].
      * apply Forall_values_set; [assumption|lia].
      * rewrite list_sum_values_incr. lia.
    + split; [exact Hc|]. rewrite Hs, Hstep. simpl. lia.
Qed.

Lemma count_patterns_counted m tau prices count :
  counted m (count_patterns m tau prices count)
  /\ snd (count_patterns m tau prices count) = count.
Proof.
  unfold count_patterns.
  match goal with |- context [fold_left ?f _ _] =>
    destruct (@count_patterns_loop m tau prices f (seq 0 count) ([], 0%nat))
      as [Hc Hs] end.
  - reflexivity.
  - unfold counted; simpl. repeat split; constructor.
  - split; [exact Hc|]. rewrite Hs, length_seq. reflexivity.
Qed.







Lemma run_CalculatePermutationEntropy prices (self : EntropyRegimeDetector) :
  exists r, CalculatePermutationEntropy prices self = (Ok r, self).
Proof.
  unfold CalculatePermutationEntropy, bind, gets, ret.
  destruct (Z.ltb _ _); [eauto|].
  destruct (count_patterns _ _ _ _) as [pc tot].
  destruct (Nat.eqb tot 0); eauto.
Qed.



End EntropyFacts.

Module EntropyAffine.
Import Py PyFacts Run Engine Entropy.
Local Open Scope R_scope.

Lemma fold_left_ext_in {A B} (f g : A -> B -> A) (l : list B) (a : A) :
  (forall acc x, In x l -> f acc x = g acc x) ->
  fold_left f l a = fold_left g l a.
Proof.
  revert a. induction l as [|x l IH]; intros a Hfg; simpl; [reflexivity|].
  rewrite Hfg by now left. apply IH. intros; apply Hfg; now right.
Qed.

Lemma nth_map_in_range (f : R -> R) (l : list R) k :
  (k < length l)%nat -> nth k (map f l) 0 = f (nth k l 0).
Proof.
  intros Hk. rewrite (nth_indep _ 0 (f 0)) by now rewrite length_map.
  apply map_nth.
Qed.

(** The pattern of a window that lies inside the list is unchanged by an
    increasing map of the prices. *)
Lemma ordinal_pattern_increasing (f : R -> R) m tau prices i :
  (forall x y, x < y <-> f x < f y) ->
  (i + (m - 1) * tau < length prices)%nat ->
  ordinal_pattern m tau (map f prices) i = ordinal_pattern m tau prices i.
Proof.
  intros Hf Hi. unfold ordinal_pattern.
  assert (Hemb : map (fun j => nth (i + j * tau) (map f prices) 0) (seq 0 m)
                 = map f (map (fun j => nth (i + j * tau) prices 0) (seq 0 m))).
  { rewrite map_map. apply map_ext_in. intros j Hj. apply in_seq in Hj.
    apply nth_map_in_range. nia. }
  rewrite Hemb. set (embedding := map _ (seq 0 m)).
  assert (Hl : length embedding = m).
  { subst embedding. now rewrite length_map, length_seq. }
  clearbody embedding. apply sorted_ext. intros x y Hx Hy.
  apply in_seq in Hx, Hy.
  assert (Hx' : (x < length embedding)%nat) by lia.
  assert (Hy' : (y < length embedding)%nat) by lia.
  rewrite (nth_map_in_range f embedding Hx'), (nth_map_in_range f embedding Hy').
  destruct (Rltb_spec (nth y embedding 0) (nth x embedding 0)) as [Hlt|Hge].
  - apply Rltb_true. now apply -> Hf.
  - apply Rltb_false.
    destruct (Rle_lt_dec (f (nth x embedding 0)) (f (nth y embedding 0)));
      [assumption|]. exfalso. apply Hge. now apply <- Hf.
Qed.

Lemma count_patterns_increasing (f : R -> R) m tau prices count :
  (forall x y, x < y <-> f x < f y) ->
  (count + (m - 1) * tau <= length prices)%nat ->
  count_patterns m tau (map f prices) count = count_patterns m tau prices count.
Proof.
  intros Hf Hc. unfold count_patterns. apply fold_left_ext_in.
  intros acc i Hi. apply in_seq in Hi. cbv zeta.
  rewrite ordinal_pattern_increasing by (assumption || lia). reflexivity.
Qed.

(** the place [k] of the embedding vector that starts at [i] *)
Lemma nth_embedding (prices : list R) i tau m k :
  (k < m)%nat ->
  nth k (map (fun j => nth (i + j * tau) prices 0) (seq 0 m)) 0
  = nth (i + k * tau) prices 0.
Proof.
  intros Hk. set (f := fun j => nth (i + j * tau) prices 0).
  rewrite (nth_indep _ 0 (f 0%nat)) by now rewrite length_map, length_seq.
  rewrite map_nth, seq_nth by assumption. reflexivity.
Qed.

Lemma ordinal_pattern_same_order m tau p q i :
  Ordinal.same_order p q ->
  (i + (m - 1) * tau < length p)%nat ->
  ordinal_pattern m tau q i = ordinal_pattern m tau p i.
Proof.
  intros [_ Hpq] Hi. unfold ordinal_pattern. apply sorted_ext.
  intros x y Hx Hy. apply in_seq in Hx, Hy.
  rewrite !nth_embedding by lia.
  assert (Hx' : (i + x * tau < length p)%nat) by nia.
  assert (Hy' : (i + y * tau < length p)%nat) by nia.
  destruct (Rltb_spec (nth (i + y * tau) p 0) (nth (i + x * tau) p 0))
    as [Hlt|Hge].
  - apply Rltb_true. now apply -> (Hpq (i + y * tau)%nat (i + x * tau)%nat).
  - apply Rltb_false.
    destruct (Rle_lt_dec (nth (i + x * tau) q 0) (nth (i + y * tau) q 0))
      as [Hle|Hlt]; [assumption|].
    exfalso. apply Hge.
    now apply <- (Hpq (i + y * tau)%nat (i + x * tau)%nat).
Qed.

Lemma count_patterns_same_order m tau p q count :
  Ordinal.same_order p q ->
  (count + (m - 1) * tau <= length p)%nat ->
  count_patterns m tau q count = count_patterns m tau p count.
Proof.
  intros Hpq Hc. unfold count_patterns. apply fold_left_ext_in.
  intros acc i Hi. apply in_seq in Hi. cbv zeta.
  rewrite (@ordinal_pattern_same_order m tau p q i) by (assumption || lia).
  reflexivity.
Qed.

Lemma entropy_same_order (self : EntropyRegimeDetector) p q :
  Ordinal.same_order p q ->
  CalculatePermutationEntropy q self = CalculatePermutationEntropy p self.
Proof.
  intros Hpq. pose proof Hpq as [Hlen _].
  unfold CalculatePermutationEntropy, bind, gets, ret.
  rewrite Hlen.
  set (m := embedding_dim self). set (t := tau self).
  destruct (Z.ltb_spec (Z.of_nat (length p))
              (Z.of_nat m + (Z.of_nat m - 1) * Z.of_nat t)) as [Hlt|Hge];
    [reflexivity|].
  destruct m as [|m'].
  - unfold count_patterns, ordinal_pattern. reflexivity.
  - rewrite (@count_patterns_same_order (S m') t p q); [reflexivity|assumption|].
    replace (S m' - 1)%nat with m' by lia.
    replace (Z.of_nat (S m') - 1)%Z with (Z.of_nat m') in * by lia.
    rewrite <- Nat2Z.inj_mul in *. lia.
Qed.

(** in exact arithmetic a positive affine map keeps the order *)
Lemma affine_same_order (p : list R) a b :
  0 < a -> Ordinal.same_order p (map (fun x => a * x + b) p).
Proof.
  intros Ha. split; [apply length_map|].
  intros i j Hi Hj. rewrite !nth_map_in_range by assumption.
  split; intros Hlt.
  - apply Rplus_lt_compat_r, Rmult_lt_compat_l; assumption.
  - apply Rplus_lt_reg_r in Hlt. now apply Rmult_lt_reg_l in Hlt.
Qed.

(** C10, for maps that keep the order.  CalculatePermutationEntropy
    reads of the prices only how every two of them compare: it returns
    the same result, and leaves the same object, on two lists of one
    length that order every two places alike.  For [a > 0] the list
    [a * p[i] + b], with exact products and sums, is such a list for [p],
    and the result is that of [p].  On binary64 [a * p[i] + b] is rounded
    and can tie prices that differed. *)
Theorem permutation_entropy_order :
  forall (self : EntropyRegimeDetector) (p : list R),
    (forall q, Ordinal.same_order p q ->
       CalculatePermutationEntropy q self = CalculatePermutationEntropy p self)
    /\ (forall a b, 0 < a ->
          CalculatePermutationEntropy (map (fun x => a * x + b) p) self
          = CalculatePermutationEntropy p self).
Proof.
  intros self p. split.
  - intros q. apply entropy_same_order.
  - intros a b Ha. now apply entropy_same_order, affine_same_order.
Qed.

(** cubes are ordered as their roots are: no affine map, and the same
    entropy *)
Lemma permutation_entropy_order_witness :
  let self := Initialize (Build_QCAlgorithm false 0 (fun _ => 0%Z) (fun _ => 0) 0) in
  let p := [1; 2; 3; 4; 5; 4; 3; 2; 1] in
  CalculatePermutationEntropy [1; 8; 27; 64; 125; 64; 27; 8; 1] self
  = CalculatePermutationEntropy p self
  /\ CalculatePermutationEntropy (map (fun x => 2 * x + 7) p) self
     = CalculatePermutationEntropy p self.
Proof.
  intros self p. destruct (permutation_entropy_order self p) as [Horder Haffine].
  split.
  - apply Horder. split; [reflexivity|].
    intros i j Hi Hj. subst p. cbn [length] in Hi, Hj.
    do 9 (try destruct i as [|i]); try lia;
      do 9 (try destruct j as [|j]); try lia; cbn [nth]; lra.
  - apply Haffine. lra.
Defined.

End EntropyAffine.

(** ** Rules for [wp] *)

Module HoareFacts.
Import Py PyFacts Run Hoare.

Section Rules.
Context {S : Type}.
Implicit Types (s : S) (E : Exn -> nat -> S -> Prop).

Lemma wp_ret {A} (a : A) (Q : A -> S -> Prop) E s :
  wp (ret a) Q E s = Q a s.
Proof. reflexivity. Qed.

Lemma wp_gets {A} (f : S -> A) (Q : A -> S -> Prop) E s :
  wp (gets f) Q E s = Q (f s) s.
Proof. reflexivity. Qed.

Lemma wp_modify (f : S -> S) (Q : unit -> S -> Prop) E s :
  wp (modify f) Q E s = Q tt (f s).
Proof. reflexivity. Qed.

Lemma wp_raise {A} e line (Q : A -> S -> Prop) E s :
  wp (raise e line) Q E s = E e line s.
Proof. reflexivity. Qed.

Lemma wp_check_Some {A} e line (a : A) (Q : A -> S -> Prop) E s :
  wp (check e line (Some a)) Q E s = Q a s.
Proof. reflexivity. Qed.

Lemma wp_check_None {A} e line (Q : A -> S -> Prop) E s :
  wp (check e line None) Q E s = E e line s.
Proof. reflexivity. Qed.

Lemma wp_bind {A B} (c : M S A) (k : A -> M S B) (Q : B -> S -> Prop) E s :
  wp (bind c k) Q E s = wp c (fun a s' => wp (k a) Q E s') E s.
Proof. unfold wp, bind. destruct (c s) as [[a|e line] s']; reflexivity. Qed.

Lemma wp_mono {A} (c : M S A) (Q Q' : A -> S -> Prop) E E' s :
  wp c Q E s ->
  (forall a s', Q a s' -> Q' a s') ->
  (forall e line s', E e line s' -> E' e line s') ->
  wp c Q' E' s.
Proof.
  unfold wp. destruct (c s) as [[a|e line] s']; auto.
Qed.

(** A loop keeps what each round keeps. *)
Lemma wp_for_each {X} (I : S -> Prop) (l : list X) (body : X -> M S unit) E s :
  I s ->
  (forall x s, In x l -> I s -> wp (body x) (fun _ => I) E s) ->
  wp (for_each l body) (fun _ => I) E s.
Proof.
  revert s. induction l as [|x l IH]; intros s Hs Hbody; simpl.
  - exact Hs.
  - rewrite wp_bind. eapply wp_mono; [apply Hbody; [now left|exact Hs]| |auto].
    intros [] s' Hs'. apply IH; [exact Hs'|]. intros; apply Hbody; [now right|assumption].
Qed.

Lemma wp_for_fold {X A} (I : A -> S -> Prop) (l : list X) (a : A)
    (body : A -> X -> M S A) E s :
  I a s ->
  (forall a x s, In x l -> I a s -> wp (body a x) I E s) ->
  wp (for_fold l a body) I E s.
Proof.
  revert a s. induction l as [|x l IH]; intros a s Hs Hbody; simpl.
  - exact Hs.
  - rewrite wp_bind. eapply wp_mono; [apply Hbody; [now left|exact Hs]| |auto].
    intros a' s' Hs'. apply IH; [exact Hs'|]. intros; apply Hbody; [now right|assumption].
Qed.

Lemma wp_conj {A} (c : M S A) (Q1 Q2 : A -> S -> Prop) E1 E2 s :
  wp c Q1 E1 s -> wp c Q2 E2 s ->
  wp c (fun a s' => Q1 a s' /\ Q2 a s')
       (fun e line s' => E1 e line s' /\ E2 e line s') s.
Proof.
  unfold wp. destruct (c s) as [[a|e line] s']; auto.
Qed.

(** Calling a method that keeps [I] *)
Lemma wp_call {A} (I : S -> Prop) (c : M S A) (Q : A -> S -> Prop) E s :
  preserves I c -> I s ->
  (forall a s', I s' -> Q a s') ->
  (forall e line s', I s' -> E e line s') ->
  wp c Q E s.
Proof.
  intros Hc Hs HQ HE. eapply wp_mono; [apply Hc, Hs| |]; simpl; auto.
Qed.

Lemma preserves_snd {A} (I : S -> Prop) (c : M S A) s :
  preserves I c -> I s -> I (snd (c s)).
Proof.
  intros Hc Hs. specialize (Hc s Hs). unfold wp in Hc.
  destruct (c s) as [[a|e line] s']; exact Hc.
Qed.

End Rules.

(** One step of symbolic execution of a [wp] goal. *)
Ltac wp_step :=
  lazymatch goal with
  | |- wp (bind _ _) _ _ _ => rewrite wp_bind
  | |- wp (ret _) _ _ _ => rewrite wp_ret
  | |- wp (gets _) _ _ _ => rewrite wp_gets
  | |- wp (modify _) _ _ _ => rewrite wp_modify
  | |- wp (raise _ _) _ _ _ => rewrite wp_raise
  | |- wp (check _ _ (Some _)) _ _ _ => rewrite wp_check_Some
  | |- wp (check _ _ None) _ _ _ => rewrite wp_check_None
  | |- wp (check _ _ ?o) _ _ _ => destruct o eqn:?
  | |- wp (if ?b then _ else _) _ _ _ => destruct b eqn:?
  | |- wp (match ?x with _ => _ end) _ _ _ => destruct x eqn:?
  | |- wp (let (_, _) := ?x in _) _ _ _ => destruct x eqn:?
  end.

Ltac wp_run := repeat (wp_step; cbv beta).

(** *** Bounded buffers *)

Lemma bounded_get {K A} `{EqDec K} (buffers : dict K (deque A)) cap k d :
  bounded buffers cap -> get buffers k = Some d ->
  maxlen d = cap /\ (len d <= cap)%nat.
Proof. intros Hb Hg. apply (Hb k). now apply get_In. Qed.

Lemma bounded_set_append {K A} `{EqDec K} (buffers : dict K (deque A)) cap k d x :
  bounded buffers cap -> maxlen d = cap ->
  bounded (set buffers k (append d x)) cap.
Proof.
  intros Hb Hd k' d' Hin. apply In_set in Hin as [[-> ->]|Hin].
  - rewrite len_append, maxlen_append. split; [assumption|lia].
  - now apply (Hb k').
Qed.

Lemma bounded_nil {K A} cap : bounded ([] : dict K (deque A)) cap.
Proof. intros k d []. Qed.

Lemma bounded_cons {K A} (l : dict K (deque A)) cap k d :
  maxlen d = cap -> (len d <= cap)%nat -> bounded l cap ->
  bounded ((k, d) :: l) cap.
Proof.
  intros Hm Hl Hb k' d' [E|Hin]; [inversion E; subst; now split|].
  now apply (Hb k').
Qed.

Ltac bounded_literal :=
  repeat (apply bounded_cons; [reflexivity|unfold len; simpl; lia|]);
  apply bounded_nil.

End HoareFacts.

(** ** Buffers of the entropy script *)

Module EntropyBuffers.
Import Py PyFacts Run Hoare HoareFacts Engine Entropy EntropySpec.

Ltac frame := solve [assumption | unfold buffers_bounded in *; simpl in *; tauto].

Lemma entropy_CalculatePermutationEntropy_keeps prices :
  preserves buffers_bounded (CalculatePermutationEntropy prices).
Proof.
  intros s Hs. unfold CalculatePermutationEntropy. wp_run; frame.
Qed.

Lemma entropy_DetectRegimeChange_keeps symbol :
  preserves buffers_bounded (DetectRegimeChange symbol).
Proof.
  intros s Hs. unfold DetectRegimeChange. wp_run; frame.
Qed.

Lemma entropy_ExecuteSignals_keeps signals :
  preserves buffers_bounded (ExecuteSignals signals).
Proof.
  intros s Hs. unfold ExecuteSignals. apply wp_for_each; [assumption|].
  clear s Hs. intros [symbol [action confidence]] s _ Hs.
  unfold MarketOrder, Liquidate. wp_run; frame.
Qed.

Lemma entropy_ManagePositions_keeps data :
  preserves buffers_bounded (ManagePositions data).
Proof.
  intros s Hs. unfold ManagePositions. apply wp_for_each; [assumption|].
  clear s Hs. intros symbol s _ Hs.
  unfold MarketOrder, Liquidate. wp_run; frame.
Qed.

Lemma entropy_OnData_keeps data : preserves buffers_bounded (OnData data).
Proof.
  intros s Hs. unfold OnData. wp_run; [frame|].
  eapply wp_mono with (Q := fun _ => buffers_bounded)
                      (E := fun _ _ => buffers_bounded); [|
    intros [] s' Hs'; apply entropy_ManagePositions_keeps, Hs' | auto].
  apply wp_for_each; [assumption|].
  clear s Hs Heqb. intros symbol s _ Hs. wp_run; try frame.
  destruct Hs as [Hp He]. split; [|exact He]. simpl.
  apply bounded_set_append; [assumption|].
  eapply bounded_get; eassumption.
Qed.

Lemma entropy_AnalyzeRegimes_keeps : preserves buffers_bounded AnalyzeRegimes.
Proof.
  intros s Hs. unfold AnalyzeRegimes. rewrite wp_bind.
  eapply wp_mono with (Q := fun _ => buffers_bounded)
                      (E := fun _ _ => buffers_bounded); [|
    intros signals s' Hs'; apply entropy_ExecuteSignals_keeps, Hs' | auto].
  apply wp_for_fold with (I := fun _ => buffers_bounded); [assumption|].
  clear s Hs. intros signals symbol s _ Hs.
  wp_run; try frame.
  eapply wp_call; [apply entropy_CalculatePermutationEntropy_keeps|assumption| |auto].
  intros entropy s' Hs'. wp_run; try frame.
  assert (Hs'' : buffers_bounded
            (with_entropy_history (set (entropy_history s') symbol (append d0 r)) s')).
  { destruct Hs' as [Hp He]. split; [exact Hp|]. simpl.
    apply bounded_set_append; [assumption|]. eapply bounded_get; eassumption. }
  eapply wp_call; [apply entropy_DetectRegimeChange_keeps|exact Hs''| |auto].
  intros [regime confidence] s'' Hs3. wp_run; frame.
Qed.

Lemma entropy_Initialize_bounded q : buffers_bounded (Initialize q).
Proof. split; simpl; bounded_literal. Qed.

Lemma entropy_reachable_bounded s : EntropyRun.reachable s -> buffers_bounded s.
Proof.
  induction 1.
  - apply entropy_Initialize_bounded.
  - frame.
  - now apply preserves_snd; [apply entropy_OnData_keeps|].
  - now apply preserves_snd; [apply entropy_AnalyzeRegimes_keeps|].
Qed.

End EntropyBuffers.

(** ** The fractal script: Hurst range, durations, buffers *)

Module FractalFacts.
Import Py PyFacts Run Hoare HoareFacts Engine Fractal FractalSpec.
Local Open Scope R_scope.

Lemma int_ge_1 x : 1 <= x -> (1 <= int x)%Z.
Proof.
  intros Hx. unfold int.
  destruct (Rleb_spec 0 x) as [_|Hn]; [|lra].
  destruct (base_Int_part x) as [_ Hlo].
  assert (H0 : IZR 0 < IZR (Int_part x)) by (simpl; lra).
  apply lt_IZR in H0. lia.
Qed.

Lemma EstimateMoveDuration_ge_1 hurst :
  hurst_range hurst -> (1 <= EstimateMoveDuration hurst)%Z.
Proof.
  unfold hurst_range, EstimateMoveDuration. intros [Hlo Hhi].
  destruct (Rltb_spec 0.5 hurst); apply int_ge_1; lra.
Qed.

Lemma clamp_range slope : hurst_range (Rmax 0.01 (Rmin 0.99 slope)).
Proof.
  unfold hurst_range, Rmax, Rmin.
  destruct (Rle_dec 0.99 slope); destruct (Rle_dec 0.01 _); lra.
Qed.

(** the state is untouched, and the value is None or in range *)
Lemma CalculateHurstExponent_spec prices s :
  wp (CalculateHurstExponent prices)
     (fun r s' => s' = s /\ forall h, r = Some h -> hurst_range h)
     (fun _ _ s' => s' = s) s.
Proof.
  unfold CalculateHurstExponent. wp_run; try (split; [reflexivity|discriminate]).
  eapply wp_mono with (Q := fun _ s' => s' = s) (E := fun _ _ s' => s' = s);
    [| |auto].
  - apply wp_for_fold with (I := fun _ s' => s' = s); [reflexivity|].
    intros rs lag s' _ ->. wp_run; reflexivity.
  - intros rs s' ->. wp_run.
    + split; [reflexivity|discriminate].
    + split; [reflexivity|]. intros h [= <-]. apply clamp_range.
Qed.

Ltac frame :=
  solve [assumption
        | unfold invariant, buffers_bounded, durations_positive in *;
          simpl in *; tauto].

Lemma CalculateHurstExponent_keeps prices :
  preserves invariant (CalculateHurstExponent prices).
Proof.
  intros s Hs.
  eapply wp_mono; [apply CalculateHurstExponent_spec| |]; simpl.
  - now intros _ s' [-> _].
  - now intros _ _ s' ->.
Qed.

Lemma fractal_UpdateBreakoutLevels_keeps : preserves invariant UpdateBreakoutLevels.
Proof.
  intros s Hs. unfold UpdateBreakoutLevels. apply wp_for_each; [assumption|].
  clear s Hs. intros symbol s _ Hs. wp_run; frame.
Qed.

(** CleanupPosition returns, and keeps the invariant. *)
Lemma fractal_CleanupPosition_spec symbol s :
  invariant s ->
  wp (CleanupPosition symbol) (fun _ => invariant) (fun _ _ _ => False) s.
Proof.
  intros Hs. unfold CleanupPosition. wp_run.
  destruct Hs as [Hb [Hh Hd]]. split; [exact Hb|split; [exact Hh|]]. simpl.
  now apply Forall_values_del.
Qed.

Lemma fractal_EnterPosition_keeps symbol direction price hurst :
  hurst_range hurst ->
  preserves invariant (EnterPosition symbol direction price hurst).
Proof.
  intros Hh s Hs. unfold EnterPosition, MarketOrder, Liquidate.
  pose proof (EstimateMoveDuration_ge_1 Hh) as Hdur.
  wp_run; try frame;
    (destruct Hs as [Hb [Hr Hd]]; split; [exact Hb|split; [exact Hr|]]; simpl;
     now apply Forall_values_set).
Qed.

Lemma fractal_CheckBreakouts_keeps data : preserves invariant (CheckBreakouts data).
Proof.
  intros s Hs. unfold CheckBreakouts. apply wp_for_each; [assumption|].
  clear s Hs. intros symbol s _ Hs. wp_run; try frame.
  all: match goal with
       | Hg : get (hurst_history _) _ = Some ?h,
         Hf : from_end 1 (items ?h) = Some ?x |- _ =>
           assert (Hx : hurst_range x);
           [ destruct Hs as [_ [Hr _]]; apply get_In in Hg;
             specialize (Hr _ _ Hg); rewrite Forall_forall in Hr;
             apply Hr; eapply from_end_In; exact Hf
           | now apply fractal_EnterPosition_keeps ]
       end.
Qed.

(** ManagePositions keeps the invariant, and the division of line 321
    never finds a zero divisor. *)
Lemma fractal_ManagePositions_spec data s :
  invariant s ->
  wp (ManagePositions data) (fun _ => invariant)
     (fun e line s' =>
        invariant s' /\ ~ (e = ZeroDivisionError /\ line = 321%nat)) s.
Proof.
  intros Hs. unfold ManagePositions. wp_run.
  apply wp_for_each; [assumption|].
  intros symbol s' _ Hs'. clear s Hs.
  unfold MarketOrder, Liquidate. wp_run;
    try (split; [frame|intros [? ?]; discriminate]).
  all: try (eapply wp_mono; [apply fractal_CleanupPosition_spec; frame|auto|]; simpl;
            contradiction).
  all: try frame.
  (* the divisor of line 321 is a recorded duration *)
  exfalso.
  match goal with
  | Hg : get (expected_duration _) _ = Some ?z, Hz : (?z =? 0)%Z = true |- _ =>
      apply Z.eqb_eq in Hz; apply In_values in Hg;
      destruct Hs' as [_ [_ Hd]]; rewrite Forall_forall in Hd;
      specialize (Hd _ Hg); lia
  end.
Qed.

Lemma fractal_ManagePositions_keeps data : preserves invariant (ManagePositions data).
Proof.
  intros s Hs. eapply wp_mono; [now apply fractal_ManagePositions_spec|auto|].
  simpl. tauto.
Qed.

Lemma fractal_OnData_keeps data : preserves invariant (OnData data).
Proof.
  intros s Hs. unfold OnData. wp_run; [frame|].
  eapply wp_mono with (Q := fun _ => invariant) (E := fun _ _ => invariant).
  - apply wp_for_each; [assumption|].
    clear. intros symbol s _ Hs. wp_run; try frame.
    destruct Hs as [[Hp Hh] Hd]. split; [split; [|exact Hh]|exact Hd]. simpl.
    apply bounded_set_append; [assumption|]. eapply bounded_get; eassumption.
  - intros [] s1 Hs1. wp_run.
    eapply wp_call; [apply fractal_UpdateBreakoutLevels_keeps|assumption| |auto].
    intros [] s2 Hs2. wp_run.
    eapply wp_call; [apply fractal_CheckBreakouts_keeps|assumption| |auto].
    intros [] s3 Hs3. now apply fractal_ManagePositions_keeps.
  - auto.
Qed.

Lemma fractal_AnalyzeFractalDimension_keeps : preserves invariant AnalyzeFractalDimension.
Proof.
  intros s Hs. unfold AnalyzeFractalDimension. apply wp_for_each; [assumption|].
  clear. intros symbol s _ Hs. wp_run; try frame.
  eapply wp_mono; [apply CalculateHurstExponent_spec| |]; simpl.
  - intros r s' [-> Hr]. wp_run; try frame.
    match goal with
    | Hg : get (hurst_history _) _ = Some ?h |- _ =>
        destruct Hs as [[Hp Hh] [Hrange Hd]];
        destruct (bounded_get _ Hh Hg) as [Hcap _];
        split; [split; [exact Hp|]|split; [|exact Hd]]; simpl
    end.
    + now apply bounded_set_append.
    + intros k d' Hin. apply In_set in Hin as [[-> ->]|Hin].
      * apply Forall_items_append; [|now apply Hr].
        eapply Hrange. eapply get_In. eassumption.
      * now apply (Hrange k).
  - now intros _ _ s' ->.
Qed.

Lemma fractal_Initialize_invariant q : invariant (Initialize q).
Proof.
  split; [split|split]; simpl.
  - bounded_literal.
  - bounded_literal.
  - intros k d Hin.
    repeat (destruct Hin as [E|Hin]; [inversion E; subst; constructor|]).
    destruct Hin.
  - constructor.
Qed.

Lemma fractal_reachable_invariant s : FractalRun.reachable s -> invariant s.
Proof.
  induction 1.
  - apply fractal_Initialize_invariant.
  - frame.
  - now apply preserves_snd; [apply fractal_OnData_keeps|].
  - now apply preserves_snd; [apply fractal_AnalyzeFractalDimension_keeps|].
Qed.

End FractalFacts.

(** ** The VPIN script: buckets, readings, buffers *)

Module VPINFacts.
Import Py PyFacts Run Hoare HoareFacts Engine VPIN VPINSpec.
Local Open Scope R_scope.

Lemma balanced_imbalance size c :
  balanced size c -> 0 <= Completed.order_imbalance c <= size.
Proof.
  intros (Hb & Hs & Hsum & ->). split; [apply Rabs_pos|].
  unfold Rabs. destruct (Rcase_abs _); lra.
Qed.

Lemma sum_imbalance_bounds size (l : list Completed.t) :
  Forall (balanced size) l ->
  0 <= Np.sum (map Completed.order_imbalance l) <= INR (length l) * size.
Proof.
  induction 1 as [|c l Hc _ IH]; cbn [map Np.sum fold_right length].
  - simpl. lra.
  - fold (Np.sum (map Completed.order_imbalance l)). rewrite S_INR.
    pose proof (balanced_imbalance Hc). lra.
Qed.

(** The ratio computed by CalculateVPIN over balanced buckets *)
Lemma vpin_ratio_range size n (l : list Completed.t) :
  0 < size -> (n <= length l)%nat -> Forall (balanced size) l ->
  let total_imbalance := Np.sum (map Completed.order_imbalance (last_items n l)) in
  let total_volume := INR n * size in
  0 <= (if total_volume >? 0 then total_imbalance / total_volume else 0) <= 1.
Proof.
  intros Hsize Hn Hl. cbv zeta.
  destruct (Rltb_spec 0 (INR n * size)) as [Hpos|_]; [|lra].
  assert (Hn0 : n <> 0%nat) by (intros ->; simpl in Hpos; lra).
  pose proof (sum_imbalance_bounds (Forall_last_items n Hl)) as [H0 H1].
  rewrite (length_last_items _ Hn Hn0) in H1.
  split.
  - apply Rmult_le_pos; [assumption|left; now apply Rinv_0_lt_compat].
  - apply (Rmult_le_reg_r (INR n * size)); [assumption|].
    unfold Rdiv. rewrite Rmult_assoc, Rinv_l by lra. lra.
Qed.

(** CalculateVPIN leaves the object alone; over balanced buckets it
    returns None below [n_buckets] buckets and a reading from there on. *)
Lemma CalculateVPIN_spec symbol s h :
  0 < bucket_size s ->
  get (bucket_history s) symbol = Some h ->
  Forall (balanced (bucket_size s)) (items h) ->
  exists r,
    CalculateVPIN symbol s = (Ok r, s)
    /\ ((len h < n_buckets s)%nat -> r = None)
    /\ ((n_buckets s <= len h)%nat -> reading r).
Proof.
  intros Hsize Hg Hbal. unfold CalculateVPIN, bind, gets, check.
  rewrite Hg. unfold ret.
  destruct (Nat.ltb_spec (len h) (n_buckets s)) as [Hlt|Hge].
  - eexists; split; [reflexivity|]. split; [reflexivity|lia].
  - eexists; split; [reflexivity|]. split; [lia|]. intros _.
    eexists; split; [reflexivity|]. now apply vpin_ratio_range.
Qed.

Ltac frame :=
  solve [assumption
        | unfold invariant, buffers_bounded, buckets_balanced in *;
          simpl in *; tauto].

Lemma vpin_CalculateVPIN_keeps symbol : preserves invariant (CalculateVPIN symbol).
Proof.
  intros s Hs. unfold CalculateVPIN. wp_run; frame.
Qed.

(** One round of the loop: the bucket that is completed and the one that
    carries the overflow *)
Lemma overflow_split size volume buy :
  0 < size -> size <= volume -> 0 <= buy <= volume ->
  let overflow := volume - size in
  let overflow_ratio := if volume >? 0 then overflow / volume else 0 in
  let final_buy := buy * (1 - overflow_ratio) in
  (0 <= final_buy /\ 0 <= size - final_buy)
  /\ 0 <= buy * overflow_ratio <= overflow.
Proof.
  intros Hsize Hvol [Hb0 Hb1]. cbv zeta.
  destruct (Rltb_spec 0 volume) as [Hpos|Hn]; [|lra].
  assert (Hr : 0 <= (volume - size) / volume < 1).
  { split.
    - apply Rmult_le_pos; [lra|left; now apply Rinv_0_lt_compat].
    - apply (Rmult_lt_reg_r volume); [assumption|].
      unfold Rdiv. rewrite Rmult_assoc, Rinv_l by lra. lra. }
  assert (E : buy * (1 - (volume - size) / volume) = buy * size / volume)
    by (field; lra).
  assert (E' : buy * ((volume - size) / volume) = buy * (volume - size) / volume)
    by (field; lra).
  assert (Hinv : 0 < / volume) by now apply Rinv_0_lt_compat.
  repeat split.
  - rewrite E. apply Rmult_le_pos; [nra|lra].
  - rewrite E. cut (buy * size / volume <= size); [lra|].
    apply (Rmult_le_reg_r volume); [assumption|].
    unfold Rdiv. rewrite Rmult_assoc, Rinv_l by lra. nra.
  - rewrite E'. apply Rmult_le_pos; [nra|lra].
  - rewrite E'. apply (Rmult_le_reg_r volume); [assumption|].
    unfold Rdiv. rewrite Rmult_assoc, Rinv_l by lra. nra.
Qed.

End VPINFacts.

Module VPINRuns.
Import Py PyFacts Run Hoare HoareFacts Engine VPIN VPINSpec.
Import VPINFacts.
Local Open Scope R_scope.

Lemma invariant_push_bucket s symbol h c :
  invariant s -> get (bucket_history s) symbol = Some h ->
  balanced (bucket_size s) c ->
  invariant (with_bucket_history (set (bucket_history s) symbol (append h c)) s).
Proof.
  intros [(Hb & Hp & Hv) (Hsize & Hacc & Hbal & Hread)] Hg Hc.
  split; [split; [|split; assumption]|split; [assumption|split; [assumption|split; [|assumption]]]];
    simpl.
  - apply bounded_set_append; [assumption|]. eapply bounded_get; eassumption.
  - intros k d Hin. apply In_set in Hin as [[-> ->]|Hin]; [|now apply (Hbal k)].
    apply Forall_items_append; [|assumption].
    apply (Hbal symbol). now apply get_In.
Qed.

Lemma invariant_push_vpin s symbol h r :
  invariant s -> get (vpin_history s) symbol = Some h -> reading r ->
  invariant (with_vpin_history (set (vpin_history s) symbol (append h r)) s).
Proof.
  intros [(Hb & Hp & Hv) (Hsize & Hacc & Hbal & Hread)] Hg Hr.
  split; [split; [assumption|split; [assumption|]]
         |split; [assumption|split; [assumption|split; [assumption|]]]];
    simpl.
  - apply bounded_set_append; [assumption|]. eapply bounded_get; eassumption.
  - intros k d Hin. apply In_set in Hin as [[-> ->]|Hin]; [|now apply (Hread k)].
    apply Forall_items_append; [|assumption].
    apply (Hread symbol). now apply get_In.
Qed.

Lemma invariant_push_price s symbol h x :
  invariant s -> get (price_history s) symbol = Some h ->
  invariant (with_price_history (set (price_history s) symbol (append h x)) s).
Proof.
  intros [(Hb & Hp & Hv) Hbuckets] Hg.
  split; [split; [assumption|split; [|assumption]]|exact Hbuckets]; simpl.
  apply bounded_set_append; [assumption|]. eapply bounded_get; eassumption.
Qed.

Lemma invariant_set_bucket s symbol b :
  invariant s -> accumulating b ->
  invariant (with_current_bucket (set (current_bucket s) symbol b) s).
Proof.
  intros [Hbuf (Hsize & Hacc & Hbal & Hread)] Hb.
  split; [exact Hbuf|split; [assumption|split; [|split; assumption]]]; simpl.
  intros k b' Hin. apply In_set in Hin as [[-> ->]|Hin]; [assumption|].
  now apply (Hacc k).
Qed.

(** The loop keeps the invariant: every bucket it completes is balanced,
    and the bucket that carries the overflow is again an accumulator. *)
Lemma vpin_complete_buckets_keeps fuel symbol :
  forall bucket s,
    invariant s -> accumulating bucket ->
    wp (complete_buckets fuel symbol bucket)
       (fun _ => invariant) (fun _ _ => invariant) s.
Proof.
  induction fuel as [|fuel IH]; intros bucket s Hs Hacc; simpl.
  - exact Hs.
  - assert (Hsize : 0 < bucket_size s) by (destruct Hs as [_ [H _]]; exact H).
    rewrite wp_bind, wp_gets.
    destruct (Rleb_spec (bucket_size s) (Bucket.volume bucket)) as [Hfull|_];
      [|exact Hs].
    destruct (overflow_split Hsize Hfull Hacc) as [[Hfb Hfs] Hcarry].
    cbv zeta in Hfb, Hfs, Hcarry |- *.
    set (ratio := if 0 <? Bucket.volume bucket then _ else 0) in *.
    set (c := Completed.Build_t _ _ _).
    set (carry := Bucket.Build_t _ _ _).
    assert (Hc : balanced (bucket_size s) c).
    { subst c. repeat split; simpl; try assumption. lra. }
    assert (Hcarry' : accumulating carry) by exact Hcarry.
    clearbody c carry. clear Hfb Hfs Hcarry.
    wp_run; try frame.
    all: match goal with
         | Hg : get (bucket_history _) ?sym = Some ?h |- _ =>
             pose proof (invariant_push_bucket sym Hs Hg Hc) as Hs1
         end.
    + (* enough buckets: a VPIN reading is appended *)
      match goal with
      | |- wp _ _ _ ?s1 =>
          edestruct (@CalculateVPIN_spec symbol s1) as (r & Hr & _ & Hread);
            [exact Hsize | simpl; apply get_set_eq | |]
      end.
      * destruct Hs1 as [_ (_ & _ & Hbal & _)]. apply (Hbal symbol).
        simpl. apply get_In, get_set_eq.
      * unfold wp at 1. rewrite Hr.
        match goal with H : (_ <=? _)%nat = true |- _ => apply Nat.leb_le in H; rename H into Hn end.
        assert (Hrd : reading r) by (apply Hread; exact Hn).
        wp_run; try frame.
        apply IH; [|exact Hcarry'].
        apply invariant_set_bucket; [|exact Hcarry'].
        now apply invariant_push_vpin.
    + apply IH; [|exact Hcarry'].
      now apply invariant_set_bucket.
Qed.

Lemma vpin_DetectToxicityRegime_keeps symbol :
  preserves invariant (DetectToxicityRegime symbol).
Proof.
  intros s Hs. unfold DetectToxicityRegime. wp_run; frame.
Qed.

Lemma vpin_EnterLong_keeps symbol price vpin confidence :
  preserves invariant (EnterLong symbol price vpin confidence).
Proof.
  intros s Hs. unfold EnterLong, MarketOrder. wp_run; frame.
Qed.

Lemma vpin_CleanupPosition_keeps symbol : preserves invariant (CleanupPosition symbol).
Proof.
  intros s Hs. unfold CleanupPosition. wp_run; frame.
Qed.

Lemma vpin_OnHourlyData_keeps bar : preserves invariant (OnHourlyData bar).
Proof.
  intros s Hs. unfold OnHourlyData. wp_run; try frame.
  eapply wp_call; [apply vpin_DetectToxicityRegime_keeps|assumption| |auto].
  intros [[regime direction] confidence] s' Hs'. wp_run; try frame.
  all: eapply wp_call; [apply vpin_EnterLong_keeps|frame| |intros; frame].
  all: intros [] s'' Hs''; wp_run; frame.
Qed.

Lemma vpin_ManagePositions_keeps data : preserves invariant (ManagePositions data).
Proof.
  intros s Hs. unfold ManagePositions. wp_run.
  apply wp_for_each; [assumption|].
  intros symbol s' _ Hs'. clear s Hs.
  unfold Liquidate. wp_run; try frame.
  all: eapply wp_call; [apply vpin_CleanupPosition_keeps|frame|auto|auto].
Qed.

Section BulkVolumeClassification.
Variable norm_cdf : R -> R.
Hypothesis norm_cdf_range : forall z, 0 <= norm_cdf z <= 1.

Lemma vpin_ProcessBarForVPIN_keeps symbol bar :
  0 <= Volume bar ->
  preserves invariant (ProcessBarForVPIN norm_cdf symbol bar).
Proof.
  intros Hvol s Hs. unfold ProcessBarForVPIN.
  wp_run; try frame.
  match goal with
  | |- wp (complete_buckets _ _ ?b) _ _ _ => set (bucket := b)
  end.
  assert (Hacc : accumulating bucket).
  { match goal with
    | Hg : get (current_bucket _) _ = Some ?b0 |- _ =>
        destruct Hs as [_ (_ & Hold & _)]; apply get_In in Hg;
        specialize (Hold _ _ Hg); destruct Hold as [Hb0 Hb1]
    end.
    subst bucket. unfold accumulating. cbn [Bucket.buy_volume Bucket.volume].
    match goal with
    | |- context [if ?c then Volume bar * 0.5 else Volume bar * norm_cdf ?z] =>
        assert (Hbuy : exists p, 0 <= p <= 1 /\
                  (if c then Volume bar * 0.5 else Volume bar * norm_cdf z)
                  = Volume bar * p)
          by (destruct c;
              [exists 0.5; split; [lra|reflexivity]
              |eexists; split; [apply norm_cdf_range|reflexivity]]);
        destruct Hbuy as (p & Hp & ->)
    end.
    nra. }
  clearbody bucket.
  apply vpin_complete_buckets_keeps; [|exact Hacc].
  now apply invariant_set_bucket.
Qed.

Lemma vpin_OnData_keeps data :
  well_formed data -> preserves invariant (OnData norm_cdf data).
Proof.
  intros Hdata s Hs. unfold OnData. wp_run; [frame|].
  eapply wp_mono with (Q := fun _ => invariant) (E := fun _ _ => invariant).
  - apply wp_for_each; [assumption|].
    clear s Hs Heqb. intros symbol s _ Hs. wp_run; try frame.
    eapply wp_call; [apply vpin_ProcessBarForVPIN_keeps|assumption| |auto].
    + apply (Hdata symbol). now apply get_In.
    + intros [] s' Hs'. wp_run; try frame.
      now apply invariant_push_price.
  - intros [] s' Hs'. now apply vpin_ManagePositions_keeps.
  - auto.
Qed.

Lemma vpin_Initialize_invariant q : invariant (Initialize q).
Proof.
  split; [split; [|split]|split; [|split; [|split]]]; simpl;
    try bounded_literal; try lra.
  all: intros k d Hin;
    repeat (destruct Hin as [E|Hin];
            [inversion E; subst; try constructor; unfold accumulating; simpl; lra|]);
    destruct Hin.
Qed.

Lemma vpin_reachable_invariant s :
  VPINRun.reachable norm_cdf well_formed s -> invariant s.
Proof.
  induction 1.
  - apply vpin_Initialize_invariant.
  - frame.
  - apply preserves_snd; [now apply vpin_OnData_keeps|assumption].
  - now apply preserves_snd; [apply vpin_OnHourlyData_keeps|].
Qed.

End BulkVolumeClassification.

End VPINRuns.

(** ** Buffers of the VPIN script, for any classifier and any data *)

Module VPINBuffers.
Import Py PyFacts Run Hoare HoareFacts Engine VPIN VPINSpec.
Local Open Scope R_scope.

Ltac frame :=
  solve [assumption | unfold buffers_bounded in *; simpl in *; tauto].

(** an append to one deque of one of the three dictionaries *)
Ltac pushed :=
  match goal with
  | Hs : buffers_bounded _ |- buffers_bounded _ =>
      destruct Hs as (Hb & Hp & Hv);
      unfold buffers_bounded; simpl; (split; [|split]);
      first [ assumption
            | apply bounded_set_append;
              [assumption|eapply bounded_get; eassumption] ]
  end.

Lemma vpin_CalculateVPIN_bounded symbol :
  preserves buffers_bounded (CalculateVPIN symbol).
Proof. intros s Hs. unfold CalculateVPIN. wp_run; frame. Qed.

Lemma vpin_complete_buckets_bounded fuel symbol :
  forall bucket, preserves buffers_bounded (complete_buckets fuel symbol bucket).
Proof.
  induction fuel as [|fuel IH]; intros bucket s Hs; simpl.
  - exact Hs.
  - rewrite wp_bind, wp_gets.
    destruct (_ <=? _); [|exact Hs]. cbv zeta.
    set (c := Completed.Build_t _ _ _). set (carry := Bucket.Build_t _ _ _).
    clearbody c carry.
    wp_run; try frame.
    all: match goal with
         | Hg : get (bucket_history _) ?sym = Some ?h |- _ =>
             assert (Hs1 : buffers_bounded
                       (with_bucket_history
                          (set (bucket_history s) sym (append h c)) s))
               by pushed
         end.
    + eapply wp_call; [apply vpin_CalculateVPIN_bounded|exact Hs1| |auto].
      intros vpin s2 Hs2. wp_run; try frame.
      apply IH. simpl.
      match goal with
      | |- buffers_bounded (with_current_bucket _ ?s3) =>
          cut (buffers_bounded s3); [intros H3; exact H3|]
      end.
      pushed.
    + apply IH. exact Hs1.
Qed.

Lemma vpin_DetectToxicityRegime_bounded symbol :
  preserves buffers_bounded (DetectToxicityRegime symbol).
Proof. intros s Hs. unfold DetectToxicityRegime. wp_run; frame. Qed.

Lemma vpin_EnterLong_bounded symbol price vpin confidence :
  preserves buffers_bounded (EnterLong symbol price vpin confidence).
Proof. intros s Hs. unfold EnterLong, MarketOrder. wp_run; frame. Qed.

Lemma vpin_CleanupPosition_bounded symbol :
  preserves buffers_bounded (CleanupPosition symbol).
Proof. intros s Hs. unfold CleanupPosition. wp_run; frame. Qed.

Lemma vpin_OnHourlyData_bounded bar : preserves buffers_bounded (OnHourlyData bar).
Proof.
  intros s Hs. unfold OnHourlyData. wp_run; try frame.
  eapply wp_call; [apply vpin_DetectToxicityRegime_bounded|assumption| |auto].
  intros [[regime direction] confidence] s' Hs'. wp_run; try frame.
  all: eapply wp_call; [apply vpin_EnterLong_bounded|frame| |intros; frame].
  all: intros [] s'' Hs''; wp_run; frame.
Qed.

Lemma vpin_ManagePositions_bounded data :
  preserves buffers_bounded (ManagePositions data).
Proof.
  intros s Hs. unfold ManagePositions. wp_run.
  apply wp_for_each; [assumption|].
  intros symbol s' _ Hs'. clear s Hs.
  unfold Liquidate. wp_run; try frame.
  all: eapply wp_call; [apply vpin_CleanupPosition_bounded|frame|auto|auto].
Qed.

Section BulkVolumeClassification.
Variable norm_cdf : R -> R.

Lemma vpin_ProcessBarForVPIN_bounded symbol bar :
  preserves buffers_bounded (ProcessBarForVPIN norm_cdf symbol bar).
Proof.
  intros s Hs. unfold ProcessBarForVPIN. wp_run; try frame.
  apply vpin_complete_buckets_bounded. frame.
Qed.

Lemma vpin_OnData_bounded data : preserves buffers_bounded (OnData norm_cdf data).
Proof.
  intros s Hs. unfold OnData. wp_run; [frame|].
  eapply wp_mono with (Q := fun _ => buffers_bounded)
                      (E := fun _ _ => buffers_bounded).
  - apply wp_for_each; [assumption|].
    clear s Hs Heqb. intros symbol s _ Hs. wp_run; try frame.
    eapply wp_call; [apply vpin_ProcessBarForVPIN_bounded|assumption| |auto].
    intros [] s' Hs'. wp_run; try frame. pushed.
  - intros [] s' Hs'. now apply vpin_ManagePositions_bounded.
  - auto.
Qed.

Lemma vpin_Initialize_bounded q : buffers_bounded (Initialize q).
Proof. split; [|split]; simpl; bounded_literal. Qed.

Lemma vpin_reachable_bounded feed s :
  VPINRun.reachable norm_cdf feed s -> buffers_bounded s.
Proof.
  induction 1.
  - apply vpin_Initialize_bounded.
  - frame.
  - now apply preserves_snd; [apply vpin_OnData_bounded|].
  - now apply preserves_snd; [apply vpin_OnHourlyData_bounded|].
Qed.

End BulkVolumeClassification.

End VPINBuffers.

Module VPINFuel.
Import Py PyFacts Run Hoare HoareFacts Engine VPIN VPINSpec.
Local Open Scope R_scope.

Lemma INR_to_nat_up x : x < INR (Z.to_nat (up x)).
Proof.
  destruct (archimed x) as [Hup _].
  destruct (Z_lt_le_dec (up x) 0) as [Hneg|Hpos].
  - replace (Z.to_nat (up x)) with 0%nat by lia. apply IZR_lt in Hneg. simpl. lra.
  - rewrite INR_IZR_INZ, Z2Nat.id by assumption. lra.
Qed.

(** The fuel is enough: when the loop returns, the bucket of [symbol]
    holds less than [bucket_size], which is the exit test of the
    [while]. *)
Lemma complete_buckets_drains fuel symbol :
  forall bucket s,
    0 < bucket_size s ->
    Bucket.volume bucket / bucket_size s < INR fuel ->
    get (current_bucket s) symbol = Some bucket ->
    wp (complete_buckets fuel symbol bucket)
       (fun _ s' => exists b, get (current_bucket s') symbol = Some b
                              /\ Bucket.volume b < bucket_size s')
       (fun _ _ _ => True) s.
Proof.
  induction fuel as [|fuel IH]; intros bucket s Hsize Hfuel Hg.
  - simpl in *. rewrite wp_ret. exists bucket. split; [assumption|].
    apply (Rmult_lt_compat_r (bucket_size s)) in Hfuel; [|assumption].
    unfold Rdiv in Hfuel. rewrite Rmult_assoc, Rinv_l in Hfuel by lra. lra.
  - cbn [complete_buckets]. rewrite wp_bind, wp_gets.
    destruct (Rleb_spec (bucket_size s) (Bucket.volume bucket)) as [Hfull|Hlt].
    + cbv zeta. set (carry := Bucket.Build_t _ _ _).
      assert (Hcarry : Bucket.volume carry / bucket_size s < INR fuel).
      { subst carry. cbn [Bucket.volume]. rewrite S_INR in Hfuel.
        unfold Rdiv in *. rewrite Rmult_minus_distr_r, Rinv_r by lra. lra. }
      assert (Ev : Bucket.volume carry = Bucket.volume bucket - bucket_size s)
        by reflexivity.
      clearbody carry.
      unfold CalculateVPIN. wp_run; try exact I.
      all: apply IH; simpl; try assumption; apply get_set_eq.
    + rewrite wp_ret. exists bucket. split; [assumption|lra].
Qed.

(** The loop completes every full bucket: with [k] bucket sizes in the
    accumulator (and fuel for [k] rounds) the history of [symbol] gains
    [k] buckets, up to its capacity, and nothing is raised. *)
Lemma complete_buckets_progress fuel symbol :
  forall (k : nat) bucket s history,
    0 < bucket_size s ->
    (k <= fuel)%nat ->
    INR k * bucket_size s <= Bucket.volume bucket ->
    get (bucket_history s) symbol = Some history ->
    contains (vpin_history s) symbol = true ->
    wp (complete_buckets fuel symbol bucket)
       (fun _ s' =>
          exists history',
            get (bucket_history s') symbol = Some history'
            /\ maxlen history' = maxlen history
            /\ (Nat.min (maxlen history) (len history + k) <= len history')%nat)
       (fun _ _ _ => False) s.
Proof.
  induction fuel as [|fuel IH]; intros k bucket s history Hsize Hk Hvol Hg Hv.
  - simpl. rewrite wp_ret. exists history. repeat split; [assumption|lia].
  - cbn [complete_buckets]. rewrite wp_bind, wp_gets.
    destruct (Rleb_spec (bucket_size s) (Bucket.volume bucket)) as [Hfull|Hlt].
    + cbv zeta. set (c := Completed.Build_t _ _ _).
      set (carry := Bucket.Build_t _ _ _).
      assert (Hcarry : INR (k - 1) * bucket_size s <= Bucket.volume carry).
      { subst carry. cbn [Bucket.volume]. destruct k as [|k].
        - simpl. lra.
        - replace (S k - 1)%nat with k by lia. rewrite S_INR in Hvol. nra. }
      clearbody c carry.
      rewrite wp_bind, wp_gets, Hg, wp_bind, wp_check_Some.
      rewrite wp_bind, wp_modify, wp_bind, wp_gets. cbv beta.
      unfold contains in Hv. destruct (get (vpin_history s) symbol) as [v|] eqn:Hgv;
        [|discriminate].
      assert (Hlen : (Nat.min (maxlen history) (len (append history c) + (k - 1))
                      >= Nat.min (maxlen history) (len history + k))%nat)
        by (rewrite len_append; lia).
      rewrite wp_bind.
      assert (Hnext : forall s1,
                 bucket_size s1 = bucket_size s ->
                 bucket_history s1 = set (bucket_history s) symbol (append history c) ->
                 contains (vpin_history s1) symbol = true ->
                 wp (complete_buckets fuel symbol carry)
                   (fun _ s' =>
                      exists history',
                        get (bucket_history s') symbol = Some history'
                        /\ maxlen history' = maxlen history
                        /\ (Nat.min (maxlen history) (len history + k)
                            <= len history')%nat)
                   (fun _ _ _ => False) s1).
      { intros s1 Hb1 Hh1 Hv1.
        eapply HoareFacts.wp_mono;
          [apply (IH (k - 1)%nat carry s1 (append history c))| |auto].
        - now rewrite Hb1.
        - lia.
        - now rewrite Hb1.
        - rewrite Hh1. apply get_set_eq.
        - exact Hv1.
        - intros _ s' (h' & Hg' & Hm' & Hl'). exists h'.
          rewrite maxlen_append in *. repeat split; try assumption. lia. }
      unfold CalculateVPIN. wp_run; simpl in *;
        try (rewrite get_set_eq in *; discriminate); try congruence.
      all: apply Hnext; simpl; try reflexivity.
      all: unfold contains; rewrite ?get_set_eq, ?Hgv; reflexivity.
    + rewrite wp_ret. exists history.
      assert (k = 0)%nat.
      { destruct k; [reflexivity|]. rewrite S_INR in Hvol.
        pose proof (pos_INR k). nra. }
      subst k. repeat split; [assumption|lia].
Qed.

Ltac outside :=
  solve [assumption | unfold outside_buckets in *; simpl in *; tauto].

Lemma complete_buckets_outside s0 fuel symbol :
  forall bucket, preserves (outside_buckets s0) (complete_buckets fuel symbol bucket).
Proof.
  induction fuel as [|fuel IH]; intros bucket s Hs; simpl.
  - exact Hs.
  - rewrite wp_bind, wp_gets.
    destruct (_ <=? _); [|exact Hs]. cbv zeta.
    set (c := Completed.Build_t _ _ _). set (carry := Bucket.Build_t _ _ _).
    clearbody c carry.
    unfold CalculateVPIN. wp_run; try outside.
    all: apply IH; outside.
Qed.

Section BulkVolumeClassification.
Variable norm_cdf : R -> R.

Lemma ProcessBarForVPIN_outside s0 symbol bar :
  preserves (outside_buckets s0) (ProcessBarForVPIN norm_cdf symbol bar).
Proof.
  intros s Hs. unfold ProcessBarForVPIN. wp_run; try outside.
  apply complete_buckets_outside. outside.
Qed.

(** A bar that brings the accumulator of [symbol] to [k] bucket sizes or
    more adds [k] buckets to its history, up to the capacity. *)
Lemma ProcessBarForVPIN_progress (k : nat) symbol bar s bucket history :
  0 < bucket_size s -> Volume bar <> 0 ->
  contains (price_history s) symbol = true ->
  get (current_bucket s) symbol = Some bucket ->
  INR k * bucket_size s <= Bucket.volume bucket + Volume bar ->
  get (bucket_history s) symbol = Some history ->
  contains (vpin_history s) symbol = true ->
  wp (ProcessBarForVPIN norm_cdf symbol bar)
     (fun _ s' =>
        exists history',
          get (bucket_history s') symbol = Some history'
          /\ maxlen history' = maxlen history
          /\ (Nat.min (maxlen history) (len history + k) <= len history')%nat)
     (fun _ _ _ => False) s.
Proof.
  intros Hsize Hvol Hp Hb Hk Hh Hv. unfold ProcessBarForVPIN.
  apply Reqb_false in Hvol. rewrite Hvol.
  unfold contains in Hp.
  destruct (get (price_history s) symbol) as [ph|] eqn:Hph; [|discriminate].
  wp_run; try congruence.
  injection Hb as Hb. subst.
  apply complete_buckets_progress; simpl; try assumption.
  apply INR_le.
  match goal with |- INR k <= INR (Z.to_nat (up ?x)) =>
    pose proof (INR_to_nat_up x) as Hup; assert (Hx : INR k <= x) end.
  { apply (Rmult_le_reg_r (bucket_size s)); [assumption|].
    unfold Rdiv. rewrite Rmult_assoc, Rinv_l by lra. lra. }
  lra.
Qed.

Lemma ProcessBarForVPIN_drains symbol bar s :
  0 < bucket_size s -> Volume bar <> 0 ->
  wp (ProcessBarForVPIN norm_cdf symbol bar)
     (fun _ s' => exists b, get (current_bucket s') symbol = Some b
                            /\ Bucket.volume b < bucket_size s')
     (fun _ _ _ => True) s.
Proof.
  intros Hsize Hvol. unfold ProcessBarForVPIN.
  apply Reqb_false in Hvol. rewrite Hvol.
  wp_run; try exact I.
  apply complete_buckets_drains; simpl.
  - assumption.
  - apply INR_to_nat_up.
  - apply get_set_eq.
Qed.

End BulkVolumeClassification.

End VPINFuel.

Module HurstFacts.
Import Py PyFacts Run Hoare HoareFacts Engine Fractal FractalSpec FractalFacts.
Local Open Scope R_scope.

(** The loop over the lags collects [rs_points], provided no lag is 0. *)
Lemma rs_values_loop returns (lags : list nat) (s : FractalDimensionBreakout) :
  forall acc,
    Forall (fun lag => (1 <= lag)%nat) lags ->
    for_fold lags acc
      (fun rs_values lag =>
         if (lag =? 0)%nat then raise ZeroDivisionError 122
         else
           let rs_subseries := rs_of_lag returns lag in
           match rs_subseries with
           | [] => ret rs_values
           | _ => ret (rs_values ++ [(lag, Np.mean rs_subseries)])
           end) s
    = (Ok (acc ++ rs_points returns lags), s).
Proof.
  induction lags as [|lag lags IH]; intros acc Hl; simpl.
  - now rewrite app_nil_r.
  - inversion Hl as [|? ? Hlag Hl']; subst.
    unfold bind at 1.
    destruct (Nat.eqb_spec lag 0) as [->|_]; [lia|]. cbv zeta.
    destruct (rs_of_lag returns lag) as [|rs rest]; unfold ret at 1.
    + now rewrite IH.
    + rewrite IH by assumption. now rewrite <- app_assoc.
Qed.

(** A loop whose body reads no attribute has the same outcome on every
    object. *)
Lemma for_fold_state_free {S X A} (l : list X) (body : A -> X -> M S A) :
  (forall a x s1 s2, fst (body a x s1) = fst (body a x s2)) ->
  forall acc s1 s2,
    fst (for_fold l acc body s1) = fst (for_fold l acc body s2).
Proof.
  intros Hbody. induction l as [|x l IH]; intros acc s1 s2; simpl;
    [reflexivity|].
  unfold bind. specialize (Hbody acc x s1 s2).
  destruct (body acc x s1) as [[a1|e1 line1] s1'];
    destruct (body acc x s2) as [[a2|e2 line2] s2'];
    simpl in Hbody; try discriminate; inversion Hbody; subst.
  - apply IH.
  - reflexivity.
Qed.

Lemma lags_of_positive s returns :
  (1 <= min_lag s)%nat -> Forall (fun lag => (1 <= lag)%nat) (lags_of s returns).
Proof.
  intros Hm. apply Forall_forall. intros lag Hin.
  apply in_seq in Hin. lia.
Qed.

(** CalculateHurstExponent as a function of the prices *)
Lemma CalculateHurstExponent_eq prices (s : FractalDimensionBreakout) :
  (1 <= min_lag s)%nat ->
  let returns := returns_of s prices in
  let rs_values := rs_points returns (lags_of s returns) in
  CalculateHurstExponent prices s
  = (Ok (if (length prices <? hurst_lookback s)%nat then None
         else if (length returns <? max_lag s)%nat then None
         else if (length rs_values <? 3)%nat then None
         else Some (Rmax 0.01 (Rmin 0.99 (log_log_slope rs_values)))), s).
Proof.
  intros Hm. cbv zeta. unfold CalculateHurstExponent, bind, gets.
  destruct (length prices <? hurst_lookback s)%nat; [reflexivity|].
  fold (returns_of s prices).
  destruct (length (returns_of s prices) <? max_lag s)%nat; [reflexivity|].
  fold (lags_of s (returns_of s prices)).
  rewrite rs_values_loop by now apply lags_of_positive.
  simpl app.
  destruct (length _ <? 3)%nat; reflexivity.
Qed.

End HurstFacts.

(** ** The parameters of the estimators never change *)

Module ParameterFacts.
Import Py PyFacts Run Hoare HoareFacts Engine Parameters.
Local Open Scope R_scope.

Ltac kept :=
  solve [ assumption
        | unfold entropy, fractal, vpin in *; simpl in *; tauto ].

(** *** The entropy script *)

Lemma entropy_ExecuteSignals_kept signals :
  preserves entropy (Entropy.ExecuteSignals signals).
Proof.
  intros s Hs. unfold Entropy.ExecuteSignals. apply wp_for_each; [assumption|].
  clear s Hs. intros [symbol [action confidence]] s _ Hs.
  unfold Entropy.MarketOrder, Entropy.Liquidate. wp_run; kept.
Qed.

Lemma entropy_ManagePositions_kept data :
  preserves entropy (Entropy.ManagePositions data).
Proof.
  intros s Hs. unfold Entropy.ManagePositions. apply wp_for_each; [assumption|].
  clear s Hs. intros symbol s _ Hs.
  unfold Entropy.MarketOrder, Entropy.Liquidate. wp_run; kept.
Qed.

Lemma entropy_OnData_kept data : preserves entropy (Entropy.OnData data).
Proof.
  intros s Hs. unfold Entropy.OnData. wp_run; [kept|].
  eapply wp_mono with (Q := fun _ => entropy) (E := fun _ _ => entropy);
    [|intros [] s' Hs'; apply entropy_ManagePositions_kept, Hs'|auto].
  apply wp_for_each; [assumption|].
  intros symbol s1 _ Hs1. wp_run; kept.
Qed.

Lemma entropy_AnalyzeRegimes_kept : preserves entropy Entropy.AnalyzeRegimes.
Proof.
  intros s Hs. unfold Entropy.AnalyzeRegimes. rewrite wp_bind.
  eapply wp_mono with (Q := fun _ => entropy) (E := fun _ _ => entropy);
    [|intros signals s' Hs'; apply entropy_ExecuteSignals_kept, Hs'|auto].
  apply wp_for_fold with (I := fun _ => entropy); [assumption|].
  intros signals symbol s1 _ Hs1.
  unfold Entropy.CalculatePermutationEntropy, Entropy.DetectRegimeChange.
  wp_run; kept.
Qed.

Lemma entropy_reachable s : EntropyRun.reachable s -> entropy s.
Proof.
  induction 1.
  - split; reflexivity.
  - kept.
  - now apply preserves_snd; [apply entropy_OnData_kept|].
  - now apply preserves_snd; [apply entropy_AnalyzeRegimes_kept|].
Qed.

(** *** The fractal script *)

Lemma fractal_CalculateHurstExponent_kept prices :
  preserves fractal (Fractal.CalculateHurstExponent prices).
Proof.
  intros s Hs. unfold Fractal.CalculateHurstExponent. wp_run; try kept.
  eapply wp_mono with (Q := fun _ => fractal) (E := fun _ _ => fractal);
    [| |auto].
  - apply wp_for_fold with (I := fun _ => fractal); [assumption|].
    intros rs lag s1 _ Hs1. wp_run; kept.
  - intros rs s' Hs'. wp_run; kept.
Qed.

Lemma fractal_UpdateBreakoutLevels_kept :
  preserves fractal Fractal.UpdateBreakoutLevels.
Proof.
  intros s Hs. unfold Fractal.UpdateBreakoutLevels.
  apply wp_for_each; [assumption|].
  intros symbol s1 _ Hs1. wp_run; kept.
Qed.

Lemma fractal_CheckBreakouts_kept data :
  preserves fractal (Fractal.CheckBreakouts data).
Proof.
  intros s Hs. unfold Fractal.CheckBreakouts. apply wp_for_each; [assumption|].
  intros symbol s1 _ Hs1.
  unfold Fractal.EnterPosition, Fractal.MarketOrder, Fractal.Liquidate.
  wp_run; kept.
Qed.

Lemma fractal_ManagePositions_kept data :
  preserves fractal (Fractal.ManagePositions data).
Proof.
  intros s Hs. unfold Fractal.ManagePositions. wp_run.
  apply wp_for_each; [assumption|].
  intros symbol s' _ Hs'. clear s Hs.
  unfold Fractal.CleanupPosition, Fractal.MarketOrder, Fractal.Liquidate.
  wp_run; kept.
Qed.

Lemma fractal_OnData_kept data : preserves fractal (Fractal.OnData data).
Proof.
  intros s Hs. unfold Fractal.OnData. wp_run; [kept|].
  eapply wp_mono with (Q := fun _ => fractal) (E := fun _ _ => fractal);
    [| |auto].
  - apply wp_for_each; [assumption|].
    intros symbol s1 _ Hs1. wp_run; kept.
  - intros [] s1 Hs1. wp_run.
    eapply wp_call; [apply fractal_UpdateBreakoutLevels_kept|assumption| |auto].
    intros [] s2 Hs2. wp_run.
    eapply wp_call; [apply fractal_CheckBreakouts_kept|assumption| |auto].
    intros [] s3 Hs3. now apply fractal_ManagePositions_kept.
Qed.

Lemma fractal_AnalyzeFractalDimension_kept :
  preserves fractal Fractal.AnalyzeFractalDimension.
Proof.
  intros s Hs. unfold Fractal.AnalyzeFractalDimension.
  apply wp_for_each; [assumption|].
  intros symbol s1 _ Hs1. wp_run; try kept.
  eapply wp_call; [apply fractal_CalculateHurstExponent_kept|assumption| |auto].
  intros hurst s' Hs'. wp_run; kept.
Qed.

Lemma fractal_reachable s : FractalRun.reachable s -> fractal s.
Proof.
  induction 1.
  - repeat split.
  - kept.
  - now apply preserves_snd; [apply fractal_OnData_kept|].
  - now apply preserves_snd; [apply fractal_AnalyzeFractalDimension_kept|].
Qed.

(** *** The VPIN script *)

Lemma vpin_complete_buckets_kept fuel symbol :
  forall bucket, preserves vpin (VPIN.complete_buckets fuel symbol bucket).
Proof.
  induction fuel as [|fuel IH]; intros bucket s Hs; simpl.
  - exact Hs.
  - rewrite wp_bind, wp_gets.
    destruct (_ <=? _); [|exact Hs]. cbv zeta.
    set (c := VPIN.Completed.Build_t _ _ _).
    set (carry := VPIN.Bucket.Build_t _ _ _).
    clearbody c carry. unfold VPIN.CalculateVPIN.
    wp_run; try kept; apply IH; kept.
Qed.

Lemma vpin_OnHourlyData_kept bar : preserves vpin (VPIN.OnHourlyData bar).
Proof.
  intros s Hs.
  unfold VPIN.OnHourlyData, VPIN.DetectToxicityRegime, VPIN.EnterLong,
    VPIN.MarketOrder.
  wp_run; kept.
Qed.

Lemma vpin_ManagePositions_kept data :
  preserves vpin (VPIN.ManagePositions data).
Proof.
  intros s Hs. unfold VPIN.ManagePositions. wp_run.
  apply wp_for_each; [assumption|].
  intros symbol s' _ Hs'. clear s Hs.
  unfold VPIN.CleanupPosition, VPIN.Liquidate. wp_run; kept.
Qed.

Lemma vpin_OnData_kept norm_cdf data :
  preserves vpin (VPIN.OnData norm_cdf data).
Proof.
  intros s Hs. unfold VPIN.OnData. wp_run; [kept|].
  eapply wp_mono with (Q := fun _ => vpin) (E := fun _ _ => vpin); [| |auto].
  - apply wp_for_each; [assumption|].
    intros symbol s1 _ Hs1. unfold VPIN.ProcessBarForVPIN.
    wp_run; try kept.
    all: eapply wp_call;
      [apply vpin_complete_buckets_kept|kept| |auto];
      intros [] s' Hs'; wp_run; kept.
  - intros [] s' Hs'. now apply vpin_ManagePositions_kept.
Qed.

Lemma vpin_reachable norm_cdf feed s :
  VPINRun.reachable norm_cdf feed s -> vpin s.
Proof.
  induction 1.
  - split; reflexivity.
  - kept.
  - now apply preserves_snd; [apply vpin_OnData_kept|].
  - now apply preserves_snd; [apply vpin_OnHourlyData_kept|].
Qed.

End ParameterFacts.

(** ** CalculateHurstExponent on prices that go up and down *)

Module HurstSample.
Import Py PyFacts Run Engine Fractal FractalSpec.
Local Open Scope R_scope.

Lemma sum_nonneg (l : list R) : Forall (Rle 0) l -> 0 <= Np.sum l.
Proof.
  induction 1 as [|x l Hx _ IH]; simpl; lra.
Qed.

Lemma sum_pos (l : list R) x :
  Forall (Rle 0) l -> In x l -> 0 < x -> 0 < Np.sum l.
Proof.
  induction 1 as [|y l Hy Hl IH]; intros Hin Hx; [destruct Hin|].
  simpl. pose proof (sum_nonneg Hl). destruct Hin as [->|Hin]; [lra|].
  specialize (IH Hin Hx). lra.
Qed.

(** a sample with two different values has a positive deviation *)
Lemma std_pos (l : list R) a b :
  In a l -> In b l -> a <> b -> (2 <= length l)%nat -> 0 < Np.std 1 l.
Proof.
  intros Ha Hb Hab Hlen. unfold Np.std. generalize (Np.mean l) as mu.
  intros mu. apply sqrt_lt_R0. apply Rdiv_lt_0_compat.
  - assert (Hsq : Forall (Rle 0) (map (fun x => (x - mu) * (x - mu)) l)).
    { apply Forall_forall. intros y Hy. apply in_map_iff in Hy as (x & <- & _).
      apply Rle_0_sqr. }
    destruct (Req_dec a mu) as [Hmu|Hmu].
    + apply (@sum_pos _ ((b - mu) * (b - mu)) Hsq).
      * apply in_map_iff. now exists b.
      * assert (b - mu <> 0) by lra. nra.
    + apply (@sum_pos _ ((a - mu) * (a - mu)) Hsq).
      * apply in_map_iff. now exists a.
      * assert (a - mu <> 0) by lra. nra.
  - assert (2 <= INR (length l)) by (apply (le_INR 2); exact Hlen).
    simpl. lra.
Qed.

(** the loop of lines 125-142 never drops a value it has collected *)
Lemma rs_loop_grows returns lag (l : list nat) :
  forall acc, acc <> [] ->
    fold_left
      (fun rs_subseries i =>
         let subseries := firstn lag (skipn (i * lag) returns) in
         if (length subseries <? 2)%nat then rs_subseries
         else
           match rescaled_range subseries with
           | Some rs => rs_subseries ++ [rs]
           | None => rs_subseries
           end) l acc <> [].
Proof.
  induction l as [|i l IH]; intros acc Hacc; cbn [fold_left]; [exact Hacc|].
  apply IH. cbv zeta.
  destruct (_ <? 2)%nat; [exact Hacc|].
  destruct (rescaled_range _); [|exact Hacc].
  intros E. apply app_eq_nil in E as [_ E]. discriminate.
Qed.

Lemma rs_of_lag_nonempty returns lag :
  (2 <= lag <= length returns)%nat ->
  0 < Np.std 1 (firstn lag returns) ->
  rs_of_lag returns lag <> [].
Proof.
  intros [Hlag Hlen] Hstd. unfold rs_of_lag.
  assert (Hn : (1 <= length returns / lag)%nat)
    by (apply Nat.div_le_lower_bound; lia).
  destruct (length returns / lag)%nat as [|n]; [lia|].
  cbn [seq fold_left]. apply rs_loop_grows.
  cbv zeta. change (skipn (0 * lag) returns) with returns.
  rewrite length_firstn.
  destruct (Nat.ltb_spec (Nat.min lag (length returns)) 2) as [Hlt|_]; [lia|].
  unfold rescaled_range.
  destruct (Rltb_spec 0 (Np.std 1 (firstn lag returns))) as [_|Hn0];
    [discriminate|contradiction].
Qed.

(** the log returns of the zigzag: up by [ln 2], down by [ln 2], ... *)
Lemma zigzag_returns (s : FractalDimensionBreakout) :
  hurst_lookback s = 100%nat ->
  exists rest,
    returns_of s Samples.zigzag = (ln 2 - ln 1) :: (ln 1 - ln 2) :: rest
    /\ length rest = 97%nat.
Proof.
  intros Hl. unfold returns_of, last_items. rewrite Hl.
  unfold Samples.zigzag. cbn [repeat concat app length Nat.eqb Nat.sub skipn map Np.diff].
  eexists. split; [reflexivity|]. reflexivity.
Qed.

Lemma zigzag_deviation (rest : list R) lag :
  (2 <= lag)%nat ->
  0 < Np.std 1 (firstn lag ((ln 2 - ln 1) :: (ln 1 - ln 2) :: rest)).
Proof.
  intros Hlag. destruct lag as [|[|k]]; try lia. cbn [firstn].
  apply (@std_pos _ (ln 2 - ln 1) (ln 1 - ln 2)).
  - now left.
  - right. now left.
  - pose proof ShannonFacts.ln_2_pos. rewrite ln_1. lra.
  - simpl. lia.
Qed.

(** every lag from 2 to 19 gives a rescaled-range point *)
Lemma zigzag_points (s : FractalDimensionBreakout) :
  hurst_lookback s = 100%nat -> min_lag s = 2%nat -> max_lag s = 20%nat ->
  let returns := returns_of s Samples.zigzag in
  length returns = 99%nat
  /\ (3 <= length (rs_points returns (lags_of s returns)))%nat.
Proof.
  intros Hl Hmin Hmax. cbv zeta.
  destruct (zigzag_returns s Hl) as (rest & -> & Hrest).
  assert (Hlen : length ((ln 2 - ln 1) :: (ln 1 - ln 2) :: rest) = 99%nat)
    by (cbn [length]; now rewrite Hrest).
  split; [exact Hlen|].
  unfold lags_of. rewrite Hmin, Hmax, Hlen.
  change (seq 2 (Nat.min 20 (99 / 4) - 2)) with (2 :: 3 :: 4 :: seq 5 15)%nat.
  unfold rs_points. cbn [flat_map]. rewrite !length_app.
  assert (Hpoint : forall lag, (2 <= lag <= 4)%nat ->
            length (match rs_of_lag ((ln 2 - ln 1) :: (ln 1 - ln 2) :: rest) lag with
                    | [] => []
                    | r :: l => [(lag, Np.mean (r :: l))]
                    end) = 1%nat).
  { intros lag Hlag.
    destruct (rs_of_lag _ lag) eqn:E; [|reflexivity].
    exfalso. revert E. apply rs_of_lag_nonempty; [lia|].
    apply zigzag_deviation. lia. }
  rewrite (Hpoint 2%nat), (Hpoint 3%nat), (Hpoint 4%nat) by lia. lia.
Qed.

End HurstSample.

(** ** The estimators and the list they are handed *)

Module CallFacts.
Import Py PyFacts Run Hoare HoareFacts Engine Call.
Local Open Scope R_scope.

Lemma nth_new (st : list (list R)) l : nth (length st) (st ++ [l]) [] = l.
Proof. rewrite app_nth2, Nat.sub_diag by lia. reflexivity. Qed.

(** The loop over the lags reads neither the object nor the store. *)
Lemma rs_loop_pure returns (lags : list nat) :
  forall acc,
    exists r : result (list (nat * R)),
      forall (S : Type) (s : S),
        for_fold lags acc
          (fun rs_values lag =>
             if (lag =? 0)%nat then raise ZeroDivisionError 122
             else
               let rs_subseries := Fractal.rs_of_lag returns lag in
               match rs_subseries with
               | [] => ret rs_values
               | _ => ret (rs_values ++ [(lag, Np.mean rs_subseries)])
               end) s
        = (r, s).
Proof.
  induction lags as [|lag lags IH]; intros acc; simpl.
  - exists (Ok acc). reflexivity.
  - destruct (lag =? 0)%nat.
    + exists (Raise ZeroDivisionError 122). reflexivity.
    + cbv zeta. destruct (Fractal.rs_of_lag returns lag) as [|rs rest].
      * destruct (IH acc) as [r Hr]. exists r. intros S s.
        unfold bind at 1, ret at 1. apply Hr.
      * destruct (IH (acc ++ [(lag, Np.mean (rs :: rest))])) as [r Hr].
        exists r. intros S s. unfold bind at 1, ret at 1. apply Hr.
Qed.

(** *** Running the statements of a frame *)

Section Steps.
Context {S : Type}.
Variables (s : S) (st : list (list R)).

Lemma run_bind {T A B} (c : M T A) (k : A -> M T B) (t : T) :
  bind c k t
  = match c t with
    | (Ok a, t') => k a t'
    | (Raise e line, t') => (Raise e line, t')
    end.
Proof. reflexivity. Qed.

Lemma run_gets {T A B} (f : T -> A) (k : A -> M T B) (t : T) :
  bind (gets f) k t = k (f t) t.
Proof. reflexivity. Qed.

Lemma run_on_self_gets {A B} (f : S -> A) (k : A -> M (Frame S) B) :
  bind (on_self (gets f)) k {| self := s; store := st |}
  = k (f s) {| self := s; store := st |}.
Proof. reflexivity. Qed.

Lemma run_items_of {B} x (k : list R -> M (Frame S) B) :
  bind (items_of x) k {| self := s; store := st |}
  = k (nth x st []) {| self := s; store := st |}.
Proof. reflexivity. Qed.

Lemma run_len_of {B} x (k : nat -> M (Frame S) B) :
  bind (len_of x) k {| self := s; store := st |}
  = k (length (nth x st [])) {| self := s; store := st |}.
Proof. reflexivity. Qed.

Lemma run_np_array {B} x (k : Ref -> M (Frame S) B) :
  bind (np_array x) k {| self := s; store := st |}
  = k (length st) {| self := s; store := st ++ [nth x st []] |}.
Proof. reflexivity. Qed.

Lemma run_slice_last {B} n x (k : Ref -> M (Frame S) B) :
  bind (slice_last n x) k {| self := s; store := st |}
  = k (length st) {| self := s; store := st ++ [last_items n (nth x st [])] |}.
Proof. reflexivity. Qed.

End Steps.

Ltac returned :=
  unfold ret, raise; cbn [self store fst snd]; repeat split;
  rewrite <- ?app_assoc;
  first [ now (exists []; rewrite app_nil_r) | eauto ].

(** CalculatePermutationEntropy on a reference returns what it returns on
    the items found there; it leaves the object as it was and the store
    as it was but for objects of its own. *)
Lemma CalculatePermutationEntropy_frame (prices : Ref)
    (frame : Frame Entropy.EntropyRegimeDetector) :
  let after := snd (Call.CalculatePermutationEntropy prices frame) in
  fst (Call.CalculatePermutationEntropy prices frame)
  = fst (Entropy.CalculatePermutationEntropy
           (nth prices (store frame) []) (self frame))
  /\ self after = self frame
  /\ exists fresh, store after = store frame ++ fresh.
Proof.
  destruct frame as [s st]. cbv zeta. cbn [self store].
  unfold Call.CalculatePermutationEntropy, Entropy.CalculatePermutationEntropy.
  rewrite !run_on_self_gets, run_len_of, !run_gets.
  destruct (_ <? _)%Z; [returned|].
  rewrite run_np_array, run_len_of, run_items_of, !nth_new.
  destruct (Entropy.count_patterns _ _ _ _) as [pc tot].
  destruct (tot =? 0)%nat; returned.
Qed.

(** The same for CalculateHurstExponent. *)
Lemma CalculateHurstExponent_frame (prices : Ref)
    (frame : Frame Fractal.FractalDimensionBreakout) :
  let after := snd (Call.CalculateHurstExponent prices frame) in
  fst (Call.CalculateHurstExponent prices frame)
  = fst (Fractal.CalculateHurstExponent
           (nth prices (store frame) []) (self frame))
  /\ self after = self frame
  /\ exists fresh, store after = store frame ++ fresh.
Proof.
  destruct frame as [s st]. cbv zeta. cbn [self store].
  unfold Call.CalculateHurstExponent, Fractal.CalculateHurstExponent.
  rewrite run_on_self_gets, run_len_of, run_gets.
  destruct (_ <? _)%nat; [returned|].
  rewrite run_slice_last, run_np_array, run_items_of.
  rewrite length_app. cbn [length].
  rewrite run_on_self_gets, run_gets.
  replace (nth _ _ _) with (last_items (Fractal.hurst_lookback s) (nth prices st [])).
  2:{ symmetry.
      replace (length st + 1)%nat
        with (length (st ++ [last_items (Fractal.hurst_lookback s) (nth prices st [])]))
        by (rewrite length_app; reflexivity).
      rewrite nth_new. apply nth_new. }
  destruct (_ <? _)%nat; [returned|].
  rewrite run_on_self_gets, run_gets, !run_bind.
  match goal with
  | |- context [for_fold ?lags ?acc _ _] =>
      match goal with
      | |- context [Fractal.rs_of_lag ?returns _] =>
          destruct (rs_loop_pure returns lags acc) as [[rs|e line] Hr]
      end
  end; rewrite !Hr; [|returned].
  destruct (_ <? _)%nat; returned.
Qed.

(** With the parameters of Initialize the two estimators read nothing
    else of the object. *)
Lemma CalculatePermutationEntropy_reads (s1 s2 : Entropy.EntropyRegimeDetector)
    prices :
  Parameters.entropy s1 -> Parameters.entropy s2 ->
  fst (Entropy.CalculatePermutationEntropy prices s1)
  = fst (Entropy.CalculatePermutationEntropy prices s2).
Proof.
  intros [Hm1 Ht1] [Hm2 Ht2].
  unfold Entropy.CalculatePermutationEntropy, bind, gets, ret.
  rewrite Hm1, Ht1, Hm2, Ht2. destruct (_ <? _)%Z; [reflexivity|].
  destruct (Entropy.count_patterns _ _ _ _) as [pc tot].
  destruct (tot =? 0)%nat; reflexivity.
Qed.

Lemma CalculateHurstExponent_reads (s1 s2 : Fractal.FractalDimensionBreakout)
    prices :
  Parameters.fractal s1 -> Parameters.fractal s2 ->
  fst (Fractal.CalculateHurstExponent prices s1)
  = fst (Fractal.CalculateHurstExponent prices s2).
Proof.
  intros (Hl1 & Hmin1 & Hmax1) (Hl2 & Hmin2 & Hmax2).
  rewrite !HurstFacts.CalculateHurstExponent_eq by lia.
  unfold FractalSpec.returns_of, FractalSpec.lags_of.
  now rewrite Hl1, Hmin1, Hmax1, Hl2, Hmin2, Hmax2.
Qed.

Lemma CalculateVPIN_reads (s1 s2 : VPIN.VPINToxicityDetector)
    (symbol1 symbol2 : Symbol) (h1 h2 : deque VPIN.Completed.t) :
  Parameters.vpin s1 -> Parameters.vpin s2 ->
  get (VPIN.bucket_history s1) symbol1 = Some h1 ->
  get (VPIN.bucket_history s2) symbol2 = Some h2 ->
  items h1 = items h2 ->
  fst (VPIN.CalculateVPIN symbol1 s1) = fst (VPIN.CalculateVPIN symbol2 s2).
Proof.
  intros [Hn1 Hb1] [Hn2 Hb2] Hg1 Hg2 Hitems.
  unfold VPIN.CalculateVPIN, bind, gets, check. unfold ret, raise.
  cbv beta iota. rewrite Hg1, Hg2. cbv beta iota zeta.
  unfold len. rewrite Hn1, Hn2, Hitems.
  destruct (_ <? _)%nat; [reflexivity|]. cbv beta iota.
  now rewrite Hb1, Hb2.
Qed.

Lemma CalculateVPIN_keeps (s : VPIN.VPINToxicityDetector) (symbol : Symbol) :
  snd (VPIN.CalculateVPIN symbol s) = s.
Proof.
  unfold VPIN.CalculateVPIN, bind, gets, check. unfold ret, raise.
  cbv beta iota. destruct (get _ symbol); [|reflexivity].
  cbv beta iota zeta. destruct (_ <? _)%nat; reflexivity.
Qed.

(** A full bucket history has a VPIN. *)
Lemma CalculateVPIN_full (s : VPIN.VPINToxicityDetector) (symbol : Symbol)
    (history : deque VPIN.Completed.t) :
  get (VPIN.bucket_history s) symbol = Some history ->
  (VPIN.n_buckets s <= len history)%nat ->
  exists vpin, VPIN.CalculateVPIN symbol s = (Ok (Some vpin), s).
Proof.
  intros Hget Hfull.
  unfold VPIN.CalculateVPIN, bind, gets, check. unfold ret, raise.
  cbv beta iota. rewrite Hget. cbv beta iota zeta.
  rewrite (proj2 (Nat.ltb_ge _ _) Hfull). eauto.
Qed.

(** Nine prices are enough for a permutation entropy. *)
Lemma CalculatePermutationEntropy_returns (s : Entropy.EntropyRegimeDetector)
    prices :
  Parameters.entropy s -> (9 <= length prices)%nat ->
  exists entropy,
    Entropy.CalculatePermutationEntropy prices s = (Ok (Some entropy), s).
Proof.
  intros [Hm Ht] Hlen.
  unfold Entropy.CalculatePermutationEntropy, bind, gets, ret.
  rewrite Hm, Ht.
  destruct (Z.ltb_spec (Z.of_nat (length prices))
              (Z.of_nat 5 + (Z.of_nat 5 - 1) * Z.of_nat 1)) as [Hlt|_]; [lia|].
  set (windows := Z.to_nat _).
  assert (Hw : (1 <= windows)%nat) by (subst windows; lia).
  destruct (EntropyFacts.count_patterns_counted 5 1 prices windows) as [_ Htot].
  destruct (Entropy.count_patterns 5 1 prices windows) as [pc tot]; simpl in *.
  destruct (Nat.eqb_spec tot 0) as [E|_]; [lia|]. eauto.
Qed.

(** The zigzag has a Hurst exponent. *)
Lemma CalculateHurstExponent_zigzag (s : Fractal.FractalDimensionBreakout) :
  Parameters.fractal s ->
  exists hurst,
    Fractal.CalculateHurstExponent Samples.zigzag s = (Ok (Some hurst), s).
Proof.
  intros (Hl & Hmin & Hmax).
  rewrite HurstFacts.CalculateHurstExponent_eq by lia.
  destruct (HurstSample.zigzag_points s Hl Hmin Hmax) as [Hret Hpts].
  rewrite Hl, Hret, Hmax.
  change (length Samples.zigzag <? 100)%nat with false.
  change (99 <? 20)%nat with false. cbv iota.
  rewrite (proj2 (Nat.ltb_ge _ _) Hpts). eauto.
Qed.

End CallFacts.

(** ** Entries and open positions *)

Module PositionsFacts.
Import Py PyFacts Run Hoare HoareFacts Engine Positions.
Local Open Scope R_scope.

Lemma contains_set {V} (d : dict Symbol V) k v k' :
  contains (set d k v) k' = if eq_dec k' k then true else contains d k'.
Proof.
  unfold contains. destruct (eq_dec k' k) as [->|Hne].
  - now rewrite get_set_eq.
  - rewrite get_set_ne by congruence. reflexivity.
Qed.

Lemma contains_del {V} (d : dict Symbol V) k k' :
  contains (del d k) k' = if eq_dec k' k then false else contains d k'.
Proof.
  unfold contains. destruct (eq_dec k' k) as [->|Hne].
  - now rewrite get_del_eq.
  - rewrite get_del_ne by congruence. reflexivity.
Qed.

Lemma int_fraction (q : Z) (c : R) :
  (0 < q)%Z -> 0 < c < 1 -> (0 <= int (IZR q * c) < q)%Z.
Proof.
  intros Hq Hc. apply IZR_lt in Hq. unfold int.
  destruct (Rleb_spec 0 (IZR q * c)) as [Hpos|Hneg]; [|exfalso; nra].
  destruct (base_Int_part (IZR q * c)) as [Hle Hgt]. split.
  - assert (H1 : IZR (-1) < IZR (Int_part (IZR q * c))) by (simpl; lra).
    apply lt_IZR in H1. lia.
  - apply lt_IZR. nra.
Qed.

(** an order that opens or adds to a long position, and its entry *)
Lemma tracks_open {V} q (d : dict Symbol V) symbol shares v :
  not_short q -> (0 < shares)%Z -> tracks q d ->
  tracks (fill q symbol shares) (set d symbol v).
Proof.
  intros Hq Hs Hd x. rewrite contains_set. simpl.
  destruct (eq_dec x symbol) as [->|_]; [|apply Hd].
  symmetry. apply Z.ltb_lt. specialize (Hq symbol). lia.
Qed.

Lemma not_short_open q symbol shares :
  not_short q -> (0 < shares)%Z -> not_short (fill q symbol shares).
Proof.
  intros Hq Hs x. simpl. specialize (Hq x).
  destruct (eq_dec x symbol); lia.
Qed.

(** a liquidation, and the deletion of the entry *)
Lemma tracks_close {V} q (d : dict Symbol V) symbol :
  tracks q d -> tracks (flatten q symbol) (del d symbol).
Proof.
  intros Hd x. rewrite contains_del. simpl.
  destruct (eq_dec x symbol); [reflexivity|apply Hd].
Qed.

Lemma not_short_close q symbol : not_short q -> not_short (flatten q symbol).
Proof.
  intros Hq x. simpl. specialize (Hq x). destruct (eq_dec x symbol); lia.
Qed.

(** a sale of part of a long position *)
Lemma tracks_reduce {V} q (d : dict Symbol V) symbol sold :
  tracks q d -> (0 <= sold < Quantity q symbol)%Z ->
  tracks (fill q symbol (- sold)) d.
Proof.
  intros Hd Hs x. simpl. rewrite (Hd x).
  destruct (eq_dec x symbol) as [->|_]; [|reflexivity].
  destruct (Z.ltb_spec 0 (Quantity q symbol)), (Z.ltb_spec 0 (Quantity q symbol + - sold)); lia.
Qed.

Lemma not_short_reduce q symbol sold :
  not_short q -> (0 <= sold < Quantity q symbol)%Z ->
  not_short (fill q symbol (- sold)).
Proof.
  intros Hq Hs x. simpl. specialize (Hq x). destruct (eq_dec x symbol); subst; lia.
Qed.

(** a new value for the entry of a held symbol *)
Lemma tracks_update {V} q (d : dict Symbol V) symbol v :
  tracks q d -> (0 < Quantity q symbol)%Z -> tracks q (set d symbol v).
Proof.
  intros Hd Hq x. rewrite contains_set.
  destruct (eq_dec x symbol) as [->|_]; [|apply Hd].
  symmetry. now apply Z.ltb_lt.
Qed.

(** the deletion of the entry of a symbol that is not held *)
Lemma tracks_forget {V} q (d : dict Symbol V) symbol :
  tracks q d -> (Quantity q symbol <= 0)%Z -> tracks q (del d symbol).
Proof.
  intros Hd Hq x. rewrite contains_del.
  destruct (eq_dec x symbol) as [->|_]; [|apply Hd].
  symmetry. apply Z.ltb_ge. assumption.
Qed.

Lemma tracks_held {V} q (d : dict Symbol V) symbol :
  tracks q d -> contains d symbol = true -> (0 < Quantity q symbol)%Z.
Proof. intros Hd Hc. rewrite (Hd symbol) in Hc. now apply Z.ltb_lt. Qed.

(** The leaves of the symbolic runs: the bookkeeping at one symbol [x],
    by cases on whether [x] is the symbol that was traded. *)
Ltac bools :=
  repeat match goal with
         | H : (_ <? _)%Z = true |- _ => apply Z.ltb_lt in H
         | H : (_ <? _)%Z = false |- _ => apply Z.ltb_ge in H
         | H : (_ <=? _)%Z = true |- _ => apply Z.leb_le in H
         | H : (_ <=? _)%Z = false |- _ => apply Z.leb_gt in H
         | H : (_ =? _)%Z = true |- _ => apply Z.eqb_eq in H
         | H : (_ =? _)%Z = false |- _ => apply Z.eqb_neq in H
         | H : negb _ = true |- _ => apply negb_true_iff in H
         | H : negb _ = false |- _ => apply negb_false_iff in H
         end.

Ltac fractions :=
  repeat match goal with
         | |- context [int (IZR ?q * ?c)] =>
             lazymatch goal with
             | _ : (0 <= int (IZR q * c) < q)%Z |- _ => fail
             | _ => assert (0 <= int (IZR q * c) < q)%Z
                      by (apply int_fraction; [lia|lra])
             end
         end.

Ltac at_symbol x :=
  repeat (rewrite contains_set || rewrite contains_del);
  repeat match goal with
         | H : forall symbol : Symbol, _ |- _ => pose proof (H x); clear H
         end;
  repeat match goal with
         | |- context [eq_dec x ?k] => destruct (eq_dec x k); subst
         end;
  repeat match goal with
         | H : contains ?d ?y = _ |- context [contains ?d ?y] => rewrite H
         end;
  try (rewrite Z.abs_eq in * by lia);
  fractions;
  repeat match goal with
         | |- context [(0 <? ?e)%Z] => destruct (Z.ltb_spec 0 e)
         | H : context [(0 <? ?e)%Z] |- _ => destruct (Z.ltb_spec 0 e)
         end;
  first [ reflexivity | lia | congruence
        | unfold contains in *;
          repeat match goal with
                 | H : get ?d ?k = _, H' : context [get ?d ?k] |- _ =>
                     rewrite H in H'
                 end;
          discriminate
        | idtac ].

Ltac tracked :=
  try match goal with
      | H : get (set _ ?k _) ?k = None |- _ =>
          rewrite get_set_eq in H; discriminate
      end;
  unfold entropy_tracked, fractal_tracked, vpin_tracked, tracks, not_short in *;
  simpl in *;
  repeat match goal with H : _ /\ _ |- _ => destruct H end;
  bools;
  repeat match goal with |- _ /\ _ => split end;
  let x := fresh "x" in intros x; at_symbol x.

(** *** The entropy script *)

Lemma entropy_ExecuteSignals_tracked signals :
  preserves entropy_tracked (Entropy.ExecuteSignals signals).
Proof.
  intros s Hs. unfold Entropy.ExecuteSignals. apply wp_for_each; [assumption|].
  clear s Hs. intros [symbol [action confidence]] s _ Hs.
  unfold Entropy.MarketOrder, Entropy.Liquidate.
  wp_run; try assumption; tracked.
Qed.

Lemma entropy_ManagePositions_tracked data :
  preserves entropy_tracked (Entropy.ManagePositions data).
Proof.
  intros s Hs. unfold Entropy.ManagePositions. apply wp_for_each; [assumption|].
  clear s Hs. intros symbol s _ Hs.
  unfold Entropy.MarketOrder, Entropy.Liquidate.
  wp_run; try assumption; tracked.
Qed.

Lemma entropy_OnData_tracked data : preserves entropy_tracked (Entropy.OnData data).
Proof.
  intros s Hs. unfold Entropy.OnData. wp_run; [assumption|].
  eapply wp_mono with (Q := fun _ => entropy_tracked)
                      (E := fun _ _ => entropy_tracked);
    [|intros [] s' Hs'; apply entropy_ManagePositions_tracked, Hs'|auto].
  apply wp_for_each; [assumption|].
  clear. intros symbol s _ Hs. wp_run; assumption.
Qed.

Lemma entropy_AnalyzeRegimes_tracked :
  preserves entropy_tracked Entropy.AnalyzeRegimes.
Proof.
  intros s Hs. unfold Entropy.AnalyzeRegimes. rewrite wp_bind.
  eapply wp_mono with (Q := fun _ => entropy_tracked)
                      (E := fun _ _ => entropy_tracked);
    [|intros signals s' Hs'; apply entropy_ExecuteSignals_tracked, Hs'|auto].
  apply wp_for_fold with (I := fun _ => entropy_tracked); [assumption|].
  clear. intros signals symbol s _ Hs.
  unfold Entropy.CalculatePermutationEntropy, Entropy.DetectRegimeChange.
  wp_run; assumption.
Qed.

Lemma entropy_run_tracked s : entropy_run s -> entropy_tracked s.
Proof.
  induction 1 as [q Hq|s q _ IH Hq| |].
  - split; [|split]; intros x; simpl; rewrite ?Hq; try reflexivity; lia.
  - destruct IH as (Hn & He & Hs). split; [|split]; intros x; simpl.
    + rewrite Hq. apply Hn.
    + rewrite Hq. apply He.
    + rewrite Hq. apply Hs.
  - now apply preserves_snd; [apply entropy_OnData_tracked|].
  - now apply preserves_snd; [apply entropy_AnalyzeRegimes_tracked|].
Qed.

(** *** The fractal script *)

Lemma fractal_CleanupPosition_flat symbol s :
  fractal_tracked s -> (Quantity (Fractal.base s) symbol <= 0)%Z ->
  wp (Fractal.CleanupPosition symbol) (fun _ => fractal_tracked)
     (fun _ _ => fractal_tracked) s.
Proof.
  intros Hs Hflat. unfold Fractal.CleanupPosition. wp_run. tracked.
Qed.

Lemma fractal_EnterPosition_tracked symbol direction price hurst s :
  fractal_tracked s -> contains (Fractal.entry_prices s) symbol = false ->
  wp (Fractal.EnterPosition symbol direction price hurst)
     (fun _ => fractal_tracked) (fun _ _ => fractal_tracked) s.
Proof.
  intros Hs Hnew.
  assert (Hflat : (Quantity (Fractal.base s) symbol <= 0)%Z).
  { destruct Hs as (_ & He & _). rewrite (He symbol) in Hnew.
    now apply Z.ltb_ge. }
  unfold Fractal.EnterPosition, Fractal.MarketOrder, Fractal.Liquidate.
  wp_run; try assumption; tracked.
Qed.

Lemma fractal_CheckBreakouts_tracked data :
  preserves fractal_tracked (Fractal.CheckBreakouts data).
Proof.
  intros s Hs. unfold Fractal.CheckBreakouts. apply wp_for_each; [assumption|].
  clear. intros symbol s _ Hs. wp_run; try assumption.
  all: now apply fractal_EnterPosition_tracked.
Qed.

Lemma fractal_ManagePositions_tracked data :
  preserves fractal_tracked (Fractal.ManagePositions data).
Proof.
  intros s Hs. unfold Fractal.ManagePositions. wp_run.
  apply wp_for_each; [assumption|].
  intros symbol s' _ Hs'. clear s Hs.
  unfold Fractal.MarketOrder, Fractal.Liquidate, Fractal.CleanupPosition.
  wp_run; try assumption; tracked.
Qed.

Lemma fractal_OnData_tracked data : preserves fractal_tracked (Fractal.OnData data).
Proof.
  intros s Hs. unfold Fractal.OnData. wp_run; [assumption|].
  eapply wp_mono with (Q := fun _ => fractal_tracked)
                      (E := fun _ _ => fractal_tracked).
  - apply wp_for_each; [assumption|].
    clear. intros symbol s _ Hs. wp_run; assumption.
  - intros [] s1 Hs1. wp_run.
    eapply wp_mono with (Q := fun _ => fractal_tracked)
                        (E := fun _ _ => fractal_tracked).
    + unfold Fractal.UpdateBreakoutLevels. apply wp_for_each; [assumption|].
      clear. intros symbol s _ Hs. wp_run; assumption.
    + intros [] s2 Hs2. wp_run.
      eapply wp_call; [apply fractal_CheckBreakouts_tracked|assumption| |auto].
      intros [] s3 Hs3. now apply fractal_ManagePositions_tracked.
    + auto.
  - auto.
Qed.

Lemma fractal_AnalyzeFractalDimension_tracked :
  preserves fractal_tracked Fractal.AnalyzeFractalDimension.
Proof.
  intros s Hs. unfold Fractal.AnalyzeFractalDimension.
  apply wp_for_each; [assumption|].
  clear. intros symbol s _ Hs. wp_run; try assumption.
  eapply wp_mono with (Q := fun _ s' => s' = s) (E := fun _ _ s' => s' = s).
  - unfold Fractal.CalculateHurstExponent. wp_run; try reflexivity.
    eapply wp_mono with (Q := fun _ s' => s' = s) (E := fun _ _ s' => s' = s);
      [| |auto].
    + apply wp_for_fold with (I := fun _ s' => s' = s); [reflexivity|].
      intros rs lag s' _ ->. wp_run; reflexivity.
    + intros rs s' ->. wp_run; reflexivity.
  - intros r s' ->. wp_run; assumption.
  - now intros _ _ s' ->.
Qed.

Lemma fractal_run_tracked s : fractal_run s -> fractal_tracked s.
Proof.
  induction 1 as [q Hq|s q _ IH Hq| |].
  - split; [|split; [|split; [|split]]]; intros x; simpl; rewrite ?Hq;
      try reflexivity; lia.
  - destruct IH as (Hn & H1 & H2 & H3 & H4).
    split; [|split; [|split; [|split]]]; intros x; simpl; rewrite Hq;
      first [apply Hn|apply H1|apply H2|apply H3|apply H4].
  - now apply preserves_snd; [apply fractal_OnData_tracked|].
  - now apply preserves_snd; [apply fractal_AnalyzeFractalDimension_tracked|].
Qed.

(** *** The VPIN script *)

Lemma vpin_complete_buckets_tracked fuel symbol :
  forall bucket, preserves vpin_tracked (VPIN.complete_buckets fuel symbol bucket).
Proof.
  induction fuel as [|fuel IH]; intros bucket s Hs; simpl.
  - exact Hs.
  - rewrite wp_bind, wp_gets.
    destruct (_ <=? _); [|exact Hs]. cbv zeta.
    set (c := VPIN.Completed.Build_t _ _ _). set (carry := VPIN.Bucket.Build_t _ _ _).
    clearbody c carry.
    unfold VPIN.CalculateVPIN. wp_run; try assumption.
    all: apply IH; assumption.
Qed.

Lemma vpin_EnterLong_tracked symbol price vpin confidence :
  preserves vpin_tracked (VPIN.EnterLong symbol price vpin confidence).
Proof.
  intros s Hs. unfold VPIN.EnterLong, VPIN.MarketOrder.
  wp_run; try assumption; tracked.
Qed.

Lemma vpin_OnHourlyData_tracked bar : preserves vpin_tracked (VPIN.OnHourlyData bar).
Proof.
  intros s Hs. unfold VPIN.OnHourlyData, VPIN.DetectToxicityRegime.
  wp_run; try assumption.
  all: eapply wp_call; [apply vpin_EnterLong_tracked|assumption| |auto].
  all: intros [] s' Hs'; wp_run; assumption.
Qed.

Lemma vpin_ManagePositions_tracked data :
  preserves vpin_tracked (VPIN.ManagePositions data).
Proof.
  intros s Hs. unfold VPIN.ManagePositions. wp_run.
  apply wp_for_each; [assumption|].
  intros symbol s' _ Hs'. clear s Hs.
  unfold VPIN.Liquidate, VPIN.CleanupPosition.
  wp_run; try assumption; tracked.
Qed.

Section BulkVolumeClassification.
Variable norm_cdf : R -> R.

Lemma vpin_OnData_tracked data :
  preserves vpin_tracked (VPIN.OnData norm_cdf data).
Proof.
  intros s Hs. unfold VPIN.OnData. wp_run; [assumption|].
  eapply wp_mono with (Q := fun _ => vpin_tracked) (E := fun _ _ => vpin_tracked).
  - apply wp_for_each; [assumption|].
    clear. intros symbol s _ Hs. wp_run; try assumption.
    eapply wp_mono with (Q := fun _ => vpin_tracked) (E := fun _ _ => vpin_tracked).
    + unfold VPIN.ProcessBarForVPIN. wp_run; try assumption.
      apply vpin_complete_buckets_tracked. assumption.
    + intros [] s' Hs'. wp_run; assumption.
    + auto.
  - intros [] s' Hs'. now apply vpin_ManagePositions_tracked.
  - auto.
Qed.

Lemma vpin_run_tracked s : vpin_run norm_cdf s -> vpin_tracked s.
Proof.
  induction 1 as [q Hq|s q _ IH Hq| |].
  - split; [|split; [|split]]; intros x; simpl; rewrite ?Hq;
      try reflexivity; lia.
  - destruct IH as (Hn & H1 & H2 & H3).
    split; [|split; [|split]]; intros x; simpl; rewrite Hq;
      first [apply Hn|apply H1|apply H2|apply H3].
  - now apply preserves_snd; [apply vpin_OnData_tracked|].
  - now apply preserves_snd; [apply vpin_OnHourlyData_tracked|].
Qed.

End BulkVolumeClassification.

(** When only the script trades, each of its dictionaries holds a symbol
    exactly when a long position in the symbol is open, after every
    callback of every script. *)
Theorem entries_track_positions :
  (forall s, entropy_run s -> entropy_tracked s)
  /\ (forall s, fractal_run s -> fractal_tracked s)
  /\ (forall norm_cdf s, vpin_run norm_cdf s -> vpin_tracked s).
Proof.
  split; [|split].
  - apply entropy_run_tracked.
  - apply fractal_run_tracked.
  - apply vpin_run_tracked.
Qed.

End PositionsFacts.

(** * A run of the entropy script that opens a position *)

Module EntropyScenario.
Import Py PyFacts Run Engine Entropy Hoare HoareFacts Scenario.
Local Open Scope R_scope.

(** Sorting indices whose keys already rise leaves them in place. *)
Lemma sorted_rising_keys (key : nat -> R) m : forall a,
  (forall i j, (a <= i < j)%nat -> (j < a + m)%nat -> key i < key j) ->
  sorted key (seq a m) = seq a m.
Proof.
  induction m as [|m IH]; intros a Hkey; [reflexivity|].
  cbn [seq sorted fold_right]. fold (sorted key (seq (S a) m)).
  rewrite IH by (intros i j ? ?; apply Hkey; lia).
  destruct m as [|m]; [reflexivity|]. cbn [seq insert_by].
  destruct (Rltb_spec (key (S a)) (key a)) as [Hlt|_]; [|reflexivity].
  assert (key a < key (S a)) by (apply Hkey; lia). lra.
Qed.

Lemma ordinal_pattern_rising m tau prices i :
  rising prices -> (0 < tau)%nat -> (i + (m - 1) * tau < length prices)%nat ->
  ordinal_pattern m tau prices i = seq 0 m.
Proof.
  intros Hrise Htau Hi. unfold ordinal_pattern.
  apply sorted_rising_keys. intros k j Hk Hj.
  assert (Hnth : forall k, (k < m)%nat ->
            nth k (map (fun j => nth (i + j * tau) prices 0) (seq 0 m)) 0
            = nth (i + k * tau) prices 0).
  { intros x Hx. set (f := fun j => nth (i + j * tau) prices 0).
    rewrite nth_indep with (d' := f 0%nat)
      by (rewrite length_map, length_seq; exact Hx).
    rewrite map_nth, seq_nth by exact Hx. reflexivity. }
  rewrite !Hnth by lia. apply Hrise. nia.
Qed.

Lemma count_patterns_rising m tau prices count :
  rising prices -> (0 < tau)%nat -> (0 < count)%nat ->
  (count + (m - 1) * tau <= length prices)%nat ->
  count_patterns m tau prices count = ([(seq 0 m, count)], count).
Proof.
  intros Hrise Htau Hpos Hlen. unfold count_patterns.
  assert (Hi : forall i, (i < count)%nat -> ordinal_pattern m tau prices i = seq 0 m).
  { intros i Hi. apply ordinal_pattern_rising; try assumption.
    remember ((m - 1) * tau)%nat as span. clear - Hi Hlen. lia. }
  clear Hlen. induction count as [|count IH]; [lia|].
  rewrite seq_S, fold_left_app. cbn [fold_left].
  rewrite Hi by (clear; lia).
  destruct count as [|count].
  - reflexivity.
  - rewrite IH by (clear - Hi; intros; try apply Hi; lia). unfold get_default. cbn [fst snd set get].
    destruct (eq_dec (seq 0 m) (seq 0 m)) as [_|Hne]; [|congruence].
    repeat f_equal; clear; lia.
Qed.

Lemma shannon_entropy_single total :
  (0 < total)%nat -> shannon_entropy [total] total = 0.
Proof.
  intros Hpos. unfold shannon_entropy. cbn [fold_left].
  assert (Hp : INR total / INR total = 1).
  { apply Rinv_r. apply not_0_INR. lia. }
  rewrite Hp. destruct (Rltb_spec 0 1); [|lra].
  unfold Np.log2. rewrite ln_1. lra.
Qed.

(** On 120 rising prices every window has the same ordinal pattern, and
    the permutation entropy is 0. *)
Lemma CalculatePermutationEntropy_rising prices s :
  embedding_dim s = 5%nat -> tau s = 1%nat ->
  rising prices -> length prices = 120%nat ->
  CalculatePermutationEntropy prices s = (Ok (Some 0), s).
Proof.
  intros Hm Htau Hrise Hlen. unfold CalculatePermutationEntropy, bind, gets, ret.
  rewrite Hm, Htau, Hlen.
  match goal with |- context [(?a <? ?b)%Z] =>
    let c := eval vm_compute in (a <? b)%Z in change (a <? b)%Z with c end.
  match goal with |- context [Z.to_nat ?a] =>
    let c := eval vm_compute in (Z.to_nat a) in change (Z.to_nat a) with c end.
  cbv iota.
  rewrite count_patterns_rising by (try assumption; rewrite ?Hlen; clear; cbn; lia).
  cbn [Nat.eqb values map snd]. rewrite shannon_entropy_single by (clear; lia).
  destruct (_ <? _); do 3 f_equal; unfold Rdiv; apply Rmult_0_l.
Qed.

Lemma wp_CalculatePermutationEntropy_rising prices s Q E :
  embedding_dim s = 5%nat -> tau s = 1%nat ->
  rising prices -> length prices = 120%nat ->
  Q (Some 0) s ->
  wp (CalculatePermutationEntropy prices) Q E s.
Proof.
  intros. unfold wp. now rewrite CalculatePermutationEntropy_rising.
Qed.

Lemma rising_last_items k l : rising l -> rising (last_items k l).
Proof.
  unfold rising, last_items. intros Hrise i j Hij.
  destruct (k =? 0)%nat; [now apply Hrise|].
  rewrite length_skipn in Hij. rewrite !nth_skipn. apply Hrise. lia.
Qed.

Lemma wp_returns {S A} (c : M S A) (a : A) (t s : S) :
  wp c (fun a' s' => a' = a /\ s' = t) (fun _ _ _ => False) s -> c s = (Ok a, t).
Proof.
  unfold wp. destruct (c s) as [[a'|e line] s']; [|contradiction].
  now intros [-> ->].
Qed.

Lemma int_IZR z : (0 <= z)%Z -> int (IZR z) = z.
Proof.
  intros Hz. unfold int.
  destruct (Rleb_spec 0 (IZR z)) as [_|Hneg].
  - symmetry. apply Int_part_spec. lra.
  - exfalso. apply Hneg. now apply IZR_le.
Qed.

Lemma mean_zeros : Np.mean [0; 0; 0; 0; 0] = 0.
Proof. unfold Np.mean, Np.sum. cbn [fold_right length]. unfold Rdiv. lra. Qed.

(** Symbolic execution along one path: the state is evaluated, the
    conditions are decided one at a time. *)
Ltac crunch :=
  cbn -[wp bind ret gets modify raise check CalculatePermutationEntropy
        DetectRegimeChange ExecuteSignals last_items from_end
        Rltb Rleb Reqb IZR Rabs Rmin Np.mean int Nat.ltb Nat.leb].

Ltac crunch_nat :=
  cbn -[wp bind ret gets modify raise check CalculatePermutationEntropy
        DetectRegimeChange ExecuteSignals last_items from_end
        Rltb Rleb Reqb IZR Rabs Rmin Np.mean int].

Ltac exec_step :=
  lazymatch goal with
  | |- wp (bind _ _) _ _ _ => rewrite wp_bind
  | |- wp (ret _) _ _ _ => rewrite wp_ret
  | |- wp (gets _) _ _ _ => rewrite wp_gets
  | |- wp (modify _) _ _ _ => rewrite wp_modify
  | |- wp (raise _ _) _ _ _ => rewrite wp_raise
  | |- wp (check _ _ (Some _)) _ _ _ => rewrite wp_check_Some
  | |- wp (check _ _ None) _ _ _ => rewrite wp_check_None
  end.

Ltac exec := repeat (crunch; exec_step; cbv beta); crunch.

Ltac exec_nat := repeat (crunch_nat; exec_step; cbv beta); crunch_nat.

Ltac head_nat :=
  match goal with
  | |- wp (if ?c then _ else _) _ _ _ =>
      let v := eval vm_compute in c in
      match v with
      | true => change c with true
      | false => change c with false
      end; cbv iota
  end.

Ltac real_cond :=
  match goal with
  | |- context [Rltb ?a ?b] =>
      destruct (Rltb_spec a b); [try (exfalso; lra)|try (exfalso; lra)]
  | |- context [Reqb ?a ?b] =>
      let H := fresh in
      destruct (Reqb a b) eqn:H;
      [apply Reqb_true in H; try (exfalso; lra)
      |apply Reqb_false in H; try (exfalso; lra)]
  end.

(** A bar of SPY appends its close, while nothing is recorded as held. *)
Lemma entropy_bar_appends q l h i :
  (length l < 125)%nat ->
  entropy_bar (entropy_with q l h) i
  = entropy_with (quoted i) (l ++ [rising_close i]) h.
Proof.
  intros Hlen. unfold entropy_bar, OnData, ManagePositions. cbn.
  unfold append. cbn [items maxlen]. rewrite length_app. cbn [length].
  replace (length l + 1 - 125)%nat with 0%nat by (clear - Hlen; lia).
  reflexivity.
Qed.

(** The scheduled analysis on rising prices, while fewer than six
    entropy readings exist: a reading of 0 is appended, nothing else. *)
Lemma AnalyzeRegimes_quiet q l k :
  rising l -> (120 <= length l <= 125)%nat -> (k < 5)%nat ->
  AnalyzeRegimes (entropy_with q l (repeat 0 k))
  = (Ok tt, entropy_with q l (repeat 0 (S k))).
Proof.
  intros Hrise Hlen Hk. apply wp_returns. unfold AnalyzeRegimes.
  cbn [for_fold]. exec.
  rewrite (proj2 (Nat.ltb_ge _ _)) by (clear - Hlen; lia).
  exec. apply wp_CalculatePermutationEntropy_rising;
    [reflexivity|reflexivity|now apply rising_last_items
    |apply length_last_items; clear - Hlen; lia|].
  exec. unfold DetectRegimeChange. exec.
  destruct k as [|[|[|[|[|k]]]]]; [| | | | |clear - Hk; lia].
  all: exec_nat; unfold ExecuteSignals; exec_nat; split; reflexivity.
Qed.

(** The sixth analysis: the regime is trending with confidence 1, the
    momentum over twenty bars is above 2%, no position is held, and the
    script buys 133 shares of SPY at 224. *)
Lemma AnalyzeRegimes_buy l :
  rising l -> length l = 125%nat ->
  from_end 1 l = Some 224 -> from_end 20 l = Some 205 ->
  AnalyzeRegimes (entropy_with (quoted 124) l (repeat 0 5))
  = (Ok tt, entropy_long l).
Proof.
  intros Hrise Hlen Hlast Hpast. apply wp_returns. unfold AnalyzeRegimes.
  cbn [for_fold]. exec. rewrite Hlen. head_nat.
  exec. apply wp_CalculatePermutationEntropy_rising;
    [reflexivity|reflexivity|now apply rising_last_items
    |apply length_last_items; rewrite ?Hlen; clear; lia|].
  exec. unfold DetectRegimeChange. exec. head_nat.
  change (from_end 1 _) with (Some 0) at 1. exec.
  change (firstn _ _) with [0; 0; 0; 0; 0].
  rewrite mean_zeros, Rminus_diag, Rabs_R0.
  do 2 real_cond.
  replace ((0.65 - 0) / 0.65) with 1 by (field; lra).
  replace (Rmin 1 1) with 1 by (symmetry; apply Rmin_left; lra).
  exec. real_cond. head_nat. rewrite Hlast, Hpast. exec.
  do 2 real_cond. cbn [andb]. real_cond. exec_nat.
  unfold ExecuteSignals. exec_nat.
  change (rising_close 124) with 224. real_cond.
  replace (int (100000 * (0.3 * 1) / 224)) with 133%Z
    by (unfold int; destruct (Rleb_spec 0 (100000 * (0.3 * 1) / 224));
        [apply Int_part_spec|exfalso]; lra).
  unfold MarketOrder. exec_nat.
  split; reflexivity.
Qed.

(** The run of [Scenario], state by state *)
Lemma rising_closes n : rising (map rising_close (seq 0 n)).
Proof.
  intros i j Hij. rewrite length_map, length_seq in Hij.
  rewrite !nth_indep with (d := 0) (d' := rising_close 0)
    by (rewrite length_map, length_seq; lia).
  rewrite !map_nth, !seq_nth by lia. unfold rising_close.
  apply IZR_lt. lia.
Qed.

Lemma entropy_bars n : forall a q h,
  (a + S n <= 125)%nat ->
  fold_left entropy_bar (seq a (S n)) (entropy_with q (map rising_close (seq 0 a)) h)
  = entropy_with (quoted (a + n)) (map rising_close (seq 0 (a + S n))) h.
Proof.
  induction n as [|n IH]; intros a q h Hn.
  - cbn [seq fold_left].
    rewrite entropy_bar_appends by (rewrite length_map, length_seq; lia).
    rewrite <- map_last, <- seq_S. repeat f_equal; clear; lia.
  - change (seq a (S (S n))) with (a :: seq (S a) (S n)). cbn [fold_left].
    rewrite entropy_bar_appends by (rewrite length_map, length_seq; lia).
    rewrite <- map_last, <- seq_S.
    rewrite IH by lia.
    now replace (S a + n)%nat with (a + S n)%nat by lia;
      replace (S a + S n)%nat with (a + S (S n))%nat by lia.
Qed.

Lemma entropy_filled_eq :
  entropy_filled
  = entropy_with (quoted 119) (map rising_close (seq 0 120)) (repeat 0 0).
Proof.
  unfold entropy_filled.
  change (Initialize no_holdings)
    with (entropy_with no_holdings (map rising_close (seq 0 0)) []).
  now rewrite entropy_bars by lia.
Qed.

Lemma entropy_day_quiet q n k :
  (120 <= S n <= 125)%nat -> (k < 5)%nat ->
  entropy_day (entropy_with q (map rising_close (seq 0 n)) (repeat 0 k)) n
  = entropy_with (quoted n) (map rising_close (seq 0 (S n))) (repeat 0 (S k)).
Proof.
  intros Hn Hk. unfold entropy_day.
  rewrite entropy_bar_appends by (rewrite length_map, length_seq; lia).
  rewrite <- map_last, <- seq_S.
  rewrite AnalyzeRegimes_quiet;
    [reflexivity|apply rising_closes|rewrite length_map, length_seq; lia|exact Hk].
Qed.

(** After the run the script holds 133 shares of SPY and has recorded the
    entry. *)
Lemma entropy_bought_eq :
  entropy_bought = entropy_long (map rising_close (seq 0 125)).
Proof.
  unfold entropy_bought. rewrite entropy_filled_eq.
  rewrite AnalyzeRegimes_quiet by
    (try apply rising_closes; rewrite ?length_map, ?length_seq; lia).
  change (seq 120 5) with [120; 121; 122; 123; 124]%nat.
  cbn [snd fold_left].
  rewrite (@entropy_day_quiet _ 120 1), (@entropy_day_quiet _ 121 2),
    (@entropy_day_quiet _ 122 3), (@entropy_day_quiet _ 123 4) by lia.
  unfold entropy_day.
  rewrite entropy_bar_appends by (rewrite length_map, length_seq; lia).
  rewrite <- map_last, <- seq_S.
  now rewrite (@AnalyzeRegimes_buy _ (rising_closes 125) eq_refl eq_refl eq_refl).
Qed.

Lemma entropy_bought_reachable : EntropyRun.reachable entropy_bought.
Proof.
  assert (Hbar : forall s i, EntropyRun.reachable s ->
            EntropyRun.reachable (entropy_bar s i)).
  { intros s i Hs. now apply EntropyRun.reach_OnData, EntropyRun.reach_engine. }
  assert (Hbars : forall l s, EntropyRun.reachable s ->
            EntropyRun.reachable (fold_left entropy_bar l s)).
  { induction l as [|i l IH]; intros s Hs; [exact Hs|]. now apply IH, Hbar. }
  assert (Hdays : forall l s, EntropyRun.reachable s ->
            EntropyRun.reachable (fold_left entropy_day l s)).
  { induction l as [|i l IH]; intros s Hs; [exact Hs|].
    now apply IH, EntropyRun.reach_AnalyzeRegimes, Hbar. }
  apply Hdays, EntropyRun.reach_AnalyzeRegimes, Hbars, EntropyRun.reach_Initialize.
Qed.

End EntropyScenario.

(** * Where binary64 parts from exact arithmetic *)

Import Py.




(** C10, on binary64.  The scale 1e-17 is positive, and [1e-17 * p + 1]
    is 1 for each of the nine prices: every window of the image is a
    tie, and the entropy falls from 0.336 to 0. *)
Lemma permutation_entropy_squeezed :
  PrimFloat.ltb PrimFloat.zero Rounding.scale = true
  /\ map Rounding.squeeze Rounding.ramp = repeat Rounding.shift 9
  /\ Entropy64.CalculatePermutationEntropy Rounding.log2 5 1
       (map Rounding.squeeze Rounding.ramp)
     = Some PrimFloat.zero
  /\ exists entropy,
       Entropy64.CalculatePermutationEntropy Rounding.log2 5 1 Rounding.ramp
       = Some entropy
       /\ PrimFloat.ltb PrimFloat.zero entropy = true.
Proof.
  split; [vm_compute; reflexivity|].
  split; [vm_compute; reflexivity|].
  split; [vm_compute; reflexivity|].
  eexists. split; vm_compute; reflexivity.
Qed.

(** * The claims *)

Import Py Run Hoare HoareFacts Engine.
Local Open Scope R_scope.

(** A run of the VPIN script that fills the bucket history: OnData on
    [Scenario.heavy_bar] completes fifty buckets for SPY. *)
Lemma vpin_filled_reachable :
  VPINRun.reachable Scenario.even_split VPINSpec.well_formed Scenario.vpin_filled.
Proof.
  apply VPINRun.reach_OnData; [|apply VPINRun.reach_Initialize].
  intros symbol bar [E|[]]. inversion E; subst. simpl. lra.
Qed.

Lemma vpin_filled_history :
  exists history,
    get (VPIN.bucket_history Scenario.vpin_filled) SPY = Some history
    /\ (50 <= len history)%nat
    /\ VPIN.n_buckets Scenario.vpin_filled = 50%nat.
Proof.
  assert (Hwp : wp (VPIN.OnData Scenario.even_split Scenario.heavy_bar)
                  (fun _ s' =>
                     exists history,
                       get (VPIN.bucket_history s') SPY = Some history
                       /\ (50 <= len history)%nat
                       /\ VPIN.n_buckets s' = 50%nat)
                  (fun _ _ _ => False) (VPIN.Initialize Scenario.no_holdings)).
  { unfold VPIN.OnData. rewrite wp_bind, wp_gets.
    change (IsWarmingUp (VPIN.base (VPIN.Initialize Scenario.no_holdings))) with false.
    cbv iota. rewrite wp_bind. cbn [for_each].
    rewrite wp_bind.
    change (get (Bars Scenario.heavy_bar) SPY)
      with (Some {| BarSymbol := SPY; Close := 100; Volume := 2500000 |}).
    cbv iota. rewrite wp_bind.
    eapply wp_mono.
    - apply wp_conj.
      + apply (@VPINFuel.ProcessBarForVPIN_progress Scenario.even_split 50 SPY
                 _ (VPIN.Initialize Scenario.no_holdings)
                 (VPIN.Bucket.Build_t 0 0 []) (Deque 50 [])).
        * simpl. lra.
        * simpl. lra.
        * reflexivity.
        * reflexivity.
        * simpl. lra.
        * reflexivity.
        * reflexivity.
      + apply (@VPINFuel.ProcessBarForVPIN_outside Scenario.even_split
                 (VPIN.Initialize Scenario.no_holdings)).
        repeat split.
    - cbv beta. intros [] s1 [(h & Hg & Hm & Hl) (Hbase & Hsize & Hn & Hp & He)].
      rewrite wp_bind, wp_gets, Hp.
      change (get (VPIN.price_history (VPIN.Initialize Scenario.no_holdings)) SPY)
        with (Some (Deque 100 ([] : list R))).
      rewrite wp_bind, wp_check_Some, wp_modify, wp_bind.
      change (get (Bars Scenario.heavy_bar) QQQ) with (@None TradeBar).
      cbv iota. rewrite wp_ret, wp_ret.
      unfold VPIN.ManagePositions. rewrite wp_bind, wp_gets.
      cbn [VPIN.entry_prices VPIN.with_price_history]. rewrite He.
      change (keys (VPIN.entry_prices (VPIN.Initialize Scenario.no_holdings)))
        with (@nil Symbol).
      cbn [for_each]. rewrite wp_ret.
      exists h. cbn [VPIN.bucket_history VPIN.n_buckets VPIN.with_price_history].
      split; [exact Hg|]. split; [|now rewrite Hn].
      simpl in Hl. unfold len in *. simpl in Hl. lia.
    - cbv beta. intros e line s1 [[] _]. }
  unfold Scenario.vpin_filled. unfold wp in Hwp.
  destruct (VPIN.OnData Scenario.even_split Scenario.heavy_bar
              (VPIN.Initialize Scenario.no_holdings)) as [[[]|e line] s']; simpl;
    [exact Hwp|contradiction].
Qed.





(** C7.  Every rolling history is a deque of fixed capacity: in every
    state a run of a script reaches, each price, entropy, Hurst, bucket
    and VPIN history has the capacity [Initialize] gave it and holds no
    more items than that; and an append to a full deque drops the oldest
    item and nothing else. *)
Theorem buffers_fixed_capacity :
  (forall s, EntropyRun.reachable s ->
     bounded (Entropy.price_buffer s) 125
     /\ bounded (Entropy.entropy_history s) 24)
  /\ (forall s, FractalRun.reachable s ->
        bounded (Fractal.price_buffer s) 150
        /\ bounded (Fractal.hurst_history s) 48)
  /\ (forall norm_cdf feed s, VPINRun.reachable norm_cdf feed s ->
        bounded (VPIN.bucket_history s) 50
        /\ bounded (VPIN.price_history s) 100
        /\ bounded (VPIN.vpin_history s) 100)
  /\ (forall (A : Type) (d : deque A) (x : A),
        len d = maxlen d -> (0 < maxlen d)%nat ->
        items (append d x) = tl (items d) ++ [x]
        /\ len (append d x) = maxlen d).
Proof.
  split; [|split; [|split]].
  - apply EntropyBuffers.entropy_reachable_bounded.
  - intros s Hs. now destruct (FractalFacts.fractal_reachable_invariant Hs).
  - intros norm_cdf feed s Hs. exact (VPINBuffers.vpin_reachable_bounded Hs).
  - intros A d x Hfull Hcap. split.
    + now apply PyFacts.append_full.
    + rewrite PyFacts.len_append. lia.
Qed.

Lemma buffers_fixed_capacity_witness :
  let q := Build_QCAlgorithm false 0 (fun _ => 0%Z) (fun _ => 0) 0 in
  (bounded (Entropy.price_buffer (Entropy.Initialize q)) 125
   /\ bounded (Entropy.entropy_history (Entropy.Initialize q)) 24)
  /\ (bounded (Fractal.price_buffer (Fractal.Initialize q)) 150
      /\ bounded (Fractal.hurst_history (Fractal.Initialize q)) 48)
  /\ (bounded (VPIN.bucket_history (VPIN.Initialize q)) 50
      /\ bounded (VPIN.price_history (VPIN.Initialize q)) 100
      /\ bounded (VPIN.vpin_history (VPIN.Initialize q)) 100)
  /\ (items (append (Deque 2 [1%nat; 2%nat]) 3%nat) = [2%nat; 3%nat]
      /\ len (append (Deque 2 [1%nat; 2%nat]) 3%nat) = 2%nat).
Proof.
  intros q.
  destruct buffers_fixed_capacity as (He & Hf & Hv & Hd).
  split; [|split; [|split]].
  - apply He, EntropyRun.reach_Initialize.
  - apply Hf, FractalRun.reach_Initialize.
  - apply (Hv (fun _ => 0) (fun _ => True)), VPINRun.reach_Initialize.
  - apply (Hd nat (Deque 2 [1%nat; 2%nat]) 3%nat); [reflexivity|simpl; lia].
Defined.

(** C9.  For a Hurst exponent in [0.01, 0.99] EstimateMoveDuration is at
    least 1; hence in every state a run reaches every recorded expected
    duration is at least 1, and the division of ManagePositions by the
    expected duration (line 321) never raises ZeroDivisionError. *)
Theorem expected_duration_positive :
  forall (hurst : R) (s : Fractal.FractalDimensionBreakout) (data : Slice),
    0.01 <= hurst <= 0.99 ->
    FractalRun.reachable s ->
    (1 <= Fractal.EstimateMoveDuration hurst)%Z
    /\ (forall symbol bars,
           get (Fractal.expected_duration s) symbol = Some bars -> (1 <= bars)%Z)
    /\ fst (Fractal.ManagePositions data s) <> Raise ZeroDivisionError 321.
Proof.
  intros hurst s data Hh Hreach.
  pose proof (FractalFacts.fractal_reachable_invariant Hreach) as Hinv.
  split; [|split].
  - now apply FractalFacts.EstimateMoveDuration_ge_1.
  - intros symbol bars Hget. destruct Hinv as [_ [_ Hd]].
    rewrite Forall_forall in Hd. apply Hd.
    eapply PyFacts.In_values. eassumption.
  - pose proof (FractalFacts.fractal_ManagePositions_spec data Hinv) as Hwp.
    unfold wp in Hwp.
    destruct (Fractal.ManagePositions data s) as [[[]|e line] s']; simpl.
    + discriminate.
    + destruct Hwp as [_ Hne]. intros E. apply Hne. now inversion E.
Qed.

Lemma expected_duration_positive_witness :
  let q := Build_QCAlgorithm false 0 (fun _ => 0%Z) (fun _ => 0) 0 in
  (1 <= Fractal.EstimateMoveDuration 0.01)%Z
  /\ (forall symbol bars,
         get (Fractal.expected_duration (Fractal.Initialize q)) symbol = Some bars ->
         (1 <= bars)%Z)
  /\ fst (Fractal.ManagePositions (Build_Slice []) (Fractal.Initialize q))
     <> Raise ZeroDivisionError 321.
Proof.
  intros q. apply expected_duration_positive.
  - lra.
  - apply FractalRun.reach_Initialize.
Defined.

(** C3.  On a list of at least [hurst_lookback] prices,
    CalculateHurstExponent (with lags from 1 up, as in the script, where
    they start at 2) returns None when the returns are fewer than
    [max_lag] or the rescaled-range points fewer than 3, and otherwise
    the slope of the log-log regression of the rescaled-range points
    clamped to [0.01, 0.99], which is a number of [0.01, 0.99]; the
    object is left as it was. *)
Theorem hurst_exponent_range :
  forall (s : Fractal.FractalDimensionBreakout) (prices : list R),
    (1 <= Fractal.min_lag s)%nat ->
    (Fractal.hurst_lookback s <= length prices)%nat ->
    let returns := FractalSpec.returns_of s prices in
    let rs_values := FractalSpec.rs_points returns (FractalSpec.lags_of s returns) in
    let hurst := Rmax 0.01 (Rmin 0.99 (FractalSpec.log_log_slope rs_values)) in
    Fractal.CalculateHurstExponent prices s
    = (Ok (if (length returns <? Fractal.max_lag s)%nat
              || (length rs_values <? 3)%nat
           then None else Some hurst), s)
    /\ 0.01 <= hurst <= 0.99.
Proof.
  intros s prices Hm Hlen. cbv zeta.
  rewrite HurstFacts.CalculateHurstExponent_eq by assumption.
  rewrite (proj2 (Nat.ltb_ge _ _) Hlen).
  split; [|apply FractalFacts.clamp_range].
  now repeat (destruct (_ <? _)%nat).
Qed.

Lemma hurst_exponent_range_witness :
  exists hurst,
    Fractal.CalculateHurstExponent Samples.zigzag
      (Fractal.Initialize Scenario.no_holdings)
    = (Ok (Some hurst), Fractal.Initialize Scenario.no_holdings)
    /\ 0.01 <= hurst <= 0.99.
Proof.
  destruct (@hurst_exponent_range (Fractal.Initialize Scenario.no_holdings)
              Samples.zigzag) as [Heq Hrange].
  - simpl. lia.
  - simpl. lia.
  - destruct (@HurstSample.zigzag_points (Fractal.Initialize Scenario.no_holdings))
      as [Hret Hpts]; [reflexivity|reflexivity|reflexivity|].
    rewrite Hret, (proj2 (Nat.ltb_ge _ _) Hpts) in Heq.
    eexists. split; [exact Heq|exact Hrange].
Defined.

(** C5.  The guards of the estimators: CalculatePermutationEntropy returns
    None below [embedding_dim + (embedding_dim - 1) * tau] prices,
    CalculateHurstExponent returns None below [hurst_lookback] prices and
    when fewer than 3 rescaled-range points are found, CalculateVPIN
    returns None below [n_buckets] completed buckets; each of these calls
    returns (it raises nothing) and leaves the object as it was. *)
Theorem estimators_guarded :
  (forall (s : Entropy.EntropyRegimeDetector) (prices : list R),
      (Z.of_nat (length prices)
       < Z.of_nat (Entropy.embedding_dim s)
         + (Z.of_nat (Entropy.embedding_dim s) - 1) * Z.of_nat (Entropy.tau s))%Z ->
      Entropy.CalculatePermutationEntropy prices s = (Ok None, s))
  /\ (forall (s : Fractal.FractalDimensionBreakout) (prices : list R),
         (length prices < Fractal.hurst_lookback s)%nat ->
         Fractal.CalculateHurstExponent prices s = (Ok None, s))
  /\ (forall (s : Fractal.FractalDimensionBreakout) (prices : list R),
         (1 <= Fractal.min_lag s)%nat ->
         let returns := FractalSpec.returns_of s prices in
         (length (FractalSpec.rs_points returns (FractalSpec.lags_of s returns)) < 3)%nat ->
         Fractal.CalculateHurstExponent prices s = (Ok None, s))
  /\ (forall (s : VPIN.VPINToxicityDetector) (symbol : Symbol)
             (history : deque VPIN.Completed.t),
         get (VPIN.bucket_history s) symbol = Some history ->
         (len history < VPIN.n_buckets s)%nat ->
         VPIN.CalculateVPIN symbol s = (Ok None, s)).
Proof.
  split; [|split; [|split]].
  - intros s prices Hshort.
    unfold Entropy.CalculatePermutationEntropy, bind, gets, ret.
    apply Z.ltb_lt in Hshort. now rewrite Hshort.
  - intros s prices Hshort.
    unfold Fractal.CalculateHurstExponent, bind, gets, ret.
    apply Nat.ltb_lt in Hshort. now rewrite Hshort.
  - intros s prices Hm returns Hfew. subst returns.
    rewrite HurstFacts.CalculateHurstExponent_eq by assumption.
    apply Nat.ltb_lt in Hfew. rewrite Hfew.
    now repeat (destruct (_ <? _)%nat).
  - intros s symbol history Hget Hfew.
    unfold VPIN.CalculateVPIN, bind, gets, ret, check. rewrite Hget.
    apply Nat.ltb_lt in Hfew. simpl. now rewrite Hfew.
Qed.

Lemma estimators_guarded_witness :
  let q := Build_QCAlgorithm false 0 (fun _ => 0%Z) (fun _ => 0) 0 in
  Entropy.CalculatePermutationEntropy [1; 2; 3] (Entropy.Initialize q)
  = (Ok None, Entropy.Initialize q)
  /\ Fractal.CalculateHurstExponent [1; 2; 3] (Fractal.Initialize q)
     = (Ok None, Fractal.Initialize q)
  /\ VPIN.CalculateVPIN SPY (VPIN.Initialize q) = (Ok None, VPIN.Initialize q).
Proof.
  intros q. destruct estimators_guarded as (He & Hh & _ & Hv).
  split; [|split].
  - apply He. simpl. lia.
  - apply Hh. simpl. lia.
  - apply (Hv _ SPY (Deque 50 [])); [reflexivity|unfold len; simpl; lia].
Defined.

(** C6.  The estimators are functions of the prices or buckets they read,
    and they write nothing.  The list of prices is handed over by
    reference: the argument is a reference into a store of list objects.
    - In two states that runs of the entropy script reach, whatever else
      they hold, CalculatePermutationEntropy returns the same result for
      two lists with the same items; and in any state a call leaves the
      object as it was and every list of the store as it was: the store
      after the call is the store before it, followed by objects that the
      call made for itself.
    - The same for CalculateHurstExponent and the fractal script.
    - In two states that runs of the VPIN script reach, CalculateVPIN
      returns the same result for two symbols whose bucket histories hold
      the same items; and in any state a call leaves the object, its
      buffers included, as it was. *)
Theorem estimators_pure :
  (forall (f1 f2 : Call.Frame Entropy.EntropyRegimeDetector)
          (prices1 prices2 : Call.Ref),
      EntropyRun.reachable (Call.self f1) ->
      EntropyRun.reachable (Call.self f2) ->
      nth prices1 (Call.store f1) [] = nth prices2 (Call.store f2) [] ->
      fst (Call.CalculatePermutationEntropy prices1 f1)
      = fst (Call.CalculatePermutationEntropy prices2 f2))
  /\ (forall (f : Call.Frame Entropy.EntropyRegimeDetector) (prices : Call.Ref),
         let after := snd (Call.CalculatePermutationEntropy prices f) in
         Call.self after = Call.self f
         /\ exists fresh, Call.store after = Call.store f ++ fresh)
  /\ (forall (f1 f2 : Call.Frame Fractal.FractalDimensionBreakout)
             (prices1 prices2 : Call.Ref),
         FractalRun.reachable (Call.self f1) ->
         FractalRun.reachable (Call.self f2) ->
         nth prices1 (Call.store f1) [] = nth prices2 (Call.store f2) [] ->
         fst (Call.CalculateHurstExponent prices1 f1)
         = fst (Call.CalculateHurstExponent prices2 f2))
  /\ (forall (f : Call.Frame Fractal.FractalDimensionBreakout) (prices : Call.Ref),
         let after := snd (Call.CalculateHurstExponent prices f) in
         Call.self after = Call.self f
         /\ exists fresh, Call.store after = Call.store f ++ fresh)
  /\ (forall (norm_cdf1 norm_cdf2 : R -> R) (feed1 feed2 : Slice -> Prop)
             (s1 s2 : VPIN.VPINToxicityDetector) (symbol1 symbol2 : Symbol)
             (history1 history2 : deque VPIN.Completed.t),
         VPINRun.reachable norm_cdf1 feed1 s1 ->
         VPINRun.reachable norm_cdf2 feed2 s2 ->
         get (VPIN.bucket_history s1) symbol1 = Some history1 ->
         get (VPIN.bucket_history s2) symbol2 = Some history2 ->
         items history1 = items history2 ->
         fst (VPIN.CalculateVPIN symbol1 s1) = fst (VPIN.CalculateVPIN symbol2 s2))
  /\ (forall (s : VPIN.VPINToxicityDetector) (symbol : Symbol),
         snd (VPIN.CalculateVPIN symbol s) = s).
Proof.
  split; [|split; [|split; [|split; [|split]]]].
  - intros f1 f2 prices1 prices2 Hr1 Hr2 Hitems.
    destruct (CallFacts.CalculatePermutationEntropy_frame prices1 f1) as [-> _].
    destruct (CallFacts.CalculatePermutationEntropy_frame prices2 f2) as [-> _].
    rewrite Hitems.
    apply CallFacts.CalculatePermutationEntropy_reads;
      now apply ParameterFacts.entropy_reachable.
  - intros f prices. apply CallFacts.CalculatePermutationEntropy_frame.
  - intros f1 f2 prices1 prices2 Hr1 Hr2 Hitems.
    destruct (CallFacts.CalculateHurstExponent_frame prices1 f1) as [-> _].
    destruct (CallFacts.CalculateHurstExponent_frame prices2 f2) as [-> _].
    rewrite Hitems.
    apply CallFacts.CalculateHurstExponent_reads;
      now apply ParameterFacts.fractal_reachable.
  - intros f prices. apply CallFacts.CalculateHurstExponent_frame.
  - intros norm_cdf1 norm_cdf2 feed1 feed2 s1 s2 symbol1 symbol2
      history1 history2 Hr1 Hr2 Hg1 Hg2 Hitems.
    eapply CallFacts.CalculateVPIN_reads; eauto.
    + eapply ParameterFacts.vpin_reachable; eassumption.
    + eapply ParameterFacts.vpin_reachable; eassumption.
  - apply CallFacts.CalculateVPIN_keeps.
Qed.

Lemma estimators_pure_witness :
  let e1 := {| Call.self := Entropy.Initialize Scenario.no_holdings;
               Call.store := [Samples.hill] |} in
  let e2 := {| Call.self := Scenario.entropy_bought;
               Call.store := [Samples.zigzag; Samples.hill] |} in
  let h1 := {| Call.self := Fractal.Initialize Scenario.no_holdings;
               Call.store := [Samples.zigzag] |} in
  let h2 := {| Call.self :=
                 snd (Fractal.OnData Scenario.spy_bar
                        (Fractal.Initialize Scenario.no_holdings));
               Call.store := [Samples.hill; Samples.zigzag] |} in
  let v1 := Scenario.vpin_filled in
  let v2 := VPIN.with_base (Scenario.quoted 7) Scenario.vpin_filled in
  (exists entropy,
      fst (Call.CalculatePermutationEntropy 0%nat e1) = Ok (Some entropy)
      /\ fst (Call.CalculatePermutationEntropy 1%nat e2) = Ok (Some entropy))
  /\ (exists hurst,
         fst (Call.CalculateHurstExponent 0%nat h1) = Ok (Some hurst)
         /\ fst (Call.CalculateHurstExponent 1%nat h2) = Ok (Some hurst))
  /\ (exists vpin,
         fst (VPIN.CalculateVPIN SPY v1) = Ok (Some vpin)
         /\ fst (VPIN.CalculateVPIN SPY v2) = Ok (Some vpin)).
Proof.
  intros e1 e2 h1 h2 v1 v2.
  destruct estimators_pure as (He & _ & Hh & _ & Hv & _).
  split; [|split].
  - assert (Hsame := He e1 e2 0%nat 1%nat (EntropyRun.reach_Initialize _)
                       EntropyScenario.entropy_bought_reachable eq_refl).
    destruct (@CallFacts.CalculatePermutationEntropy_returns
                (Call.self e1) Samples.hill) as [entropy Hentropy].
    + split; reflexivity.
    + simpl. lia.
    + exists entropy.
      assert (H1 : fst (Call.CalculatePermutationEntropy 0%nat e1) = Ok (Some entropy)).
      { destruct (CallFacts.CalculatePermutationEntropy_frame 0%nat e1) as [-> _].
        change (nth 0%nat (Call.store e1) []) with Samples.hill.
        now rewrite Hentropy. }
      split; [exact H1|]. now rewrite <- Hsame.
  - assert (Hsame := Hh h1 h2 0%nat 1%nat (FractalRun.reach_Initialize _)
                       (FractalRun.reach_OnData _ (FractalRun.reach_Initialize _))
                       eq_refl).
    destruct (@CallFacts.CalculateHurstExponent_zigzag (Call.self h1))
      as [hurst Hhurst].
    + repeat split.
    + exists hurst.
      assert (H1 : fst (Call.CalculateHurstExponent 0%nat h1) = Ok (Some hurst)).
      { destruct (CallFacts.CalculateHurstExponent_frame 0%nat h1) as [-> _].
        change (nth 0%nat (Call.store h1) []) with Samples.zigzag.
        now rewrite Hhurst. }
      split; [exact H1|]. now rewrite <- Hsame.
  - destruct vpin_filled_history as (history & Hget & Hlen & Hn).
    assert (Hsame := Hv _ _ _ _ v1 v2 SPY SPY history history
                       vpin_filled_reachable
                       (VPINRun.reach_engine (Scenario.quoted 7) vpin_filled_reachable)
                       Hget Hget eq_refl).
    destruct (@CallFacts.CalculateVPIN_full v1 SPY history Hget) as [vpin Hvpin].
    + subst v1. rewrite Hn. exact Hlen.
    + exists vpin.
      assert (H1 : fst (VPIN.CalculateVPIN SPY v1) = Ok (Some vpin))
        by now rewrite Hvpin.
      split; [exact H1|]. now rewrite <- Hsame.
Defined.

(** The ManagePositions of the entropy script leaves the object as it
    was whenever the engine reports no long position: it skips every
    symbol, recorded or not. *)
Lemma entropy_ManagePositions_flat (data : Slice) (s : Entropy.EntropyRegimeDetector) :
  (forall symbol, (Quantity (Entropy.base s) symbol <= 0)%Z) ->
  snd (Entropy.ManagePositions data s) = s.
Proof.
  intros Hflat.
  assert (Hwp : wp (Entropy.ManagePositions data)
                  (fun _ s' => s' = s) (fun _ _ s' => s' = s) s).
  { unfold Entropy.ManagePositions.
    apply HoareFacts.wp_for_each with (I := fun s' => s' = s); [reflexivity|].
    intros symbol s' _ ->. HoareFacts.wp_run; try reflexivity.
    all: match goal with
         | H : (_ <=? 0)%Z = false |- _ =>
             apply Z.leb_gt in H; specialize (Hflat symbol); lia
         end. }
  unfold wp in Hwp.
  destruct (Entropy.ManagePositions data s) as [[[]|e line] s']; exact Hwp.
Qed.

(** An entry without a position in the two other scripts: their
    ManagePositions finds the position flat and deletes its entries. *)
Lemma fractal_flat_position_cleaned :
  let s' := snd (Fractal.ManagePositions Scenario.spy_bar Scenario.fractal_stale) in
  Fractal.entry_prices s' = [] /\ Fractal.entry_hurst s' = []
  /\ Fractal.expected_duration s' = [] /\ Fractal.bars_held s' = [].
Proof. repeat split; reflexivity. Qed.

Lemma vpin_flat_position_cleaned :
  let s' := snd (VPIN.ManagePositions Scenario.spy_bar Scenario.vpin_stale) in
  VPIN.entry_prices s' = [] /\ VPIN.entry_vpin s' = [] /\ VPIN.stop_losses s' = [].
Proof. repeat split; reflexivity. Qed.

(** C4, at the failing input.  The run of [Scenario] (120 rising bars of
    SPY and six scheduled analyses) ends with the entropy script holding
    SPY and the entry recorded; the position is then closed outside the
    script.  That state is reachable, and on the next bar OnData returns
    with the entries of SPY still in [entry_prices] and [stop_losses]:
    ManagePositions finds the position flat and skips the symbol, so an
    entry exists for a symbol without an open position. *)
Theorem entropy_flat_position_keeps_entry :
  EntropyRun.reachable Scenario.entropy_closed
  /\ Quantity (Entropy.base Scenario.entropy_bought) SPY = 133%Z
  /\ Quantity (Entropy.base Scenario.entropy_closed) SPY = 0%Z
  /\ (let r := Entropy.OnData (Scenario.rising_bar 125) Scenario.entropy_closed in
      fst r = Ok tt
      /\ Quantity (Entropy.base (snd r)) SPY = 0%Z
      /\ contains (Entropy.entry_prices (snd r)) SPY = true
      /\ contains (Entropy.stop_losses (snd r)) SPY = true).
Proof.
  split.
  - apply EntropyRun.reach_engine, EntropyScenario.entropy_bought_reachable.
  - unfold Scenario.entropy_closed.
    rewrite EntropyScenario.entropy_bought_eq.
    repeat split; reflexivity.
Qed.

(** * The fractal script on positive prices *)

Module FractalIdle.
Import Py PyFacts Run Hoare HoareFacts Engine Fractal FractalFeed.
Local Open Scope R_scope.

(** a [for] loop with an invariant that knows the items done so far *)
Lemma wp_for_each_done {S X} (I : list X -> S -> Prop) (body : X -> M S unit)
    (E : Exn -> nat -> S -> Prop) (l : list X) :
  forall done s,
    I done s ->
    (forall done x s, I done s ->
       wp (body x) (fun _ => I (done ++ [x])) E s) ->
    wp (for_each l body) (fun _ => I (done ++ l)) E s.
Proof.
  induction l as [|x l IH]; intros done s Hs Hbody; cbn [for_each].
  - rewrite wp_ret, app_nil_r. exact Hs.
  - rewrite wp_bind. eapply wp_mono; [apply (Hbody done x s Hs)| |auto].
    cbv beta. intros [] s' Hs'.
    replace (done ++ x :: l) with ((done ++ [x]) ++ l)
      by (rewrite <- app_assoc; reflexivity).
    now apply IH.
Qed.

Lemma fold_left_Rmax_ge l : forall a,
  a <= fold_left Rmax l a /\ forall x, In x l -> x <= fold_left Rmax l a.
Proof.
  induction l as [|y l IH]; intros a; cbn [fold_left].
  - split; [lra|intros x []].
  - destruct (IH (Rmax a y)) as [Ha Hl]. split.
    + pose proof (Rmax_l a y). lra.
    + intros x [->|Hx]; [|now apply Hl].
      pose proof (Rmax_r a x). lra.
Qed.

Lemma fold_left_Rmin_le l : forall a,
  fold_left Rmin l a <= a /\ forall x, In x l -> fold_left Rmin l a <= x.
Proof.
  induction l as [|y l IH]; intros a; cbn [fold_left].
  - split; [lra|intros x []].
  - destruct (IH (Rmin a y)) as [Ha Hl]. split.
    + pose proof (Rmin_l a y). lra.
    + intros x [->|Hx]; [|now apply Hl].
      pose proof (Rmin_r a x). lra.
Qed.

Lemma fold_left_Rmin_pos l : forall a,
  0 < a -> Forall (Rlt 0) l -> 0 < fold_left Rmin l a.
Proof.
  induction l as [|y l IH]; intros a Ha Hl; cbn [fold_left]; [exact Ha|].
  inversion Hl; subst. apply IH; [|assumption].
  unfold Rmin. destruct (Rle_dec a y); assumption.
Qed.

Lemma max_ge l x : In x l -> x <= Np.max l.
Proof.
  destruct l as [|a l]; [intros []|]. unfold Np.max.
  destruct (fold_left_Rmax_ge l a) as [Ha Hl].
  intros [->|Hx]; [exact Ha|now apply Hl].
Qed.

Lemma min_le l x : In x l -> Np.min l <= x.
Proof.
  destruct l as [|a l]; [intros []|]. unfold Np.min.
  destruct (fold_left_Rmin_le l a) as [Ha Hl].
  intros [->|Hx]; [exact Ha|now apply Hl].
Qed.

Lemma min_pos l : l <> [] -> Forall (Rlt 0) l -> 0 < Np.min l.
Proof.
  destruct l as [|a l]; [congruence|]. intros _ Hl. unfold Np.min.
  inversion Hl; subst. now apply fold_left_Rmin_pos.
Qed.

(** the last item is among the last [k] *)
Lemma from_end_last_items {A} k (l : list A) x :
  (0 < k)%nat -> from_end 1 l = Some x -> In x (last_items k l).
Proof.
  unfold from_end, last_items. intros Hk.
  destruct ((1 =? 0) || (length l <? 1))%nat eqn:Hc; [discriminate|].
  apply orb_false_elim in Hc as [_ Hl]. apply Nat.ltb_ge in Hl.
  destruct (Nat.eqb_spec k 0) as [->|_]; [lia|].
  intros Hx.
  destruct (Nat.le_gt_cases (length l) k) as [Hle|Hgt].
  - replace (length l - k)%nat with 0%nat by lia. cbn [skipn].
    eapply nth_error_In; eassumption.
  - assert (Hn : nth_error (skipn (length l - k) l) (k - 1) = Some x).
    { rewrite nth_error_skipn. rewrite <- Hx. f_equal. lia. }
    eapply nth_error_In; eassumption.
Qed.

Lemma from_end_append {A} (d : deque A) x :
  (0 < maxlen d)%nat -> from_end 1 (items (append d x)) = Some x.
Proof.
  intros Hcap. unfold append, from_end. cbn [items].
  rewrite length_skipn, length_app. cbn [length].
  set (n := length (items d)).
  assert (Hlen : (n + 1 - (n + 1 - maxlen d) = Nat.min (n + 1) (maxlen d))%nat) by lia.
  rewrite Hlen.
  destruct ((1 =? 0) || (Nat.min (n + 1) (maxlen d) <? 1))%nat eqn:Hc.
  - apply orb_true_iff in Hc as [Hc|Hc]; [discriminate|].
    apply Nat.ltb_lt in Hc. lia.
  - rewrite nth_error_skipn.
    replace (n + 1 - maxlen d + (Nat.min (n + 1) (maxlen d) - 1))%nat with n by lia.
    rewrite nth_error_app2 by (subst n; lia).
    subst n. now rewrite Nat.sub_diag.
Qed.

Lemma idle_append s symbol d x :
  idle s -> get (price_buffer s) symbol = Some d -> 0 < x ->
  idle (with_price_buffer (set (price_buffer s) symbol (append d x)) s).
Proof.
  intros (Hn & Hl & Hb & Hp & Hv) Hg Hx.
  pose proof Hg as Hin. apply get_In in Hin.
  destruct (Hb _ _ Hin) as [Hcap Hlen].
  split; [exact Hn|]. split; [exact Hl|]. cbn [price_buffer with_price_buffer volatility].
  split; [now apply bounded_set_append|]. split.
  - apply Forall_values_set; [exact Hp|].
    apply Forall_items_append; [|exact Hx].
    rewrite Forall_forall in Hp. apply Hp. eapply In_values; eassumption.
  - intros symbol0 d0 vol Hg0 Hvol Hpos.
    destruct (eq_dec symbol symbol0) as [<-|Hne].
    + rewrite get_set_eq in Hg0. injection Hg0 as <-.
      specialize (Hv _ _ _ Hg Hvol Hpos).
      rewrite len_append, Hcap. lia.
    + rewrite get_set_ne in Hg0 by assumption. eauto.
Qed.

(** Lines 87-89: the closes are appended; nothing else changes. *)
Lemma append_closes data s :
  idle s -> positive_closes data ->
  wp (for_each [SPY; QQQ; TLT] (fun symbol =>
        match get (Bars data) symbol with
        | None => ret tt
        | Some bar =>
            bind (gets price_buffer) (fun buffers =>
            bind (check KeyError 89 (get buffers symbol)) (fun buffer =>
            modify (fun s => with_price_buffer
                      (set (price_buffer s) symbol (append buffer (Close bar))) s)))
        end))
     (fun _ s' => idle s' /\ base s' = base s /\ latest data [SPY; QQQ; TLT] s')
     (fun _ _ s' => idle s' /\ base s' = base s) s.
Proof.
  intros Hs Hdata.
  apply (wp_for_each_done
           (fun done s' => idle s' /\ base s' = base s /\ latest data done s')
           _ _ [SPY; QQQ; TLT] []).
  - split; [exact Hs|]. split; [reflexivity|]. intros symbol bar [].
  - clear Hs. intros done x s' (Hs' & Hbase & Hlatest).
    destruct (get (Bars data) x) as [bar|] eqn:Hbar.
    + rewrite wp_bind, wp_gets, wp_bind.
      destruct (get (price_buffer s') x) as [buffer|] eqn:Hbuf.
      * rewrite wp_check_Some, wp_modify.
        assert (Hclose : 0 < Close bar).
        { apply (Hdata x). now apply get_In. }
        split; [now apply idle_append|]. split; [exact Hbase|].
        intros symbol bar0 Hin Hbar0. cbn [price_buffer with_price_buffer].
        destruct (eq_dec x symbol) as [<-|Hne].
        -- rewrite get_set_eq. eexists; split; [reflexivity|].
           rewrite Hbar in Hbar0. injection Hbar0 as <-.
           apply from_end_append.
           destruct Hs' as (_ & _ & Hb & _).
           apply get_In in Hbuf. destruct (Hb _ _ Hbuf) as [-> _]. lia.
        -- rewrite get_set_ne by assumption.
           apply Hlatest; [|assumption].
           apply in_app_or in Hin as [Hin|[Hin|[]]]; congruence.
      * rewrite wp_check_None. now split.
    + rewrite wp_ret. split; [exact Hs'|]. split; [exact Hbase|].
      intros symbol bar0 Hin Hbar0.
      apply in_app_or in Hin as [Hin|[Hin|[]]]; [now apply Hlatest|congruence].
Qed.

(** Lines 190-202: the levels of a symbol with twenty prices or more are
    set from its last twenty prices. *)
Lemma update_levels s :
  idle s ->
  wp UpdateBreakoutLevels
     (fun _ s' => idle s' /\ base s' = base s
                  /\ price_buffer s' = price_buffer s /\ fresh [SPY; QQQ] s')
     (fun _ _ s' => idle s' /\ base s' = base s) s.
Proof.
  intros Hs. unfold UpdateBreakoutLevels.
  apply (wp_for_each_done
           (fun done s' => idle s' /\ base s' = base s
                           /\ price_buffer s' = price_buffer s /\ fresh done s')
           _ _ [SPY; QQQ] []).
  - split; [exact Hs|]. split; [reflexivity|]. split; [reflexivity|]. intros ? ? [].
  - clear Hs. intros done x s' (Hs' & Hbase & Hbuf & Hfresh).
    pose proof Hs' as (Hn & Hl & Hb & Hp & Hv).
    assert (Hfresh' : forall s2 d prices,
              price_buffer s2 = price_buffer s' ->
              get (price_buffer s') x = Some d ->
              last_items (breakout_lookback s') (items d) = prices ->
              breakout_high s2 = set (breakout_high s') x (Np.max prices) ->
              breakout_low s2 = set (breakout_low s') x (Some (Np.min prices)) ->
              fresh (done ++ [x]) s2).
    { intros s2 d prices Hpb Hg Hprices Hhigh Hlow symbol d0 Hin Hg0 Hlen.
      rewrite Hhigh, Hlow. rewrite Hpb in Hg0.
      destruct (eq_dec x symbol) as [<-|Hne].
      - rewrite !get_set_eq. rewrite Hg in Hg0. injection Hg0 as <-.
        rewrite Hl in Hprices. now rewrite Hprices.
      - rewrite !get_set_ne by assumption.
        apply Hfresh; [|assumption|assumption].
        apply in_app_or in Hin as [Hin|[Hin|[]]]; congruence. }
    wp_run.
    + split; [exact Hs'|]. split; [exact Hbase|]. split; [exact Hbuf|].
      intros symbol d0 Hin Hg0 Hlen.
      apply in_app_or in Hin as [Hin|[Hin|[]]]; [now apply Hfresh|subst symbol].
      match goal with
      | Hg : get (price_buffer s') x = Some ?d, Hc : (len ?d <? _)%nat = true |- _ =>
          rewrite Hg in Hg0; injection Hg0 as <-;
          apply Nat.ltb_lt in Hc; rewrite Hl in Hc; lia
      end.
    + now split.
    + split; [|split; [exact Hbase|split; [exact Hbuf|]]].
      * split; [exact Hn|]. split; [exact Hl|]. split; [exact Hb|].
        split; [exact Hp|].
        intros symbol d0 vol Hg0 Hvol Hpos.
        cbn [price_buffer volatility with_volatility with_breakout_low
             with_breakout_high] in Hg0, Hvol.
        destruct (eq_dec x symbol) as [<-|Hne].
        -- match goal with
           | Hg : get (price_buffer s') x = Some ?d, Hc : (len ?d <? _)%nat = false |- _ =>
               rewrite Hg in Hg0; injection Hg0 as <-;
               apply Nat.ltb_ge in Hc; rewrite Hl in Hc; exact Hc
           end.
        -- rewrite get_set_ne in Hvol by assumption. eauto.
      * eapply Hfresh'; try eassumption; reflexivity.
    + split; [|split; [exact Hbase|split; [exact Hbuf|]]].
      * exact Hs'.
      * eapply Hfresh'; try eassumption; reflexivity.
    + now split.
Qed.

(** the threshold of line 231 *)
Lemma threshold_range vol :
  0.005 <= Rmax 0.005 (Rmin 0.02 (vol * 0.05)) <= 0.02.
Proof.
  split; [apply Rmax_l|].
  apply Rmax_lub; [lra|apply Rmin_l].
Qed.

(** Lines 204-242 after the levels were set with the bar in: the close is
    within the levels, so neither breakout is found. *)
Lemma check_breakouts_idle data s :
  idle s -> latest data [SPY; QQQ; TLT] s -> fresh [SPY; QQQ] s ->
  wp (CheckBreakouts data) (fun _ s' => s' = s) (fun _ _ s' => s' = s) s.
Proof.
  intros (Hn & Hl & Hb & Hp & Hv) Hlatest Hfresh. unfold CheckBreakouts.
  apply wp_for_each with (I := fun s' => s' = s); [reflexivity|].
  intros symbol s' Hin ->. wp_run; try reflexivity.
  all: exfalso.
  all: match goal with
       | Hbar : get (Bars _) ?sym = Some ?bar,
         Hvol : get (volatility _) ?sym = Some ?vol,
         Hpos : (?vol <=? 0) = false,
         Hhigh : get (breakout_high _) ?sym = Some ?high,
         Hlow : get (breakout_low _) ?sym = Some ?low |- _ =>
           apply Rleb_false in Hpos;
           destruct (Hlatest sym bar) as (buffer & Hbuf & Hlast);
             [simpl in *; tauto|exact Hbar|];
           pose proof (Hv _ _ _ Hbuf Hvol Hpos) as Hlen;
           destruct (Hfresh sym buffer Hin Hbuf Hlen) as [Hmax Hmin];
           rewrite Hhigh in Hmax; injection Hmax as ->;
           rewrite Hlow in Hmin; injection Hmin as ->;
           pose proof (threshold_range vol) as Hmult;
           assert (Hclose : In (Close bar) (last_items 20 (items buffer)))
             by (apply from_end_last_items; [lia|exact Hlast]);
           assert (Hpositive : Forall (Rlt 0) (last_items 20 (items buffer)))
             by (apply Forall_last_items;
                 rewrite Forall_forall in Hp; apply Hp;
                 eapply In_values; eassumption);
           pose proof (max_ge _ _ Hclose) as Hle;
           pose proof (min_le _ _ Hclose) as Hge;
           assert (Hminpos : 0 < Np.min (last_items 20 (items buffer)))
             by (apply min_pos; [intros E; rewrite E in Hclose; destruct Hclose
                                |exact Hpositive]);
           assert (Hcpos : 0 < Close bar) by lra
       end.
  - apply Rltb_true in Heqb3. nra.
  - match goal with H : (_ <? _) = true |- _ => apply Rltb_true in H; nra end.
Qed.

Lemma OnData_idle data s :
  idle s -> positive_closes data ->
  wp (OnData data) (fun _ s' => idle s' /\ base s' = base s)
     (fun _ _ s' => idle s' /\ base s' = base s) s.
Proof.
  intros Hs Hdata. unfold OnData. rewrite wp_bind, wp_gets.
  destruct (IsWarmingUp (base s)); [rewrite wp_ret; now split|].
  rewrite wp_bind.
  eapply wp_mono; [apply append_closes; assumption| |auto].
  cbv beta. intros [] s1 (H1 & Hb1 & Hl1). rewrite wp_bind.
  eapply wp_mono; [apply update_levels; exact H1| |].
  - cbv beta. intros [] s2 (H2 & Hb2 & Hpb & Hf). rewrite wp_bind.
    eapply wp_mono; [apply check_breakouts_idle; try assumption| |].
    + intros symbol bar Hin Hbar. rewrite Hpb. now apply Hl1.
    + cbv beta. intros [] s3 ->.
      unfold ManagePositions. rewrite wp_bind, wp_gets.
      pose proof H2 as ((He & _) & _). rewrite He. cbn [keys map for_each].
      rewrite wp_ret. split; [exact H2|congruence].
    + cbv beta. intros _ _ s3 ->. split; [assumption|congruence].
  - cbv beta. intros _ _ s2 [H2 Hb2]. split; [assumption|congruence].
Qed.

Lemma AnalyzeFractalDimension_idle s :
  idle s ->
  wp AnalyzeFractalDimension (fun _ s' => idle s' /\ base s' = base s)
     (fun _ _ s' => idle s' /\ base s' = base s) s.
Proof.
  intros Hs. unfold AnalyzeFractalDimension.
  apply wp_for_each with (I := fun s' => idle s' /\ base s' = base s);
    [now split|].
  clear Hs. intros symbol s' _ [Hs' Hbase]. wp_run; try (now split).
  eapply wp_mono; [apply FractalFacts.CalculateHurstExponent_spec| |]; cbv beta.
  - intros r s2 [-> _]. wp_run; now split.
  - intros _ _ s2 ->. now split.
Qed.

Lemma Initialize_idle q : idle (Initialize q).
Proof.
  split; [repeat split|]. split; [reflexivity|]. split; [bounded_literal|].
  split; [repeat constructor|].
  intros symbol d vol _ Hvol Hpos. exfalso. cbn in Hvol.
  repeat (destruct (eq_dec symbol _); [injection Hvol as <-; lra|]).
  discriminate.
Qed.

Lemma reachable_idle s : reachable s -> idle s.
Proof.
  induction 1 as [q|s q _ IH|s data Hdata _ IH|s _ IH].
  - apply Initialize_idle.
  - exact IH.
  - pose proof (OnData_idle IH Hdata) as Hwp. unfold wp in Hwp.
    destruct (OnData data s) as [[[]|e line] s']; apply Hwp.
  - pose proof (AnalyzeFractalDimension_idle IH) as Hwp. unfold wp in Hwp.
    destruct (AnalyzeFractalDimension s) as [[[]|e line] s']; apply Hwp.
Qed.

End FractalIdle.

(** X1.  On a feed of positive closes the fractal script never trades.
    OnData appends the close of a bar before it sets the breakout levels
    from the last twenty prices, so the close it then tests lies within
    the levels and neither breakout is found: in every state such a run
    reaches no entry is recorded, and neither OnData nor the scheduled
    analysis changes the engine side of the object (no order is placed),
    whether the callback returns or raises. *)
Theorem fractal_never_trades :
  forall s, FractalFeed.reachable s ->
    FractalFeed.no_entries s
    /\ (forall data, FractalFeed.positive_closes data ->
          Fractal.base (snd (Fractal.OnData data s)) = Fractal.base s)
    /\ Fractal.base (snd (Fractal.AnalyzeFractalDimension s)) = Fractal.base s.
Proof.
  intros s Hs. apply FractalIdle.reachable_idle in Hs.
  split; [apply Hs|]. split.
  - intros data Hdata.
    pose proof (FractalIdle.OnData_idle Hs Hdata) as Hwp. unfold Hoare.wp in Hwp.
    destruct (Fractal.OnData data s) as [[[]|e line] s']; apply Hwp.
  - pose proof (FractalIdle.AnalyzeFractalDimension_idle Hs) as Hwp.
    unfold Hoare.wp in Hwp.
    destruct (Fractal.AnalyzeFractalDimension s) as [[[]|e line] s']; apply Hwp.
Qed.

Lemma fractal_never_trades_witness :
  let s := snd (Fractal.OnData Scenario.spy_bar (Fractal.Initialize Scenario.no_holdings)) in
  FractalFeed.no_entries s
  /\ (forall data, FractalFeed.positive_closes data ->
        Fractal.base (snd (Fractal.OnData data s)) = Fractal.base s)
  /\ Fractal.base (snd (Fractal.AnalyzeFractalDimension s)) = Fractal.base s.
Proof.
  intros s. apply fractal_never_trades.
  apply FractalFeed.reach_OnData; [|apply FractalFeed.reach_Initialize].
  intros symbol bar [E|[]]. inversion E; subst. simpl. lra.
Defined.

(** * Permutation entropy of a series that never falls *)

Module EntropyFlat.
Import Py PyFacts Run Engine Entropy Series.
Local Open Scope R_scope.

(** The stable sort leaves indices in place when their keys never fall. *)
Lemma sorted_non_decreasing_keys (key : nat -> R) m : forall a,
  (forall i j, (a <= i <= j)%nat -> (j < a + m)%nat -> key i <= key j) ->
  sorted key (seq a m) = seq a m.
Proof.
  induction m as [|m IH]; intros a Hkey; [reflexivity|].
  cbn [seq sorted fold_right]. fold (sorted key (seq (S a) m)).
  rewrite IH by (intros i j ? ?; apply Hkey; lia).
  destruct m as [|m]; [reflexivity|]. cbn [seq insert_by].
  destruct (Rltb_spec (key (S a)) (key a)) as [Hlt|_]; [|reflexivity].
  assert (key a <= key (S a)) by (apply Hkey; lia). lra.
Qed.

Lemma ordinal_pattern_non_decreasing m tau prices i :
  non_decreasing prices -> (i + (m - 1) * tau < length prices)%nat ->
  ordinal_pattern m tau prices i = seq 0 m.
Proof.
  intros Hmono Hi. unfold ordinal_pattern.
  apply sorted_non_decreasing_keys. intros k j Hk Hj.
  assert (Hnth : forall k, (k < m)%nat ->
            nth k (map (fun j => nth (i + j * tau) prices 0) (seq 0 m)) 0
            = nth (i + k * tau) prices 0).
  { intros x Hx. set (f := fun j => nth (i + j * tau) prices 0).
    rewrite nth_indep with (d' := f 0%nat)
      by (rewrite length_map, length_seq; exact Hx).
    rewrite map_nth, seq_nth by exact Hx. reflexivity. }
  rewrite !Hnth by lia. apply Hmono. nia.
Qed.

Lemma count_patterns_non_decreasing m tau prices count :
  non_decreasing prices -> (0 < count)%nat ->
  (count + (m - 1) * tau <= length prices)%nat ->
  count_patterns m tau prices count = ([(seq 0 m, count)], count).
Proof.
  intros Hmono Hpos Hlen. unfold count_patterns.
  assert (Hi : forall i, (i < count)%nat -> ordinal_pattern m tau prices i = seq 0 m).
  { intros i Hi. apply ordinal_pattern_non_decreasing; [assumption|].
    remember ((m - 1) * tau)%nat as span. clear - Hi Hlen. lia. }
  clear Hlen. induction count as [|count IH]; [lia|].
  rewrite seq_S, fold_left_app. cbn [fold_left].
  rewrite Hi by (clear; lia).
  destruct count as [|count].
  - reflexivity.
  - rewrite IH by (clear - Hi; intros; try apply Hi; lia).
    unfold get_default. cbn [fst snd set get].
    destruct (eq_dec (seq 0 m) (seq 0 m)) as [_|Hne]; [|congruence].
    f_equal; [|clear; lia]. do 2 f_equal. clear; lia.
Qed.

Lemma shannon_entropy_one_pattern total :
  (0 < total)%nat -> shannon_entropy [total] total = 0.
Proof.
  intros Hpos. unfold shannon_entropy. cbn [fold_left].
  assert (Hp : INR total / INR total = 1).
  { apply Rinv_r. apply not_0_INR. lia. }
  rewrite Hp. destruct (Rltb_spec 0 1); [|lra].
  unfold Np.log2. rewrite ln_1. lra.
Qed.

End EntropyFlat.

(** X2.  On prices that never fall (a flat series included), given at
    least [embedding_dim + (embedding_dim - 1) * tau] of them, every
    window has the same ordinal pattern (ties keep their order in the
    sort of line 115) and CalculatePermutationEntropy returns 0, the
    reading of a perfectly predictable series. *)
Theorem permutation_entropy_non_decreasing :
  forall (self : Entropy.EntropyRegimeDetector) (prices : list R),
    (1 <= Entropy.embedding_dim self)%nat ->
    (Entropy.embedding_dim self
     + (Entropy.embedding_dim self - 1) * Entropy.tau self <= length prices)%nat ->
    Series.non_decreasing prices ->
    Entropy.CalculatePermutationEntropy prices self = (Run.Ok (Some 0%R), self).
Proof.
  intros self prices Hm Hlen Hmono.
  unfold Entropy.CalculatePermutationEntropy, Run.bind, Run.gets, Run.ret.
  set (m := Entropy.embedding_dim self) in *. set (t := Entropy.tau self) in *.
  destruct (Z.ltb_spec (Z.of_nat (length prices))
              (Z.of_nat m + (Z.of_nat m - 1) * Z.of_nat t)) as [Hlt|_];
    [exfalso; nia|].
  set (windows := Z.to_nat _).
  assert (Hw : (0 < windows /\ windows + (m - 1) * t <= length prices)%nat)
    by (subst windows; nia).
  rewrite EntropyFlat.count_patterns_non_decreasing by tauto.
  destruct (Nat.eqb_spec windows 0) as [E|_]; [lia|].
  cbn [Py.values map snd].
  rewrite EntropyFlat.shannon_entropy_one_pattern by tauto.
  destruct (Py.Rltb _ _); do 3 f_equal; unfold Rdiv; apply Rmult_0_l.
Qed.

Lemma permutation_entropy_non_decreasing_witness :
  let self := Entropy.Initialize Scenario.no_holdings in
  Entropy.CalculatePermutationEntropy [7; 7; 7; 7; 7; 7; 7; 7; 7]%R self
  = (Run.Ok (Some 0%R), self).
Proof.
  intros self. apply permutation_entropy_non_decreasing.
  - simpl. lia.
  - simpl. lia.
  - intros i j Hij. simpl in Hij.
    do 9 (destruct i as [|i]; [do 9 (destruct j as [|j]; [simpl; lra|]); simpl in *; lia|]).
    lia.
Defined.

(** * Position management only reduces positions *)

Module ExposureFacts.
Import Py PyFacts Run Hoare HoareFacts Engine Exposure.
Local Open Scope R_scope.

Lemma reduced_refl q : reduced q q.
Proof. intros symbol. lia. Qed.

Lemma reduced_trans q1 q2 q3 : reduced q1 q2 -> reduced q2 q3 -> reduced q1 q3.
Proof.
  intros H12 H23 symbol. specialize (H12 symbol). specialize (H23 symbol). lia.
Qed.

Lemma reduced_flatten q symbol : reduced q (flatten q symbol).
Proof.
  intros x. cbn [Quantity flatten]. destruct (eq_dec x symbol); lia.
Qed.

(** selling a part of a long position *)
Lemma reduced_sell q symbol shares :
  (0 <= shares < Quantity q symbol)%Z -> reduced q (fill q symbol (- shares)).
Proof.
  intros Hs x. cbn [Quantity fill]. destruct (eq_dec x symbol); subst; lia.
Qed.

(** buying back a part of a short position *)
Lemma reduced_cover q symbol shares :
  (0 <= shares < - Quantity q symbol)%Z -> reduced q (fill q symbol shares).
Proof.
  intros Hs x. cbn [Quantity fill]. destruct (eq_dec x symbol); subst; lia.
Qed.

Ltac fraction :=
  match goal with
  | |- (0 <= int (IZR ?a * ?c) < _)%Z =>
      let F := fresh in
      assert (F : (0 <= int (IZR a * c) < a)%Z)
        by (apply PositionsFacts.int_fraction; [lia|lra]);
      lia
  end.

Ltac reduces :=
  eapply reduced_trans; [eassumption|];
  first
    [ apply reduced_refl
    | apply reduced_flatten
    | apply reduced_sell; fraction
    | apply reduced_cover; fraction ].

Ltac signs :=
  repeat match goal with
         | H : (_ <=? _)%Z = false |- _ => apply Z.leb_gt in H
         | H : (_ <=? _)%Z = true |- _ => apply Z.leb_le in H
         | H : (_ <? _)%Z = false |- _ => apply Z.ltb_ge in H
         | H : (_ <? _)%Z = true |- _ => apply Z.ltb_lt in H
         | H : (_ =? _)%Z = false |- _ => apply Z.eqb_neq in H
         | H : (_ =? _)%Z = true |- _ => apply Z.eqb_eq in H
         end.

Lemma entropy_ManagePositions_reduces data s :
  wp (Entropy.ManagePositions data)
     (fun _ s' => reduced (Entropy.base s) (Entropy.base s'))
     (fun _ _ s' => reduced (Entropy.base s) (Entropy.base s')) s.
Proof.
  unfold Entropy.ManagePositions.
  apply wp_for_each
    with (I := fun s' => reduced (Entropy.base s) (Entropy.base s'));
    [apply reduced_refl|].
  intros symbol s' _ Hs'.
  unfold Entropy.Liquidate, Entropy.MarketOrder. wp_run; try assumption.
  all: signs; cbn [Entropy.base Entropy.with_base Entropy.with_stop_losses
                   Entropy.with_entry_prices]; reduces.
Qed.

Lemma vpin_ManagePositions_reduces data s :
  wp (VPIN.ManagePositions data)
     (fun _ s' => reduced (VPIN.base s) (VPIN.base s'))
     (fun _ _ s' => reduced (VPIN.base s) (VPIN.base s')) s.
Proof.
  unfold VPIN.ManagePositions. wp_run.
  apply wp_for_each
    with (I := fun s' => reduced (VPIN.base s) (VPIN.base s'));
    [apply reduced_refl|].
  intros symbol s' _ Hs'.
  unfold VPIN.Liquidate, VPIN.CleanupPosition. wp_run; try assumption.
  all: signs; cbn [VPIN.base VPIN.with_base VPIN.with_stop_losses
                   VPIN.with_entry_prices VPIN.with_entry_vpin]; reduces.
Qed.

Lemma fractal_ManagePositions_reduces data s :
  wp (Fractal.ManagePositions data)
     (fun _ s' => reduced (Fractal.base s) (Fractal.base s'))
     (fun _ _ s' => reduced (Fractal.base s) (Fractal.base s')) s.
Proof.
  unfold Fractal.ManagePositions. wp_run.
  apply wp_for_each
    with (I := fun s' => reduced (Fractal.base s) (Fractal.base s'));
    [apply reduced_refl|].
  intros symbol s' _ Hs'.
  unfold Fractal.Liquidate, Fractal.MarketOrder, Fractal.CleanupPosition.
  wp_run; try assumption.
  all: signs; cbn [Fractal.base Fractal.with_base Fractal.with_entry_prices
                   Fractal.with_entry_hurst Fractal.with_expected_duration
                   Fractal.with_bars_held] in *; try reduces.
  all: match goal with
       | |- context [fill _ _ (if (0 <? ?q)%Z then _ else _)] =>
           destruct (Z.ltb_spec 0 q)
       end; reduces.
Qed.

Lemma entropy_OnData_reduces data s :
  wp (Entropy.OnData data)
     (fun _ s' => reduced (Entropy.base s) (Entropy.base s'))
     (fun _ _ s' => reduced (Entropy.base s) (Entropy.base s')) s.
Proof.
  unfold Entropy.OnData. wp_run; [apply reduced_refl|].
  eapply wp_mono with (Q := fun _ s' => Entropy.base s' = Entropy.base s)
                      (E := fun _ _ s' => Entropy.base s' = Entropy.base s).
  - apply wp_for_each; [reflexivity|].
    intros symbol s' _ Hs'. wp_run; assumption.
  - cbv beta. intros [] s1 Hs1. rewrite <- Hs1.
    apply entropy_ManagePositions_reduces.
  - cbv beta. intros _ _ s1 ->. apply reduced_refl.
Qed.

Section BulkVolumeClassification.
Variable norm_cdf : R -> R.

Lemma vpin_OnData_reduces data s :
  wp (VPIN.OnData norm_cdf data)
     (fun _ s' => reduced (VPIN.base s) (VPIN.base s'))
     (fun _ _ s' => reduced (VPIN.base s) (VPIN.base s')) s.
Proof.
  unfold VPIN.OnData. wp_run; [apply reduced_refl|].
  eapply wp_mono with (Q := fun _ s' => VPIN.base s' = VPIN.base s)
                      (E := fun _ _ s' => VPIN.base s' = VPIN.base s).
  - apply wp_for_each; [reflexivity|].
    intros symbol s' _ Hs'. wp_run; try assumption.
    eapply wp_mono;
      [apply (@VPINFuel.ProcessBarForVPIN_outside norm_cdf s' symbol t);
       repeat split| |]; cbv beta.
    + intros [] s2 (Hb & _). wp_run; cbn [VPIN.base VPIN.with_price_history];
        congruence.
    + intros _ _ s2 (Hb & _). congruence.
  - cbv beta. intros [] s1 Hs1. rewrite <- Hs1.
    apply vpin_ManagePositions_reduces.
  - cbv beta. intros _ _ s1 ->. apply reduced_refl.
Qed.

End BulkVolumeClassification.

End ExposureFacts.

(** X3.  Managing positions only ever reduces them.  In each of the
    three scripts ManagePositions leaves every position as it was or
    sells (or buys back) a part of it: no position grows and none changes
    sides, whether the method returns or raises.  OnData of the entropy
    and VPIN scripts does nothing else to positions, so these two scripts
    open positions in their scheduled and hourly callbacks only. *)
Theorem position_management_reduces :
  (forall data s,
      Exposure.reduced (Entropy.base s)
        (Entropy.base (snd (Entropy.ManagePositions data s))))
  /\ (forall data s,
         Exposure.reduced (Fractal.base s)
           (Fractal.base (snd (Fractal.ManagePositions data s))))
  /\ (forall data s,
         Exposure.reduced (VPIN.base s)
           (VPIN.base (snd (VPIN.ManagePositions data s))))
  /\ (forall data s,
         Exposure.reduced (Entropy.base s)
           (Entropy.base (snd (Entropy.OnData data s))))
  /\ (forall norm_cdf data s,
         Exposure.reduced (VPIN.base s)
           (VPIN.base (snd (VPIN.OnData norm_cdf data s)))).
Proof.
  split; [|split; [|split; [|split]]].
  - intros data s.
    pose proof (ExposureFacts.entropy_ManagePositions_reduces data s) as Hwp.
    unfold Hoare.wp in Hwp.
    destruct (Entropy.ManagePositions data s) as [[[]|e line] s']; exact Hwp.
  - intros data s.
    pose proof (ExposureFacts.fractal_ManagePositions_reduces data s) as Hwp.
    unfold Hoare.wp in Hwp.
    destruct (Fractal.ManagePositions data s) as [[[]|e line] s']; exact Hwp.
  - intros data s.
    pose proof (ExposureFacts.vpin_ManagePositions_reduces data s) as Hwp.
    unfold Hoare.wp in Hwp.
    destruct (VPIN.ManagePositions data s) as [[[]|e line] s']; exact Hwp.
  - intros data s.
    pose proof (ExposureFacts.entropy_OnData_reduces data s) as Hwp.
    unfold Hoare.wp in Hwp.
    destruct (Entropy.OnData data s) as [[[]|e line] s']; exact Hwp.
  - intros norm_cdf data s.
    pose proof (ExposureFacts.vpin_OnData_reduces norm_cdf data s) as Hwp.
    unfold Hoare.wp in Hwp.
    destruct (VPIN.OnData norm_cdf data s) as [[[]|e line] s']; exact Hwp.
Qed.

(** * Regime detection of the entropy script *)

Module RegimeFacts.
Import Py PyFacts Run Engine Entropy.
Local Open Scope R_scope.

Lemma from_end_1_some {A} (l : list A) :
  (1 <= length l)%nat -> exists x, from_end 1 l = Some x.
Proof.
  intros Hl. unfold from_end.
  destruct (Nat.ltb_spec (length l) 1) as [Hlt|_]; [lia|]. cbn [Nat.eqb orb].
  destruct (nth_error l (length l - 1)) as [x|] eqn:Hx; [now exists x|].
  apply nth_error_None in Hx. lia.
Qed.

Lemma Rmin_1_pos c : 0 < c -> 0 < Rmin 1 c <= 1.
Proof.
  intros Hc. split; [apply Rmin_glb_lt; lra|apply Rmin_l].
Qed.

End RegimeFacts.

Import Py Run Engine.

(** X4.  DetectRegimeChange on a symbol with an entropy history returns
    and leaves the object as it was.  With fewer than six readings the
    result is (None, 0); otherwise the regime is read off the latest
    reading against the two thresholds, and the confidence lies in
    (0, 1] (the thresholds being inside (0, 1), as Initialize sets
    them). *)
Theorem regime_confidence_range :
  forall (s : Entropy.EntropyRegimeDetector) (symbol : Engine.Symbol)
         (h : Py.deque R),
    Py.get (Entropy.entropy_history s) symbol = Some h ->
    (0 < Entropy.low_entropy_threshold s)%R ->
    (Entropy.high_entropy_threshold s < 1)%R ->
    exists regime confidence,
      Entropy.DetectRegimeChange symbol s = (Run.Ok (regime, confidence), s)
      /\ ((Py.len h < 6)%nat -> regime = None /\ confidence = 0%R)
      /\ ((6 <= Py.len h)%nat ->
            exists current,
              Py.from_end 1 (Py.items h) = Some current
              /\ regime
                 = Some (if Py.Rltb current (Entropy.low_entropy_threshold s)
                         then Entropy.trending
                         else if Py.Rltb (Entropy.high_entropy_threshold s) current
                              then Entropy.chaotic
                              else Entropy.transitioning)
              /\ (0 < confidence <= 1)%R).
Proof.
  intros s symbol h Hget Hlow Hhigh.
  unfold Entropy.DetectRegimeChange, Run.bind, Run.gets, Run.check.
  rewrite Hget. unfold Run.ret at 1.
  destruct (Nat.ltb_spec (Py.len h) 6) as [Hshort|Hlong].
  - exists None, 0%R. split; [reflexivity|]. split; [tauto|lia].
  - destruct (@RegimeFacts.from_end_1_some _ (Py.items h)) as [current Hcur];
      [unfold Py.len in Hlong; lia|].
    rewrite Hcur. unfold Run.ret.
    set (low := Entropy.low_entropy_threshold s) in *.
    set (high := Entropy.high_entropy_threshold s) in *.
    set (change := Rabs _).
    assert (Hboost : forall c, (0 < c)%R ->
              (0 < Rmin 1 (if Py.Rltb 0.05 change then Rmin 1 (c * 1.5) else c) <= 1)%R).
    { intros c Hc. apply RegimeFacts.Rmin_1_pos.
      destruct (Py.Rltb 0.05 change); [|exact Hc].
      apply RegimeFacts.Rmin_1_pos. lra. }
    destruct (Rltb current low) eqn:Hlt.
    + eexists _, _. split; [reflexivity|]. split; [lia|]. intros _.
      exists current. split; [reflexivity|]. rewrite Hlt. split; [reflexivity|].
      apply PyFacts.Rltb_true in Hlt.
      apply Hboost. apply Rdiv_lt_0_compat; lra.
    + destruct (Rltb high current) eqn:Hgt.
      * eexists _, _. split; [reflexivity|]. split; [lia|]. intros _.
        exists current. split; [reflexivity|]. rewrite Hlt, Hgt.
        split; [reflexivity|]. apply PyFacts.Rltb_true in Hgt.
        apply Hboost. apply Rdiv_lt_0_compat; lra.
      * eexists _, _. split; [reflexivity|]. split; [lia|]. intros _.
        exists current. split; [reflexivity|]. rewrite Hlt, Hgt.
        split; [reflexivity|]. apply Hboost. lra.
Qed.

Lemma regime_confidence_range_witness :
  let h := [0.5; 0.6; 0.7; 0.8; 0.9; 0.9]%R in
  let s := Scenario.entropy_with Scenario.no_holdings [] h in
  exists regime confidence,
    Entropy.DetectRegimeChange SPY s = (Ok (regime, confidence), s)
    /\ ((len (Deque 24 h) < 6)%nat -> regime = None /\ confidence = 0%R)
    /\ ((6 <= len (Deque 24 h))%nat ->
          exists current,
            from_end 1 h = Some current
            /\ regime
               = Some (if Rltb current (Entropy.low_entropy_threshold s)
                       then Entropy.trending
                       else if Rltb (Entropy.high_entropy_threshold s) current
                            then Entropy.chaotic
                            else Entropy.transitioning)
            /\ (0 < confidence <= 1)%R).
Proof.
  intros h s. apply (@regime_confidence_range s SPY (Deque 24 h)).
  - reflexivity.
  - simpl. lra.
  - simpl. lra.
Defined.

(** * The expected duration of a move *)

Module DurationFacts.
Import Py PyFacts Fractal.
Local Open Scope R_scope.

(** [int] on floats that are not negative: the floor *)
Lemma int_floor x : 0 <= x -> IZR (int x) <= x < IZR (int x) + 1.
Proof.
  intros Hx. unfold int. destruct (Rleb_spec 0 x) as [_|Hn]; [|lra].
  destruct (base_Int_part x). lra.
Qed.

Lemma int_mono x y : 0 <= x -> x <= y -> (int x <= int y)%Z.
Proof.
  intros Hx Hxy.
  destruct (int_floor Hx) as [Hlo _].
  destruct (@int_floor y) as [_ Hhi]; [lra|].
  assert (H : IZR (int x) < IZR (int y + 1)) by (rewrite plus_IZR; lra).
  apply lt_IZR in H. lia.
Qed.

Lemma int_below x (n : Z) : 0 <= x -> x < IZR n -> (int x < n)%Z.
Proof.
  intros Hx Hn. destruct (int_floor Hx) as [Hlo _].
  apply lt_IZR. lra.
Qed.

Lemma int_at_least x (n : Z) : IZR n <= x -> 0 <= x -> (n <= int x)%Z.
Proof.
  intros Hn Hx. destruct (int_floor Hx) as [_ Hhi].
  assert (H : IZR n < IZR (int x + 1)) by (rewrite plus_IZR; lra).
  apply lt_IZR in H. lia.
Qed.

End DurationFacts.

Import Py.

(** X5.  EstimateMoveDuration grows with the Hurst exponent ("higher
    persistence = longer expected moves"): on [0.01, 0.99] it is
    monotone, it returns 1 to 5 bars up to a Hurst exponent of 0.5 and 10
    to 29 bars above. *)
Theorem move_duration_monotone :
  forall h1 h2 : R,
    (0.01 <= h1)%R -> (h1 <= h2)%R -> (h2 <= 0.99)%R ->
    (Fractal.EstimateMoveDuration h1 <= Fractal.EstimateMoveDuration h2)%Z
    /\ ((h1 <= 0.5)%R -> (1 <= Fractal.EstimateMoveDuration h1 <= 5)%Z)
    /\ ((0.5 < h2)%R -> (10 <= Fractal.EstimateMoveDuration h2 <= 29)%Z).
Proof.
  intros h1 h2 H1 H12 H2. unfold Fractal.EstimateMoveDuration.
  assert (Hlow : forall h, (0.01 <= h <= 0.5)%R ->
            (1 <= int (5 * (1 - (0.5 - h) * 3 * 0.5)) <= 5)%Z).
  { intros h Hh. split.
    - apply DurationFacts.int_at_least; lra.
    - assert (int (5 * (1 - (0.5 - h) * 3 * 0.5)) < 6)%Z; [|lia].
      apply DurationFacts.int_below; lra. }
  assert (Hhigh : forall h, (0.5 < h <= 0.99)%R ->
            (10 <= int (10 * (1 + (h - 0.5) * 4)) <= 29)%Z).
  { intros h Hh. split.
    - apply DurationFacts.int_at_least; lra.
    - assert (int (10 * (1 + (h - 0.5) * 4)) < 30)%Z; [|lia].
      apply DurationFacts.int_below; lra. }
  destruct (PyFacts.Rltb_spec 0.5 h1) as [Ht1|Hm1];
    destruct (PyFacts.Rltb_spec 0.5 h2) as [Ht2|Hm2].
  - split; [apply DurationFacts.int_mono; lra|]. split; [intros; lra|].
    intros _. apply Hhigh. lra.
  - lra.
  - split.
    + assert (Hm : (0.01 <= h1 <= 0.5)%R) by lra. apply Hlow in Hm.
      assert (Ht : (0.5 < h2 <= 0.99)%R) by lra. apply Hhigh in Ht. lia.
    + split; [intros _; apply Hlow; lra|intros _; apply Hhigh; lra].
  - split; [apply DurationFacts.int_mono; lra|].
    split; [intros _; apply Hlow; lra|intros; lra].
Qed.

Lemma move_duration_monotone_witness :
  (Fractal.EstimateMoveDuration 0.3 <= Fractal.EstimateMoveDuration 0.7)%Z
  /\ ((0.3 <= 0.5)%R -> (1 <= Fractal.EstimateMoveDuration 0.3 <= 5)%Z)
  /\ ((0.5 < 0.7)%R -> (10 <= Fractal.EstimateMoveDuration 0.7 <= 29)%Z).
Proof.
  apply move_duration_monotone; lra.
Defined.

(** * The VPIN readings and the toxicity regime *)

Module ToxicityFacts.
Import Py PyFacts Run Hoare HoareFacts Engine VPIN VPINSpec.
Local Open Scope R_scope.

Lemma floats_readings l :
  Forall reading l -> exists xs, floats l = Some xs /\ Forall (fun x => 0 <= x <= 1) xs
                                 /\ length xs = length l.
Proof.
  induction 1 as [|o l (x & -> & Hx) _ (xs & Hxs & Hr & Hlen)]; cbn [floats].
  - exists []. repeat split. constructor.
  - rewrite Hxs. exists (x :: xs). split; [reflexivity|]. split; [now constructor|].
    simpl. now rewrite Hlen.
Qed.

Lemma readings_last (h : deque (option R)) :
  Forall reading (items h) -> (1 <= len h)%nat ->
  exists x, from_end 1 (items h) = Some (Some x) /\ 0 <= x <= 1.
Proof.
  intros Hr Hlen. unfold len in Hlen. unfold from_end.
  destruct (Nat.ltb_spec (length (items h)) 1) as [Hlt|_]; [lia|]. cbn [Nat.eqb orb].
  destruct (nth_error (items h) (length (items h) - 1)) as [o|] eqn:Ho.
  - apply nth_error_In in Ho. rewrite Forall_forall in Hr.
    destruct (Hr _ Ho) as (x & -> & Hx). now exists x.
  - apply nth_error_None in Ho. lia.
Qed.

(** DetectToxicityRegime raises no TypeError when the readings are numbers. *)
Lemma DetectToxicityRegime_numeric symbol s :
  (forall h, get (vpin_history s) symbol = Some h -> Forall reading (items h)) ->
  wp (DetectToxicityRegime symbol) (fun _ s' => s' = s)
     (fun e _ s' => s' = s /\ e <> TypeError) s.
Proof.
  intros Hread. unfold DetectToxicityRegime. wp_run; try reflexivity;
    try (split; [reflexivity|discriminate]).
  exfalso. specialize (Hread _ eq_refl).
  destruct (@floats_readings (last_items 10 (items d))) as (xs & Hxs & _);
    [now apply Forall_last_items|].
  congruence.
Qed.

Lemma OnHourlyData_numeric bar s :
  (forall symbol h, get (vpin_history s) symbol = Some h -> Forall reading (items h)) ->
  wp (OnHourlyData bar) (fun _ _ => True) (fun e _ _ => e <> TypeError) s.
Proof.
  intros Hread. unfold OnHourlyData. rewrite wp_bind, wp_gets.
  destruct (get (vpin_history s) (BarSymbol bar)) as [h|] eqn:Hh;
    [|now rewrite wp_ret].
  destruct (len h <? 20)%nat eqn:Hlen; [now rewrite wp_ret|].
  rewrite wp_bind.
  eapply wp_mono;
    [apply DetectToxicityRegime_numeric; intros h' Hh'; eapply Hread; eassumption| |];
    cbv beta; [|tauto].
  intros [[regime direction] confidence] s' ->.
  destruct (@readings_last h) as (x & Hx & _);
    [eapply Hread; eassumption|apply Nat.ltb_ge in Hlen; lia|].
  unfold EnterLong, MarketOrder. rewrite Hx.
  wp_run; try exact I; discriminate.
Qed.

End ToxicityFacts.

Import Py Run Engine.

(** X6.  In every state a run of the VPIN script reaches on well-formed
    bars, every entry of [vpin_history] is a number, never the None that
    CalculateVPIN may return; hence neither DetectToxicityRegime (the
    mean of line 210) nor OnHourlyData (the format of line 276) raises
    TypeError. *)
Theorem vpin_readings_numeric :
  forall (norm_cdf : R -> R) (s : VPIN.VPINToxicityDetector),
    (forall z, (0 <= norm_cdf z <= 1)%R) ->
    VPINRun.reachable norm_cdf VPINSpec.well_formed s ->
    (forall symbol h o,
        get (VPIN.vpin_history s) symbol = Some h -> In o (items h) ->
        exists vpin, o = Some vpin)
    /\ (forall symbol line,
           fst (VPIN.DetectToxicityRegime symbol s) <> Raise TypeError line)
    /\ (forall bar line,
           fst (VPIN.OnHourlyData bar s) <> Raise TypeError line).
Proof.
  intros norm_cdf s Hcdf Hreach.
  pose proof (VPINRuns.vpin_reachable_invariant Hcdf Hreach) as [_ (_ & _ & _ & Hread)].
  assert (Hr : forall symbol h,
             get (VPIN.vpin_history s) symbol = Some h ->
             Forall VPINSpec.reading (items h)).
  { intros symbol h Hg. apply (Hread symbol). now apply PyFacts.get_In. }
  split; [|split].
  - intros symbol h o Hg Ho. specialize (Hr _ _ Hg).
    rewrite Forall_forall in Hr. destruct (Hr _ Ho) as (vpin & -> & _).
    now exists vpin.
  - intros symbol line.
    pose proof (@ToxicityFacts.DetectToxicityRegime_numeric symbol s (Hr symbol)) as Hwp.
    unfold Hoare.wp in Hwp.
    destruct (VPIN.DetectToxicityRegime symbol s) as [[r|e l] s']; simpl;
      [discriminate|].
    destruct Hwp as [_ Hne]. intros E. apply Hne. now inversion E.
  - intros bar line.
    pose proof (@ToxicityFacts.OnHourlyData_numeric bar s Hr) as Hwp.
    unfold Hoare.wp in Hwp.
    destruct (VPIN.OnHourlyData bar s) as [[r|e l] s']; simpl; [discriminate|].
    intros E. apply Hwp. now inversion E.
Qed.

Lemma vpin_readings_numeric_witness :
  let s := Scenario.vpin_filled in
  (forall symbol h o,
      get (VPIN.vpin_history s) symbol = Some h -> In o (items h) ->
      exists vpin, o = Some vpin)
  /\ (forall symbol line,
         fst (VPIN.DetectToxicityRegime symbol s) <> Raise TypeError line)
  /\ (forall bar line,
         fst (VPIN.OnHourlyData bar s) <> Raise TypeError line).
Proof.
  intros s. apply (@vpin_readings_numeric Scenario.even_split).
  - intros z. unfold Scenario.even_split. lra.
  - exact vpin_filled_reachable.
Defined.

Module ReportFacts.
Import Py PyFacts Run Hoare HoareFacts Engine VPIN VPINSpec ToxicitySpec.
Local Open Scope R_scope.

Lemma from_end_some {A} k (l : list A) :
  (1 <= k <= length l)%nat -> exists x, from_end k l = Some x.
Proof.
  intros Hk. unfold from_end.
  destruct (Nat.eqb_spec k 0) as [->|_]; [lia|].
  destruct (Nat.ltb_spec (length l) k) as [Hlt|_]; [lia|]. cbn [orb].
  destruct (nth_error l (length l - k)) as [x|] eqn:Hx; [now exists x|].
  apply nth_error_None in Hx. lia.
Qed.

Lemma DetectToxicityRegime_report symbol s h ph :
  get (vpin_history s) symbol = Some h -> Forall reading (items h) ->
  get (price_history s) symbol = Some ph ->
  0.5 <= high_toxicity s -> 0 <= vpin_acceleration s ->
  wp (DetectToxicityRegime symbol)
     (fun r s' => s' = s /\ report (len h) (fst (fst r)) (snd (fst r)) (snd r))
     (fun _ _ _ => False) s.
Proof.
  intros Hh Hread Hph Hhigh Hacc. unfold DetectToxicityRegime.
  rewrite wp_bind, wp_gets, Hh, wp_bind, wp_check_Some.
  destruct (Nat.ltb_spec (len h) 10) as [Hshort|Hlong].
  - rewrite wp_ret. split; [reflexivity|]. cbn [fst snd].
    unfold report. repeat split; try lra; try tauto; try discriminate.
    intros [H|[H|H]]; discriminate.
  - destruct (@ToxicityFacts.floats_readings (last_items 10 (items h)))
      as (recent & Hrecent & Hrange & Hlen); [now apply Forall_last_items|].
    rewrite length_last_items in Hlen by (unfold len in Hlong; lia).
    destruct (@from_end_some _ 1 recent) as [current Hcur]; [lia|].
    assert (Hc : 0 <= current <= 1).
    { apply from_end_In in Hcur. rewrite Forall_forall in Hrange. now apply Hrange. }
    rewrite wp_bind, Hrecent, wp_check_Some, wp_bind, Hcur, wp_check_Some.
    cbv zeta. rewrite wp_bind, wp_gets, Hph, wp_bind, wp_check_Some, wp_bind.
    set (change := if (5 <? len h)%nat then _ else _).
    eapply wp_mono with (Q := fun _ s' => s' = s) (E := fun _ _ _ => False).
    + destruct (Nat.leb_spec 20 (len ph)) as [Hfull|_]; [|now rewrite wp_ret].
      destruct (@from_end_some _ 1 (items ph)) as [last Hlast];
        [unfold len in Hfull; lia|].
      destruct (@from_end_some _ 20 (items ph)) as [past Hpast];
        [unfold len in Hfull; lia|].
      now rewrite wp_bind, Hlast, wp_check_Some, wp_bind, Hpast, wp_check_Some, wp_ret.
    + cbv beta. intros momentum s' ->. wp_run; cbn [fst snd]; (split; [reflexivity|]).
      all: unfold report.
      all: repeat match goal with
                  | H : (_ <? _) = true |- _ => apply Rltb_true in H
                  | H : (_ <? _) = false |- _ => apply Rltb_false in H
                  end.
      all: assert (Hn : ~ (len h < 10)%nat) by lia.
      all: repeat split; try discriminate; try tauto; try congruence;
        try (intros [H|[H|H]]; discriminate);
        try (apply Rmin_l);
        try (apply Rmin_glb; lra);
        try (apply Rmin_glb_lt; lra);
        try lra.
      * intros _. apply Rmin_glb_lt; lra.
      * destruct (0 <? momentum); discriminate.
      * intros _. apply Rmin_glb_lt; lra.
      * intros _. apply Rmin_glb_lt; [lra|].
        apply Rdiv_lt_0_compat; lra.
    + tauto.
Qed.

End ReportFacts.

Import Py Run Engine.

(** X7.  DetectToxicityRegime on a symbol whose readings are numbers
    returns and leaves the object as it was.  The confidence lies in
    [0, 1]; the regime is None exactly with fewer than ten readings; a
    direction comes with a positive confidence, RISING in the normal
    regime only and LONG, SHORT and PENDING in the toxic regime only; no
    direction comes with confidence 0.  (high_toxicity is at least 0.5
    and vpin_acceleration is not negative, as Initialize sets them.) *)
Theorem toxicity_report :
  forall (s : VPIN.VPINToxicityDetector) (symbol : Symbol)
         (h : deque (option R)) (ph : deque R),
    get (VPIN.vpin_history s) symbol = Some h ->
    Forall VPINSpec.reading (items h) ->
    get (VPIN.price_history s) symbol = Some ph ->
    (0.5 <= VPIN.high_toxicity s)%R -> (0 <= VPIN.vpin_acceleration s)%R ->
    exists regime direction confidence,
      VPIN.DetectToxicityRegime symbol s = (Ok (regime, direction, confidence), s)
      /\ ToxicitySpec.report (len h) regime direction confidence.
Proof.
  intros s symbol h ph Hh Hread Hph Hhigh Hacc.
  pose proof (@ReportFacts.DetectToxicityRegime_report symbol s h ph Hh Hread Hph Hhigh Hacc) as Hwp.
  unfold Hoare.wp in Hwp.
  destruct (VPIN.DetectToxicityRegime symbol s) as [[[[r d] c]|e line] s'];
    [|contradiction].
  destruct Hwp as [-> Hrep]. now exists r, d, c.
Qed.

Lemma toxicity_report_witness :
  let readings := repeat (Some 0.7%R) 10 in
  let s :=
    VPIN.with_vpin_history [(SPY, Deque 100 readings)]
      (VPIN.Initialize Scenario.no_holdings) in
  exists regime direction confidence,
    VPIN.DetectToxicityRegime SPY s = (Ok (regime, direction, confidence), s)
    /\ ToxicitySpec.report 10 regime direction confidence.
Proof.
  intros readings s.
  apply (@toxicity_report s SPY (Deque 100 readings) (Deque 100 [])).
  - reflexivity.
  - subst readings. simpl. repeat constructor; exists 0.7%R; split; (reflexivity || lra).
  - reflexivity.
  - simpl. lra.
  - simpl. lra.
Defined.

(** * Hourly signals of the VPIN script *)

Module HourlyFacts.
Import Py PyFacts Run Hoare HoareFacts Engine VPIN Hourly.
Local Open Scope R_scope.

Lemma DetectToxicityRegime_reads symbol s :
  wp (DetectToxicityRegime symbol) (fun _ s' => s' = s) (fun _ _ s' => s' = s) s.
Proof. unfold DetectToxicityRegime. wp_run; reflexivity. Qed.

Lemma OnHourlyData_gated bar s :
  (0 < Quantity (base s) (BarSymbol bar))%Z \/ rate_limited s (BarSymbol bar) ->
  wp (OnHourlyData bar) (fun _ => untouched s) (fun _ _ => untouched s) s.
Proof.
  intros Hgate. unfold OnHourlyData. rewrite wp_bind, wp_gets.
  destruct (get (vpin_history s) (BarSymbol bar)) as [h|];
    [|rewrite wp_ret; repeat split].
  destruct (len h <? 20)%nat; [rewrite wp_ret; repeat split|].
  rewrite wp_bind.
  eapply wp_mono; [apply DetectToxicityRegime_reads| |]; cbv beta;
    [|intros _ _ s' ->; repeat split].
  intros [[regime direction] confidence] s' ->.
  wp_run; try (repeat split; fail).
  exfalso. cbn [last_signal_time base with_toxicity_direction with_toxicity_state] in *.
  apply andb_true_iff in Heqb0 as [_ Hflat]. apply Z.leb_le in Hflat.
  destruct Hgate as [Hlong|(t' & Ht & Hrecent)]; [lia|].
  rewrite Ht in Heqb. apply Rltb_false in Heqb. lra.
Qed.

Lemma bought_only_refl symbol q : bought_only symbol q q.
Proof. split; [lia|reflexivity]. Qed.

Lemma OnHourlyData_buys bar s :
  wp (OnHourlyData bar)
     (fun _ s' => bought_only (BarSymbol bar) (base s) (base s'))
     (fun _ _ s' => bought_only (BarSymbol bar) (base s) (base s')) s.
Proof.
  unfold OnHourlyData. rewrite wp_bind, wp_gets.
  destruct (get (vpin_history s) (BarSymbol bar)) as [h|];
    [|rewrite wp_ret; apply bought_only_refl].
  destruct (len h <? 20)%nat; [rewrite wp_ret; apply bought_only_refl|].
  rewrite wp_bind.
  eapply wp_mono; [apply DetectToxicityRegime_reads| |]; cbv beta;
    [|intros _ _ s' ->; apply bought_only_refl].
  intros [[regime direction] confidence] s' ->.
  unfold EnterLong, MarketOrder.
  wp_run; try apply bought_only_refl.
  all: cbn [base with_base with_toxicity_direction with_toxicity_state
            with_entry_prices with_entry_vpin with_stop_losses
            with_last_signal_time Quantity fill max_position] in *.
  all: try apply bought_only_refl.
  all: match goal with H : (0 <? _)%Z = true |- _ => apply Z.ltb_lt in H end.
  all: unfold bought_only; cbn [Quantity fill]; split;
    [destruct (eq_dec (BarSymbol bar) (BarSymbol bar)); [lia|congruence]
    |intros other Hne; destruct (eq_dec other (BarSymbol bar)); congruence].
Qed.

End HourlyFacts.

Import Py Run Engine.

(** X8.  What an hourly bar can do to the portfolio.  OnHourlyData trades
    the symbol of the bar only, and only buys.  While the symbol is held
    long, or within an hour of its last signal, it places no order at
    all: the engine side of the object, the entries and the signal times
    stay as they were (only the toxicity state may change). *)
Theorem hourly_signal_gated :
  forall (bar : TradeBar) (s : VPIN.VPINToxicityDetector),
    Hourly.bought_only (BarSymbol bar) (VPIN.base s)
      (VPIN.base (snd (VPIN.OnHourlyData bar s)))
    /\ ((0 < Quantity (VPIN.base s) (BarSymbol bar))%Z
        \/ Hourly.rate_limited s (BarSymbol bar) ->
        Hourly.untouched s (snd (VPIN.OnHourlyData bar s))).
Proof.
  intros bar s. split.
  - pose proof (HourlyFacts.OnHourlyData_buys bar s) as Hwp. unfold Hoare.wp in Hwp.
    destruct (VPIN.OnHourlyData bar s) as [[[]|e line] s']; exact Hwp.
  - intros Hgate.
    pose proof (@HourlyFacts.OnHourlyData_gated bar s Hgate) as Hwp. unfold Hoare.wp in Hwp.
    destruct (VPIN.OnHourlyData bar s) as [[[]|e line] s']; exact Hwp.
Qed.

Lemma hourly_signal_gated_witness :
  let held := Build_QCAlgorithm false 0 (fun _ => 7%Z) (fun _ => 100%R) 100000 in
  let s := VPIN.Initialize held in
  let bar := {| BarSymbol := SPY; Close := 100%R; Volume := 1000%R |} in
  Hourly.untouched s (snd (VPIN.OnHourlyData bar s)).
Proof.
  intros held s bar. apply (hourly_signal_gated bar s).
  left. simpl. lia.
Defined.

(** * Order sizes *)

Module SizingFacts.
Import Py PyFacts Run Hoare HoareFacts Engine Sizing.
Local Open Scope R_scope.

(** the shares that a budget buys *)
Lemma int_within budget price :
  0 < price -> 0 <= budget -> within budget price (int (budget / price)).
Proof.
  intros Hp Hb.
  assert (Hq : 0 <= budget / price).
  { apply Rmult_le_pos; [exact Hb|]. left. now apply Rinv_0_lt_compat. }
  destruct (DurationFacts.int_floor Hq) as [Hlo _]. split.
  - apply DurationFacts.int_at_least; [simpl; exact Hq|exact Hq].
  - apply (Rmult_le_compat_r price) in Hlo; [|lra].
    unfold Rdiv in Hlo. rewrite Rmult_assoc, Rinv_l, Rmult_1_r in Hlo by lra.
    exact Hlo.
Qed.

End SizingFacts.

(** * The stops of the VPIN script *)

Module StopFacts.
Import Py PyFacts Run Hoare HoareFacts Engine VPIN Stops.
Local Open Scope R_scope.

Lemma ratcheted_refl d : ratcheted d d.
Proof. intros symbol stop Hg. exists stop. split; [assumption|lra]. Qed.

Lemma ratcheted_del d d' symbol : ratcheted d d' -> ratcheted d (del d' symbol).
Proof.
  intros Hr x stop' Hg. destruct (eq_dec symbol x) as [<-|Hne].
  - rewrite get_del_eq in Hg. discriminate.
  - rewrite get_del_ne in Hg by assumption. now apply Hr.
Qed.

Lemma ratcheted_raise d d' symbol stop new_stop :
  ratcheted d d' -> get d' symbol = Some stop -> stop <= new_stop ->
  ratcheted d (set d' symbol new_stop).
Proof.
  intros Hr Hstop Hle x stop' Hg. destruct (eq_dec symbol x) as [<-|Hne].
  - rewrite get_set_eq in Hg. injection Hg as <-.
    destruct (Hr _ _ Hstop) as (stop0 & H0 & Hle0). exists stop0. split; [assumption|lra].
  - rewrite get_set_ne in Hg by assumption. now apply Hr.
Qed.

Lemma ManagePositions_ratchets data s :
  wp (ManagePositions data)
     (fun _ s' => ratcheted (stop_losses s) (stop_losses s'))
     (fun _ _ s' => ratcheted (stop_losses s) (stop_losses s')) s.
Proof.
  unfold ManagePositions. wp_run.
  apply wp_for_each
    with (I := fun s' => ratcheted (stop_losses s) (stop_losses s'));
    [apply ratcheted_refl|].
  intros symbol s' _ Hs'. unfold Liquidate, CleanupPosition.
  wp_run; try assumption.
  all: cbn [stop_losses with_stop_losses with_entry_prices with_entry_vpin with_base].
  all: try (now apply ratcheted_del).
  eapply ratcheted_raise; [eassumption|eassumption|].
  match goal with H : (_ <? _) = true |- _ => apply Rltb_true in H; lra end.
Qed.

End StopFacts.

Import Py Run Engine.

(** X10.  ManagePositions of the VPIN script never lowers a stop and
    never adds one: a stop found in [stop_losses] after the call was there
    before, and was not higher then (stops are raised by the trailing
    rule of lines 367-370, or deleted with the position), whether the
    method returns or raises. *)
Theorem vpin_stops_ratchet :
  forall (data : Slice) (s : VPIN.VPINToxicityDetector)
         (symbol : Symbol) (stop' : R),
    get (VPIN.stop_losses (snd (VPIN.ManagePositions data s))) symbol = Some stop' ->
    exists stop,
      get (VPIN.stop_losses s) symbol = Some stop /\ (stop <= stop')%R.
Proof.
  intros data s symbol stop'.
  pose proof (StopFacts.ManagePositions_ratchets data s) as Hwp.
  unfold Hoare.wp in Hwp.
  destruct (VPIN.ManagePositions data s) as [[[]|e line] s']; apply Hwp.
Qed.

Lemma vpin_stops_ratchet_witness :
  exists stop,
    get (VPIN.stop_losses Scenario.vpin_stale) SPY = Some stop /\ (stop <= 98)%R.
Proof.
  apply (@vpin_stops_ratchet (Build_Slice []) Scenario.vpin_stale SPY 98).
  reflexivity.
Defined.

(** * The bucket loop runs to completion *)

Module BucketFacts.
Import Py PyFacts Run Hoare HoareFacts Engine VPIN Buckets.
Local Open Scope R_scope.

Ltac keys :=
  unfold keyed in *; cbn [current_bucket bucket_history vpin_history
    with_bucket_history with_vpin_history with_current_bucket with_price_history
    with_base with_entry_prices with_entry_vpin with_stop_losses
    with_toxicity_state with_toxicity_direction with_last_signal_time] in *;
  intros;
  repeat rewrite PositionsFacts.contains_set in *;
  repeat match goal with
         | |- context [eq_dec ?a ?b] => destruct (eq_dec a b); subst
         | H : context [eq_dec ?a ?b] |- _ => destruct (eq_dec a b); subst
         end;
  auto.

Lemma complete_buckets_settles fuel symbol :
  forall bucket s,
    drained_but (Some symbol) s ->
    get (current_bucket s) symbol = Some bucket ->
    Bucket.volume bucket / bucket_size s < INR fuel ->
    wp (complete_buckets fuel symbol bucket)
       (fun _ => drained) (fun _ _ _ => False) s.
Proof.
  assert (Hdone : forall bucket s,
            drained_but (Some symbol) s ->
            get (current_bucket s) symbol = Some bucket ->
            Bucket.volume bucket < bucket_size s -> drained s).
  { intros bucket s (Hsize & Hkeys & Hrest) Hg Hlt.
    split; [exact Hsize|]. split; [exact Hkeys|].
    intros x b _ Hb. destruct (eq_dec x symbol) as [->|Hne].
    - rewrite Hg in Hb. injection Hb as <-. exact Hlt.
    - apply (Hrest x b); [congruence|exact Hb]. }
  induction fuel as [|fuel IH]; intros bucket s Hs Hg Hfuel.
  - cbn [complete_buckets]. rewrite wp_ret. apply (Hdone bucket s Hs Hg).
    destruct Hs as (Hsize & _). simpl in Hfuel.
    apply (Rmult_lt_compat_r (bucket_size s)) in Hfuel; [|assumption].
    unfold Rdiv in Hfuel. rewrite Rmult_assoc, Rinv_l in Hfuel by lra. lra.
  - cbn [complete_buckets]. rewrite wp_bind, wp_gets.
    destruct (Rleb_spec (bucket_size s) (Bucket.volume bucket)) as [Hfull|Hlt];
      [|rewrite wp_ret; apply (Hdone bucket s Hs Hg); lra].
    pose proof Hs as (Hsize & Hkeys & Hrest).
    cbv zeta. set (c := Completed.Build_t _ _ _).
    set (carry := Bucket.Build_t _ _ _).
    assert (Hcarry : Bucket.volume carry / bucket_size s < INR fuel).
    { subst carry. cbn [Bucket.volume]. rewrite S_INR in Hfuel.
      unfold Rdiv in *. rewrite Rmult_minus_distr_r, Rinv_r by lra. lra. }
    clearbody c carry.
    destruct (Hkeys symbol) as [Hkh Hkv];
      [unfold contains; now rewrite Hg|].
    unfold contains in Hkh, Hkv.
    destruct (get (bucket_history s) symbol) as [history|] eqn:Hgh; [|discriminate].
    destruct (get (vpin_history s) symbol) as [v|] eqn:Hgv; [|discriminate].
    assert (Hnext : forall s1,
               bucket_size s1 = bucket_size s ->
               (forall x, contains (current_bucket s1) x
                          = if eq_dec x symbol then true else contains (current_bucket s) x) ->
               (forall x b, x <> symbol -> get (current_bucket s1) x = Some b ->
                  get (current_bucket s) x = Some b) ->
               get (current_bucket s1) symbol = Some carry ->
               (forall x, contains (bucket_history s) x = true ->
                          contains (bucket_history s1) x = true) ->
               (forall x, contains (vpin_history s) x = true ->
                          contains (vpin_history s1) x = true) ->
               wp (complete_buckets fuel symbol carry)
                  (fun _ => drained) (fun _ _ _ => False) s1).
    { intros s1 Hb1 Hc1 Hg1 Hcarry1 Hh1 Hv1. apply IH.
      - split; [now rewrite Hb1|]. split.
        + intros x Hx. rewrite Hc1 in Hx.
          destruct (eq_dec x symbol) as [->|Hne].
          * split; [apply Hh1|apply Hv1]; unfold contains;
              [now rewrite Hgh|now rewrite Hgv].
          * destruct (Hkeys x Hx). split; [now apply Hh1|now apply Hv1].
        + intros x b Hne Hb. rewrite Hb1. apply (Hrest x b); [assumption|].
          apply Hg1; [congruence|assumption].
      - exact Hcarry1.
      - now rewrite Hb1. }
    rewrite wp_bind, wp_gets, Hgh, wp_bind, wp_check_Some.
    rewrite wp_bind, wp_modify, wp_bind, wp_gets. cbv beta.
    unfold CalculateVPIN. wp_run;
      cbn [current_bucket bucket_history vpin_history bucket_size n_buckets
           with_bucket_history with_vpin_history with_current_bucket] in *;
      try (rewrite get_set_eq in *; discriminate); try congruence.
    all: apply Hnext;
      cbn [current_bucket bucket_history vpin_history bucket_size
           with_bucket_history with_vpin_history with_current_bucket];
      try reflexivity.
    all: try (intros x; apply PositionsFacts.contains_set).
    all: try (intros x b Hne; rewrite get_set_ne by congruence; tauto).
    all: try apply get_set_eq.
    all: try (intros x Hx; rewrite PositionsFacts.contains_set;
              destruct (eq_dec x symbol); [reflexivity|exact Hx]).
    all: try (intros x Hx; exact Hx).
Qed.

Ltac settled :=
  solve [assumption
        | unfold drained, drained_but, keyed in *;
          cbn [current_bucket bucket_history vpin_history bucket_size
               with_bucket_history with_vpin_history with_current_bucket
               with_price_history with_base with_entry_prices with_entry_vpin
               with_stop_losses with_toxicity_state with_toxicity_direction
               with_last_signal_time] in *; tauto].

Section BulkVolumeClassification.
Variable norm_cdf : R -> R.

Lemma ProcessBarForVPIN_settles symbol bar :
  preserves drained (ProcessBarForVPIN norm_cdf symbol bar).
Proof.
  intros s Hs. unfold ProcessBarForVPIN. wp_run; try settled.
  match goal with
  | |- wp (complete_buckets _ _ ?b) _ _ ?s1 =>
      eapply wp_mono with (Q := fun _ => drained) (E := fun _ _ _ => False);
        [apply complete_buckets_settles| |]
  end.
  - destruct Hs as (Hsize & Hkeys & Hrest).
    split; [exact Hsize|]. split.
    + intros x Hx. cbn [current_bucket bucket_history vpin_history
                        with_current_bucket] in *.
      rewrite PositionsFacts.contains_set in Hx.
      destruct (eq_dec x symbol) as [->|Hne]; [|now apply Hkeys].
      apply Hkeys. unfold contains.
      match goal with H : get (current_bucket s) symbol = Some _ |- _ => now rewrite H end.
    + intros x b Hne Hb. cbn [current_bucket with_current_bucket bucket_size] in *.
      rewrite get_set_ne in Hb by congruence. apply (Hrest x b); [discriminate|exact Hb].
  - cbn [current_bucket with_current_bucket]. apply get_set_eq.
  - cbn [bucket_size with_current_bucket]. apply VPINFuel.INR_to_nat_up.
  - auto.
  - intros _ _ _ [].
Qed.

Lemma OnData_settles data : preserves drained (OnData norm_cdf data).
Proof.
  intros s Hs. unfold OnData. wp_run; [settled|].
  eapply wp_mono with (Q := fun _ => drained) (E := fun _ _ => drained).
  - apply wp_for_each; [assumption|].
    clear. intros symbol s _ Hs. wp_run; try settled.
    eapply wp_call; [apply ProcessBarForVPIN_settles|assumption| |auto].
    intros [] s' Hs'. wp_run; settled.
  - intros [] s' Hs'. unfold ManagePositions, Liquidate, CleanupPosition. wp_run.
    apply wp_for_each; [assumption|].
    clear. intros symbol s _ Hs. wp_run; settled.
  - auto.
Qed.

Lemma OnHourlyData_settles bar : preserves drained (OnHourlyData bar).
Proof.
  intros s Hs. unfold OnHourlyData, DetectToxicityRegime, EnterLong, MarketOrder.
  wp_run; settled.
Qed.

Lemma Initialize_drained q : drained (Initialize q).
Proof.
  split; [simpl; lra|]. split.
  - intros x Hx. destruct x; cbn in *; auto; discriminate.
  - intros x b _ Hb. destruct x; cbn in Hb; try discriminate;
      injection Hb as <-; simpl; lra.
Qed.

Lemma reachable_drained feed s : VPINRun.reachable norm_cdf feed s -> drained s.
Proof.
  induction 1.
  - apply Initialize_drained.
  - settled.
  - now apply preserves_snd; [apply OnData_settles|].
  - now apply preserves_snd; [apply OnHourlyData_settles|].
Qed.

End BulkVolumeClassification.

End BucketFacts.

(** * Exceptions of the entropy script *)

Module EntropyFaultFacts.
Import Py PyFacts Run Hoare HoareFacts Engine Entropy EntropyFaults.
Local Open Scope R_scope.

Lemma from_end_None {A} k (l : list A) :
  from_end k l = None -> (k = 0 \/ length l < k)%nat.
Proof.
  unfold from_end.
  destruct (Nat.eqb_spec k 0) as [->|Hk]; [now left|].
  destruct (Nat.ltb_spec (length l) k) as [Hlt|Hge]; [now right|].
  simpl. intros Hn. apply nth_error_None in Hn. lia.
Qed.

(** an index that the guards of the script put in range *)
Ltac in_range :=
  match goal with
  | H : from_end _ _ = None |- _ =>
      apply from_end_None in H; unfold len in *;
      repeat match goal with
             | G : (_ <? _)%nat = false |- _ => apply Nat.ltb_ge in G
             | G : (_ <=? _)%nat = true |- _ => apply Nat.leb_le in G
             end;
      lia
  end.

(** a key that [wired] puts in the dictionary *)
Ltac present :=
  unfold wired in *;
  repeat match goal with H : _ /\ _ |- _ => destruct H end;
  try match goal with
      | H : get (set _ ?k _) ?k = None |- _ =>
          rewrite get_set_eq in H; discriminate
      end;
  try match goal with
      | Hin : In ?x _, H : forall symbol, In symbol _ -> _ |- _ =>
          destruct (H x Hin) as (? & ? & ?); clear H
      end;
  try match goal with
      | H : forall symbol : Symbol, contains _ symbol = contains _ symbol,
        G : get (stop_losses _) ?x = None |- _ =>
          pose proof (H x); clear H
      | H : forall symbol : Symbol, contains _ symbol = contains _ symbol,
        G : contains (stop_losses _) ?x = false |- _ =>
          pose proof (H x); clear H
      end;
  simpl in *;
  try match goal with
      | H : get (set _ ?k _) ?k = None |- _ =>
          rewrite get_set_eq in H; discriminate
      end;
  repeat match goal with
         | H : negb _ = false |- _ => apply negb_false_iff in H
         | H : negb _ = true |- _ => apply negb_true_iff in H
         end;
  first [ congruence
        | unfold contains in *;
          repeat match goal with
                 | H : get ?d ?k = _, H' : context [get ?d ?k] |- _ =>
                     rewrite H in H'
                 end;
          discriminate ].

(** [wired] after an update of the dictionaries *)
Ltac rewired :=
  unfold wired in *;
  repeat match goal with H : _ /\ _ |- _ => destruct H end;
  repeat match goal with
         | H : negb _ = false |- _ => apply negb_false_iff in H
         | H : negb _ = true |- _ => apply negb_true_iff in H
         end;
  split;
  [ let x := fresh "x" in
    let Hx := fresh "Hx" in
    intros x Hx;
    match goal with
    | H : forall symbol, In symbol _ -> _ |- _ =>
        destruct (H x Hx) as (? & ? & ?)
    end;
    simpl;
    rewrite ?PositionsFacts.contains_set;
    repeat match goal with
           | |- context [eq_dec x ?k] => destruct (eq_dec x k)
           end;
    auto
  | let x := fresh "x" in
    intros x;
    match goal with
    | H : forall symbol : Symbol, contains _ symbol = contains _ symbol |- _ =>
        pose proof (H x)
    end;
    simpl;
    rewrite ?PositionsFacts.contains_set, ?PositionsFacts.contains_del;
    repeat match goal with
           | |- context [eq_dec x ?k] => destruct (eq_dec x k); subst
           end;
    congruence ].

Ltac settle := first [ assumption | in_range | present | rewired ].

Lemma Initialize_wired q : wired (Initialize q).
Proof.
  split.
  - intros x [<-|[<-|[<-|[]]]]; repeat split; reflexivity.
  - reflexivity.
Qed.

Lemma ManagePositions_wired data s :
  wired s ->
  wp (ManagePositions data) (fun _ => wired) (fun _ _ _ => False) s.
Proof.
  intros Hs. unfold ManagePositions. apply wp_for_each; [assumption|].
  clear s Hs. intros symbol s Hin Hs.
  unfold MarketOrder, Liquidate.
  wp_run; settle.
Qed.

Lemma OnData_wired data s :
  wired s -> wp (OnData data) (fun _ => wired) (fun _ _ _ => False) s.
Proof.
  intros Hs. unfold OnData. wp_run; [assumption|].
  eapply wp_mono with (Q := fun _ => wired) (E := fun _ _ _ => False);
    [|intros [] s' Hs'; apply ManagePositions_wired, Hs'|auto].
  apply wp_for_each; [assumption|].
  clear. intros symbol s Hin Hs. wp_run; settle.
Qed.

Lemma ExecuteSignals_wired signals s :
  wired s ->
  wp (ExecuteSignals signals) (fun _ => wired)
     (fun e line s' => wired s' /\ division e line) s.
Proof.
  intros Hs. unfold ExecuteSignals. apply wp_for_each; [assumption|].
  clear s Hs. intros [symbol [action confidence]] s _ Hs.
  unfold MarketOrder, Liquidate.
  wp_run; try settle.
  split; [assumption|]. right. now split.
Qed.

Lemma AnalyzeRegimes_wired s :
  wired s ->
  wp AnalyzeRegimes (fun _ => wired)
     (fun e line s' => wired s' /\ division e line) s.
Proof.
  intros Hs. unfold AnalyzeRegimes. rewrite wp_bind.
  eapply wp_mono with (Q := fun _ => wired)
                      (E := fun e line s' => wired s' /\ division e line);
    [|intros signals s' Hs'; apply ExecuteSignals_wired, Hs'|auto].
  apply wp_for_fold with (I := fun _ => wired); [assumption|].
  clear. intros signals symbol s Hin Hs.
  unfold CalculatePermutationEntropy, DetectRegimeChange.
  wp_run; try settle.
  all: try (split; [settle|left; now split]).
Qed.

Lemma reachable_wired s : EntropyRun.reachable s -> wired s.
Proof.
  induction 1 as [q|s q _ IH|s data _ IH|s _ IH].
  - apply Initialize_wired.
  - exact IH.
  - pose proof (OnData_wired data IH) as H. unfold wp in H.
    destruct (OnData data s) as [[a|e line] s']; [exact H|contradiction].
  - pose proof (AnalyzeRegimes_wired IH) as H. unfold wp in H.
    destruct (AnalyzeRegimes s) as [[a|e line] s']; [exact H|apply H].
Qed.

End EntropyFaultFacts.

Import Py Run Engine.

(** X12.  The exceptions of the entropy script.  In every state the
    script reaches, OnData returns: no lookup of ManagePositions or of
    the price buffers fails.  AnalyzeRegimes returns or raises at one of
    its two divisions, the momentum of line 206 over a price of 0 twenty
    bars back and the share count of line 247 at a price of 0; no
    KeyError and no IndexError is ever raised. *)
Theorem entropy_raises_only_division :
  forall s, EntropyRun.reachable s ->
    (forall data, fst (Entropy.OnData data s) = Ok tt)
    /\ (forall e line,
          fst (Entropy.AnalyzeRegimes s) = Raise e line ->
          EntropyFaults.division e line).
Proof.
  intros s Hs. apply EntropyFaultFacts.reachable_wired in Hs. split.
  - intros data. pose proof (EntropyFaultFacts.OnData_wired data Hs) as H.
    unfold Hoare.wp in H.
    destruct (Entropy.OnData data s) as [[[]|e line] s'];
      [reflexivity|contradiction].
  - intros e line Hr.
    pose proof (EntropyFaultFacts.AnalyzeRegimes_wired Hs) as H.
    unfold Hoare.wp in H.
    destruct (Entropy.AnalyzeRegimes s) as [[a|e' line'] s'];
      simpl in Hr; [discriminate|].
    injection Hr as <- <-. apply H.
Qed.

Lemma entropy_raises_only_division_witness :
  let s := Scenario.entropy_bought in
  EntropyRun.reachable s
  /\ (forall data, fst (Entropy.OnData data s) = Ok tt)
  /\ (forall e line,
        fst (Entropy.AnalyzeRegimes s) = Raise e line ->
        EntropyFaults.division e line).
Proof.
  intros s. split; [apply EntropyScenario.entropy_bought_reachable|].
  apply (@entropy_raises_only_division s).
  apply EntropyScenario.entropy_bought_reachable.
Defined.

(** * Exceptions of the fractal script *)

Module FractalFaultFacts.
Import Py PyFacts Run Hoare HoareFacts Engine Fractal FractalSpec FractalFaults.
Import EntropyFaultFacts.
Local Open Scope R_scope.

(** a [for] loop with an invariant that knows the items still to come *)
Lemma wp_for_each_rest {S X} (I : list X -> S -> Prop) (body : X -> M S unit)
    (E : Exn -> nat -> S -> Prop) (l : list X) :
  forall s,
    I l s ->
    (forall x rest s, I (x :: rest) s -> wp (body x) (fun _ => I rest) E s) ->
    wp (for_each l body) (fun _ => I []) E s.
Proof.
  induction l as [|x l IH]; intros s Hs Hbody; cbn [for_each].
  - rewrite wp_ret. exact Hs.
  - rewrite wp_bind. eapply wp_mono; [apply (Hbody x l s Hs)| |auto].
    cbv beta. intros [] s' Hs'. now apply IH.
Qed.

Lemma NoDup_keys_del {V} (d : dict Symbol V) k :
  NoDup (keys d) -> NoDup (keys (del d k)).
Proof. intros Hd. rewrite keys_del. now apply NoDup_filter. Qed.

Lemma last_items_length {A} k (l : list A) :
  (k <> 0)%nat -> (k <= length l)%nat -> length (last_items k l) = k.
Proof.
  intros Hk Hl. unfold last_items.
  destruct (Nat.eqb_spec k 0); [contradiction|].
  rewrite length_skipn. lia.
Qed.

(** what the invariant says of the symbol [x] *)
Ltac known x :=
  repeat match goal with
         | H : forall symbol, In symbol ?l -> _ |- _ =>
             let Hx := fresh in
             assert (Hx : In x l) by (simpl in *; intuition auto);
             let F := fresh in
             pose proof (H x Hx) as F; clear Hx H
         | H : forall symbol : Symbol, _ = _ /\ _ = _ |- _ =>
             let F := fresh in pose proof (H x) as F; clear H
         | H : forall symbol, In symbol _ -> _ |- _ => clear H
         end;
  repeat match goal with H : _ /\ _ |- _ => destruct H end.

Ltac lookups :=
  simpl in *;
  repeat match goal with
         | H : get (set _ ?k _) ?k = None |- _ =>
             rewrite get_set_eq in H; discriminate
         | H : get ?d ?k = None |- _ =>
             lazymatch goal with
             | _ : contains d k = false |- _ => fail
             | _ => assert (contains d k = false)
                      by (unfold contains; rewrite H; reflexivity)
             end
         | H : get ?d ?k = Some _ |- _ =>
             lazymatch goal with
             | _ : contains d k = true |- _ => fail
             | _ => assert (contains d k = true)
                      by (unfold contains; rewrite H; reflexivity)
             end
         end.

(** a lookup of the symbol [x] that cannot fail *)
Ltac found x :=
  exfalso; unfold pending, linked in *;
  repeat match goal with H : _ /\ _ |- _ => destruct H end;
  known x; lookups; congruence.

(** [linked] after an update at the symbol [k] *)
Ltac relinked :=
  unfold pending, linked in *;
  repeat match goal with H : _ /\ _ |- _ => destruct H end;
  repeat match goal with |- _ /\ _ => split end;
  lazymatch goal with
  | |- NoDup (keys _) =>
      simpl; repeat (apply NoDup_keys_set || apply NoDup_keys_del); assumption
  | |- forall symbol, In symbol _ -> _ =>
      let x := fresh "x" in
      let Hx := fresh "Hx" in
      intros x Hx; known x; lookups;
      rewrite ?PositionsFacts.contains_set;
      repeat match goal with
             | |- context [eq_dec x ?k] => destruct (eq_dec x k)
             end;
      repeat match goal with |- _ /\ _ => split end; congruence
  | |- forall symbol : Symbol, _ = _ /\ _ = _ =>
      let x := fresh "x" in
      intros x;
      repeat match goal with
             | H : forall symbol : Symbol, _ = _ /\ _ = _ |- _ =>
                 pose proof (H x); clear H
             | H : forall symbol, In symbol _ -> contains _ symbol = true,
               Hin : In ?k _ |- _ =>
                 pose proof (H k Hin); clear H
             end;
      repeat match goal with H : _ /\ _ |- _ => destruct H end;
      lookups;
      rewrite ?PositionsFacts.contains_set, ?PositionsFacts.contains_del;
      repeat match goal with
             | |- context [eq_dec x ?k] => destruct (eq_dec x k); subst
             end;
      split; congruence
  | |- _ = _ => simpl; assumption
  end.

(** the state at a raise *)
Ltac faulty :=
  split; [first [assumption|solve [relinked]]|unfold division; auto 6].

(** [pending] after the visit of the first symbol *)
Ltac repending :=
  split; [solve [relinked]|];
  unfold pending in *;
  repeat match goal with H : _ /\ _ |- _ => destruct H end;
  match goal with
  | H : NoDup (_ :: _) |- _ => inversion H; subst
  end;
  split; [assumption|];
  let y := fresh "y" in
  let Hy := fresh "Hy" in
  intros y Hy; simpl;
  rewrite ?PositionsFacts.contains_set, ?PositionsFacts.contains_del;
  repeat match goal with
         | |- context [eq_dec y ?k] => destruct (eq_dec y k); subst
         end;
  first [ contradiction | reflexivity
        | match goal with
          | H : forall symbol, In symbol (_ :: _) -> _ |- _ =>
              apply H; now right
          end ].

Lemma CalculateHurstExponent_returns prices s :
  min_lag s = 2%nat ->
  wp (CalculateHurstExponent prices) (fun _ s' => s' = s) (fun _ _ _ => False) s.
Proof.
  intros Hmin. unfold CalculateHurstExponent. wp_run; try reflexivity.
  eapply wp_mono with (Q := fun _ s' => s' = s) (E := fun _ _ _ => False);
    [| |auto].
  - apply wp_for_fold with (I := fun _ s' => s' = s); [reflexivity|].
    intros rs lag s' Hin ->. wp_run; try reflexivity.
    apply in_seq in Hin.
    match goal with H : (lag =? 0)%nat = true |- _ => apply Nat.eqb_eq in H end.
    lia.
  - intros rs s' ->. wp_run; reflexivity.
Qed.

Lemma UpdateBreakoutLevels_linked s :
  linked s -> wp UpdateBreakoutLevels (fun _ => linked) (fun _ _ _ => False) s.
Proof.
  intros Hs. unfold UpdateBreakoutLevels. apply wp_for_each; [assumption|].
  clear s Hs. intros symbol s Hin Hs.
  wp_run; try assumption; try solve [found symbol]; try solve [relinked].
  (* twenty prices are not an empty list *)
  match goal with
  | Hl : last_items _ _ = [], Hb : (len _ <? _)%nat = false |- _ =>
      apply Nat.ltb_ge in Hb; apply (f_equal (@length _)) in Hl;
      destruct Hs as (_ & _ & _ & _ & _ & Hk); rewrite Hk in *;
      rewrite last_items_length in Hl; [discriminate|lia|exact Hb]
  end.
Qed.

Lemma EnterPosition_linked symbol direction price hurst s :
  linked s ->
  wp (EnterPosition symbol direction price hurst) (fun _ => linked)
     (fun e line s' => linked s' /\ division e line) s.
Proof.
  intros Hs. unfold EnterPosition, MarketOrder, Liquidate.
  wp_run; try assumption; try solve [relinked]; faulty.
Qed.

Lemma CheckBreakouts_linked data s :
  linked s ->
  wp (CheckBreakouts data) (fun _ => linked)
     (fun e line s' => linked s' /\ division e line) s.
Proof.
  intros Hs. unfold CheckBreakouts. apply wp_for_each; [assumption|].
  clear s Hs. intros symbol s Hin Hs.
  wp_run; try assumption; try solve [found symbol]; try in_range;
    try (apply EnterPosition_linked; assumption).
Qed.

Lemma CleanupPosition_pending symbol rest s :
  pending (symbol :: rest) s ->
  wp (CleanupPosition symbol) (fun _ => pending rest) (fun _ _ _ => False) s.
Proof.
  intros Hs. unfold CleanupPosition. wp_run. repending.
Qed.

Lemma ManagePositions_linked data s :
  linked s ->
  wp (ManagePositions data) (fun _ => linked)
     (fun e line s' =>
        linked s'
        /\ (division e line \/ (e = ZeroDivisionError /\ line = 321%nat))) s.
Proof.
  intros Hs. unfold ManagePositions. wp_run.
  eapply wp_mono with
    (Q := fun _ => pending [])
    (E := fun e line s' =>
            linked s'
            /\ (division e line \/ (e = ZeroDivisionError /\ line = 321%nat)));
    [|intros _ s' Hs'; apply Hs'|auto].
  apply wp_for_each_rest with (I := pending).
  - split; [exact Hs|]. split; [apply Hs|].
    intros x Hx. now apply contains_keys.
  - clear s Hs. intros symbol rest s Hs.
    unfold MarketOrder, Liquidate.
    wp_run; try solve [found symbol].
    all: try (eapply wp_mono;
              [apply CleanupPosition_pending; exact Hs|auto|contradiction]).
    all: try solve [split; [destruct Hs as [Hs _]; exact Hs|unfold division; auto 6]].
    all: try solve [repending].
Qed.

Lemma AnalyzeFractalDimension_linked s :
  linked s ->
  wp AnalyzeFractalDimension (fun _ => linked) (fun _ _ _ => False) s.
Proof.
  intros Hs. unfold AnalyzeFractalDimension. apply wp_for_each; [assumption|].
  clear s Hs. intros symbol s Hin Hs.
  wp_run; try assumption; try solve [found symbol].
  eapply wp_mono; [apply CalculateHurstExponent_returns, Hs| |auto].
  cbv beta. intros r s' ->.
  wp_run; try assumption; try solve [found symbol]; relinked.
Qed.

Lemma Initialize_linked q : linked (Initialize q).
Proof.
  unfold linked. simpl.
  repeat match goal with |- _ /\ _ => split end; try reflexivity.
  - intros x [<-|[<-|[<-|[]]]]; split; reflexivity.
  - intros x [<-|[<-|[]]]; repeat split; reflexivity.
  - intros x. split; reflexivity.
  - constructor.
Qed.

(** the two invariants together *)
Lemma wp_both {A} (c : Method A) (D : Exn -> nat -> Prop) s :
  wp c (fun _ => linked) (fun e line s' => linked s' /\ D e line) s ->
  preserves invariant c -> invariant s ->
  wp c (fun _ s' => linked s' /\ invariant s')
     (fun e line s' => (linked s' /\ invariant s') /\ D e line) s.
Proof.
  intros Hl Hi Hs.
  eapply wp_mono; [apply wp_conj; [exact Hl|exact (Hi s Hs)]|auto|].
  cbv beta. tauto.
Qed.

Lemma OnData_linked data s :
  linked s -> invariant s ->
  wp (OnData data) (fun _ s' => linked s' /\ invariant s')
     (fun e line s' => (linked s' /\ invariant s') /\ division e line) s.
Proof.
  intros Hl Hi. unfold OnData. wp_run; [now split|].
  eapply wp_mono with (Q := fun _ s' => linked s' /\ invariant s')
                      (E := fun _ _ _ => False);
    [| |contradiction].
  - apply wp_for_each; [now split|].
    clear. intros symbol s Hin [Hl Hi].
    wp_run; try (now split); try solve [found symbol].
    split; [relinked|].
    destruct Hi as [[Hp Hh] Hd]. split; [split; [|exact Hh]|exact Hd]. simpl.
    apply bounded_set_append; [assumption|]. eapply bounded_get; eassumption.
  - intros [] s1 [Hl1 Hi1]. wp_run.
    eapply wp_mono with (E := fun _ _ _ => False);
      [eapply wp_mono;
       [apply wp_conj;
        [exact (UpdateBreakoutLevels_linked Hl1)
        |exact (FractalFacts.fractal_UpdateBreakoutLevels_keeps Hi1)]
       |intros a s' H; exact H|cbv beta; tauto]
      | |contradiction].
    cbv beta. intros [] s2 [Hl2 Hi2]. wp_run.
    eapply wp_mono;
      [apply wp_both;
       [exact (CheckBreakouts_linked data Hl2)
       |exact (@FractalFacts.fractal_CheckBreakouts_keeps data)|exact Hi2]
      | |auto].
    cbv beta. intros [] s3 [Hl3 Hi3].
    eapply wp_mono;
      [apply wp_conj;
       [exact (ManagePositions_linked data Hl3)
       |exact (FractalFacts.fractal_ManagePositions_spec data Hi3)]
      |cbv beta; tauto|].
    cbv beta. intros e line s4 [[Hl4 [Hd|Hz]] [Hi4 Hn]]; [tauto|contradiction].
Qed.

Lemma reachable_sound s : FractalRun.reachable s -> linked s /\ invariant s.
Proof.
  intros H. split; [|now apply FractalFacts.fractal_reachable_invariant].
  induction H as [q|s q _ IH|s data Hr IH|s Hr IH].
  - apply Initialize_linked.
  - exact IH.
  - apply FractalFacts.fractal_reachable_invariant in Hr.
    pose proof (OnData_linked data IH Hr) as H. unfold wp in H.
    destruct (OnData data s) as [[a|e line] s']; apply H.
  - pose proof (AnalyzeFractalDimension_linked IH) as H. unfold wp in H.
    destruct (AnalyzeFractalDimension s) as [[a|e line] s'];
      [exact H|contradiction].
Qed.

End FractalFaultFacts.

Import Py Run Engine.

(** X13.  The exceptions of the fractal script.  In every state the
    script reaches, AnalyzeFractalDimension returns, and OnData returns
    or raises at one of three divisions: the share counts of lines 257
    and 274 at a price of 0, and the profit of line 305 over an entry
    price of 0.  No KeyError, IndexError or ValueError is raised, the
    lags of CalculateHurstExponent are never 0 (line 122) and neither is
    an expected duration (line 321); the four dictionaries of a position
    are looked up only for symbols that have all their entries. *)
Theorem fractal_raises_only_division :
  forall s, FractalRun.reachable s ->
    fst (Fractal.AnalyzeFractalDimension s) = Ok tt
    /\ (forall data e line,
          fst (Fractal.OnData data s) = Raise e line ->
          FractalFaults.division e line).
Proof.
  intros s Hs. apply FractalFaultFacts.reachable_sound in Hs as [Hl Hi]. split.
  - pose proof (FractalFaultFacts.AnalyzeFractalDimension_linked Hl) as H.
    unfold Hoare.wp in H.
    destruct (Fractal.AnalyzeFractalDimension s) as [[[]|e line] s'];
      [reflexivity|contradiction].
  - intros data e line Hr.
    pose proof (FractalFaultFacts.OnData_linked data Hl Hi) as H.
    unfold Hoare.wp in H.
    destruct (Fractal.OnData data s) as [[a|e' line'] s'];
      simpl in Hr; [discriminate|].
    injection Hr as <- <-. apply H.
Qed.

Lemma fractal_raises_only_division_witness :
  let s := snd (Fractal.OnData Scenario.spy_bar
                  (Fractal.Initialize Scenario.no_holdings)) in
  FractalRun.reachable s
  /\ fst (Fractal.AnalyzeFractalDimension s) = Ok tt
  /\ (forall data e line,
        fst (Fractal.OnData data s) = Raise e line ->
        FractalFaults.division e line).
Proof.
  intros s.
  assert (Hs : FractalRun.reachable s)
    by apply FractalRun.reach_OnData, FractalRun.reach_Initialize.
  split; [exact Hs|]. apply (@fractal_raises_only_division s Hs).
Defined.

(** * Exceptions of the VPIN script *)

Module VPINFaultFacts.
Import Py PyFacts Run Hoare HoareFacts Engine VPIN VPINSpec VPINFaults.
Import EntropyFaultFacts.
Local Open Scope R_scope.

Lemma floats_length l xs : floats l = Some xs -> length xs = length l.
Proof.
  revert xs. induction l as [|[x|] l IH]; intros xs; cbn [floats].
  - now intros [= <-].
  - destruct (floats l) as [ys|]; [|discriminate].
    intros [= <-]. simpl. now rewrite (IH ys).
  - discriminate.
Qed.

(** what the invariant says of the symbol [x] *)
Ltac known x :=
  repeat match goal with
         | H : forall symbol, In symbol ?l -> _ |- _ =>
             first [ let Hx := fresh in
                     assert (Hx : In x l) by (simpl in *; intuition auto);
                     let F := fresh in
                     pose proof (H x Hx) as F; clear Hx H
                   | clear H ]
         | H : forall symbol : Symbol, _ |- _ =>
             let F := fresh in pose proof (H x) as F; clear H
         end;
  repeat match goal with H : _ /\ _ |- _ => destruct H end.

Ltac lookups :=
  simpl in *;
  repeat match goal with
         | H : get (set _ ?k _) ?k = None |- _ =>
             rewrite get_set_eq in H; discriminate
         | H : get ?d ?k = None |- _ =>
             lazymatch goal with
             | _ : contains d k = false |- _ => fail
             | _ => assert (contains d k = false)
                      by (unfold contains; rewrite H; reflexivity)
             end
         | H : get ?d ?k = Some _ |- _ =>
             lazymatch goal with
             | _ : contains d k = true |- _ => fail
             | _ => assert (contains d k = true)
                      by (unfold contains; rewrite H; reflexivity)
             end
         end.

Ltac entailed :=
  repeat match goal with
         | H : ?a = true -> _ |- _ =>
             first [ let G := fresh in
                     assert (G : a = true) by congruence;
                     specialize (H G)
                   | clear H ]
         end.

(** a lookup of the symbol [x] that cannot fail *)
Ltac found x :=
  exfalso; unfold queued, attached in *;
  repeat match goal with H : _ /\ _ |- _ => destruct H end;
  known x; lookups; entailed; congruence.

Ltac at_keys x :=
  rewrite ?PositionsFacts.contains_set, ?PositionsFacts.contains_del;
  repeat match goal with
         | |- context [eq_dec x ?k] => destruct (eq_dec x k); subst
         end.

(** [attached] after an update *)
Ltac reattached :=
  unfold queued, attached in *;
  repeat match goal with H : _ /\ _ |- _ => destruct H end;
  repeat match goal with |- _ /\ _ => split end;
  lazymatch goal with
  | |- NoDup (keys _) =>
      simpl;
      repeat (apply NoDup_keys_set
              || apply FractalFaultFacts.NoDup_keys_del);
      assumption
  | |- forall symbol, In symbol _ -> _ =>
      let x := fresh "x" in
      let Hx := fresh "Hx" in
      intros x Hx; known x; lookups; entailed; at_keys x;
      repeat match goal with |- _ /\ _ => split end; congruence
  | |- forall symbol : Symbol, _ = true -> _ =>
      let x := fresh "x" in
      let Hx := fresh "Hx" in
      intros x;
      match goal with
      | H : forall symbol : Symbol, _ = true -> _ |- _ => pose proof (H x)
      end;
      lookups; at_keys x; intros Hx; first [congruence|auto]
  | |- forall symbol : Symbol, _ =>
      let x := fresh "x" in
      intros x;
      repeat match goal with
             | H : forall symbol : Symbol, _ = _ /\ _ = _ |- _ =>
                 pose proof (H x); clear H
             | H : forall symbol : Symbol, _ = _ |- _ =>
                 pose proof (H x); clear H
             | H : forall symbol, In symbol _ -> contains _ symbol = true,
               Hin : In ?k _ |- _ =>
                 pose proof (H k Hin); clear H
             end;
      repeat match goal with H : _ /\ _ |- _ => destruct H end;
      lookups; at_keys x;
      repeat match goal with |- _ /\ _ => split end; congruence
  end.

(** [queued] after the visit of the first symbol *)
Ltac requeued :=
  split; [solve [reattached]|];
  unfold queued in *;
  repeat match goal with H : _ /\ _ |- _ => destruct H end;
  match goal with
  | H : NoDup (_ :: _) |- _ => inversion H; subst
  end;
  split; [assumption|];
  let y := fresh "y" in
  let Hy := fresh "Hy" in
  intros y Hy; simpl; at_keys y;
  first [ contradiction | reflexivity
        | match goal with
          | H : forall symbol, In symbol (_ :: _) -> _ |- _ =>
              apply H; now right
          end ].

Lemma CalculateVPIN_returns symbol s :
  contains (bucket_history s) symbol = true ->
  wp (CalculateVPIN symbol) (fun _ s' => s' = s) (fun _ _ _ => False) s.
Proof.
  intros Hc. unfold CalculateVPIN. wp_run; try reflexivity.
  unfold contains in Hc.
  match goal with H : get _ _ = None |- _ => rewrite H in Hc end.
  discriminate.
Qed.

Lemma complete_buckets_attached fuel symbol :
  In symbol [SPY; QQQ] ->
  forall bucket s,
    attached s ->
    wp (complete_buckets fuel symbol bucket) (fun _ => attached)
       (fun _ _ _ => False) s.
Proof.
  intros Hin. induction fuel as [|fuel IH]; intros bucket s Hs;
    cbn [complete_buckets].
  - now rewrite wp_ret.
  - wp_run; try assumption; try solve [found symbol].
    + eapply wp_mono; [apply CalculateVPIN_returns| |contradiction].
      * simpl. rewrite PositionsFacts.contains_set.
        now destruct (eq_dec symbol symbol).
      * cbv beta. intros r s' ->.
        wp_run; try solve [found symbol]. apply IH. reattached.
    + apply IH. reattached.
Qed.

Lemma CleanupPosition_queued symbol rest s :
  queued (symbol :: rest) s ->
  wp (CleanupPosition symbol) (fun _ => queued rest) (fun _ _ _ => False) s.
Proof.
  intros Hs. unfold CleanupPosition. wp_run. requeued.
Qed.

Lemma ManagePositions_attached data s :
  attached s ->
  wp (ManagePositions data) (fun _ => attached)
     (fun e line s' =>
        attached s' /\ e = ZeroDivisionError /\ line = 335%nat) s.
Proof.
  intros Hs. unfold ManagePositions. wp_run.
  eapply wp_mono with
    (Q := fun _ => queued [])
    (E := fun e line s' =>
            attached s' /\ e = ZeroDivisionError /\ line = 335%nat);
    [|intros _ s' Hs'; apply Hs'|auto].
  apply FractalFaultFacts.wp_for_each_rest with (I := queued).
  - split; [exact Hs|]. split; [apply Hs|].
    intros x Hx. now apply contains_keys.
  - clear s Hs. intros symbol rest s Hs.
    unfold Liquidate.
    wp_run; try solve [found symbol].
    all: try (eapply wp_mono;
              [apply CleanupPosition_queued; exact Hs|auto|contradiction]).
    all: try solve [split; [destruct Hs as [Hs _]; exact Hs|auto]].
    all: try solve [requeued].
Qed.

Lemma DetectToxicityRegime_found symbol s :
  attached s -> contains (vpin_history s) symbol = true ->
  wp (DetectToxicityRegime symbol) (fun _ s' => s' = s)
     (fun e line s' => s' = s /\ e = TypeError) s.
Proof.
  intros Hs Hc. unfold DetectToxicityRegime.
  wp_run; try reflexivity; try (now split); try solve [found symbol];
    try in_range.
  (* the ten readings of line 210 have a last one *)
  exfalso.
  match goal with
  | Hf : floats _ = Some ?r, Hn : from_end 1 ?r = None,
    Hl : (len _ <? 10)%nat = false |- _ =>
      apply floats_length in Hf; apply from_end_None in Hn;
      apply Nat.ltb_ge in Hl; unfold len in Hl;
      rewrite FractalFaultFacts.last_items_length in Hf by lia; lia
  end.
Qed.

Lemma EnterLong_attached symbol price vpin confidence s :
  attached s -> contains (vpin_history s) symbol = true ->
  wp (EnterLong symbol price vpin confidence) (fun _ => attached)
     (fun e line s' => attached s' /\ e = ArithmeticError /\ line = 308%nat) s.
Proof.
  intros Hs Hc. unfold EnterLong, MarketOrder.
  wp_run; try assumption; try (now split); reattached.
Qed.

Section BulkVolumeClassification.
Variable norm_cdf : R -> R.

Lemma ProcessBarForVPIN_attached symbol bar s :
  In symbol [SPY; QQQ] -> attached s ->
  wp (ProcessBarForVPIN norm_cdf symbol bar) (fun _ => attached)
     (fun _ _ _ => False) s.
Proof.
  intros Hin Hs. unfold ProcessBarForVPIN.
  wp_run; try assumption; try solve [found symbol].
  apply complete_buckets_attached; [exact Hin|]. reattached.
Qed.

Lemma OnData_attached data s :
  attached s ->
  wp (OnData norm_cdf data) (fun _ => attached)
     (fun e line s' =>
        attached s' /\ e = ZeroDivisionError /\ line = 335%nat) s.
Proof.
  intros Hs. unfold OnData. wp_run; [assumption|].
  eapply wp_mono with (Q := fun _ => attached) (E := fun _ _ _ => False);
    [| |contradiction].
  - apply wp_for_each; [assumption|].
    clear. intros symbol s Hin Hs. wp_run; try assumption.
    eapply wp_mono; [apply ProcessBarForVPIN_attached; assumption| |contradiction].
    cbv beta. intros [] s' Hs'.
    wp_run; try solve [found symbol]. reattached.
  - intros [] s' Hs'. now apply ManagePositions_attached.
Qed.

End BulkVolumeClassification.

Lemma OnHourlyData_attached bar s :
  attached s ->
  wp (OnHourlyData bar) (fun _ => attached)
     (fun e line s' =>
        attached s'
        /\ ((e = ArithmeticError /\ line = 308%nat) \/ e = TypeError)) s.
Proof.
  intros Hs. unfold OnHourlyData. wp_run; try assumption.
  assert (Hc : contains (vpin_history s) (BarSymbol bar) = true).
  { unfold contains.
    match goal with H : get _ _ = Some _ |- _ => now rewrite H end. }
  eapply wp_mono; [apply DetectToxicityRegime_found; assumption| |].
  - cbv beta. intros [[regime direction] confidence] s' ->.
    wp_run; try assumption; try solve [found (BarSymbol bar)]; try in_range.
    all: try solve [reattached].
    all: try solve [split; [reattached|now right]].
    eapply wp_mono; [apply EnterLong_attached| |].
    + reattached.
    + exact Hc.
    + cbv beta. intros [] s' Hs'. wp_run. reattached.
    + cbv beta. intros e line s' [Hs' He]. split; [exact Hs'|now left].
  - cbv beta. intros e line s' [-> ->]. split; [assumption|now right].
Qed.

Lemma Initialize_attached q : attached (Initialize q).
Proof.
  unfold attached. simpl.
  repeat match goal with |- _ /\ _ => split end.
  - intros x [<-|[<-|[]]]; repeat split; reflexivity.
  - intros [| | |]; split; reflexivity.
  - discriminate.
  - reflexivity.
  - constructor.
Qed.

End VPINFaultFacts.

Import Py Run Engine.

(** X14.  The exceptions of the VPIN script.  In every state the script
    reaches on bars with a volume that is not negative, OnData returns
    or raises at the division of line 335 by an entry price of 0, and
    OnHourlyData returns or raises at the division of line 308 by a
    price of 0.  No KeyError, IndexError or TypeError is raised: every
    symbol that is looked up has its dictionaries, and the positions
    ManagePositions visits keep their entry and stop until it has seen
    them. *)
Theorem vpin_raises_only_division :
  forall (norm_cdf : R -> R) (s : VPIN.VPINToxicityDetector),
    (forall z, (0 <= norm_cdf z <= 1)%R) ->
    VPINRun.reachable norm_cdf VPINSpec.well_formed s ->
    (forall data e line,
        fst (VPIN.OnData norm_cdf data s) = Raise e line ->
        e = ZeroDivisionError /\ line = 335%nat)
    /\ (forall bar e line,
          fst (VPIN.OnHourlyData bar s) = Raise e line ->
          e = ArithmeticError /\ line = 308%nat).
Proof.
  intros norm_cdf s Hcdf Hreach.
  pose proof (VPINRuns.vpin_reachable_invariant Hcdf Hreach)
    as [_ (_ & _ & _ & Hread)].
  assert (Hs : VPINFaults.attached s).
  { clear Hread. induction Hreach as [q|s q _ IH|s data _ _ IH|s bar _ IH].
    - apply VPINFaultFacts.Initialize_attached.
    - exact IH.
    - pose proof (VPINFaultFacts.OnData_attached norm_cdf data IH) as H.
      unfold Hoare.wp in H.
      destruct (VPIN.OnData norm_cdf data s) as [[a|e line] s']; apply H.
    - pose proof (VPINFaultFacts.OnHourlyData_attached bar IH) as H.
      unfold Hoare.wp in H.
      destruct (VPIN.OnHourlyData bar s) as [[a|e line] s']; apply H. }
  split.
  - intros data e line Hr.
    pose proof (VPINFaultFacts.OnData_attached norm_cdf data Hs) as H.
    unfold Hoare.wp in H.
    destruct (VPIN.OnData norm_cdf data s) as [[a|e' line'] s'];
      simpl in Hr; [discriminate|].
    injection Hr as <- <-. apply H.
  - intros bar e line Hr.
    pose proof (VPINFaultFacts.OnHourlyData_attached bar Hs) as H.
    assert (Hnum : forall symbol h,
               get (VPIN.vpin_history s) symbol = Some h ->
               Forall VPINSpec.reading (items h)).
    { intros symbol h Hg. apply (Hread symbol). now apply PyFacts.get_In. }
    pose proof (@ToxicityFacts.OnHourlyData_numeric bar s Hnum) as H'.
    unfold Hoare.wp in H, H'.
    destruct (VPIN.OnHourlyData bar s) as [[a|e' line'] s'];
      simpl in Hr; [discriminate|].
    injection Hr as <- <-. destruct H as [_ [H|H]]; [exact H|contradiction].
Qed.

Lemma vpin_raises_only_division_witness :
  let s := Scenario.vpin_filled in
  (forall data e line,
      fst (VPIN.OnData Scenario.even_split data s) = Raise e line ->
      e = ZeroDivisionError /\ line = 335%nat)
  /\ (forall bar e line,
        fst (VPIN.OnHourlyData bar s) = Raise e line ->
        e = ArithmeticError /\ line = 308%nat).
Proof.
  intros s. apply (@vpin_raises_only_division Scenario.even_split).
  - intros z. unfold Scenario.even_split. lra.
  - exact vpin_filled_reachable.
Defined.

(** * The orders of the entropy script *)

Module RebalanceFacts.
Import Py PyFacts Run Hoare HoareFacts Engine Entropy Sizing Rebalance.
Local Open Scope R_scope.

Lemma within_none budget price : 0 <= budget -> within budget price 0.
Proof. intros Hb. split; [lia|]. simpl. lra. Qed.

(** the shares of a signal of confidence [c] cost no more than the budget *)
Lemma within_signal value size c price :
  0 <= value * size -> 0 <= c <= 1 -> 0 < price ->
  within (value * size) price (int (value * (size * c) / price)).
Proof.
  intros Hb Hc Hp.
  assert (Hbc : 0 <= value * (size * c)) by nra.
  destruct (SizingFacts.int_within Hp Hbc) as [Hpos Hcost].
  split; [exact Hpos|]. nra.
Qed.

Lemma signalled_tail q x rest :
  signalled q (x :: rest) -> signalled q rest.
Proof.
  intros [Hnd Hbuy]. split.
  - now inversion Hnd.
  - intros symbol c Hin. apply Hbuy. now right.
Qed.

Lemma rebalanced_refl budget q : 0 <= budget -> rebalanced budget q q.
Proof.
  intros Hb symbol. split; [lia|]. intros _. unfold bought.
  replace (Quantity q symbol - Quantity q symbol)%Z with 0%Z by lia.
  now apply within_none.
Qed.

(** one signal executed: the engine moves from [base s'] to [q'], where
    only [symbol] may differ *)
Lemma executing_step s symbol a c rest s' s'' :
  executing s ((symbol, (a, c)) :: rest) s' ->
  Price (base s'') = Price (base s') ->
  TotalPortfolioValue (base s'') = TotalPortfolioValue (base s') ->
  max_position_size s'' = max_position_size s' ->
  (forall y, y <> symbol ->
     Quantity (base s'') y = Quantity (base s') y) ->
  ((0 < Quantity (base s) symbol)%Z ->
     (0 <= Quantity (base s'') symbol <= Quantity (base s) symbol)%Z) ->
  ((Quantity (base s) symbol <= 0)%Z ->
     within (TotalPortfolioValue (base s) * max_position_size s)
       (Price (base s) symbol)
       (Quantity (base s'') symbol - Quantity (base s) symbol)) ->
  executing s rest s''.
Proof.
  intros (HP & HV & HM & Hsig & Hq & Hr) HP' HV' HM' Hother Hlong Hflat.
  assert (Hfresh : ~ In symbol (keys rest)).
  { destruct Hsig as [Hnd _]. now inversion Hnd. }
  split; [congruence|]. split; [congruence|]. split; [congruence|].
  split; [eapply signalled_tail; eassumption|]. split.
  - intros y Hy. rewrite Hother by congruence. apply Hq. now right.
  - intros y. destruct (eq_dec y symbol) as [->|Hne].
    + split; [exact Hlong|exact Hflat].
    + unfold bought. rewrite (Hother y Hne). apply Hr.
Qed.

Lemma executing_rebalanced s rest s' :
  executing s rest s' ->
  rebalanced (TotalPortfolioValue (base s) * max_position_size s)
    (base s) (base s').
Proof. intros H. apply H. Qed.

Section Budget.
Variable s : EntropyRegimeDetector.
Hypothesis budget : 0 <= TotalPortfolioValue (base s) * max_position_size s.
Hypothesis prices : forall symbol, 0 < Price (base s) symbol.

Lemma ExecuteSignals_rebalances signals s0 :
  executing s signals s0 ->
  wp (ExecuteSignals signals)
     (fun _ s' =>
        rebalanced (TotalPortfolioValue (base s) * max_position_size s)
          (base s) (base s'))
     (fun _ _ s' =>
        rebalanced (TotalPortfolioValue (base s) * max_position_size s)
          (base s) (base s')) s0.
Proof.
  intros H0. unfold ExecuteSignals.
  eapply wp_mono with
    (Q := fun _ => executing s [])
    (E := fun _ _ s' =>
            rebalanced (TotalPortfolioValue (base s) * max_position_size s)
              (base s) (base s'));
    [|intros _ s' Hs'; apply Hs'|auto].
  apply FractalFaultFacts.wp_for_each_rest with (I := executing s);
    [exact H0|].
  clear s0 H0. intros [symbol [action c]] rest s' Hex.
  pose proof Hex as (HP & HV & HM & [Hnd Hbuy] & Hq & Hr).
  assert (Hsame : Quantity (base s') symbol = Quantity (base s) symbol)
    by (apply Hq; now left).
  unfold MarketOrder, Liquidate.
  wp_run.
  (* a price of 0 *)
  1: { exfalso.
       match goal with H : (_ =? 0) = true |- _ => apply Reqb_true in H; rename H into Hz end.
       rewrite HP in Hz. specialize (prices symbol). lra. }
  all: try apply executing_rebalanced with (rest := rest).
  all: eapply executing_step; [exact Hex|..]; try reflexivity.
  all: PositionsFacts.bools;
    try (destruct (Hbuy symbol c (or_introl eq_refl)) as [Hflat Hc]);
    cbn [base with_base with_entry_prices with_stop_losses Quantity fill flatten].
  all: lazymatch goal with
       | |- forall y, y <> _ -> _ =>
           intros y Hy; try destruct (eq_dec y symbol); congruence
       | |- (0 < _)%Z -> _ =>
           intros Hlong; try destruct (eq_dec symbol symbol); try congruence;
           PositionsFacts.fractions; lia
       | |- (_ <= 0)%Z -> _ =>
           intros Hle; try destruct (eq_dec symbol symbol); try congruence;
           first [ exfalso; lia
                 | match goal with
                   | |- within _ _ ?d =>
                       replace d with 0%Z by lia; apply within_none; exact budget
                   end
                 | idtac ]
       end.
  (* the purchase *)
  rewrite Hsame, HP, HV, HM.
  match goal with
  | |- within _ _ (?q + ?n - ?q)%Z => replace (q + n - q)%Z with n by lia
  end.
  apply within_signal; [exact budget|exact Hc|apply prices].
Qed.

(** the loop of lines 169-230 trades nothing, and signals BUY only for a
    symbol that is not held long; then the signals are executed *)
Lemma AnalyzeRegimes_rebalances :
  wp AnalyzeRegimes
     (fun _ s' =>
        rebalanced (TotalPortfolioValue (base s) * max_position_size s)
          (base s) (base s'))
     (fun _ _ s' =>
        rebalanced (TotalPortfolioValue (base s) * max_position_size s)
          (base s) (base s')) s.
Proof.
  unfold AnalyzeRegimes. rewrite wp_bind.
  set (collecting := fun (signals : dict Symbol (Action * R)) s' =>
         base s' = base s /\ max_position_size s' = max_position_size s
         /\ signalled (base s) signals).
  assert (Hdone : forall signals s', collecting signals s' ->
            executing s signals s').
  { intros signals s' (Hb & Hm & Hsig). unfold executing. rewrite Hb.
    repeat match goal with |- _ /\ _ => split end; auto.
    now apply rebalanced_refl. }
  eapply wp_mono with
    (Q := collecting)
    (E := fun _ _ s' =>
            rebalanced (TotalPortfolioValue (base s) * max_position_size s)
              (base s) (base s'));
    [|intros signals s' H; now apply ExecuteSignals_rebalances, Hdone|auto].
  apply wp_for_fold with (I := collecting).
  { split; [reflexivity|]. split; [reflexivity|]. split; [constructor|].
    intros symbol c []. }
  intros signals symbol s0 _ (Hb & Hm & Hsig).
  assert (Hquit : forall s', base s' = base s ->
            rebalanced (TotalPortfolioValue (base s) * max_position_size s)
              (base s) (base s')).
  { intros s' ->. now apply rebalanced_refl. }
  unfold CalculatePermutationEntropy, DetectRegimeChange.
  wp_run; try (apply Hquit; exact Hb);
    try (split; [exact Hb|split; [exact Hm|exact Hsig]]).
  all: split; [exact Hb|split; [exact Hm|]].
  all: destruct Hsig as [Hnd Hbuy]; split; [now apply NoDup_keys_set|].
  all: intros y c' Hin; apply In_set in Hin as [[-> E]|Hin];
    [|now apply Hbuy]; try discriminate; injection E as ->.
  all: match goal with
       | H : _ && _ = true |- _ =>
           apply andb_true_iff in H; destruct H as [_ H];
           apply Z.leb_le in H;
           cbn [base with_regime_confidence with_current_regime
                with_entropy_history] in H;
           rewrite Hb in H; split; [exact H|]
       end.
  all: match goal with
       | H : (_ <? Rmin 1 ?x) = true |- _ =>
           apply Rltb_true in H; pose proof (Rmin_l 1 x); lra
       end.
Qed.

End Budget.

End RebalanceFacts.

Import Py Run Engine.

(** X15.  The orders of AnalyzeRegimes in the entropy script, at
    positive prices and with a budget
    [TotalPortfolioValue * max_position_size] that is not negative.
    Whether the method returns or raises: a position that was long is
    kept, reduced or closed, never added to and never turned short; of a
    symbol that was not held long the method buys shares, or none, and it
    never sells it. *)
Theorem analysis_rebalances :
  forall s : Entropy.EntropyRegimeDetector,
    (0 <= TotalPortfolioValue (Entropy.base s) * Entropy.max_position_size s)%R ->
    (forall symbol, (0 < Price (Entropy.base s) symbol)%R) ->
    Rebalance.long_only
      (Entropy.base s) (Entropy.base (snd (Entropy.AnalyzeRegimes s))).
Proof.
  intros s Hbudget Hprices.
  pose proof (@RebalanceFacts.AnalyzeRegimes_rebalances s Hbudget Hprices) as H.
  unfold Hoare.wp in H.
  assert (Hr : Rebalance.rebalanced
                 (TotalPortfolioValue (Entropy.base s) * Entropy.max_position_size s)
                 (Entropy.base s) (Entropy.base (snd (Entropy.AnalyzeRegimes s))))
    by (destruct (Entropy.AnalyzeRegimes s) as [[a|e line] s']; exact H).
  intros symbol. destruct (Hr symbol) as [Hlong Hflat].
  split; [exact Hlong|]. intros Hq. now destruct (Hflat Hq).
Qed.

Lemma analysis_rebalances_witness :
  let s := Scenario.entropy_with (Scenario.quoted 124)
             (map Scenario.rising_close (seq 0 125)) (repeat 0%R 5) in
  Rebalance.long_only (Entropy.base s)
    (Entropy.base (snd (Entropy.AnalyzeRegimes s))).
Proof.
  intros s. apply (@analysis_rebalances s).
  - simpl. lra.
  - intros symbol. simpl. unfold Scenario.rising_close.
    change (100 + Z.of_nat 124)%Z with 224%Z. lra.
Defined.

(** * The orders of the fractal script *)

Module FractalOrderFacts.
Import Py PyFacts Run Hoare HoareFacts Engine Fractal Sizing FractalOrders.
Local Open Scope R_scope.

(** the confidence of lines 249-250 *)
Lemma confidence_range hurst :
  0 <= Rmin 1 (if hurst >? 0.5 then (hurst - 0.5) * 2 else (0.5 - hurst) * 2)
    <= 1.
Proof.
  split; [|apply Rmin_l].
  apply Rmin_glb; [lra|].
  destruct (Rltb_spec 0.5 hurst); lra.
Qed.

End FractalOrderFacts.

Import Py Run Engine.

(** X16.  EnterPosition of the fractal script on a symbol other than
    TLT, at positive prices and with a budget
    [TotalPortfolioValue * max_position] that is not negative: the method
    returns.  LONG buys shares of the symbol that cost no more than the
    budget at the price, or none, and trades nothing else.  HEDGE closes
    the symbol when it is held long, buys shares of TLT that cost no more
    than half the budget at the price of TLT, or none, and trades nothing
    else.  What is bought is recorded with its price, the Hurst exponent,
    the expected duration and no bars held. *)
Theorem enter_position_within_budget :
  forall (s : Fractal.FractalDimensionBreakout) (symbol : Symbol)
         (direction : Fractal.Direction) (price hurst : R),
    (0 < price)%R -> (0 < Price (Fractal.base s) TLT)%R ->
    (0 <= TotalPortfolioValue (Fractal.base s) * Fractal.max_position s)%R ->
    symbol <> TLT ->
    exists s',
      Fractal.EnterPosition symbol direction price hurst s = (Ok tt, s')
      /\ match direction with
         | Fractal.LONG =>
             Sizing.within
               (TotalPortfolioValue (Fractal.base s) * Fractal.max_position s)
               price (Sizing.bought (Fractal.base s) (Fractal.base s') symbol)
             /\ (forall other, other <> symbol ->
                   Quantity (Fractal.base s') other
                   = Quantity (Fractal.base s) other)
             /\ ((0 < Sizing.bought (Fractal.base s) (Fractal.base s') symbol)%Z ->
                   FractalOrders.entered s' symbol price hurst)
         | Fractal.HEDGE =>
             FractalOrders.closed_long (Fractal.base s) (Fractal.base s') symbol
             /\ Sizing.within
                  (TotalPortfolioValue (Fractal.base s) * Fractal.max_position s
                   * 0.5)
                  (Price (Fractal.base s) TLT)
                  (Sizing.bought (Fractal.base s) (Fractal.base s') TLT)
             /\ (forall other, other <> symbol -> other <> TLT ->
                   Quantity (Fractal.base s') other
                   = Quantity (Fractal.base s) other)
             /\ ((0 < Sizing.bought (Fractal.base s) (Fractal.base s') TLT)%Z ->
                   FractalOrders.entered s' TLT (Price (Fractal.base s) TLT)
                     hurst)
         end.
Proof.
  intros s symbol direction price hurst Hprice Htlt Hbudget Hsym.
  pose proof (FractalOrderFacts.confidence_range hurst) as Hc.
  unfold Fractal.EnterPosition, Fractal.MarketOrder, Fractal.Liquidate,
    bind, gets, modify, ret.
  set (c := Rmin 1 _) in *.
  destruct direction.
  - destruct (Reqb price 0) eqn:E; [apply PyFacts.Reqb_true in E; lra|].
    pose proof (@RebalanceFacts.within_signal
                  (TotalPortfolioValue (Fractal.base s))
                  (Fractal.max_position s) c price Hbudget Hc Hprice)
      as [Hpos Hcost].
    set (shares := int _) in *.
    destruct (Z.ltb_spec 0 shares) as [Hbuy|Hnone].
    + eexists. split; [reflexivity|]. unfold Sizing.bought, FractalOrders.entered.
      cbn [Fractal.base Fractal.with_base Fractal.with_entry_prices
           Fractal.with_entry_hurst Fractal.with_expected_duration
           Fractal.with_bars_held Fractal.entry_prices Fractal.entry_hurst
           Fractal.expected_duration Fractal.bars_held Quantity fill].
      destruct (eq_dec symbol symbol) as [_|Hne]; [|congruence].
      replace (Quantity (Fractal.base s) symbol + shares
               - Quantity (Fractal.base s) symbol)%Z with shares by lia.
      split; [now split|]. split.
      * intros other Hne. destruct (eq_dec other symbol); [congruence|reflexivity].
      * intros _. now rewrite !PyFacts.get_set_eq.
    + exists s. split; [reflexivity|]. unfold Sizing.bought.
      replace (Quantity (Fractal.base s) symbol
               - Quantity (Fractal.base s) symbol)%Z with 0%Z by lia.
      split; [split; [lia|simpl; lra]|]. split; [reflexivity|lia].
  - assert (Hhalf : (0 <= TotalPortfolioValue (Fractal.base s)
                          * (Fractal.max_position s * c) * 0.5)%R) by nra.
    pose proof (SizingFacts.int_within Htlt Hhalf) as [Hpos Hcost].
    assert (Hcost' : (IZR (int (TotalPortfolioValue (Fractal.base s)
                                * (Fractal.max_position s * c) * 0.5
                                / Price (Fractal.base s) TLT))
                      * Price (Fractal.base s) TLT
                      <= TotalPortfolioValue (Fractal.base s)
                         * Fractal.max_position s * 0.5)%R) by nra.
    clear Hcost.
    set (shares := int _) in *.
    unfold FractalOrders.closed_long, Sizing.bought, FractalOrders.entered.
    destruct (Z.ltb_spec 0 (Quantity (Fractal.base s) symbol)) as [Hlong|Hflat];
      cbn [Fractal.base Fractal.with_base Price flatten];
      (destruct (Reqb (Price (Fractal.base s) TLT) 0) eqn:E;
       [apply PyFacts.Reqb_true in E; lra|]);
      fold shares;
      (destruct (Z.ltb_spec 0 shares) as [Hbuy|Hnone];
       (eexists; split; [reflexivity|]);
       cbn [Fractal.base Fractal.with_base Fractal.with_entry_prices
            Fractal.with_entry_hurst Fractal.with_expected_duration
            Fractal.with_bars_held Fractal.entry_prices Fractal.entry_hurst
            Fractal.expected_duration Fractal.bars_held Quantity fill flatten]).
    all: destruct (eq_dec symbol TLT) as [|_]; [congruence|].
    all: destruct (eq_dec TLT TLT) as [_|]; [|congruence].
    all: try (destruct (eq_dec symbol symbol) as [_|]; [|congruence]).
    all: try (destruct (eq_dec TLT symbol) as [|_]; [congruence|]).
    all: split; [lia|].
    all: split; [split; [lia|];
                 match goal with
                 | |- (IZR ?d * _ <= _)%R =>
                     first [ replace d with shares by lia; exact Hcost'
                           | replace d with 0%Z by lia; simpl; lra ]
                 end|].
    all: split;
      [intros other H1 H2;
       repeat match goal with
              | |- context [eq_dec other ?k] => destruct (eq_dec other k)
              end; congruence|].
    all: first [ intros _; now rewrite !PyFacts.get_set_eq | lia ].
Qed.

Lemma enter_position_within_budget_witness :
  let s := Fractal.with_base (fill Scenario.no_holdings SPY 10)
             (Fractal.Initialize Scenario.no_holdings) in
  exists s',
    Fractal.EnterPosition SPY Fractal.HEDGE 100 0.3 s = (Ok tt, s')
    /\ FractalOrders.closed_long (Fractal.base s) (Fractal.base s') SPY
    /\ Sizing.within (100000 * 0.35 * 0.5) 100
         (Sizing.bought (Fractal.base s) (Fractal.base s') TLT)
    /\ (forall other, other <> SPY -> other <> TLT ->
          Quantity (Fractal.base s') other = Quantity (Fractal.base s) other)
    /\ ((0 < Sizing.bought (Fractal.base s) (Fractal.base s') TLT)%Z ->
          FractalOrders.entered s' TLT 100 0.3).
Proof.
  intros s.
  apply (@enter_position_within_budget s SPY Fractal.HEDGE 100 0.3);
    simpl; try lra; discriminate.
Defined.

(** * The open buckets on bars of a modest volume *)

Module ModestFeed.
Import Py PyFacts Run Hoare HoareFacts Engine VPIN.
Local Open Scope R_scope.

Lemma modest_well_formed data : Feed.modest data -> VPINSpec.well_formed data.
Proof. intros H symbol bar Hin. now destruct (H symbol bar Hin). Qed.

(** a run on a feed is a run on every feed that delivers more *)
Lemma reachable_wider norm_cdf (feed feed' : Slice -> Prop) s :
  (forall data, feed data -> feed' data) ->
  VPINRun.reachable norm_cdf feed s -> VPINRun.reachable norm_cdf feed' s.
Proof.
  intros Hsub. induction 1.
  - apply VPINRun.reach_Initialize.
  - now apply VPINRun.reach_engine.
  - apply VPINRun.reach_OnData; [now apply Hsub|assumption].
  - now apply VPINRun.reach_OnHourlyData.
Qed.

Lemma reachable_attached norm_cdf feed s :
  VPINRun.reachable norm_cdf feed s -> VPINFaults.attached s.
Proof.
  induction 1 as [q|s q _ IH|s data _ _ IH|s bar _ IH].
  - apply VPINFaultFacts.Initialize_attached.
  - exact IH.
  - pose proof (VPINFaultFacts.OnData_attached norm_cdf data IH) as H.
    unfold wp in H.
    destruct (OnData norm_cdf data s) as [[a|e line] s']; apply H.
  - pose proof (VPINFaultFacts.OnHourlyData_attached bar IH) as H.
    unfold wp in H.
    destruct (OnHourlyData bar s) as [[a|e line] s']; apply H.
Qed.

(** the run that fills the bucket history is a run on modest bars *)
Lemma vpin_filled_modest :
  VPINRun.reachable Scenario.even_split Feed.modest Scenario.vpin_filled.
Proof.
  apply VPINRun.reach_OnData; [|apply VPINRun.reach_Initialize].
  intros symbol bar [E|[]]. inversion E; subst. simpl. lra.
Qed.

End ModestFeed.

Import Py Run Engine.

(** X11.  In every state a run of the VPIN script reaches on bars of at
    most 10^15 shares each, each open bucket holds a volume of at least 0
    and less than [bucket_size]: whenever a bar fills the bucket, the loop
    of lines 157-182 completes buckets until less than one bucket is
    left. *)
Theorem open_bucket_below_size :
  forall (norm_cdf : R -> R) (s : VPIN.VPINToxicityDetector),
    (forall z, (0 <= norm_cdf z <= 1)%R) ->
    VPINRun.reachable norm_cdf Feed.modest s ->
    forall symbol b,
      get (VPIN.current_bucket s) symbol = Some b ->
      (0 <= VPIN.Bucket.volume b < VPIN.bucket_size s)%R.
Proof.
  intros norm_cdf s Hcdf Hmodest symbol b Hb.
  assert (Hreach : VPINRun.reachable norm_cdf VPINSpec.well_formed s)
    by (eapply ModestFeed.reachable_wider;
        [apply ModestFeed.modest_well_formed|exact Hmodest]).
  pose proof (VPINRuns.vpin_reachable_invariant Hcdf Hreach) as [_ (_ & Hacc & _)].
  pose proof (BucketFacts.reachable_drained Hreach) as (_ & _ & Hlt).
  split.
  - destruct (Hacc symbol b) as [H0 Hle]; [now apply PyFacts.get_In|]. lra.
  - apply (Hlt symbol b); [discriminate|exact Hb].
Qed.

Lemma open_bucket_below_size_witness :
  let s := Scenario.vpin_filled in
  exists b,
    get (VPIN.current_bucket s) SPY = Some b
    /\ (0 <= VPIN.Bucket.volume b < VPIN.bucket_size s)%R.
Proof.
  intros s.
  destruct (ModestFeed.reachable_attached ModestFeed.vpin_filled_modest)
    as [Hkeys _].
  destruct (Hkeys SPY) as [Hopen _]; [now left|].
  unfold contains in Hopen. fold s in Hopen.
  destruct (get (VPIN.current_bucket s) SPY) as [b|] eqn:Hb; [|discriminate].
  exists b. split; [reflexivity|].
  apply (@open_bucket_below_size Scenario.even_split s) with (symbol := SPY).
  - intros z. unfold Scenario.even_split. lra.
  - exact ModestFeed.vpin_filled_modest.
  - exact Hb.
Defined.
